(* ===== verification/_CoqProject ===== *)
-Q . S2P
Prelude.v
Decimal.v
Amount.v
Number.v
Binary64.v
Entities.v
TokenService.v
Common.v
MockToken.v
WagerService.v
GameSessions.v
WagerJobs.v
XpLevel.v
Auth.v
Matching.v
DailySeed.v
Challenges.v
Rooms.v
StellarRpc.v
Escrow.v
StellarConfig.v
GameHistory.v
Users.v
WalletAuth.v
Rounds.v
EntityEvents.v
Achievements.v
Redact.v
Auditing.v
Gateway.v
Errors.v
GameGateway.v
LyricsService.v
Administration.v
Notifications.v
Access.v
Database.v
StellarToken.v
Monitoring.v
Endpoints.v
Boot.v
Mailer.v
Logging.v
Schema.v
Migrations.v
EntityTables.v
RoomCodes.v
MigrationData.v
MigrationChain.v
Seeding.v
Export.v
Environment.v
Signers.v
