(* ===== verification/Prelude.v ===== *)
(** * LyricsFlip server: a verification library

    LyricsFlip is a lyric-guessing game served by a NestJS application (src/src).
    Players open sessions against each other, may stake tokens on them, guess lyrics
    for points and XP, and play a daily challenge; wagers are settled by one of two
    backends, a mock one in the database or an escrow contract on Stellar.  This
    library models the parts that hold money, identity and score, and proves what
    makes them correct.  This file is its root: it documents the whole and holds the
    prelude.

    ** How the parts interact

    [GameSessionsService] creates and settles sessions and asks [WagerService] to
    create, accept, refund and settle the wager of a session.  [WagerService] keeps a
    row per wager and asks an [ITokenService] to open, fund, release or refund its
    pot; [MockTokenService] is meant as the implementation in the database, whose table has no
    columns for a pot.  The Stellar side
    reads its settings and keys, builds and submits calls of the escrow contract over
    RPC, and signs players in by their wallets; [StellarTokenService] is the backend over it.  Jobs in the background refund wagers
    past their deadline, reconcile wagers stuck in settlement, abandon idle sessions,
    delete dead logins, archive histories and prune rounds.  [AuthService] issues the
    tokens every request is checked with.  [GameLogicService] serves lyrics as rounds and
    scores the one guess of a round; [ChallengesService] scores daily guesses and hands XP
    to [XpLevelService]; [RoomsService] runs a guess among many players.  Saved rows
    raise events once their transaction commits, and achievements listen to them; gateways
    deliver them to the sockets they concern, and ask for guesses of their own.
    Every request passes the guards before its handler, and the exception filter
    answers what handlers throw; administrators import and take down lyrics.
    Migrations build the database the entities describe, a seed script fills it, and the
    environment is validated before any of it starts.
    Interfaces are records or classes here, so that a client's theorems hold for every
    implementation that meets the laws: [TokenService.ITokenService],
    [GameSessions.IWagerService] with [WagerLaws], [Auth.Crypto],
    [Challenges.ChallengeDeps], [Matching.Unicode], [StellarRpc]'s server,
    [WalletAuth.WebAuth], [Seeding.TypeOrm], [Rounds.RoundDeps],
    [Achievements.AchievementsRepository] with [RepositoryLaws], [GameGateway.GameLogic]
    with [FreshRounds], [LyricsService.Loader], [Gateway.GatewayDeps],
    [Administration.ImportDeps], [Notifications.Rows] with [RowsLaws],
    [Access.Throttler], [Database.Runtime], [StellarToken.Helpers] with [HelperLaws],
    [Endpoints.LyricsRest], [Endpoints.GameRest] with [GameRestLaws], [Boot.Platform],
    [Environment.Joi] with [JoiLaws], [Signers.RemoteServices], [Signers.StellarKeys] with
    [SignatureLaws].

    ** Files

    - Prelude: errors, the state-and-exception monad, frame reasoning ([preserves], and the
      tactic [frame_with] over the hint database [framed]), record update, sums over tables, sequences of steps, strings.
    - Decimal: [BigInt] on decimal strings.
    - Number: numbers read from text, binary64 arithmetic, and bounds on what its
      rounding does to whole numbers.
    - Binary64: how close quotients, products and [Math.round] come to exact arithmetic.
    - Amount (stellar/amount.util.ts, stellar.constants.ts, token-decimals.ts):
      [toStroops], [fromStroops] and the arithmetic of amounts.
    - Entities (users/entities, tokens/entities): the rows of users and wagers, the
      part of the database the settlement code works on, transactions.
    - TokenService (tokens/interfaces/token.interface.ts): the backend's interface.
    - Common (common/utils/sanitize.util.ts): text shown to players.
    - MockToken (tokens/services/mock-token.service.ts): every method of the mock
      backend on the table as the entity declares it; what is left of the service without a
      stored pot, as an abstract account; the refinement between them.
    - WagerService (tokens/services/wager.service.ts): [createWager], [acceptWager] and
      [confirmStake] over any backend.
    - GameSessions (game-sessions/): the session's life, invitations, settlement,
      queries and the idle sweep.
    - WagerJobs (tokens/services): the in-flight tracker, the refund and reconcile
      sweeps, with their retries and backoff.
    - XpLevel (xp-level/xp-level.service.ts): the level curve, the XP rules, and the
      interleavings of concurrent awards.
    - Auth (auth/): sign-up, login, refresh, logout, mailed tokens, the access-token
      check and the session clean-up.
    - Matching (game/answer-matching.ts, game/guess-matcher.ts): the normaliser and
      matcher of answers, token similarities, edit distance.
    - DailySeed (challenges/daily-seed.util.ts): hash, generator, shuffle and day name.
    - Challenges (challenges/challenges.service.ts): the daily set, attempts,
      completion, leaderboard, and servers that draw the set at the same time.
    - Rooms (rooms/rooms.service.ts): rooms, codes, joining, the one guess of a player,
      views and expiry, with the interleavings of joins and guesses.
    - StellarRpc (stellar/services/stellar-rpc.service.ts): fees, simulation, submission
      with retries and polling, as a trace of requests and pauses.
    - Escrow (stellar/services/escrow-contract.service.ts): the contract's methods and
      the check of an envelope signed by a wallet.
    - StellarConfig (stellar/stellar.config.ts, stellar.module.ts, the key stores):
      settings, which key store is chosen, and who can sign.
    - GameHistory (game-history/, retention/retention.job.ts): the history, the streak
      query, cached statistics, and the archive.
    - Users (users/users.service.ts): profiles, renaming, ranks, deactivation.
    - WalletAuth (auth/services/stellar-auth.service.ts): wallet challenges, their single
      use, linking, login and unlinking.
    - Rounds (game/game.service.ts, round-scoring.util.ts, progression.util.ts): rounds,
      the guess and its score, concurrent guesses, retention.
    - EntityEvents (realtime/entity-events.subscriber.ts): what saved rows announce, and
      the queue of events until their transaction commits.
    - Achievements (achievements/achievements.service.ts): awards over any repository.
    - Redact (common/utils/redact.util.ts): secrets kept out of logs, over a heap.
    - Auditing (audit/): rows of the audit log, the interceptor, and the CSV export.
    - Gateway (realtime/realtime.gateway.ts): sockets, their rooms, and who hears an event.
    - Errors (common/filters, common/request-id.middleware.ts): what an exception is
      answered with, over HTTP and sockets, and the ids of requests.
    - GameGateway (game/game.gateway.ts): sessions of rounds played over a socket.
    - LyricsService (lyrics/lyrics.service.ts, progression.util.ts): adding, listing,
      taking down, restoring and reading lyrics through a cache of versioned keys.
    - Administration (admin/): the import of a file of lyrics, and what is forwarded.
    - Notifications (notifications/): storing, listing, reading and purging.
    - Access (auth/guards, common/throttler, the controllers' decorators,
      metrics/metrics.controller.ts): guards, the table of routes, limits.
    - Database (config/database.config.ts, common/services/log-level.ts): where the
      database is, its TLS, and the level of the logger.
    - StellarToken (tokens/services/stellar-token.service.ts): the backend on Stellar.
    - Monitoring (health/, metrics/, game/difficulty-calibrator.job.ts): probes, gauges,
      counters, and the difficulty of lyrics.
    - Endpoints (lyrics/lyrics.controller.ts, game/game.controller.ts): what the handlers
      answer with, and what they show of a lyric to whom.
    - Boot (main.ts, app.setup.ts): the steps of the server's start and their order.
    - Mailer (auth/services/mailer.service.ts): the transport chosen, and mails whose links
      carry tokens.
    - Logging (common/services/logger.service.ts, common/interceptors/logging.interceptor.ts):
      records, where they are written, and what is logged of requests.
    - Schema: the SQL statements migrations are made of, on a state of tables, columns,
      constraints, triggers and rows.
    - Migrations (migrations/): the up and the down of all 34, and running and reverting them.
    - EntityTables (the @Entity classes): the columns the entities ask for.
    - RoomCodes, MigrationData, MigrationChain: what the migrations do to codes of rooms, to
      the rows of a table, and to the whole schema.
    - Seeding (seeds/seed.ts): the fixture, the administrator and the load-test volume.
    - Export (users/users.service.ts, [exportData]): what a user is given of their data.
    - Environment (config/env.validation.ts, data-source.ts, config/cache.config.ts): the
      schema of the environment, its validation, and the readers without it.
    - Signers (stellar/services/aws-kms-signer.ts, kms-key-store.service.ts): keys held by
      AWS KMS and Vault, base64, and transactions signed with them.

    ** How code becomes definitions

    A handler is a function of the monad [M]: it returns a value or an exception and
    the state, which an exception does not undo outside a transaction.  Every [await]
    of a handler is one operation of the state; where other calls may come between
    them and the claim depends on it, the handler is also cut at its suspension points
    into a step relation (XpLevel.[interleave], Challenges.[serve], the runs of the
    tracker in WagerJobs, Rooms' joins and guesses, WalletAuth.[run_consume], Rounds.[guess_step]).  Tables are finite maps by key, or lists in insertion order where the
    order or a key of several columns matters.  Strings are 8-bit, or lists of UTF-16
    code units in Matching and DailySeed.  Amounts are decimal strings as in the
    source, with their [BigInt] values in [Z]; 32-bit operators and the binary64
    rounding of a product are written out in DailySeed.  Time is the [now] of the
    state, in milliseconds.

    Recursion is structural: the loops of the source run over lists or counters
    ([for_each], [foldl] over [seq]), so every theorem speaks of completed runs.  Fuel
    appears in Decimal.[show_acc], the printing of a number, bounded by its number of
    bits, which is at least its number of digits; in Redact.[redact], where one level per
    object of the heap is proved enough; and in Auditing.[iterate], where one batch per row
    and one more is proved enough.

    Third-party code is a parameter: hashing, signing and mail, the Unicode tables,
    the database's collation, [Date.parse], [URL], the throttler's counters.  So are methods the source calls and does
    not contain: [requireUser], [requireWager], [markFailed] and [contextFor] of
    [WagerService], its settlement methods, [validateGuess] and [checkGuess] of
    [GameLogicService], the helpers of [StellarTokenService], [getOrLoad], [findExistingKeys]
    and [bulkUpsert] of [LyricsService]; their documented or tested behaviour is a hypothesis where a theorem
    needs it, and the witnesses instantiate it.

    ** What the theorems show

    - Money: the mock backend takes stakes and keeps no pot: it opens, releases and refunds
      nothing, whatever is called in whatever order; amounts round-trip and never gain
      value; the coordinator records its intent before it calls the backend, moves
      funds only for the players of a wager, and records what the backend confirmed.
    - Sessions: settlement pays the better score, and once it has answered no later call
      repeats it; a session whose wager
      cannot be created leaves no trace; invitations are answered by the invited player;
      sweeps touch what they should; the scoreboard is ranked.
    - Jobs: a shutdown waits for exactly the settlements in flight when it began, or its timeout;
      sweeps visit every
      wager due; retries end.
    - Identity: refresh tokens rotate, the old one refused for good and the new one good for its
      thirty days; signing out everywhere rejects every token,
      login guards against unknown and disabled accounts alike, mailed links work once.
    - Score: concurrent XP awards are never lost, and never raise a level; the edit distance is minimal; a guess
      is right exactly when it matches after normalising; the daily draw picks different
      lyrics whatever the order of the pool; all servers answer the same set; a lyric
      is scored once per player and day; the leaderboard is ranked; a round is scored once
      however its guesses interleave, exactly within its bounds, with the nearest whole bonus for
      the time left.
    - Rooms: rows stay consistent and a guess is spent once over every interleaving; a
      player who may join does.
    - Stellar: a submission makes a bounded number of requests and pauses, succeeds only
      when the network confirmed it, and does succeed against a server that recovers; a
      signed envelope is the stake it claims to be; a loaded configuration is well formed;
      a wallet challenge signs in once while it is remembered, and an account keeps its address while it wagers.
    - Records: streaks are the longest runs, archives keep every row, cached statistics
      are fresh, ranks count, names stay unique, deactivation erases what it should and no
      more, pruning loses no guess.
    - Events and logs: events follow commits, achievements are announced once and heard by
      those they concern, logs hold no secret, exports are complete and read back as they were.
    - Database: the chain of migrations gives every entity its columns (three time columns
      excepted) and reverts to nothing; amounts survive widening and narrowing; every room gets
      a code of its own; the seed script stops
      before its first row, and its steps, on a data source that is ready, can be repeated; an export holds exactly the user's rows,
      and no secret.
    - Environment: the server starts with exactly the environments each variable of which is
      accepted, a secret and an address are enough, and the settings of Stellar then load with the
      passphrase and the addresses of their network.
    - Remote keys: one request per signature, which carries the hash only; a signature that does
      not verify under the address of the store is never attached.
    - Access: the administration is reached by administrators only, and a request without
      a valid token reaches the public routes only; signing out takes the routes away.
    - Start-up: the server listens only when all is set up, and with usable settings it does.
    - Requests: what fails before its response has begun is answered, with an id to find it by and
      without internals; a
      socket is asked for a guess once; the TLS that is asked for is had.
    - Lyrics: players cannot tell tables apart that differ in the answers only, and can guess what
      they are served; what is taken down is served by no one, not from a cache either, and comes back when it is
      restored; an import accounts for every row, and a dry run says what it would do.
    - Notifications are kept until ninety days after they are read, and read by their user only.
    - Defects: theorems named [..._never_...], [..._loses], [sweep_abandons_wagered],
      [login_after_bump_rejected], [issued_guess_scores_nothing], [resolver_calls_fail],
      [metrics_spoofed], [unread_filter_ignored], [object_hides_message],
      [erasure_fails_on_built_database], [archive_not_exported], [load_seed_never_completes],
      [undeclared_unchecked], [cli_ignores_tls], [mock_keeps_no_pot], [mock_only_takes],
      [concurrent_guesses_exact], [seed_idempotent] and [replayed_after_six_minutes] prove what the code does where it does not do
      what it means to.

    ** Limits of the model

    Saving a wager replaces its whole row, and its update time is kept only where a job
    reads it.  [Promise.all] runs its calls in order.  A failing database driver is
    not modelled.  Of the answers of a driver XpLevel models what its statements
    give on Postgres, where an UPDATE answers its rows and their number.  [announceCompletion] emits both events, though the source closes the method
    before the second.  Messages are kept where a branch depends on them or a client
    sees them; log lines, metrics and traces are not.

    Amounts of time are whole milliseconds.  Transactions do not nest in EntityEvents.

    A decimal literal is read exactly by [number_of], without the rounding of binary64.
    The routes of Access are what the decorators declare; which of them a path selects is the
    framework's.

    Schema has the statements the migrations use: defaults are kept as data, rows are deleted
    from tables nothing refers to only, the draws of random() and the names TypeORM derives are
    parameters, as are the types it infers for a column without one.  Users and GameHistory
    model their updates of the audit log without the trigger that forbids them;
    [erasure_fails_on_built_database] is about the two together.  The seed runs without type
    checking, and what TypeORM makes of the entities it lists is a law of [Seeding.TypeOrm].  base64 is read up to its padding.  Answers of Vault hold objects where the code
    looks for properties.

    Not modelled: the bodies of the other controllers' handlers, which forward to the services, DTO
    validation and modules; the two limiters of the gateways, which are not in the repository;
    the rest of [GameLogicService] and [LyricsService], whose sources are cut off; the files of
    logs, traces and the text of metrics; game/answer-matching.util.ts, which nothing imports;
    [StellarController], which shows the settings; the wiring of sockets to Redis; the contract
    in Rust.

    ** What is left

    What remains is wiring, declarations of the framework and code of other languages; where
    the source calls methods it does not contain, their laws are the place to attach a model
    once they exist. *)

From stdpp Require Export base gmap strings list fin_maps option.
From Stdlib Require Export ZArith Lia.
From Stdlib Require Import Ascii.

#[global] Open Scope Z_scope.

(** ** Errors and results

    Nest's HTTP exceptions, with the message the source gives them.  A
    [PlainError] is a JavaScript [Error] (or a driver error) that is not an
    HTTP exception.  *)

Inductive exn :=
  | BadRequest (msg : string)
  | Unauthorized (msg : string)
  | Forbidden (msg : string)
  | NotFound (msg : string)
  | Conflict (msg : string)
  | Gone (msg : string)
  | ServiceUnavailable (msg : string)
  | PlainError (code : string) (msg : string).

#[export] Instance exn_eq_dec : EqDecision exn.
Proof. solve_decision. Defined.

Definition exn_message (e : exn) : string :=
  match e with
  | BadRequest m | Unauthorized m | Forbidden m | NotFound m | Conflict m
  | Gone m | ServiceUnavailable m | PlainError _ m => m
  end.

Inductive result (A : Type) :=
  | Ok (a : A)
  | Err (e : exn).
Arguments Ok {_} _.
Arguments Err {_} _.

#[export] Instance result_ret : MRet result := @Ok.
#[export] Instance result_bind : MBind result := λ A B f r,
  match r with Ok a => f a | Err e => Err e end.
#[export] Instance result_fmap : FMap result := λ A B f r,
  match r with Ok a => Ok (f a) | Err e => Err e end.

Definition is_ok {A} (r : result A) : bool :=
  match r with Ok _ => true | Err _ => false end.

Lemma result_bind_Ok {A B} (f : A → result B) (r : result A) (b : B) :
  r ≫= f = Ok b ↔ ∃ a, r = Ok a ∧ f a = Ok b.
Proof. destruct r as [a|e]; simpl; naive_solver. Qed.

(** ** Stateful code that can throw

    An [async] handler is a state transformer.  An exception does not undo the
    writes that preceded it, so the state is returned in both cases.  *)

Definition M (S A : Type) : Type := S → result A * S.

#[export] Instance M_ret {S} : MRet (M S) := λ A a s, (Ok a, s).
#[export] Instance M_bind {S} : MBind (M S) := λ A B f m s,
  match m s with
  | (Ok a, s') => f a s'
  | (Err e, s') => (Err e, s')
  end.

Definition throw {S A} (e : exn) : M S A := λ s, (Err e, s).
Definition gets {S A} (f : S → A) : M S A := λ s, (Ok (f s), s).
Definition modify {S} (f : S → S) : M S unit := λ s, (Ok tt, f s).
Definition lift {S A} (r : result A) : M S A := λ s, (r, s).

(** [try { m } catch (error) { h error }] *)
Definition try_catch {S A} (m : M S A) (h : exn → M S A) : M S A := λ s,
  match m s with
  | (Ok a, s') => (Ok a, s')
  | (Err e, s') => h e s'
  end.

(** [if (b) throw e;] *)
Definition throw_if {S} (b : bool) (e : exn) : M S unit :=
  if b then throw e else mret tt.

(** [if (!o) throw e;], keeping the value *)
Definition require {S A} (o : option A) (e : exn) : M S A :=
  match o with Some a => mret a | None => throw e end.

Fixpoint for_each {S A} (f : A → M S unit) (l : list A) : M S unit :=
  match l with
  | [] => mret tt
  | x :: l' => f x ;; for_each f l'
  end.

(** *** Symbolic execution, one call at a time *)

Lemma bind_run {S A B} (m : M S A) (f : A → M S B) s a s' :
  m s = (Ok a, s') → (m ≫= f) s = f a s'.
Proof. unfold mbind, M_bind. by intros ->. Qed.

Lemma bind_run_err {S A B} (m : M S A) (f : A → M S B) s e s' :
  m s = (Err e, s') → (m ≫= f) s = (Err e, s').
Proof. unfold mbind, M_bind. by intros ->. Qed.

Lemma bind_lift {S A B} (r : result A) a (f : A → M S B) s :
  r = Ok a → (lift r ≫= f) s = f a s.
Proof. by intros ->. Qed.

Lemma bind_lift_err {S A B} (r : result A) e (f : A → M S B) s :
  r = Err e → (lift r ≫= f) s = (Err e, s).
Proof. by intros ->. Qed.

Lemma bind_throw_if {S B} (b : bool) e (f : unit → M S B) s :
  (throw_if b e ≫= f) s = if b then (Err e, s) else f tt s.
Proof. by destruct b. Qed.

Lemma bind_require {S A B} (o : option A) e (f : A → M S B) s :
  (require o e ≫= f) s = match o with Some a => f a s | None => (Err e, s) end.
Proof. by destruct o. Qed.

Lemma bind_ret {S A B} (a : A) (f : A → M S B) s : (mret a ≫= f) s = f a s.
Proof. done. Qed.

Lemma bind_gets {S A B} (g : S → A) (f : A → M S B) s : (gets g ≫= f) s = f (g s) s.
Proof. done. Qed.

Lemma bind_modify {S B} (g : S → S) (f : unit → M S B) s : (modify g ≫= f) s = f tt (g s).
Proof. done. Qed.

Lemma bind_assoc {S A B C} (m : M S A) (f : A → M S B) (g : B → M S C) s :
  ((m ≫= f) ≫= g) s = (m ≫= λ a, f a ≫= g) s.
Proof. unfold mbind, M_bind. by destruct (m s) as [[a|e] s']. Qed.

(** Two programs agree from [s] when they agree call by call. *)
Lemma bind_ext {S A B} (m1 m2 : M S A) (f1 f2 : A → M S B) s :
  m1 s = m2 s → (∀ a s', m2 s = (Ok a, s') → f1 a s' = f2 a s') →
  (m1 ≫= f1) s = (m2 ≫= f2) s.
Proof.
  unfold mbind, M_bind. intros -> Hf. destruct (m2 s) as [[a|e] s'] eqn:E; [by apply Hf|done].
Qed.

(** Where a successful run comes from. *)
Lemma bind_Ok_inv {S A B} (m : M S A) (f : A → M S B) s b s' :
  (m ≫= f) s = (Ok b, s') → ∃ a s1, m s = (Ok a, s1) ∧ f a s1 = (Ok b, s').
Proof. unfold mbind, M_bind. destruct (m s) as [[a|e] s1]; [eauto|done]. Qed.

Lemma try_catch_ok {S A} (m : M S A) h s a s' :
  m s = (Ok a, s') → try_catch m h s = (Ok a, s').
Proof. unfold try_catch. by intros ->. Qed.

Lemma try_catch_err {S A} (m : M S A) h s e s' :
  m s = (Err e, s') → try_catch m h s = h e s'.
Proof. unfold try_catch. by intros ->. Qed.

Lemma for_each_app {S A} (f : A → M S unit) (l1 l2 : list A) s :
  for_each f (l1 ++ l2) s = (for_each f l1 ≫= λ _, for_each f l2) s.
Proof.
  revert s. induction l1 as [|x l1 IH]; intros s; [done|]. cbn [for_each app].
  rewrite bind_assoc. unfold mbind, M_bind. destruct (f x s) as [[?|?] s1]; [|done].
  exact (IH s1).
Qed.

(** *** Frame reasoning: [m] preserves a relation between initial and final
    states, whatever it returns *)

Definition preserves {S A} (R : relation S) (m : M S A) : Prop :=
  ∀ s r s', m s = (r, s') → R s s'.

Section preserves.
Context {S : Type} (R : relation S) `{!Reflexive R, !Transitive R}.

Lemma preserves_ret {A} (a : A) : preserves R (mret a).
Proof. intros s r s' [= <- <-]. reflexivity. Qed.

Lemma preserves_throw {A} e : preserves R (throw (A := A) e).
Proof. intros s r s' [= <- <-]. reflexivity. Qed.

Lemma preserves_gets {A} (f : S → A) : preserves R (gets f).
Proof. intros s r s' [= <- <-]. reflexivity. Qed.

Lemma preserves_lift {A} (x : result A) : preserves R (lift x).
Proof. intros s r s' [= <- <-]. reflexivity. Qed.

Lemma preserves_modify f : (∀ s, R s (f s)) → preserves R (modify f).
Proof. intros Hf s r s' [= <- <-]. apply Hf. Qed.

Lemma preserves_bind {A B} (m : M S A) (f : A → M S B) :
  preserves R m → (∀ a, preserves R (f a)) → preserves R (m ≫= f).
Proof.
  intros Hm Hf s r s'. unfold mbind, M_bind.
  destruct (m s) as [[a|e] s1] eqn:E.
  - intros H. etrans; [by eapply Hm|by eapply Hf].
  - intros [= <- <-]. by eapply Hm.
Qed.

Lemma preserves_try_catch {A} (m : M S A) h :
  preserves R m → (∀ e, preserves R (h e)) → preserves R (try_catch m h).
Proof.
  intros Hm Hh s r s'. unfold try_catch.
  destruct (m s) as [[a|e] s1] eqn:E.
  - intros [= <- <-]. by eapply Hm.
  - intros H. etrans; [by eapply Hm|by eapply Hh].
Qed.

Lemma preserves_throw_if b e : preserves R (throw_if b e).
Proof. destruct b; [apply preserves_throw|apply preserves_ret]. Qed.

Lemma preserves_require {A} (o : option A) e : preserves R (require o e).
Proof. destruct o; [apply preserves_ret|apply preserves_throw]. Qed.

Lemma preserves_for_each {A} (f : A → M S unit) l :
  (∀ x, preserves R (f x)) → preserves R (for_each f l).
Proof.
  intros Hf. induction l as [|x l IH]; simpl; [apply preserves_ret|].
  apply preserves_bind; auto.
Qed.
End preserves.

Create HintDb frame.
#[export] Hint Resolve preserves_ret preserves_throw preserves_gets preserves_lift
  preserves_bind preserves_try_catch preserves_throw_if preserves_require
  preserves_for_each preserves_modify : frame.

(** ** Tactics *)

(** Run the next call of a handler whose outcome is already known or decided. *)
Ltac mrun :=
  repeat first
    [ rewrite bind_assoc | rewrite bind_ret | rewrite bind_gets | rewrite bind_modify
    | rewrite bind_throw_if | rewrite bind_require
    | erewrite bind_lift by eassumption | erewrite bind_lift_err by eassumption ];
  cbv beta.

(** Case on the outcome of the call a handler makes next. *)
Ltac case_bind E :=
  lazymatch goal with
  | |- context [@mbind (M ?S) _ ?A ?B ?f ?m ?s] =>
      destruct (m s) as [[?a|?e] ?s'] eqn:E;
      [rewrite (bind_run m f s _ _ E)|rewrite (bind_run_err m f s _ _ E)]
  end.

(** Take a successful run [H] apart, down to what it returned. *)
Ltac ok_inv H :=
  repeat (apply bind_Ok_inv in H; destruct H as (? & ? & ? & H)); cbv beta in H.

(** Unfold the monad operations that a symbolic run meets. *)
Ltac unfold_m :=
  unfold mbind, M_bind, mret, M_ret, throw, gets, modify, lift, try_catch,
    throw_if, require in *; simpl in *.

(** Case on the scrutinee of a [match] in hypothesis [H], innermost first. *)
Ltac case_in H :=
  match type of H with
  | context [match ?x with _ => _ end] =>
      lazymatch x with
      | context [match _ with _ => _ end] => fail
      | _ => let E := fresh "E" in destruct x eqn:E; simpl in H
      end
  end.

Ltac case_goal :=
  match goal with
  | |- context [match ?x with _ => _ end] =>
      lazymatch x with
      | context [match _ with _ => _ end] => fail
      | _ => let E := fresh "E" in destruct x eqn:E; simpl
      end
  end.

(** What the calls of a component preserve, for [frame_with]. *)
Create HintDb framed.

(** Show that a program preserves [R], call by call; the writes are left. *)
Ltac frame_with R :=
  repeat lazymatch goal with
  | |- preserves _ (mret _) => apply (preserves_ret R)
  | |- preserves _ (throw _) => apply (preserves_throw R)
  | |- preserves _ (gets _) => apply (preserves_gets R)
  | |- preserves _ (lift _) => apply (preserves_lift R)
  | |- preserves _ (throw_if _ _) => apply (preserves_throw_if R)
  | |- preserves _ (require _ _) => apply (preserves_require R)
  | |- preserves _ (modify _) => apply (preserves_modify R)
  | |- preserves _ (try_catch _ _) => apply (preserves_try_catch R); [|intros]
  | |- preserves _ (_ ≫= _) => apply (preserves_bind R); [|intros]
  | |- preserves _ _ => first [ solve [auto with framed nocore] | case_goal ]
  end.

(** Run a handler to its end in [H : handler s = (r, s')]. *)
Ltac run_in H := unfold_m; repeat (case_in H); simplify_eq.

(** A fact of every number below a bound, by running through them. *)
Lemma check_below (P : Z → bool) n z : forallb (λ k, P (Z.of_nat k)) (seq 0 n) = true → 0 ≤ z < Z.of_nat n → P z = true.
Proof.
  intros Hall Hz. rewrite forallb_forall in Hall. rewrite <-(Z2Nat.id z) by lia. apply Hall, in_seq. lia.
Qed.

(** Run through the numbers [z] below [n]. *)
Ltac check_all n z :=
  match goal with |- ?b = true =>
    let b := eval pattern z in b in
    match b with ?f _ => apply (check_below f n z); [|lia] end
  end.

(** Boolean comparisons in the context, as propositions. *)
Ltac bool_prop :=
  repeat match goal with
  | H : (_ && _) = true |- _ => apply andb_true_iff in H; destruct H
  | H : (_ && _) = false |- _ => apply andb_false_iff in H
  | H : (_ || _) = false |- _ => apply orb_false_iff in H; destruct H
  | H : (_ || _) = true |- _ => apply orb_true_iff in H
  | H : negb _ = true |- _ => apply negb_true_iff in H
  | H : negb _ = false |- _ => apply negb_false_iff in H
  | H : (_ <? _) = true |- _ => apply Z.ltb_lt in H
  | H : (_ <? _) = false |- _ => apply Z.ltb_ge in H
  | H : (_ <=? _) = true |- _ => apply Z.leb_le in H
  | H : (_ <=? _) = false |- _ => apply Z.leb_gt in H
  | H : (_ =? _) = true |- _ => apply Z.eqb_eq in H
  | H : (_ =? _) = false |- _ => apply Z.eqb_neq in H
  | H : bool_decide _ = true |- _ => apply bool_decide_eq_true in H
  | H : bool_decide _ = false |- _ => apply bool_decide_eq_false in H
  end.

(** ** Record update

    [r <| f := v |>] assigns a property of a row.  A [Settable] instance names the
    fields of the record once; the setter of a field is found from it. *)

Class Settable (R : Type) := settable : R → R.
Class Setter {R T : Type} (proj : R → T) := set_field : (T → T) → R → R.
#[global] Hint Mode Settable ! : typeclass_instances.

Ltac build_setter f :=
  let R := match type of f with ?R → _ => R end in
  let e := eval hnf in (@settable R _) in
  match eval pattern f in e with
  | ?g _ => exact (λ h r, g (λ x, h (f x)) r)
  end.
#[export] Hint Extern 1 (Setter ?f) => build_setter f : typeclass_instances.

Notation "r <| f := v |>" := (set_field (proj := f) (λ _, v) r)
  (at level 12, f at next level, left associativity,
   format "r  <| f  :=  v |>") : stdpp_scope.

(** ** Pages *)

(** Chunks of [n], one after the other. *)
Lemma chunks {A} n k i (l : list A) : (length l ≤ (i + k) * n)%nat →
  mjoin ((λ j, take n (drop (j * n) l)) <$> seq i k) = drop (i * n) l.
Proof.
  revert i. induction k as [|k IH]; intros i Hl; cbn [seq fmap list_fmap mjoin list_join].
  - by rewrite drop_ge by lia.
  - unfold fmap in IH. rewrite IH by lia. replace (S i * n)%nat with (i * n + n)%nat by lia.
    by rewrite <-drop_drop, take_drop.
Qed.

(** ** Boolean filters *)

Lemma bfilter_Permutation {A} (f : A → bool) l1 l2 : l1 ≡ₚ l2 → List.filter f l1 ≡ₚ List.filter f l2.
Proof.
  induction 1 as [|x l1 l2 H IH|x y l|l1 l2 l3 H1 IH1 H2 IH2]; cbn; [done| | |by etrans].
  - destruct (f x); [by constructor|done].
  - destruct (f x), (f y); [constructor|done..].
Qed.
#[export] Instance bfilter_proper {A} (f : A → bool) : Proper ((≡ₚ) ==> (≡ₚ)) (List.filter f).
Proof. intros l1 l2. apply bfilter_Permutation. Qed.

(** ** Sums over tables *)

Section sums.
Context {A : Type} (f : A → Z).

Definition sum_rows (m : gmap string A) : Z := map_fold (λ _ a acc, f a + acc) 0 m.

Lemma sum_rows_empty : sum_rows ∅ = 0.
Proof. apply map_fold_empty. Qed.

Lemma sum_rows_insert_new (m : gmap string A) k a :
  m !! k = None → sum_rows (<[k:=a]> m) = f a + sum_rows m.
Proof.
  intros H. unfold sum_rows. rewrite (map_fold_insert_L (λ _ a acc, f a + acc)); [done| |done].
  intros; lia.
Qed.

Lemma sum_rows_insert (m : gmap string A) k a b :
  m !! k = Some b → sum_rows (<[k:=a]> m) = sum_rows m - f b + f a.
Proof.
  intros H. rewrite <-insert_delete_eq, sum_rows_insert_new by apply lookup_delete_eq.
  rewrite <-(insert_id m k b H) at 2. rewrite <-(insert_delete_eq m k b).
  rewrite (sum_rows_insert_new (delete k m)) by apply lookup_delete_eq. lia.
Qed.

Lemma sum_rows_nonneg (m : gmap string A) :
  (∀ k a, m !! k = Some a → 0 ≤ f a) → 0 ≤ sum_rows m.
Proof.
  induction m as [|k a m Hk IH] using map_ind; intros H.
  - by rewrite sum_rows_empty.
  - rewrite sum_rows_insert_new by done.
    pose proof (H k a (lookup_insert_eq _ _ _)).
    assert (0 ≤ sum_rows m); [|lia]. apply IH. intros k' a' H'.
    apply (H k'). rewrite lookup_insert_ne; [done|naive_solver].
Qed.

(** One row's share is at most the total. *)
Lemma sum_rows_elem (m : gmap string A) k a :
  (∀ k a, m !! k = Some a → 0 ≤ f a) → m !! k = Some a → f a ≤ sum_rows m.
Proof.
  intros H Hk. rewrite <-(insert_id m k a Hk), <-insert_delete_eq.
  rewrite sum_rows_insert_new by apply lookup_delete_eq.
  assert (0 ≤ sum_rows (delete k m)); [|lia]. apply sum_rows_nonneg.
  intros k' a' [_ H']%lookup_delete_Some. by apply (H k').
Qed.
End sums.

(** ** Sequences of steps *)

Inductive star {S : Type} (R : relation S) : relation S :=
  | star_refl s : star R s s
  | star_step s1 s2 s3 : R s1 s2 → star R s2 s3 → star R s1 s3.

Lemma star_invariant {S} (R : relation S) (I : S → Prop) :
  (∀ s s', I s → R s s' → I s') → ∀ s s', I s → star R s s' → I s'.
Proof. intros HR s s' HI H. induction H; eauto. Qed.

#[export] Instance star_trans {S} (R : relation S) : Transitive (star R).
Proof. intros x y z H. induction H; [done|]. intros. eapply star_step; eauto. Qed.

(** ** Strings

    A JavaScript string is a [string], one 8-bit character per code unit; the
    components where other code units matter use lists of code units.  *)

Notation "s1 == s2" := (bool_decide (s1 = s2)) (at level 35, no associativity) : stdpp_scope.

(** Truthiness of a string, and of an optional one. *)
Definition nonempty (s : string) : bool :=
  match s with EmptyString => false | _ => true end.
Definition truthy (o : option string) : bool :=
  match o with Some s => nonempty s | None => false end.
Definition present (o : option string) : option string :=
  match o with Some v => if nonempty v then Some v else None | None => None end.

Lemma present_Some o s : present o = Some s → o = Some s.
Proof. destruct o as [v|]; [|done]. cbn. by destruct (nonempty v). Qed.

(** The double-quote character, for interpolated messages. *)
Definition dq : string := String (Ascii.ascii_of_nat 34) EmptyString.

Definition is_digit (c : ascii) : bool :=
  let n := Ascii.nat_of_ascii c in ((48 <=? n) && (n <=? 57))%nat.
Definition digit_val (c : ascii) : Z := Z.of_nat (Ascii.nat_of_ascii c) - 48.
Definition digit_char (d : Z) : ascii := Ascii.ascii_of_nat (Z.to_nat (d + 48)).

Fixpoint string_forallb (p : ascii → bool) (s : string) : bool :=
  match s with
  | EmptyString => true
  | String c s' => p c && string_forallb p s'
  end.

Fixpoint string_filter (p : ascii → bool) (s : string) : string :=
  match s with
  | EmptyString => EmptyString
  | String c s' => if p c then String c (string_filter p s') else string_filter p s'
  end.

Fixpoint string_map (f : ascii → ascii) (s : string) : string :=
  match s with
  | EmptyString => EmptyString
  | String c s' => String (f c) (string_map f s')
  end.

(** [/^\d+$/] *)
Definition digits1 (s : string) : bool := nonempty s && string_forallb is_digit s.

(** White space as [String.prototype.trim] and [\s] see it, below U+0100. *)
Definition is_space (c : ascii) : bool :=
  let n := Ascii.nat_of_ascii c in
  (((9 <=? n) && (n <=? 13)) || (n =? 32) || (n =? 160))%nat.

Fixpoint trim_start (s : string) : string :=
  match s with
  | String c s' => if is_space c then trim_start s' else s
  | EmptyString => EmptyString
  end.
(** Drop the trailing characters that satisfy [p]. *)
Fixpoint strip_end (p : ascii → bool) (s : string) : string :=
  match s with
  | EmptyString => EmptyString
  | String c s' =>
      match strip_end p s' with
      | EmptyString => if p c then EmptyString else String c EmptyString
      | r => String c r
      end
  end.
Definition trim (s : string) : string := strip_end is_space (trim_start s).

(** ASCII part of [toLowerCase]; other characters are kept. *)
Definition lower_char (c : ascii) : ascii :=
  let n := Ascii.nat_of_ascii c in
  if ((65 <=? n) && (n <=? 90))%nat then Ascii.ascii_of_nat (n + 32) else c.
Definition lower (s : string) : string := string_map lower_char s.
