(* ===== verification/Decimal.v ===== *)
(** * Decimal strings

    [BigInt(s)] on a string of digits and [BigInt.prototype.toString], with the
    lemmas the amount conversions need: printing and reading back, and the value
    of a concatenation. *)

From S2P Require Import Prelude.
From Stdlib Require Import Ascii.

#[local] Arguments String.append !_ _ /.

(** [BigInt(s)] for [s] matching [/^\d*$/]; [BigInt('')] is [0n]. *)
Fixpoint dec_acc (acc : Z) (s : string) : Z :=
  match s with
  | EmptyString => acc
  | String c s' => dec_acc (10 * acc + digit_val c) s'
  end.
Definition dec (s : string) : Z := dec_acc 0 s.

(** [z.toString()] for a non-negative bigint.  A number below [2^n] has at most
    [n + 1] decimal digits, which bounds the fuel. *)
Fixpoint show_acc (fuel : nat) (z : Z) (acc : string) : string :=
  if z <? 10 then String (digit_char z) acc
  else match fuel with
       | O => acc
       | S f => show_acc f (z / 10) (String (digit_char (z mod 10)) acc)
       end.
Definition show_nat (z : Z) : string := show_acc (S (Z.to_nat (Z.log2 z))) z EmptyString.

(** [z.toString()] *)
Definition show (z : Z) : string :=
  if z <? 0 then String "-"%char (show_nat (- z)) else show_nat z.

Definition strlen (s : string) : Z := Z.of_nat (String.length s).

Fixpoint zeros (n : nat) : string :=
  match n with O => EmptyString | S n' => String "0"%char (zeros n') end.

(** [s.padStart(n, '0')] and [s.padEnd(n, '0')] *)
Definition pad_start (n : nat) (s : string) : string :=
  String.append (zeros (n - String.length s)) s.
Definition pad_end (n : nat) (s : string) : string :=
  String.append s (zeros (n - String.length s)).

(** [s.replace(/0+$/, '')] *)
Definition strip_zeros (s : string) : string :=
  strip_end (λ c, Ascii.eqb c "0"%char) s.

(** ** Digits *)

Lemma is_digit_char d : 0 ≤ d < 10 → is_digit (digit_char d) = true.
Proof.
  intros H. assert (d = 0 ∨ d = 1 ∨ d = 2 ∨ d = 3 ∨ d = 4 ∨ d = 5 ∨ d = 6 ∨ d = 7
    ∨ d = 8 ∨ d = 9) as Hd by lia.
  by destruct_or?; subst.
Qed.

Lemma digit_val_char d : 0 ≤ d < 10 → digit_val (digit_char d) = d.
Proof.
  intros H. unfold digit_val, digit_char. rewrite Ascii.nat_ascii_embedding; lia.
Qed.

Lemma digit_val_bound c : is_digit c = true → 0 ≤ digit_val c < 10.
Proof.
  unfold is_digit, digit_val. intros H. apply andb_true_iff in H as [H1 H2].
  apply Nat.leb_le in H1, H2. lia.
Qed.

(** ** Values *)

Lemma dec_acc_app s1 s2 acc : dec_acc acc (String.append s1 s2) = dec_acc (dec_acc acc s1) s2.
Proof. revert acc. induction s1 as [|c s1 IH]; simpl; auto. Qed.

Lemma dec_acc_shift s acc : dec_acc acc s = acc * 10 ^ strlen s + dec s.
Proof.
  unfold dec, strlen. revert acc. induction s as [|c s IH]; intros acc.
  - simpl. lia.
  - cbn [dec_acc String.length]. rewrite (IH (10 * acc + _)), (IH (10 * 0 + _)).
    rewrite Nat2Z.inj_succ, Z.pow_succ_r by lia. ring.
Qed.

Lemma dec_app s1 s2 : dec (String.append s1 s2) = dec s1 * 10 ^ strlen s2 + dec s2.
Proof. unfold dec at 1. by rewrite dec_acc_app, dec_acc_shift. Qed.

Lemma strlen_cons c s : strlen (String c s) = Z.succ (strlen s).
Proof. unfold strlen. cbn [String.length]. lia. Qed.

Lemma strlen_nonneg s : 0 ≤ strlen s.
Proof. unfold strlen. lia. Qed.

Lemma dec_cons c s : dec (String c s) = digit_val c * 10 ^ strlen s + dec s.
Proof. unfold dec at 1. cbn [dec_acc]. rewrite dec_acc_shift. f_equal. Qed.

Lemma dec_bound s : string_forallb is_digit s = true → 0 ≤ dec s < 10 ^ strlen s.
Proof.
  induction s as [|c s IH]; simpl string_forallb; intros H; [by vm_compute|].
  apply andb_true_iff in H as [Hc Hs]. specialize (IH Hs).
  apply digit_val_bound in Hc. pose proof (strlen_nonneg s).
  rewrite dec_cons, strlen_cons, Z.pow_succ_r by done. nia.
Qed.

Lemma append_nil_r s : String.append s EmptyString = s.
Proof. induction s; simpl; congruence. Qed.

Lemma append_assoc s1 s2 s3 :
  String.append s1 (String.append s2 s3) = String.append (String.append s1 s2) s3.
Proof. induction s1; simpl; congruence. Qed.

Lemma strlen_app s1 s2 : strlen (String.append s1 s2) = strlen s1 + strlen s2.
Proof.
  induction s1 as [|c s1 IH]; cbn [String.append]; [done|].
  rewrite !strlen_cons. rewrite IH. lia.
Qed.

Lemma length_zeros n : String.length (zeros n) = n.
Proof. induction n; simpl; auto. Qed.

Lemma dec_zeros n : dec (zeros n) = 0.
Proof. induction n as [|n IH]; [done|]. by rewrite <-IH. Qed.

Lemma forallb_app p s1 s2 :
  string_forallb p (String.append s1 s2) = string_forallb p s1 && string_forallb p s2.
Proof. induction s1 as [|c s1 IH]; simpl; [done|]. by rewrite IH, andb_assoc. Qed.

Lemma digits_zeros n : string_forallb is_digit (zeros n) = true.
Proof. induction n; simpl; auto. Qed.

Lemma dec_pad_start n s : dec (pad_start n s) = dec s.
Proof. unfold pad_start. rewrite dec_app, dec_zeros. lia. Qed.

Lemma dec_pad_end n s :
  (String.length s ≤ n)%nat → dec (pad_end n s) = dec s * 10 ^ (Z.of_nat n - strlen s).
Proof.
  intros H. unfold pad_end. rewrite dec_app, dec_zeros. unfold strlen.
  rewrite length_zeros. rewrite Nat2Z.inj_sub by lia. lia.
Qed.

Lemma length_append s1 s2 :
  String.length (String.append s1 s2) = (String.length s1 + String.length s2)%nat.
Proof. induction s1; simpl; lia. Qed.

Lemma length_pad_start n s :
  (String.length s ≤ n)%nat → String.length (pad_start n s) = n.
Proof. intros H. unfold pad_start. rewrite length_append, length_zeros. lia. Qed.

(** ** Printing *)

Lemma show_acc_spec f z acc :
  0 ≤ z < 2 ^ Z.of_nat (S f) →
  ∃ s, show_acc f z acc = String.append s acc ∧ dec s = z
    ∧ digits1 s = true ∧ (0 < z → (0 < String.length s)%nat ∧ 10 ^ (strlen s - 1) ≤ z).
Proof.
  revert z acc. induction f as [|f IH]; intros z acc Hz; cbn [show_acc].
  - change (2 ^ Z.of_nat 1) with 2 in Hz.
    destruct (z <? 10) eqn:E; [|apply Z.ltb_ge in E; lia].
    exists (String (digit_char z) EmptyString). unfold digits1, dec. simpl.
    rewrite is_digit_char, digit_val_char by lia. unfold strlen. simpl. split_and!; auto; lia.
  - destruct (z <? 10) eqn:E.
    + apply Z.ltb_lt in E. exists (String (digit_char z) EmptyString). unfold digits1, dec. simpl.
      rewrite is_digit_char, digit_val_char by lia. unfold strlen. simpl. split_and!; auto; lia.
    + apply Z.ltb_ge in E.
      assert (0 < z / 10) as Hpos by (apply Z.div_str_pos; lia).
      destruct (IH (z / 10) (String (digit_char (z mod 10)) acc)) as (s & -> & Hd & Hg & Hl).
      { rewrite Nat2Z.inj_succ, Z.pow_succ_r in Hz by lia.
        split; [lia|]. apply Z.div_lt_upper_bound; lia. }
      destruct (Hl Hpos) as [Hl1 Hl2].
      pose proof (Z.mod_pos_bound z 10 ltac:(lia)).
      pose proof (Z.div_mod z 10 ltac:(lia)).
      exists (String.append s (String (digit_char (z mod 10)) EmptyString)). split_and!.
      * by rewrite <-append_assoc.
      * rewrite dec_app, Hd. unfold dec, strlen. simpl. rewrite digit_val_char; lia.
      * unfold digits1 in *. apply andb_true_iff in Hg as [Hg1 Hg2].
        rewrite forallb_app, Hg2. simpl. rewrite is_digit_char by lia.
        by destruct s.
      * intros _. rewrite strlen_app, length_append, strlen_cons.
        change (strlen EmptyString) with 0. split; [cbn [String.length]; lia|].
        replace (strlen s + Z.succ 0 - 1) with (Z.succ (strlen s - 1)) by lia.
        rewrite Z.pow_succ_r by (unfold strlen; lia). lia.
Qed.

Lemma show_nat_spec z : 0 ≤ z →
  dec (show_nat z) = z ∧ digits1 (show_nat z) = true
    ∧ (0 < z → 10 ^ (strlen (show_nat z) - 1) ≤ z).
Proof.
  intros Hz. unfold show_nat.
  destruct (show_acc_spec (S (Z.to_nat (Z.log2 z))) z EmptyString) as (s & -> & Hd & Hg & Hl).
  { split; [done|]. destruct (decide (z = 0)) as [->|]; [simpl; lia|].
    pose proof (Z.log2_spec z ltac:(lia)) as [_ H].
    eapply Z.lt_le_trans; [exact H|]. apply Z.pow_le_mono_r; [lia|].
    pose proof (Z.log2_nonneg z). lia. }
  rewrite append_nil_r. naive_solver.
Qed.

Lemma dec_show_nat z : 0 ≤ z → dec (show_nat z) = z.
Proof. intros. by apply show_nat_spec. Qed.

Lemma digits_show_nat z : 0 ≤ z → string_forallb is_digit (show_nat z) = true.
Proof.
  intros H. destruct (show_nat_spec z H) as (_ & Hd & _).
  by apply andb_true_iff in Hd as [_ ?].
Qed.

Lemma nonempty_show_nat z : 0 ≤ z → nonempty (show_nat z) = true.
Proof.
  intros H. destruct (show_nat_spec z H) as (_ & Hd & _).
  by apply andb_true_iff in Hd as [? _].
Qed.

(** A number below [10^n] prints in at most [n] digits. *)
Lemma length_show_nat z n : 0 ≤ z < 10 ^ Z.of_nat n → (0 < n)%nat →
  (String.length (show_nat z) ≤ n)%nat.
Proof.
  intros Hz Hn. destruct (decide (z = 0)) as [->|Hz0]; [simpl; lia|].
  destruct (show_nat_spec z ltac:(lia)) as (_ & _ & Hl).
  specialize (Hl ltac:(lia)).
  assert (10 ^ (strlen (show_nat z) - 1) < 10 ^ Z.of_nat n) as Hlt by lia.
  apply Z.pow_lt_mono_r_iff in Hlt; unfold strlen in *; lia.
Qed.

(** ** Stripping trailing zeros keeps the value up to a power of ten *)

Lemma strip_zeros_spec s :
  ∃ k, s = String.append (strip_zeros s) (zeros k).
Proof.
  unfold strip_zeros. induction s as [|c s [k IH]]; simpl.
  - by exists 0%nat.
  - destruct (strip_end _ s) as [|c' r] eqn:E.
    + destruct (Ascii.eqb c "0"%char) eqn:Ec.
      * apply Ascii.eqb_eq in Ec as ->. exists (S k). simpl in *. by rewrite IH at 1.
      * exists k. simpl in *. by rewrite IH at 1.
    + exists k. simpl in *. by rewrite IH at 1.
Qed.

Lemma digits_strip_zeros s :
  string_forallb is_digit s = true → string_forallb is_digit (strip_zeros s) = true.
Proof.
  destruct (strip_zeros_spec s) as [k Hk]. rewrite Hk at 1. rewrite forallb_app.
  by intros [? _]%andb_true_iff.
Qed.
