(* ===== verification/Amount.v ===== *)
(** * Token amounts (src/src/stellar/amount.util.ts)

    Amounts cross the system as decimal strings of base units ("stroops").
    This file models the parsing, printing and arithmetic of those strings, and
    the boot check of src/src/stellar/token-decimals.ts that fixes the number of
    decimals.  [decimals] is the value of [getTokenDecimals()]. *)

From S2P Require Import Prelude Decimal.
From Stdlib Require Import Ascii.

(** ** Constants (stellar.constants.ts) *)

Definition TOKEN_DECIMALS : Z := 7.
Definition STROOPS_PER_TOKEN : Z := 10 ^ TOKEN_DECIMALS.
Definition I128_MAX : Z := 2 ^ 127 - 1.
Definition I128_MIN : Z := - 2 ^ 127.

Definition Stroops := string.

(** ** Parsing *)

(** [STROOPS_PATTERN.test]: [/^-?\d+$/] *)
Definition STROOPS_PATTERN (s : string) : bool :=
  match s with
  | String c r => if Ascii.eqb c "-"%char then digits1 r else digits1 s
  | EmptyString => false
  end.

(** [BigInt(s)] for a string that matches the pattern. *)
Definition BigInt (s : string) : Z :=
  match s with
  | String c r => if Ascii.eqb c "-"%char then - dec r else dec s
  | EmptyString => 0
  end.

Definition in_i128 (v : Z) : bool := negb ((I128_MAX <? v) || (v <? I128_MIN)).

Definition toBigInt (stroops : Stroops) : result Z :=
  if negb (STROOPS_PATTERN stroops) then
    Err (BadRequest ("Invalid stroop amount " +:+ dq +:+ stroops +:+ dq +:+
      ": expected a whole number as a string"))
  else
    let value := BigInt stroops in
    if (I128_MAX <? value) || (value <? I128_MIN) then
      Err (BadRequest ("Stroop amount " +:+ dq +:+ stroops +:+ dq +:+
        " does not fit in the i128 range used by Soroban"))
    else Ok value.

(** [trimmed.split('.')], first two pieces; [None] when there is no dot. *)
Fixpoint split_dot (s : string) : string * option string :=
  match s with
  | EmptyString => (EmptyString, None)
  | String c s' =>
      if Ascii.eqb c "."%char then (EmptyString, Some s')
      else let '(w, f) := split_dot s' in (String c w, f)
  end.

Section with_decimals.
Variable decimals : nat.

(** [displayAmountPattern(decimals).test(s)]:
    [^\d+(\.\d{1,decimals})?$], or [^\d+$] when [decimals] is 0. *)
Definition displayAmountPattern (s : string) : bool :=
  if (0 <? decimals)%nat then
    let '(w, f) := split_dot s in
    digits1 w &&
    match f with
    | None => true
    | Some f => digits1 f && (String.length f <=? decimals)%nat
    end
  else digits1 s.

Definition toStroops (displayAmount : string) : result Stroops :=
  let trimmed := trim displayAmount in
  if negb (displayAmountPattern trimmed) then
    Err (BadRequest ("Invalid token amount " +:+ dq +:+ displayAmount +:+ dq +:+
      ": expected a non-negative decimal with at most " +:+
      show (Z.of_nat decimals) +:+ " decimal places"))
  else
    let '(whole, fraction) := split_dot trimmed in
    let fraction := default EmptyString fraction in
    let paddedFraction := pad_end decimals fraction in
    let value := dec whole * 10 ^ Z.of_nat decimals + dec paddedFraction in
    if I128_MAX <? value then
      Err (BadRequest ("Token amount " +:+ dq +:+ displayAmount +:+ dq +:+
        " exceeds the maximum representable value"))
    else Ok (show value).

Definition fromStroops (stroops : Stroops) : result string :=
  value ← toBigInt stroops;
  let negative := value <? 0 in
  let magnitude := if negative then - value else value in
  let base := 10 ^ Z.of_nat decimals in
  let whole := magnitude / base in
  let fraction := strip_zeros (pad_start decimals (show_nat (magnitude mod base))) in
  Ok ((if negative then "-" else "") +:+ show whole +:+ "." +:+
      (if nonempty fraction then fraction else "0")).

End with_decimals.

(** ** Arithmetic *)

Definition addStroops (a b : Stroops) : result Stroops :=
  x ← toBigInt a; y ← toBigInt b; Ok (show (x + y)).

Definition subtractStroops (a b : Stroops) : result Stroops :=
  x ← toBigInt a; y ← toBigInt b; Ok (show (x - y)).

Definition multiplyStroops (a : Stroops) (factor : Z) : result Stroops :=
  x ← toBigInt a; Ok (show (x * factor)).

Definition isAtLeast (a b : Stroops) : result bool :=
  x ← toBigInt a; y ← toBigInt b; Ok (y <=? x).

Definition isPositive (amount : Stroops) : result bool :=
  x ← toBigInt amount; Ok (0 <? x).

Definition assertPositiveStroops (amount : Stroops) (field : string) : result Stroops :=
  value ← toBigInt amount;
  if value <=? 0 then Err (BadRequest (field +:+ " must be greater than zero"))
  else Ok (show value).

(** ** The configured decimals (token-decimals.ts) *)

Section token_decimals.
(** [Number(raw)] on the environment's string: [None] is a value that is not an
    integer (or is [NaN]). *)
Variable Number : string → option Z.
(** What the contract's [decimals()] reports: the network read, or its error. *)
Variable readOnChainDecimals : string → result Z.

Definition getConfiguredDecimals (raw : option string) : result Z :=
  let parsed := match raw with None => Some 7 | Some r => Number r end in
  let error := Err (PlainError "" ("Invalid LYRIC_TOKEN_DECIMALS value: " +:+
    default "undefined" raw +:+ ". Expected a non-negative integer.")) in
  match parsed with
  | Some p => if p <? 0 then error else Ok p
  | None => error
  end.

(** [onModuleInit]: the value stored in [this.decimals], or the boot failure. *)
Definition onModuleInit (contractId raw : option string) : result Z :=
  configured ← getConfiguredDecimals raw;
  if negb (truthy contractId) then Ok configured
  else
    onChain ← readOnChainDecimals (default "" contractId);
    if negb (onChain =? configured) then
      Err (PlainError "" ("Token decimals mismatch: contract " +:+ default "" contractId +:+
        " reports " +:+ show onChain +:+ " decimals but LYRIC_TOKEN_DECIMALS is " +:+
        show configured))
    else Ok onChain.

(** [getDecimals]: [this.decimals ?? this.getConfiguredDecimals()] *)
Definition getDecimals (decimals : option Z) (raw : option string) : result Z :=
  match decimals with Some d => Ok d | None => getConfiguredDecimals raw end.
End token_decimals.

Example toStroops_ex : toStroops 7 " 10.5 " = Ok "105000000".
Proof. reflexivity. Qed.
Example fromStroops_ex : fromStroops 7 "-105000000" = Ok "-10.5".
Proof. reflexivity. Qed.
Example toStroops_ex2 : is_ok (toStroops 7 "0.00000001") = false.
Proof. reflexivity. Qed.

(** ** Lemmas *)

#[local] Arguments String.append !_ _ /.

Lemma digits_not_minus c r : digits1 (String c r) = true → Ascii.eqb c "-"%char = false.
Proof. intros H. apply Ascii.eqb_neq. by intros ->. Qed.

Lemma STROOPS_PATTERN_digits s : digits1 s = true → STROOPS_PATTERN s = true ∧ BigInt s = dec s.
Proof.
  destruct s as [|c r]; [done|]. intros H. unfold STROOPS_PATTERN, BigInt.
  by rewrite (digits_not_minus c r H).
Qed.

Lemma show_spec v : STROOPS_PATTERN (show v) = true ∧ BigInt (show v) = v.
Proof.
  unfold show. destruct (v <? 0) eqn:E; bool_prop.
  - simpl. destruct (show_nat_spec (- v)) as (Hd & Hg & _); [lia|]. by split; [|lia].
  - destruct (show_nat_spec v) as (Hd & Hg & _); [lia|].
    destruct (STROOPS_PATTERN_digits _ Hg) as [-> ->]. done.
Qed.

(** A printed amount reads back as itself, exactly when it fits an i128. *)
Lemma show_inj v w : show v = show w → v = w.
Proof. intros H. rewrite <-(proj2 (show_spec v)), H. apply show_spec. Qed.

Lemma toBigInt_show v : in_i128 v = true → toBigInt (show v) = Ok v.
Proof.
  destruct (show_spec v) as [Hp Hv]. unfold in_i128, toBigInt. rewrite Hp, Hv. simpl.
  intros H. by destruct (_ || _).
Qed.

Lemma toBigInt_show_overflow v : in_i128 v = false → is_ok (toBigInt (show v)) = false.
Proof.
  destruct (show_spec v) as [Hp Hv]. unfold in_i128, toBigInt. rewrite Hp, Hv. simpl.
  intros H. by destruct (_ || _).
Qed.

Lemma in_i128_iff v : in_i128 v = true ↔ I128_MIN ≤ v ≤ I128_MAX.
Proof.
  unfold in_i128. rewrite negb_true_iff, orb_false_iff, Z.ltb_ge, Z.ltb_ge. lia.
Qed.

Lemma toBigInt_in_i128 s v : toBigInt s = Ok v → in_i128 v = true ∧ BigInt s = v.
Proof.
  unfold toBigInt, in_i128. destruct (STROOPS_PATTERN s); [|done]. simpl.
  destruct (_ || _) eqn:E; [done|]. intros [= <-]. by rewrite E.
Qed.

(** Strings without white space are unchanged by [trim]. *)
Lemma trim_no_space s : string_forallb (λ c, negb (is_space c)) s = true → trim s = s.
Proof.
  intros H. unfold trim.
  assert (trim_start s = s) as ->.
  { destruct s as [|c s]; [done|]. simpl in *. by destruct (is_space c). }
  induction s as [|c s IH]; [done|]. simpl in *. apply andb_true_iff in H as [Hc Hs].
  rewrite (IH Hs). destruct s; [|done]. by destruct (is_space c).
Qed.

Lemma digit_no_space c : is_digit c = true → is_space c = false.
Proof.
  unfold is_digit, is_space. intros [H1 H2]%andb_true_iff.
  apply Nat.leb_le in H1, H2.
  rewrite !orb_false_iff, andb_false_iff, !Nat.leb_gt, !Nat.eqb_neq. lia.
Qed.

Lemma digits_no_space s :
  string_forallb is_digit s = true → string_forallb (λ c, negb (is_space c)) s = true.
Proof.
  induction s as [|c s IH]; [done|]. simpl. intros [Hc Hs]%andb_true_iff.
  by rewrite (digit_no_space c Hc), IH.
Qed.

Lemma split_dot_digits w f :
  string_forallb is_digit w = true →
  split_dot (String.append w (String "."%char f)) = (w, Some f).
Proof.
  induction w as [|c w IH]; [done|]. simpl. intros [Hc Hw]%andb_true_iff.
  rewrite (IH Hw). destruct (Ascii.eqb c "."%char) eqn:E; [|done].
  apply Ascii.eqb_eq in E as ->. done.
Qed.

Section with_decimals_facts.
Context (decimals : nat) (Hdec : (0 < decimals)%nat).

(** The fraction digits [fromStroops] prints, and that [toStroops] reads. *)
Lemma fraction_spec m :
  0 ≤ m < 10 ^ Z.of_nat decimals →
  let f := strip_zeros (pad_start decimals (show_nat m)) in
  let f' := if nonempty f then f else "0"%string in
  digits1 f' = true ∧ (String.length f' ≤ decimals)%nat ∧ dec (pad_end decimals f') = m.
Proof.
  intros Hm f f'.
  pose proof (length_show_nat m decimals Hm Hdec) as Hlen.
  pose proof (length_pad_start _ _ Hlen) as Hpad.
  destruct (strip_zeros_spec (pad_start decimals (show_nat m))) as [k Hk].
  fold f in Hk. pose proof Hk as Hkl. apply (f_equal String.length) in Hkl.
  rewrite Hpad, length_append, length_zeros in Hkl.
  apply (f_equal dec) in Hk as Hkv. rewrite dec_pad_start, dec_show_nat in Hkv by lia.
  assert (string_forallb is_digit f = true) as Hd.
  { apply digits_strip_zeros. unfold pad_start.
    by rewrite forallb_app, digits_zeros, digits_show_nat by lia. }
  unfold f'. destruct (nonempty f) eqn:Ef.
  - unfold digits1. rewrite Ef, Hd. split_and!; [done|lia|].
    unfold pad_end. by replace (decimals - String.length f)%nat with k by lia.
  - destruct f; [|done]. simpl in Hkv. rewrite dec_zeros in Hkv. subst m.
    split_and!; [done|simpl; lia|].
    rewrite dec_pad_end by (simpl; lia). by vm_compute.
Qed.

Lemma toStroops_digits w f :
  digits1 w = true → digits1 f = true → (String.length f ≤ decimals)%nat →
  let v := dec w * 10 ^ Z.of_nat decimals + dec (pad_end decimals f) in
  v ≤ I128_MAX →
  toStroops decimals (String.append w (String "."%char f)) = Ok (show v).
Proof.
  intros Hw Hf Hl v Hv. unfold toStroops.
  apply andb_true_iff in Hw as Hw'; destruct Hw' as [_ Hw'].
  apply andb_true_iff in Hf as Hf'; destruct Hf' as [_ Hf'].
  rewrite trim_no_space; last first.
  { rewrite forallb_app. rewrite (digits_no_space w Hw').
    simpl. by rewrite (digits_no_space f Hf'). }
  unfold displayAmountPattern. rewrite split_dot_digits by done.
  rewrite (proj2 (Nat.ltb_lt _ _) Hdec), Hw, Hf, (proj2 (Nat.leb_le _ _) Hl).
  cbn [andb negb default from_option].
  destruct (I128_MAX <? _) eqn:E; [|done]. bool_prop.
  unfold default, id in E. fold v in E. lia.
Qed.
End with_decimals_facts.

Lemma split_dot_forallb_digit s w f :
  string_forallb is_digit s = true → split_dot s = (w, f) → w = s ∧ f = None.
Proof.
  revert w f. induction s as [|c s IH]; cbn; intros w f; [by intros _ [= <- <-]|].
  intros [Hc Hs]%andb_true_iff. destruct (Ascii.eqb c "."%char) eqn:E.
  { by apply Ascii.eqb_eq in E as ->. }
  destruct (split_dot s) as [w' f'] eqn:Es. intros [= <- <-].
  by destruct (IH _ _ Hs eq_refl) as [-> ->].
Qed.

(** What the display pattern accepts splits into digits on both sides. *)
Lemma displayAmountPattern_digits decimals s w f :
  displayAmountPattern decimals s = true → split_dot s = (w, f) →
  string_forallb is_digit w = true ∧ string_forallb is_digit (default EmptyString f) = true.
Proof.
  unfold displayAmountPattern. intros Hp Hd. rewrite Hd in Hp.
  destruct (0 <? decimals)%nat.
  - destruct f as [f|]; unfold digits1 in Hp; bool_prop; by split.
  - apply andb_true_iff in Hp as [_ Hp].
    by destruct (split_dot_forallb_digit _ _ _ Hp Hd) as [-> ->].
Qed.

Section arith.
Context (a b : Stroops) (x y : Z) (Ha : toBigInt a = Ok x) (Hb : toBigInt b = Ok y).

Lemma addStroops_ok : addStroops a b = Ok (show (x + y)).
Proof using Ha Hb. unfold addStroops. by rewrite Ha, Hb. Qed.

Lemma subtractStroops_ok : subtractStroops a b = Ok (show (x - y)).
Proof using Ha Hb. unfold subtractStroops. by rewrite Ha, Hb. Qed.

Lemma isAtLeast_ok : isAtLeast a b = Ok (y <=? x).
Proof using Ha Hb. unfold isAtLeast. by rewrite Ha, Hb. Qed.

Lemma multiplyStroops_ok n : multiplyStroops a n = Ok (show (x * n)).
Proof using Ha. unfold multiplyStroops. by rewrite Ha. Qed.
End arith.

(** Every amount in range can be displayed. *)
Lemma fromStroops_total decimals s v : toBigInt s = Ok v → ∃ d, fromStroops decimals s = Ok d.
Proof. intros H. unfold fromStroops. rewrite H. simpl. eauto. Qed.

(** ** Properties *)

(** C28.  Display amounts round-trip: for every token with at least one decimal,
    any valid non-negative amount that [fromStroops] displays is parsed back by
    [toStroops] to the same amount, with its leading zeros removed. *)
Theorem toStroops_fromStroops (decimals : nat) (s : Stroops) (v : Z) :
  (0 < decimals)%nat → toBigInt s = Ok v → 0 ≤ v →
  ∃ d, fromStroops decimals s = Ok d ∧ toStroops decimals d = Ok (show v).
Proof.
  intros Hdec Hs Hv. apply toBigInt_in_i128 in Hs as Hr. destruct Hr as [Hr _].
  apply in_i128_iff in Hr.
  assert (0 < 10 ^ Z.of_nat decimals) as Hb by (apply Z.pow_pos_nonneg; lia).
  pose proof (Z.mod_pos_bound v _ Hb) as Hm.
  destruct (fraction_spec decimals Hdec _ Hm) as (Hf & Hl & Hval).
  destruct (show_nat_spec (v / 10 ^ Z.of_nat decimals)) as (Hw & Hg & _).
  { apply Z.div_pos; lia. }
  eexists. split.
  - unfold fromStroops. rewrite Hs. simpl.
    rewrite (proj2 (Z.ltb_ge v 0) Hv). simpl. reflexivity.
  - unfold show at 1.
    rewrite (proj2 (Z.ltb_ge _ 0)) by (apply Z.div_pos; lia).
    pose proof (Z.div_mod v (10 ^ Z.of_nat decimals) ltac:(lia)) as Hdm.
    rewrite toStroops_digits by (rewrite ?Hw, ?Hval; auto; lia).
    f_equal. f_equal. rewrite Hw, Hval. lia.
Qed.

Lemma toStroops_fromStroops_witness :
  ∃ d, fromStroops 7 "0105000001" = Ok d ∧ toStroops 7 d = Ok (show 105000001).
Proof. apply (toStroops_fromStroops 7 "0105000001"); [lia|reflexivity|lia]. Defined.

(**  A token with no decimals breaks the round trip: every amount
    [fromStroops] displays keeps a decimal place that [toStroops] then refuses. *)
Theorem fromStroops_no_decimals (s : Stroops) (d : string) :
  fromStroops 0 s = Ok d → is_ok (toStroops 0 d) = false.
Proof.
  unfold fromStroops. destruct (toBigInt s) as [v|] eqn:Hs; [|done].
  cbn [mbind result_bind]. change (10 ^ Z.of_nat 0) with 1. rewrite Z.mod_1_r, Z.div_1_r.
  change (strip_zeros (pad_start 0 (show_nat 0))) with EmptyString. cbn [nonempty].
  set (m := if v <? 0 then - v else v). intros [= <-].
  assert (0 ≤ m) as Hm by (unfold m; destruct (v <? 0) eqn:E; bool_prop; lia).
  assert (show m = show_nat m) as ->.
  { unfold show. by rewrite (proj2 (Z.ltb_ge m 0)). }
  pose proof (digits_show_nat m Hm) as Hw.
  unfold toStroops, displayAmountPattern. rewrite trim_no_space; last first.
  { rewrite !forallb_app, (digits_no_space _ Hw). by destruct (v <? 0). }
  cbn [Nat.ltb Nat.leb]. unfold digits1. rewrite !forallb_app, Hw. cbn.
  by rewrite !andb_false_r.
Qed.

Lemma fromStroops_no_decimals_witness :
  fromStroops 0 "105" = Ok "105.0" ∧ is_ok (toStroops 0 "105.0") = false.
Proof. split; [reflexivity|]. by apply (fromStroops_no_decimals "105"). Defined.

(**  Whatever a client sends, an accepted display amount is a canonical
    non-negative stroop string in the i128 range (so [toBigInt] reads it back),
    and the value is exactly the decimal number written: whole part times
    [10^decimals] plus the zero-padded fraction.  *)
Theorem toStroops_sound (decimals : nat) (d : string) (r : Stroops) :
  toStroops decimals d = Ok r →
  let '(whole, fraction) := split_dot (trim d) in
  let v := dec whole * 10 ^ Z.of_nat decimals
           + dec (pad_end decimals (default EmptyString fraction)) in
  r = show v ∧ 0 ≤ v ≤ I128_MAX ∧ toBigInt r = Ok v.
Proof.
  unfold toStroops. destruct (displayAmountPattern decimals (trim d)) eqn:Hp; [|done].
  cbn [negb]. destruct (split_dot (trim d)) as [w f] eqn:Hd.
  set (v := _ + _). intros H. assert ((I128_MAX <? v) = false ∧ r = show v) as [Hv ->].
  { destruct (I128_MAX <? v); [done|]. by injection H as <-. }
  clear H. bool_prop.
  assert (0 ≤ v) as H0; [|split_and!; try done; apply toBigInt_show, in_i128_iff;
    unfold I128_MIN; lia].
  destruct (displayAmountPattern_digits decimals (trim d) w f Hp Hd) as [Hw Hf].
  unfold v. apply dec_bound in Hw as Hw'.
  assert (string_forallb is_digit (pad_end decimals (default EmptyString f)) = true) as Hpd.
  { unfold pad_end. by rewrite forallb_app, Hf, digits_zeros. }
  apply dec_bound in Hpd. pose proof (Z.pow_nonneg 10 (Z.of_nat decimals)). nia.
Qed.

Lemma toStroops_sound_witness :
  toStroops 7 "  00012.34 " = Ok "123400000" ∧ toBigInt "123400000" = Ok 123400000.
Proof.
  split; [reflexivity|].
  apply (toStroops_sound 7 "  00012.34 " "123400000"). reflexivity.
Defined.
