(* ===== verification/Number.v ===== *)
(** * JavaScript numbers

    Reading numbers from text ([Number.parseInt], [BigInt], [Number]) and the arithmetic of
    binary64 numbers that statistics and scores use. *)

From S2P Require Import Prelude Decimal Amount.
From Stdlib Require Import Ascii SpecFloat.

(** ** Reading *)

(** The digits a string starts with. *)
Fixpoint leading_digits (s : string) : string :=
  match s with
  | String c s' => if is_digit c then String c (leading_digits s') else ""
  | EmptyString => ""
  end.

(** [Number.parseInt(s, 10)]; [None] is [NaN].  Exact below 2^53. *)
Definition parseInt (s : string) : option Z :=
  let '(neg, r) := match trim_start s with
    | String c r => if Ascii.eqb c "-"%char then (true, r)
                    else if Ascii.eqb c "+"%char then (false, r) else (false, String c r)
    | EmptyString => (false, EmptyString)
    end in
  match leading_digits r with
  | EmptyString => None
  | ds => Some (if neg : bool then - dec ds else dec ds)
  end.

(** From here on a number is [Infinity]. *)
Definition NUMBER_OVERFLOW : Z := 2 ^ 1024 - 2 ^ 970.

(** The value of a digit in bases up to 16. *)
Definition hex_val (c : ascii) : Z :=
  let n := Z.of_nat (Ascii.nat_of_ascii (lower_char c)) in if n <? 97 then n - 48 else n - 87.
Fixpoint radix (base acc : Z) (s : string) : option Z :=
  match s with
  | EmptyString => Some acc
  | String c s' => let d := hex_val c in
      if (is_digit c || Ascii.eqb (lower_char c) "a" || Ascii.eqb (lower_char c) "b"
          || Ascii.eqb (lower_char c) "c" || Ascii.eqb (lower_char c) "d"
          || Ascii.eqb (lower_char c) "e" || Ascii.eqb (lower_char c) "f") && (d <? base)
      then radix base (acc * base + d) s' else None
  end.
(** A literal 0x, 0o or 0b. *)
Definition literal (s : string) : option Z :=
  match s with
  | String z (String c (String _ _ as ds)) =>
      if negb (Ascii.eqb z "0") then None
      else if Ascii.eqb (lower_char c) "x" then radix 16 0 ds
      else if Ascii.eqb (lower_char c) "o" then radix 8 0 ds
      else if Ascii.eqb (lower_char c) "b" then radix 2 0 ds else None
  | _ => None
  end.

(** [BigInt(s)] of any string: white space around it is dropped, and the empty string
    is 0. *)
Definition parseBigInt (s : string) : result Z :=
  match trim s with
  | EmptyString => Ok 0
  | String c r as t =>
      if STROOPS_PATTERN t then Ok (BigInt t)
      else if Ascii.eqb c "+"%char && digits1 r then Ok (dec r)
      else match literal t with
      | Some v => Ok v
      | None => Err (PlainError "SyntaxError" ("Cannot convert " +:+ s +:+ " to a BigInt"))
      end
  end.

(** What [Number(s)] can be: [Decimal m e] is [m * 10^e], here without the rounding to binary64,
    which whole numbers below 2^53 do not need. *)
Inductive js_number := NotANumber | Infinity (negative : bool) | Decimal (m e : Z).

Definition after (n : nat) (s : string) : string := String.substring n (String.length s - n) s.

(** The exponent of a decimal literal, which ends it; 0 when it has none. *)
Definition read_exponent (s : string) : option Z :=
  match s with
  | EmptyString => Some 0
  | String c s' =>
      if Ascii.eqb (lower_char c) "e" then
        match s' with
        | String "+" ds => if digits1 ds then Some (dec ds) else None
        | String "-" ds => if digits1 ds then Some (- dec ds) else None
        | _ => if digits1 s' then Some (dec s') else None
        end
      else None
  end.

(** Digits with a fraction: the digits, how many of them are the fraction's, and the rest. *)
Definition read_digits (s : string) : string * nat * string :=
  let whole := leading_digits s in
  let rest := after (String.length whole) s in
  match rest with
  | String "." s' => let fraction := leading_digits s' in
      (whole +:+ fraction, String.length fraction, after (String.length fraction) s')
  | _ => (whole, O, rest)
  end.

Definition read_unsigned (negative : bool) (s : string) : js_number :=
  if s == "Infinity" then Infinity negative
  else
    let '(ds, fraction, rest) := read_digits s in
    match ds, read_exponent rest with
    | String _ _, Some e =>
        let e := e - Z.of_nat fraction in
        if (0 <=? e) && (NUMBER_OVERFLOW <=? dec ds * 10 ^ e) then Infinity negative
        else Decimal (if negative then - dec ds else dec ds) e
    | _, _ => NotANumber
    end.

(** [Number(s)] *)
Definition number_of (s : string) : js_number :=
  match trim s with
  | EmptyString => Decimal 0 0
  | t => match literal t with
    | Some v => Decimal v 0
    | None => match t with
      | String "-" u => read_unsigned true u
      | String "+" u => read_unsigned false u
      | _ => read_unsigned false t
      end
    end
  end.

(** [Math.floor(x / 10) * 10] *)
Definition floor_tens (m e : Z) : Z := if 1 <=? e then m * 10 ^ e else m / 10 ^ (1 - e) * 10.

(** ** Arithmetic *)

(** A number from an integer, and the operations of JavaScript on numbers. *)
Definition f64 (n : Z) : spec_float := binary_normalize 53 1024 n 0 false.
Definition f64_mul : spec_float → spec_float → spec_float := SFmul 53 1024.
Definition f64_div : spec_float → spec_float → spec_float := SFdiv 53 1024.
(** [Math.round] of a finite number: to the nearest integer, halves up. *)
Definition math_round (x : spec_float) : spec_float :=
  match x with
  | S754_finite s m e =>
      let v := if s then Z.neg m else Z.pos m in
      if 0 <=? e then x else f64 ((v + 2 ^ (- e - 1)) / 2 ^ (- e))
  | _ => x
  end.
(** The integer [Math.round] gives, where the number is finite and below 2^53. *)
Definition round_to_Z (x : spec_float) : Z :=
  match x with
  | S754_finite s m e =>
      let v := if s then Z.neg m else Z.pos m in
      if 0 <=? e then v * 2 ^ e else (v + 2 ^ (- e - 1)) / 2 ^ (- e)
  | _ => 0
  end.
Definition f64_add : spec_float → spec_float → spec_float := SFadd 53 1024.
Definition f64_sub : spec_float → spec_float → spec_float := SFsub 53 1024.
(** [Math.max] and [Math.min] of two numbers that are not [NaN]. *)
Definition f64_max (x y : spec_float) : spec_float := if SFltb x y then y else x.
Definition f64_min (x y : spec_float) : spec_float := if SFltb y x then y else x.
(** [Math.round(x * 100) / 100] *)
Definition two_decimals (x : spec_float) : spec_float :=
  f64_div (math_round (f64_mul x (f64 100))) (f64 100).

(** ** Rounding never goes past a whole number *)

Lemma digits_spec (p : positive) : 2 ^ (Z.pos (digits2_pos p) - 1) ≤ Z.pos p < 2 ^ Z.pos (digits2_pos p).
Proof.
  induction p as [p IH|p IH|]; [..|done]; cbn [digits2_pos];
    rewrite Pos2Z.inj_succ; replace (Z.succ (Z.pos (digits2_pos p)) - 1) with (Z.succ (Z.pos (digits2_pos p) - 1)) by lia;
    rewrite !Z.pow_succ_r by lia; lia.
Qed.

Lemma shr_1_half mrs : 0 ≤ shr_m mrs → shr_m (shr_1 mrs) = shr_m mrs / 2.
Proof. destruct mrs as [[|[p|p|]|p] r s]; cbn; intros H; try done; rewrite <-Z.div2_div; done || lia. Qed.

Lemma iter_shr p mrs : 0 ≤ shr_m mrs → shr_m (iter_pos shr_1 p mrs) = shr_m mrs / 2 ^ Z.pos p.
Proof.
  assert (∀ a n m, 0 ≤ n → 0 ≤ m → a / 2 ^ n / 2 ^ m = a / 2 ^ (n + m)) as Hdiv.
  { intros a n m Hn Hm. rewrite Z.pow_add_r, Z.div_div by lia. done. }
  assert (∀ a n, 0 ≤ a → 0 ≤ a / 2 ^ n) as Hpos.
  { intros a n Ha. pose proof (Z.pow_nonneg 2 n). destruct (decide (2 ^ n = 0)) as [->|]; [by rewrite Z.div_0_r|].
    apply Z.div_pos; lia. }
  revert mrs. induction p as [p IH|p IH|]; intros mrs H; cbn [iter_pos].
  - assert (shr_m (shr_1 mrs) = shr_m mrs / 2 ^ 1) as H1 by by apply shr_1_half.
    assert (0 ≤ shr_m (shr_1 mrs)) as H2 by (rewrite H1; by apply Hpos).
    rewrite (IH (iter_pos _ _ _)) by (rewrite IH by done; by apply Hpos).
    rewrite IH, H1, !Hdiv by done || lia. f_equal. f_equal. lia.
  - rewrite (IH (iter_pos _ _ _)) by (rewrite IH by done; by apply Hpos).
    rewrite IH, Hdiv by done || lia. f_equal. f_equal. lia.
  - by apply shr_1_half.
Qed.

Lemma shr_spec mrs e n : 0 ≤ shr_m mrs →
  shr_m (shr mrs e n).1 = shr_m mrs / 2 ^ Z.max n 0 ∧ (shr mrs e n).2 = e + Z.max n 0.
Proof.
  intros H. destruct n as [|p|p]; cbn -[Z.pow]; rewrite ?Z.pow_0_r, ?Z.div_1_r; try (split; [done|lia]).
  by rewrite iter_shr.
Qed.

Lemma round_even_near m l : round_nearest_even m l = m ∨ round_nearest_even m l = m + 1.
Proof. destruct l as [|[]]; cbn; auto. destruct (Z.even m); auto. Qed.

(** At most [b], a mantissa [m] with exponent [e]. *)
Definition below (m e b : Z) : Prop := if 0 <=? e then m * 2 ^ e ≤ b else m ≤ b * 2 ^ (- e).

(** A finite positive number of 53 bits, at most [b]. *)
Definition upto (b : Z) (x : spec_float) : Prop :=
  x = S754_zero false ∨ ∃ m e, x = S754_finite false m e ∧ Z.pos m < 2 ^ 53 ∧ below (Z.pos m) e b.

Lemma round_to_Z_upto b x : 0 ≤ b → upto b x → 0 ≤ round_to_Z x ≤ b.
Proof.
  intros Hb [->|(m & e & -> & _ & H)]; [cbn; lia|]. unfold below in H. cbn [round_to_Z].
  destruct (0 <=? e) eqn:E; apply Z.leb_le in E || apply Z.leb_gt in E.
  - split; [|done]. pose proof (Z.pow_nonneg 2 e). nia.
  - assert (2 ^ (- e) = 2 * 2 ^ (- e - 1)) as Hp.
    { rewrite <-Z.pow_succ_r by lia. f_equal. lia. }
    assert (0 < 2 ^ (- e - 1)) by (apply Z.pow_pos_nonneg; lia).
    split; [apply Z.div_pos; lia|]. apply Z.lt_succ_r, Z.div_lt_upper_bound; [lia|]. rewrite Hp in *. lia.
Qed.

Lemma fexp_53 e : fexp 53 1024 e = Z.max (e - 53) (-1074).
Proof. reflexivity. Qed.

(** How far a mantissa is shifted to have 53 bits. *)
Definition shift_of (m e : Z) : Z := Z.max (Z.max (Zdigits2 m + e - 53) (-1074) - e) 0.

Lemma shr_fexp_spec m e l : 0 ≤ m →
  shr_m (shr_fexp 53 1024 m e l).1 = m / 2 ^ shift_of m e ∧ (shr_fexp 53 1024 m e l).2 = e + shift_of m e.
Proof.
  intros Hm. unfold shr_fexp. rewrite fexp_53.
  assert (shr_m (shr_record_of_loc m l) = m) as E by by destruct l as [|[]].
  destruct (shr_spec (shr_record_of_loc m l) e (Z.max (Zdigits2 m + e - 53) (-1074) - e)) as [H1 H2]; [by rewrite E|].
  by rewrite E in H1.
Qed.

Lemma shr_fexp_53 m e : 0 ≤ m → m / 2 ^ shift_of m e < 2 ^ 53.
Proof.
  intros Hm. apply Z.div_lt_upper_bound; [apply Z.pow_pos_nonneg; unfold shift_of; lia|].
  rewrite <-Z.pow_add_r by (unfold shift_of; lia). destruct m as [|p|]; [apply Z.pow_pos_nonneg; unfold shift_of; lia| |lia].
  eapply Z.lt_le_trans; [apply digits_spec|]. apply Z.pow_le_mono_r; [done|]. unfold shift_of. cbn. lia.
Qed.

Lemma below_shift m e b k : 0 ≤ k → e + k ≤ 0 → below m e b → below (m / 2 ^ k) (e + k) b.
Proof.
  intros Hk He Hb. destruct (decide (k = 0)) as [->|]; [by rewrite Z.pow_0_r, Z.div_1_r, Z.add_0_r|].
  unfold below in *. destruct (Z.leb_spec 0 e); [lia|].
  assert (m / 2 ^ k ≤ b * 2 ^ (- (e + k))) as H0.
  { apply Z.div_le_upper_bound; [by apply Z.pow_pos_nonneg|].
    replace (- e) with (k + - (e + k)) in Hb by lia. rewrite Z.pow_add_r in Hb by lia. lia. }
  destruct (Z.leb_spec 0 (e + k)); [|done]. replace (e + k) with 0 in * by lia. by rewrite Z.pow_0_r, Z.mul_1_r in *.
Qed.

(** A number at most [b] is shifted to an exponent of at most 0, if at all. *)
Lemma below_exponent m e b : 0 < m → b < 2 ^ 53 → below m e b → Zdigits2 m + e ≤ 53.
Proof.
  intros Hm Hb Hbe. destruct m as [|p|]; [lia| |lia]. pose proof (proj1 (digits_spec p)) as Hd. cbn.
  set (d := Z.pos (digits2_pos p)) in *. assert (1 ≤ d) by lia. unfold below in Hbe.
  destruct (Z.leb_spec 0 e).
  - assert (2 ^ (d - 1 + e) < 2 ^ 53) as H'.
    { rewrite Z.pow_add_r by lia. eapply Z.le_lt_trans; [|exact (Z.le_lt_trans _ _ _ Hbe Hb)].
      apply Z.mul_le_mono_nonneg_r; [apply Z.pow_nonneg; lia|done]. }
    apply Z.pow_lt_mono_r_iff in H'; lia.
  - assert (2 ^ (d - 1) < 2 ^ (53 + - e)) as H'.
    { rewrite Z.pow_add_r by lia. eapply Z.le_lt_trans; [exact (Z.le_trans _ _ _ Hd Hbe)|].
      apply Z.mul_lt_mono_pos_r; [apply Z.pow_pos_nonneg; lia|done]. }
    apply Z.pow_lt_mono_r_iff in H'; lia.
Qed.

Lemma shift_of_nonneg m e : 0 ≤ shift_of m e.
Proof. unfold shift_of. lia. Qed.

Lemma no_shift m e l : shift_of m e = 0 → shr_fexp 53 1024 m e l = (shr_record_of_loc m l, e).
Proof.
  unfold shift_of, shr_fexp. rewrite fexp_53. intros H.
  destruct (Z.max (Zdigits2 m + e - 53) (-1074) - e) as [|p|p] eqn:E; [done|lia|done].
Qed.

(** The value of a number at most [b] is still at most [b] when it is shifted. *)
Lemma shifted_below m e b : 0 < m → b < 2 ^ 53 → below m e b →
  below (m / 2 ^ shift_of m e) (e + shift_of m e) b ∧ e + shift_of m e ≤ 53.
Proof.
  intros Hm Hb Hbe. pose proof (below_exponent m e b Hm Hb Hbe) as He. pose proof (shift_of_nonneg m e) as H0.
  destruct (decide (shift_of m e = 0)) as [->|Hne].
  - rewrite Z.pow_0_r, Z.div_1_r, Z.add_0_r. split; [done|]. destruct m; cbn in He; lia.
  - assert (e + shift_of m e ≤ 0) by (unfold shift_of in *; lia). split; [by apply below_shift|lia].
Qed.

(** The same after the last bit is rounded up, when the value is less than [b]. *)
Lemma rounded_below m e b l : 0 < m → b < 2 ^ 53 → (if 0 <=? e then m * 2 ^ e < b else m < b * 2 ^ (- e)) →
  0 < shift_of m e →
  below (round_nearest_even (m / 2 ^ shift_of m e) l) (e + shift_of m e) b ∧ e + shift_of m e ≤ 0.
Proof.
  intros Hm Hb Hlt H0. assert (below m e b) as Hbe by (unfold below; destruct (0 <=? e); lia).
  pose proof (below_exponent m e b Hm Hb Hbe) as He. set (k := shift_of m e) in *.
  assert (e + k ≤ 0) as Hk by (unfold k, shift_of in *; lia). split; [|done].
  destruct (Z.leb_spec 0 e); [lia|].
  assert (m / 2 ^ k < b * 2 ^ (- (e + k))) as H1.
  { apply Z.div_lt_upper_bound; [apply Z.pow_pos_nonneg; lia|].
    replace (- e) with (k + - (e + k)) in Hlt by lia. rewrite Z.pow_add_r in Hlt by lia. lia. }
  assert (round_nearest_even (m / 2 ^ k) l ≤ b * 2 ^ (- (e + k))) as H2
    by (destruct (round_even_near (m / 2 ^ k) l) as [-> | ->]; lia).
  unfold below. destruct (Z.leb_spec 0 (e + k)); [|done].
  replace (e + k) with 0 in * by lia. by rewrite Z.pow_0_r, Z.mul_1_r in *.
Qed.

Lemma round_upto m e b : 0 < m → b < 2 ^ 53 → (if 0 <=? e then m * 2 ^ e < b else m < b * 2 ^ (- e)) →
  upto b (binary_round_aux 53 1024 false m e loc_Exact).
Proof.
  intros Hm Hb Hlt. assert (below m e b) as Hbe by (unfold below; destruct (0 <=? e); lia). unfold binary_round_aux.
  destruct (shr_fexp_spec m e loc_Exact) as [Hm1 He1]; [lia|].
  destruct (shr_fexp 53 1024 m e loc_Exact) as [mrs1 e1] eqn:Es1. cbn [fst snd] in *.
  set (r := round_nearest_even _ _).
  assert (0 ≤ r ∧ below r e1 b) as (Hr & Hrb).
  { destruct (decide (shift_of m e = 0)) as [Hs|Hs].
    - rewrite (no_shift _ _ _ Hs) in Es1. injection Es1 as <- <-. cbn in r. split; [lia|done].
    - pose proof (shift_of_nonneg m e). subst r e1. rewrite Hm1. split; [|apply rounded_below; [done..|lia]].
      assert (0 ≤ m / 2 ^ shift_of m e) by (apply Z.div_pos; [lia|]; by apply Z.pow_pos_nonneg).
      destruct (round_even_near (m / 2 ^ shift_of m e) (loc_of_shr_record mrs1)); lia. }
  destruct (shr_fexp_spec r e1 loc_Exact Hr) as [Hm2 He2]. pose proof (shr_fexp_53 r e1 Hr) as H53.
  destruct (shr_fexp 53 1024 r e1 loc_Exact) as [mrs2 e2]. cbn [fst snd] in *. rewrite Hm2.
  assert (0 ≤ r / 2 ^ shift_of r e1) as Hq by (apply Z.div_pos; [done|]; apply Z.pow_pos_nonneg; [done|apply shift_of_nonneg]).
  destruct (r / 2 ^ shift_of r e1) as [|p|p] eqn:Eq; [by left| |lia].
  assert (0 < r) by (destruct (decide (r = 0)) as [E0|]; [by rewrite E0 in Eq|lia]).
  destruct (shifted_below r e1 b) as [Hp He]; [done..|]. rewrite Eq, <-He2 in Hp. rewrite <-He2 in He.
  destruct (Z.leb_spec e2 (1024 - 53)); [|lia]. right. eauto 10.
Qed.

(** [a * x] is at most [b] when [a] is and [x] is at most 1. *)
Lemma f64_mul_upto a ea m e b : 0 < b < 2 ^ 53 → below (Z.pos a) ea b → ea ≤ 0 → e < 0 → Z.pos m < 2 ^ (- e) →
  upto b (f64_mul (S754_finite false a ea) (S754_finite false m e)).
Proof.
  intros Hb Ha Hea He Hm. cbn. apply round_upto; [done|lia|].
  destruct (Z.leb_spec 0 (ea + e)); [lia|]. replace (- (ea + e)) with (- ea + - e) by lia. rewrite Z.pow_add_r by lia.
  assert (Z.pos a ≤ b * 2 ^ (- ea)) as Ha'.
  { unfold below in Ha. destruct (Z.leb_spec 0 ea); [|done]. assert (ea = 0) as -> by lia. cbn in *. lia. }
  rewrite Pos2Z.inj_mul. assert (0 < 2 ^ (- e)) by (apply Z.pow_pos_nonneg; lia). nia.
Qed.
