(* ===== verification/Binary64.v ===== *)
(** * How close binary64 arithmetic is to exact arithmetic

    The quotient, the difference and the product of the numbers scores use, and [Math.round]
    of the result, against the exact values.  Values are counted in units of 2^-3000, where
    every number of the range is whole. *)

From S2P Require Import Prelude Number.
From Stdlib Require Import SpecFloat.

#[local] Open Scope Z_scope.

(** Values in units of 2^-3000. *)
Definition unit_exp : Z := 3000.
Definition scaled (m e : Z) : Z := m * 2 ^ (e + unit_exp).
Definition sval (x : spec_float) : Z :=
  match x with S754_finite s m e => if s then - scaled (Z.pos m) e else scaled (Z.pos m) e | _ => 0 end.

(** A number that is not negative, in canonical form. *)
Definition canonical (x : spec_float) : Prop :=
  x = S754_zero false ∨ ∃ m e, x = S754_finite false m e ∧ -1074 ≤ e ∧ Z.pos m < 2 ^ 53 ∧ (2 ^ 52 ≤ Z.pos m ∨ e = -1074).

Lemma scaled_shift m e k : 0 ≤ k → 0 ≤ e + unit_exp → scaled m (e + k) = m * 2 ^ k * 2 ^ (e + unit_exp).
Proof. intros Hk He. unfold scaled. replace (e + k + unit_exp) with (k + (e + unit_exp)) by lia. rewrite Z.pow_add_r by lia. lia. Qed.

Lemma digits_bounds m : 0 < m → 2 ^ (Zdigits2 m - 1) ≤ m < 2 ^ Zdigits2 m ∧ 1 ≤ Zdigits2 m.
Proof. destruct m as [|p|]; try lia. intros _. cbn. split; [apply digits_spec|lia]. Qed.

Lemma digits_unique m d : 0 < m → 1 ≤ d → 2 ^ (d - 1) ≤ m < 2 ^ d → Zdigits2 m = d.
Proof.
  intros Hm Hd [H1 H2]. destruct (digits_bounds m Hm) as [[H3 H4] H5].
  assert (d - 1 < Zdigits2 m) by (apply (Z.pow_lt_mono_r_iff 2); lia).
  assert (Zdigits2 m - 1 < d) by (apply (Z.pow_lt_mono_r_iff 2); lia). lia.
Qed.

(** What the last step of every operation makes of a mantissa of 53 bits, or one more. *)
Lemma settle_mantissa r e : 0 ≤ r ≤ 2 ^ 53 → -1074 ≤ e ≤ 900 → (2 ^ 52 ≤ r ∨ e = -1074) →
  let '(mrs2, e2) := shr_fexp 53 1024 r e loc_Exact in
  let x := match shr_m mrs2 with Z0 => S754_zero false | Zpos m => if e2 <=? 971 then S754_finite false m e2 else S754_infinity false | _ => S754_nan end in
  canonical x ∧ sval x = scaled r e.
Proof.
  intros Hr He Hc. destruct (decide (r = 2 ^ 53)) as [->|Hne].
  - pose proof (shr_fexp_spec (2 ^ 53) e loc_Exact ltac:(lia)) as [H1 H2].
    destruct (shr_fexp 53 1024 (2 ^ 53) e loc_Exact) as [mrs2 e2]. cbn [fst snd] in *.
    assert (shift_of (2 ^ 53) e = 1) as Hs by (unfold shift_of; change (Zdigits2 (2 ^ 53)) with 54; lia).
    rewrite Hs in *. change (2 ^ 53 / 2 ^ 1) with 4503599627370496 in H1. rewrite H1. subst e2.
    destruct (Z.leb_spec (e + 1) 971); [|lia]. split.
    + right. do 2 eexists. split; [done|]. split; [lia|]. split; [done|]. left. done.
    + unfold sval. rewrite (scaled_shift _ e 1) by (unfold unit_exp; lia). unfold scaled. change (2 ^ 53) with (4503599627370496 * 2 ^ 1). lia.
  - assert (shift_of r e = 0) as Hs.
    { unfold shift_of. destruct (decide (r = 0)) as [->|Hr0]; [cbn; lia|].
      destruct (digits_bounds r ltac:(lia)) as [[H1 H2] H3].
      assert (Zdigits2 r - 1 < 53) by (apply (Z.pow_lt_mono_r_iff 2); lia). lia. }
    rewrite no_shift by done. cbn [shr_record_of_loc shr_m]. destruct r as [|p|]; [|cbn [shr_m]|lia].
    + split; [by left|done].
    + destruct (Z.leb_spec e 971); [|lia]. split; [|done]. right. do 2 eexists. split; [done|]. split; [lia|]. split; [lia|done].
Qed.

(** The exact value is [num / den] units: [m] with exponent [e], or a little more. *)
Lemma round_close m e l num den : 0 < m → 0 < den → -2900 ≤ e → 
  scaled m e * den ≤ num ≤ scaled (m + 1) e * den → (l = loc_Exact → num = scaled m e * den) →
  num < scaled 1 500 * den → e ≤ Z.max (Zdigits2 m + e - 53) (-1074) →
  let x := binary_round_aux 53 1024 false m e l in
  canonical x ∧ 2 ^ 52 * Z.abs (sval x * den - num) ≤ num + 2 ^ 52 * scaled 1 (-1074) * den.
Proof.
  intros Hm Hden He Hnum Hexact Hbig Hfexp. unfold binary_round_aux.
  set (s := shift_of m e). assert (0 ≤ s) as Hs by apply shift_of_nonneg.
  destruct (digits_bounds m Hm) as [[Hd1 Hd2] Hd].
  destruct (shr_fexp_spec m e l ltac:(lia)) as [H1 H2]. fold s in H1, H2.
  assert (e + s = Z.max (Zdigits2 m + e - 53) (-1074)) as Hes by (unfold s, shift_of; lia).
  destruct (shr_fexp 53 1024 m e l) as [mrs1 e1] eqn:Es1. cbn [fst snd] in H1, H2.
  set (r := round_nearest_even (shr_m mrs1) (loc_of_shr_record mrs1)).
  set (P := 2 ^ (e + unit_exp)) in *. assert (0 < P) as HP by (apply Z.pow_pos_nonneg; unfold unit_exp; lia).
  set (T := 2 ^ s) in *. assert (0 < T) as HT by (by apply Z.pow_pos_nonneg).
  set (m1 := m / T) in *. assert (0 ≤ m1) by (apply Z.div_pos; lia).
  assert (m1 * T ≤ m < (m1 + 1) * T) as Hm1.
  { pose proof (Z.div_mod m T ltac:(lia)). pose proof (Z.mod_pos_bound m T HT). fold m1 in H0. lia. }
  assert (r = m1 ∨ r = m1 + 1) as Hr by (rewrite <-H1; apply round_even_near).
  assert (m1 < 2 ^ 53) as Hm53 by (apply shr_fexp_53; lia).
  (* the value of the rounded mantissa *)
  assert (scaled r e1 = r * T * P) as Hval by (subst e1; apply scaled_shift; [done|unfold unit_exp; lia]).
  assert (scaled m e = m * P ∧ scaled (m + 1) e = (m + 1) * P) as [Hsm Hsm1] by done. rewrite Hsm, Hsm1 in Hnum.
  assert (Z.abs (r * T * P * den - num) ≤ T * P * den) as Herr.
  { assert (m1 * T * P * den ≤ num ≤ (m1 + 1) * T * P * den) by nia. destruct Hr as [-> | ->]; nia. }
  (* an ulp is small *)
  assert (2 ^ 52 * (T * P * den) ≤ num + 2 ^ 52 * scaled 1 (-1074) * den) as Hulp.
  { assert (T * P = 2 ^ (e + s + unit_exp)) as ->.
    { unfold T, P. rewrite <-Z.pow_add_r by (unfold unit_exp; lia). f_equal. lia. }
    assert (scaled 1 (-1074) = 2 ^ (-1074 + unit_exp)) as -> by (unfold scaled; lia).
    rewrite Hes. destruct (Z.max_spec (Zdigits2 m + e - 53) (-1074)) as [[_ ->]|[Hge ->]].
    - assert (0 ≤ num) by nia. lia.
    - assert (2 ^ 52 * 2 ^ (Zdigits2 m + e - 53 + unit_exp) ≤ m * P) as Hle; [|].
      { rewrite <-Z.pow_add_r by (unfold unit_exp; lia). unfold P.
        replace (52 + (Zdigits2 m + e - 53 + unit_exp)) with (Zdigits2 m - 1 + (e + unit_exp)) by lia.
        rewrite Z.pow_add_r by (unfold unit_exp; lia). apply Z.mul_le_mono_nonneg_r; [lia|done]. }
      assert (0 ≤ 2 ^ (-1074 + unit_exp)) by (apply Z.pow_nonneg; lia). nia. }
  assert (e1 ≤ 900) as He1.
  { subst e1. rewrite Hes. apply Z.max_lub; [|lia]. 
    assert (2 ^ (Zdigits2 m - 1 + (e + unit_exp)) < 2 ^ (500 + unit_exp)) as Hlt.
    { rewrite Z.pow_add_r by (unfold unit_exp; lia). fold P. unfold scaled in Hbig. nia. }
    apply Z.pow_lt_mono_r_iff in Hlt; unfold unit_exp in *; lia. }
  pose proof (settle_mantissa r e1 ltac:(lia) ltac:(lia)) as Hset.
  destruct (shr_fexp 53 1024 r e1 loc_Exact) as [mrs2 e2] eqn:Es2.
  destruct Hset as [Hcan Hv].
  { subst e1. rewrite Hes. destruct (Z.max_spec (Zdigits2 m + e - 53) (-1074)) as [[_ ->]|[Hge Hmax]]; [by right|left].
    assert (T = 2 ^ (Zdigits2 m - 53)) as HTd.
    { unfold T. f_equal. lia. }
    assert (2 ^ 52 ≤ m1); [|lia]. apply Z.div_le_lower_bound; [done|]. rewrite HTd.
    destruct (decide (53 ≤ Zdigits2 m)).
    - rewrite <-Z.pow_add_r by lia. replace (Zdigits2 m - 53 + 52) with (Zdigits2 m - 1) by lia. done.
    - lia. }
  change (1024 - 53) with 971.
  set (x := match shr_m mrs2 with Z0 => _ | Zpos _ => _ | Zneg _ => _ end) in *.
  split; [exact Hcan|]. rewrite Hv, Hval. nia.
Qed.

(** ** Whole numbers, and their quotients *)

Lemma align_spec m e e' : e' ≤ e → Z.pos (shl_align m e e').1 = Z.pos m * 2 ^ (e - e') ∧ (shl_align m e e').2 = e'.
Proof.
  intros He. unfold shl_align. destruct (e' - e) as [|p|p] eqn:E; [|lia|].
  - replace (e - e') with 0 by lia. rewrite Z.pow_0_r, Z.mul_1_r. cbn. split; [done|lia].
  - replace (e - e') with (Z.pos p) by lia. cbn [fst snd]. split; [|done]. clear.
    induction p using Pos.peano_ind; [cbn; lia|].
    rewrite Pos.iter_succ, Pos2Z.inj_succ, Z.pow_succ_r by lia. lia.
Qed.

Lemma scaled_align m e e' : e' ≤ e → 0 ≤ e' + unit_exp → scaled (Z.pos (shl_align m e e').1) e' = scaled (Z.pos m) e.
Proof.
  intros He H. destruct (align_spec m e e' He) as [-> _]. unfold scaled.
  replace (e + unit_exp) with ((e - e') + (e' + unit_exp)) by lia. rewrite (Z.pow_add_r 2 (e - e') (e' + unit_exp)) by lia. by rewrite Z.mul_assoc.
Qed.

(** A mantissa of 53 bits stays as it is. *)
Lemma round_53 m e : 2 ^ 52 ≤ Z.pos m < 2 ^ 53 → -1074 ≤ e ≤ 900 →
  binary_round_aux 53 1024 false (Z.pos m) e loc_Exact = S754_finite false m e.
Proof.
  intros Hm He. assert (Zdigits2 (Z.pos m) = 53) as Hd by (apply digits_unique; [lia..|done]).
  unfold binary_round_aux. rewrite no_shift by (unfold shift_of; rewrite Hd; lia).
  cbn [shr_record_of_loc loc_of_shr_record shr_m round_nearest_even]. rewrite no_shift by (unfold shift_of; rewrite Hd; lia).
  cbn [shr_record_of_loc shr_m]. change (1024 - 53) with 971. destruct (Z.leb_spec e 971); [done|lia].
Qed.

(** Integers of 53 bits are exact. *)
Lemma f64_exact n : 0 < n < 2 ^ 53 → ∃ m, f64 n = S754_finite false m (Zdigits2 n - 53) ∧
  2 ^ 52 ≤ Z.pos m < 2 ^ 53 ∧ Z.pos m = n * 2 ^ (53 - Zdigits2 n) ∧ 1 ≤ Zdigits2 n ≤ 53.
Proof.
  intros Hn. destruct (digits_bounds n ltac:(lia)) as [[H1 H2] H3]. set (d := Zdigits2 n) in *.
  assert (d ≤ 53) as H53.
  { assert (d - 1 < 53); [|lia]. apply (Z.pow_lt_mono_r_iff 2); lia. }
  destruct n as [|p|]; try lia. unfold f64, binary_normalize, binary_round.
  change (Z.pos (digits2_pos p)) with d. rewrite fexp_53, Z.add_0_r, Z.max_l by lia.
  destruct (align_spec p 0 (d - 53) ltac:(lia)) as [Hm He]. destruct (shl_align p 0 (d - 53)) as [mz ez]. cbn [fst snd] in *. subst ez.
  replace (0 - (d - 53)) with (53 - d) in Hm by lia.
  assert (2 ^ 52 ≤ Z.pos mz < 2 ^ 53) as Hmz.
  { assert (2 ^ 52 = 2 ^ (d - 1) * 2 ^ (53 - d)) as E1 by (rewrite <-Z.pow_add_r by lia; f_equal; lia).
    assert (2 ^ 53 = 2 ^ d * 2 ^ (53 - d)) as E2 by (rewrite <-Z.pow_add_r by lia; f_equal; lia).
    assert (0 < 2 ^ (53 - d)) by (apply Z.pow_pos_nonneg; lia). rewrite Hm, E1, E2. nia. }
  exists mz. rewrite round_53 by lia. done.
Qed.

(** Rounding an exact value. *)
Lemma round_exact p e : -2000 ≤ e → scaled (Z.pos p) e < scaled 1 500 →
  let x := binary_round 53 1024 false p e in
  canonical x ∧ 2 ^ 52 * Z.abs (sval x - scaled (Z.pos p) e) ≤ scaled (Z.pos p) e + 2 ^ 52 * scaled 1 (-1074).
Proof.
  intros He Hbig. unfold binary_round. rewrite fexp_53.
  set (e' := Z.max (Z.pos (digits2_pos p) + e - 53) (-1074)).
  set (k := Z.min e e'). assert (shl_align p e e' = shl_align p e k) as ->.
  { unfold k. destruct (Z.min_spec e e') as [[Hlt ->]|[_ ->]]; [|done]. unfold shl_align.
    rewrite Z.sub_diag. destruct (e' - e) eqn:E; [done|done|lia]. }
  destruct (align_spec p e k ltac:(lia)) as [Hm Hk]. pose proof (scaled_align p e k ltac:(lia) ltac:(unfold unit_exp; lia)) as Hv.
  destruct (shl_align p e k) as [mz ez]. cbn [fst snd] in *. subst ez.
  assert (Zdigits2 (Z.pos mz) = Z.pos (digits2_pos p) + (e - k)) as Hd.
  { pose proof (digits_spec p). assert (0 < 2 ^ (e - k)) by (apply Z.pow_pos_nonneg; lia).
    apply digits_unique; [lia..|]. rewrite Hm.
    replace (Z.pos (digits2_pos p) + (e - k) - 1) with (Z.pos (digits2_pos p) - 1 + (e - k)) by lia.
    rewrite (Z.pow_add_r 2 (Z.pos (digits2_pos p) - 1)), (Z.pow_add_r 2 (Z.pos (digits2_pos p))) by lia. nia. }
  pose proof (round_close (Z.pos mz) k loc_Exact (scaled (Z.pos p) e) 1) as Hc. cbv zeta in Hc.
  rewrite !Z.mul_1_r, Hv in Hc. apply Hc; try lia.
  split; [lia|]. rewrite <-Hv. unfold scaled. apply Z.mul_le_mono_nonneg_r; [apply Z.pow_nonneg; lia|lia].
Qed.

Lemma new_location_exact b r : new_location b r = loc_Exact → r = 0.
Proof. unfold new_location, new_location_even, new_location_odd. destruct (Z.even b), (Z.eqb_spec r 0); done. Qed.

(** The quotient of two integers. *)
Lemma div_close n w : 0 < n < 2 ^ 53 → 0 < w < 2 ^ 53 →
  let q := f64_div (f64 n) (f64 w) in
  canonical q ∧ 2 ^ 52 * Z.abs (sval q * w - scaled n 0) ≤ scaled n 0 + 2 ^ 52 * scaled 1 (-1074) * w.
Proof.
  intros Hn Hw. destruct (f64_exact n Hn) as (a & -> & Ha & Han & Hdn), (f64_exact w Hw) as (b & -> & Hb & Hbw & Hdw).
  set (D1 := Zdigits2 n) in *. set (D2 := Zdigits2 w) in *. cbn zeta.
  unfold f64_div, SFdiv, SFdiv_core_binary.
  assert (Zdigits2 (Z.pos a) = 53 ∧ Zdigits2 (Z.pos b) = 53) as [Hda Hdb] by (split; apply digits_unique; lia).
  rewrite Hda, Hdb, fexp_53. replace (53 + (D1 - 53) - (53 + (D2 - 53)) - 53) with (D1 - D2 - 53) by lia.
  rewrite Z.max_l, Z.min_l by lia. replace (D1 - 53 - (D2 - 53) - (D1 - D2 - 53)) with 53 by lia.
  set (e := D1 - D2 - 53). rewrite Z.shiftl_mul_pow2 by lia.
  destruct (Z.div_eucl (Z.pos a * 2 ^ 53) (Z.pos b)) as [q r] eqn:Eq.
  pose proof (Z_div_mod (Z.pos a * 2 ^ 53) (Z.pos b) ltac:(lia)) as Hdiv. rewrite Eq in Hdiv. destruct Hdiv as [Hqr Hr].
  assert (2 ^ 52 ≤ q < 2 ^ 54) as Hq.
  { clear -Ha Hb Hqr Hr. split; [apply Z.lt_succ_r|]; apply Z.nle_gt; intros Hle; nia. }
  cbn [xorb].
  assert (0 < 2 ^ (e + unit_exp)) as HP by (apply Z.pow_pos_nonneg; unfold e, unit_exp; lia).
  assert (Zdigits2 q = 53 ∨ Zdigits2 q = 54) as Hdq.
  { destruct (decide (q < 2 ^ 53)); [left|right]; apply digits_unique; lia. }
  destruct (round_close q e (new_location (Z.pos b) r) (Z.pos a * 2 ^ 53 * 2 ^ (e + unit_exp)) (Z.pos b)) as [Hc Hv];
    try lia.
  - unfold scaled. rewrite Hqr. nia.
  - intros ->%new_location_exact. unfold scaled. rewrite Hqr. nia.
  - clear Hdq Han Hbw Hqr Eq Hda Hdb. set (U := 2 ^ unit_exp). set (V := scaled 1 500).
    assert (2 ^ (e + unit_exp) ≤ U) as HPU by (apply Z.pow_le_mono_r; unfold e; lia).
    assert (2 ^ 106 * U ≤ V) as HUV.
    { unfold U, V, scaled. rewrite Z.mul_1_l, <-Z.pow_add_r by (unfold unit_exp; lia). apply Z.pow_le_mono_r; lia. }
    assert (0 < U) as HU by (by apply Z.pow_pos_nonneg). clearbody U V.
    assert (Z.pos a * 2 ^ 53 * 2 ^ (e + unit_exp) ≤ Z.pos a * 2 ^ 53 * U) by (apply Z.mul_le_mono_nonneg_l; lia).
    assert (Z.pos a * 2 ^ 53 * U < 2 ^ 106 * U) by (apply Z.mul_lt_mono_pos_r; lia).
    assert (V ≤ V * Z.pos b); [|lia]. rewrite <-(Z.mul_1_r V) at 1. apply Z.mul_le_mono_nonneg_l; lia.
  - split; [exact Hc|]. set (x := binary_round_aux _ _ _ _ _ _) in *. clearbody x.
    set (F := 2 ^ (53 - D2)) in *. assert (0 < F) as HF by (apply Z.pow_pos_nonneg; lia).
    assert (Z.pos a * 2 ^ 53 * 2 ^ (e + unit_exp) = scaled n 0 * F) as Hnum.
    { rewrite Han. unfold scaled, F. cbn [Z.add]. rewrite <-!Z.mul_assoc, <-!Z.pow_add_r by (unfold e, unit_exp; lia).
      do 2 f_equal. unfold e. lia. }
    rewrite Hnum, Hbw in Hv.
    replace (sval x * (w * F) - scaled n 0 * F) with ((sval x * w - scaled n 0) * F) in Hv by lia.
    rewrite Z.abs_mul, (Z.abs_eq F) in Hv by lia. nia.
Qed.

(** ** Rounding to a whole number, clamping, products *)

Definition unit_one : Z := 2 ^ unit_exp.

Lemma unit_pos : 0 < unit_one.
Proof. by apply Z.pow_pos_nonneg. Qed.
Lemma scaled_whole n : scaled n 0 = n * unit_one.
Proof. done. Qed.
Lemma scaled_tiny : 0 ≤ scaled 1 (-1074) ∧ 2 ^ 200 * scaled 1 (-1074) ≤ unit_one.
Proof.
  unfold scaled, unit_one. rewrite Z.mul_1_l, <-Z.pow_add_r by (unfold unit_exp; lia).
  split; [apply Z.pow_nonneg; lia|apply Z.pow_le_mono_r; unfold unit_exp; lia].
Qed.
Lemma scaled_huge n : n ≤ 2 ^ 400 → n * unit_one < scaled 1 500.
Proof.
  intros Hn. pose proof unit_pos as HU. unfold scaled. rewrite Z.mul_1_l, Z.pow_add_r by (unfold unit_exp; lia). fold unit_one.
  apply Z.mul_lt_mono_pos_r; [done|]. eapply Z.le_lt_trans; [exact Hn|]. apply Z.pow_lt_mono_r; lia.
Qed.

Lemma canonical_nonneg x : canonical x → 0 ≤ sval x.
Proof.
  intros [->|(m & e & -> & He & _)]; [done|]. unfold sval, scaled. apply Z.mul_nonneg_nonneg; [lia|]. apply Z.pow_nonneg. lia.
Qed.

(** [Math.round] goes at most half a unit. *)
Lemma round_half x : canonical x → 2 * Z.abs (round_to_Z x * unit_one - sval x) ≤ unit_one.
Proof.
  pose proof unit_pos as HU. intros [->|(m & e & -> & He & _)]; [cbn; lia|]. cbn [round_to_Z sval]. unfold scaled.
  destruct (Z.leb_spec 0 e).
  - rewrite Z.pow_add_r by (unfold unit_exp; lia). fold unit_one. lia.
  - set (A := 2 ^ (- e)). set (H2 := 2 ^ (- e - 1)). set (P := 2 ^ (e + unit_exp)).
    assert (A = 2 * H2) as HA by (unfold A, H2; rewrite <-Z.pow_succ_r by lia; f_equal; lia).
    assert (unit_one = A * P) as HU' by (unfold A, P, unit_one; rewrite <-Z.pow_add_r by (unfold unit_exp; lia); f_equal; lia).
    assert (0 < H2) by (apply Z.pow_pos_nonneg; lia). assert (0 < P) by (apply Z.pow_pos_nonneg; unfold unit_exp; lia).
    pose proof (Z.div_mod (Z.pos m + H2) A ltac:(lia)) as Hdm. pose proof (Z.mod_pos_bound (Z.pos m + H2) A ltac:(lia)).
    set (b := (Z.pos m + H2) / A) in *. rewrite HU'. replace (b * (A * P) - Z.pos m * P) with ((b * A - Z.pos m) * P) by lia.
    rewrite Z.abs_mul, (Z.abs_eq P) by lia. rewrite HA in *. nia.
Qed.

(** What the signed rounding of a negative number may be. *)
Lemma negative_forms p e : let x := binary_round 53 1024 true p e in
  x = S754_zero true ∨ x = S754_infinity true ∨ ∃ m e', x = S754_finite true m e'.
Proof.
  unfold binary_round. destruct (shl_align _ _ _) as [mz ez]. unfold binary_round_aux.
  destruct (shr_fexp_spec (Z.pos mz) ez loc_Exact ltac:(lia)) as [H1 _].
  destruct (shr_fexp 53 1024 (Z.pos mz) ez loc_Exact) as [mrs1 e1]. cbn [fst] in H1.
  set (r := round_nearest_even _ _). assert (0 ≤ r) as Hr.
  { assert (0 ≤ shr_m mrs1) by (rewrite H1; apply Z.div_pos; [lia|]; apply Z.pow_pos_nonneg; [lia|apply shift_of_nonneg]).
    unfold r. destruct (round_even_near (shr_m mrs1) (loc_of_shr_record mrs1)) as [-> | ->]; lia. }
  destruct (shr_fexp_spec r e1 loc_Exact Hr) as [H2 _]. destruct (shr_fexp 53 1024 r e1 loc_Exact) as [mrs2 e2]. cbn [fst] in H2.
  assert (0 ≤ shr_m mrs2) by (rewrite H2; apply Z.div_pos; [lia|]; apply Z.pow_pos_nonneg; [lia|apply shift_of_nonneg]).
  destruct (shr_m mrs2); [by left| |lia]. destruct (e2 <=? _); [by eauto|by auto].
Qed.

Definition one : spec_float := S754_finite false 4503599627370496 (-52).
Lemma sval_one : sval one = unit_one.
Proof. unfold sval, one, scaled. change (Z.pos 4503599627370496) with (2 ^ 52). rewrite <-Z.pow_add_r by (unfold unit_exp; lia). reflexivity. Qed.

Lemma one_less m e : SFltb one (S754_finite false m e) = true → -1074 ≤ e → (2 ^ 52 ≤ Z.pos m ∨ e = -1074) →
  unit_one ≤ sval (S754_finite false m e).
Proof.
  rewrite <-sval_one. unfold one, SFltb, SFcompare. destruct (-52 ?= e) eqn:Ec; [| |done].
  - apply Z.compare_eq in Ec as <-. change (Pos.compare_cont Eq 4503599627370496 m) with (4503599627370496 ?= m)%positive.
    destruct (Pos.compare_spec 4503599627370496 m); [done| |done]. intros _ _ _. unfold sval, scaled.
    apply Z.mul_le_mono_nonneg_r; [apply Z.pow_nonneg; lia|lia].
  - apply (proj1 (Z.compare_lt_iff _ _)) in Ec. intros _ He [Hm|?]; [|lia]. unfold sval, scaled.
    apply Z.mul_le_mono_nonneg; [lia|lia|apply Z.pow_nonneg; lia|]. apply Z.pow_le_mono_r; lia.
Qed.

(** [Math.min(Math.max(r, 0), 1)] *)
Definition clamp (r : spec_float) : spec_float := f64_min (f64_max r (f64 0)) (f64 1).
Lemma clamp_canonical r : canonical r →
  canonical (clamp r) ∧ (clamp r = r ∨ clamp r = one ∧ unit_one ≤ sval r).
Proof.
  unfold clamp. change (f64 0) with (S754_zero false). change (f64 1) with one.
  intros Hr. pose proof Hr as [->|(m & e & -> & He & Hm & Hmin)]; [by cbn; auto|].
  change (f64_max (S754_finite false m e) (S754_zero false)) with (S754_finite false m e). unfold f64_min.
  destruct (SFltb one (S754_finite false m e)) eqn:E; [|by auto]. split.
  - right. do 2 eexists. split; [done|]. split; [lia|]. split; [done|by left].
  - right. split; [done|]. by apply one_less.
Qed.
Lemma clamp_negative r : (r = S754_zero true ∨ r = S754_infinity true ∨ ∃ m e, r = S754_finite true m e) →
  clamp r = S754_zero true ∨ clamp r = S754_zero false.
Proof. intros [->|[->|(m & e & ->)]]; cbn; auto. Qed.

(** A product of a normal number and another is rounded once. *)
Lemma mul_close a ea m e : 2 ^ 52 ≤ Z.pos a → -60 ≤ ea ≤ 0 → -1074 ≤ e →
  scaled (Z.pos a * Z.pos m) (ea + e) < scaled 1 500 →
  let x := f64_mul (S754_finite false a ea) (S754_finite false m e) in let num := scaled (Z.pos a * Z.pos m) (ea + e) in
  canonical x ∧ 2 ^ 52 * Z.abs (sval x - num) ≤ num + 2 ^ 52 * scaled 1 (-1074).
Proof.
  intros Ha Hea He Hbig. cbn zeta. unfold f64_mul, SFmul. cbn [xorb]. rewrite Pos2Z.inj_mul.
  set (am := Z.pos a * Z.pos m) in *. assert (2 ^ 52 ≤ am) as Ham by (unfold am; nia).
  destruct (digits_bounds am ltac:(lia)) as [[_ Hd] _].
  assert (52 < Zdigits2 am) by (apply (Z.pow_lt_mono_r_iff 2); [lia|pose proof (digits_bounds am ltac:(lia)); lia|lia]).
  pose proof (round_close am (ea + e) loc_Exact (scaled am (ea + e)) 1) as Hc. cbv zeta in Hc. rewrite !Z.mul_1_r in Hc.
  apply Hc; try lia. split; [lia|]. unfold scaled. apply Z.mul_le_mono_nonneg_r; [apply Z.pow_nonneg; unfold unit_exp; lia|lia].
Qed.
