(* ===== verification/Entities.v ===== *)
(** * Rows of the database that several components share

    The user, wager and lyric entities (src/src/users/entities/user.entity.ts,
    src/src/tokens/entities/wager.entity.ts, src/src/lyrics/entities/lyrics.entity.ts),
    with their enumerations, and the part of the database the settlement code works
    on. *)

From S2P Require Import Prelude Amount.

(** ** Enumerations

    TypeScript string enumerations, which are strings at run time. *)

Module WagerStatus.
Definition PENDING : string := "pending".
Definition AWAITING_STAKES : string := "awaiting_stakes".
Definition STAKED : string := "staked".
Definition SETTLING : string := "settling".
Definition WON : string := "won".
Definition REFUNDED : string := "refunded".
Definition FAILED : string := "failed".
End WagerStatus.

Inductive SettlementKind := PAYOUT | REFUND.

Inductive Role := Admin | UserRole.
#[export] Instance Role_eq_dec : EqDecision Role.
Proof. solve_decision. Defined.

Inductive UserLevel :=
  | GOSSIP_ROOKIE | WORD_WHISPERER | LYRIC_SNIPER | BAR_GENIUS | GOSSIP_GURU.
#[export] Instance UserLevel_eq_dec : EqDecision UserLevel.
Proof. solve_decision. Defined.

(** ** Users

    Times are milliseconds since the epoch. *)
Record User := mkUser {
  u_id : string;
  u_email : string;
  u_username : string;
  u_name : option string;
  u_passwordHash : string;
  u_xp : Z;
  u_level : Z;
  u_levelTitle : UserLevel;
  u_lastLoginAt : option Z;
  u_role : Role;
  u_isActive : bool;
  u_tokenVersion : Z;
  u_stellarAddress : option string;
  u_stellarAddressVerifiedAt : option Z;
  u_emailVerifiedAt : option Z;
  u_mockBalance : Stroops;
}.
#[export] Instance User_settable : Settable User := λ u,
  mkUser (u_id u) (u_email u) (u_username u) (u_name u) (u_passwordHash u) (u_xp u)
    (u_level u) (u_levelTitle u) (u_lastLoginAt u) (u_role u) (u_isActive u)
    (u_tokenVersion u) (u_stellarAddress u) (u_stellarAddressVerifiedAt u)
    (u_emailVerifiedAt u) (u_mockBalance u).

(** A row with the column defaults of the entity. *)
Definition new_user (id email username passwordHash : string) : User :=
  mkUser id email username None passwordHash 0 1 GOSSIP_ROOKIE None UserRole true 0
    None None None "1000000000".

(** ** Wagers

    The columns of the entity that modelled code reads or writes; a property that is no
    column is not stored. *)
Record Wager := mkWager {
  w_id : string;
  w_sessionId : string;
  w_playerAId : string;
  w_playerBId : string;
  w_stakeStroops : Stroops;
  w_totalPotStroops : Stroops;
  w_status : string;
  w_winnerId : option string;
  w_settlementKind : option SettlementKind;
  w_intendedWinnerId : option string;
  w_settlementMode : string;
  w_escrowTxHash : option string;
  w_playerAStakeTxHash : option string;
  w_playerBStakeTxHash : option string;
  w_playerALatestStakeHash : option string;
  w_playerBLatestStakeHash : option string;
  w_settlementTxHash : option string;
  w_resultMessage : string;
  w_stakeDeadline : option Z;
  w_updatedAt : Z;
}.
#[export] Instance Wager_settable : Settable Wager := λ w,
  mkWager (w_id w) (w_sessionId w) (w_playerAId w) (w_playerBId w) (w_stakeStroops w)
    (w_totalPotStroops w) (w_status w) (w_winnerId w) (w_settlementKind w)
    (w_intendedWinnerId w) (w_settlementMode w) (w_escrowTxHash w) (w_playerAStakeTxHash w)
    (w_playerBStakeTxHash w) (w_playerALatestStakeHash w) (w_playerBLatestStakeHash w)
    (w_settlementTxHash w) (w_resultMessage w) (w_stakeDeadline w) (w_updatedAt w).

(** A row as [repository.create] makes it before any property is assigned: the
    column defaults of the entity. *)
Definition new_wager (sessionId : string) : Wager :=
  mkWager "" sessionId "" "" "" "" WagerStatus.PENDING None None None "mock"
    None None None None None None "" None 0.

(** ** Lyrics (lyrics/entities/lyrics.entity.ts)

    The relation to the user who added the row and the rights columns are left out. *)
Record Lyrics := mkLyrics {
  ly_id : Z;
  ly_artist : string;
  ly_artistAliases : list string;
  ly_lyricSnippet : string;
  ly_songTitle : string;
  ly_titleAliases : list string;
  ly_category : option string;
  ly_genre : string;
  ly_decade : string;
  ly_difficulty : Z;
  ly_isActive : bool;
  ly_timesUsed : Z;
  ly_source : string;
  ly_createdAt : Z;
  ly_updatedAt : Z;
}.
#[export] Instance Lyrics_settable : Settable Lyrics := λ l,
  mkLyrics (ly_id l) (ly_artist l) (ly_artistAliases l) (ly_lyricSnippet l) (ly_songTitle l)
    (ly_titleAliases l) (ly_category l) (ly_genre l) (ly_decade l) (ly_difficulty l)
    (ly_isActive l) (ly_timesUsed l) (ly_source l) (ly_createdAt l) (ly_updatedAt l).

(** What a guess names (game/dto/guess.dto.ts). *)
Inductive GuessType := ARTIST | SONG_TITLE.
#[export] Instance GuessType_eq_dec : EqDecision GuessType.
Proof. solve_decision. Defined.

(** ** The database of the settlement code

    [wagers] is keyed by its unique [sessionId], [users] by primary key.  [nonce]
    numbers the random values drawn so far; [ext] is the state of whatever the
    settlement backend talks to. *)
Record Db (X : Type) := mkDb {
  users : gmap string User;
  wagers : gmap string Wager;
  now : Z;
  nonce : nat;
  ext : X;
}.
Arguments mkDb {_} _ _ _ _ _.
Arguments users {_} _.
Arguments wagers {_} _.
Arguments now {_} _.
Arguments nonce {_} _.
Arguments ext {_} _.
#[export] Instance Db_settable {X} : Settable (Db X) := λ d,
  mkDb (users d) (wagers d) (now d) (nonce d) (ext d).

(** [manager.transaction(m)]: an exception rolls the rows back. *)
Definition transaction {X A} (m : M (Db X) A) : M (Db X) A := λ d,
  match m d with
  | (Ok a, d') => (Ok a, d')
  | (Err e, d') => (Err e, d' <| users := users d |> <| wagers := wagers d |>)
  end.

Definition find_wager {X} (sessionId : string) : M (Db X) (option Wager) :=
  gets (λ d, wagers d !! sessionId).
Definition find_user {X} (id : string) : M (Db X) (option User) :=
  gets (λ d, users d !! id).
Definition save_wager {X} (w : Wager) : M (Db X) unit :=
  modify (λ d, d <| wagers := <[w_sessionId w := w]> (wagers d) |>).

(** The labels of [wager_status_enum].  Writes of other labels are refused by the database; all but
    those of the mock settlement backend write labels of [WagerStatus]. *)
Definition wager_status_enum : list string :=
  [WagerStatus.PENDING; WagerStatus.AWAITING_STAKES; WagerStatus.STAKED; WagerStatus.SETTLING;
   WagerStatus.WON; WagerStatus.REFUNDED; WagerStatus.FAILED].
Definition not_a_status (label : string) : exn :=
  PlainError "QueryFailedError" ("invalid input value for enum wager_status_enum: " +:+ dq +:+ label +:+ dq).
Definition write_wager {X} (w : Wager) : M (Db X) unit :=
  if bool_decide (w_status w ∈ wager_status_enum) then save_wager w else throw (not_a_status (w_status w)).

Definition save_user {X} (u : User) : M (Db X) unit :=
  modify (λ d, d <| users := <[u_id u := u]> (users d) |>).
