(* ===== verification/TokenService.v ===== *)
(** * The settlement backend's interface (src/src/tokens/interfaces/token.interface.ts)

    [ITokenService] is the contract between the wager coordinator and whichever
    backend settles wagers: the in-database mock (file MockToken) or the escrow
    contract on Stellar (file StellarToken), whose client is in the file Escrow. *)

From S2P Require Import Prelude Amount Entities.

Module SettlementStatus.
Inductive t := PENDING_SIGNATURE | SUBMITTED | CONFIRMED | FAILED.
#[global] Instance eq_dec : EqDecision t.
Proof. solve_decision. Defined.
End SettlementStatus.

Record UnsignedTransaction := mkUnsigned {
  ut_xdr : string;
  ut_networkPassphrase : string;
  ut_hash : string;
}.

Record EscrowContext := mkCtx {
  ctx_sessionId : string;
  ctx_playerAId : string;
  ctx_playerBId : string;
  ctx_stake : Stroops;
}.

Record TokenTransactionResult := mkTtr {
  success : bool;
  status : SettlementStatus.t;
  txHash : option string;
  ledger : option Z;
  newBalance : option Stroops;
  unsignedTransaction : option UnsignedTransaction;
  message : option string;
}.

(** A message interpolated into another one: [`${result.message}`]. *)
Definition show_message (o : option string) : string := default "undefined" o.

(** The operations over a database with a backend state [X]. *)
Class ITokenService (X : Type) := {
  settlementMode : string;
  openEscrow : EscrowContext → M (Db X) TokenTransactionResult;
  stakeTokens : string → EscrowContext → M (Db X) TokenTransactionResult;
  confirmStake : string → string → EscrowContext → M (Db X) TokenTransactionResult;
  releaseToWinner : string → EscrowContext → M (Db X) TokenTransactionResult;
  refundEscrow : EscrowContext → M (Db X) TokenTransactionResult;
  getUserBalance : string → M (Db X) Stroops;
  hasSufficientTokens : string → Stroops → M (Db X) bool;
  reconcile : string → EscrowContext → M (Db X) TokenTransactionResult;
}.
