(* ===== verification/Common.v ===== *)
(** * Utilities every component shares (src/src/common/utils)

    [sanitizeForDisplay] of sanitize.util.ts: what happens to a player's text
    before it is logged or put into a message. *)

From S2P Require Import Prelude.
From Stdlib Require Import Ascii.

(** [/[\u0000-\u001F\u007F]/] *)
Definition is_control (c : ascii) : bool :=
  let n := Ascii.nat_of_ascii c in ((n <=? 31) || (n =? 127))%nat.

Definition sanitizeForDisplay (value : option string) : string :=
  if negb (truthy value) then ""
  else trim (string_filter (λ c, negb (is_control c)) (default "" value)).

(** ** Lemmas *)

Lemma string_forallb_filter p q s :
  string_forallb q s = true → string_forallb q (string_filter p s) = true.
Proof.
  induction s as [|c s IH]; [done|]. simpl. intros [Hc Hs]%andb_true_iff.
  destruct (p c); simpl; [rewrite Hc|]; auto.
Qed.

Lemma string_forallb_filtered p s : string_forallb p (string_filter p s) = true.
Proof. induction s as [|c s IH]; [done|]. simpl. destruct (p c) eqn:E; simpl; by rewrite ?E. Qed.

Lemma string_filter_all p s : string_forallb p s = true → string_filter p s = s.
Proof.
  induction s as [|c s IH]; [done|]. simpl. intros [-> Hs]%andb_true_iff. by rewrite IH.
Qed.

Lemma string_forallb_trim_start q s :
  string_forallb q s = true → string_forallb q (trim_start s) = true.
Proof.
  induction s as [|c s IH]; [done|]. simpl. intros [Hc Hs]%andb_true_iff.
  destruct (is_space c); [auto|]. simpl. by rewrite Hc.
Qed.

Lemma string_forallb_strip_end q p s :
  string_forallb q s = true → string_forallb q (strip_end p s) = true.
Proof.
  induction s as [|c s IH]; [done|]. simpl. intros [Hc Hs]%andb_true_iff.
  specialize (IH Hs). destruct (strip_end p s); [by destruct (p c); simpl; rewrite ?Hc|].
  simpl in *. by rewrite Hc.
Qed.

Lemma strip_end_idemp p s : strip_end p (strip_end p s) = strip_end p s.
Proof.
  induction s as [|c s IH]; [done|]. simpl. destruct (strip_end p s) as [|c' s'] eqn:E.
  - destruct (p c) eqn:Hc; [done|]. simpl. by rewrite Hc.
  - change (match strip_end p (String c' s') with
            | EmptyString => if p c then EmptyString else String c EmptyString
            | r => String c r end = String c (String c' s')).
    by rewrite IH.
Qed.

Lemma trim_start_fixed s : match trim_start s with
  | String c _ => is_space c = false | EmptyString => True end.
Proof. induction s as [|c s IH]; [done|]. simpl. by destruct (is_space c) eqn:E. Qed.

Lemma trim_start_id s : match s with String c _ => is_space c = false | EmptyString => True end →
  trim_start s = s.
Proof. destruct s as [|c s]; [done|]. simpl. by intros ->. Qed.

Lemma strip_end_head p s : match s with String c _ => p c = false | EmptyString => True end →
  match strip_end p s with String c _ => p c = false | EmptyString => True end.
Proof.
  destruct s as [|c s]; [done|]. simpl. intros Hc. by destruct (strip_end p s); [rewrite Hc|].
Qed.

Lemma trim_idemp s : trim (trim s) = trim s.
Proof.
  unfold trim. rewrite (trim_start_id (strip_end _ _)).
  - apply strip_end_idemp.
  - apply strip_end_head, trim_start_fixed.
Qed.

Lemma string_forallb_trim q s :
  string_forallb q s = true → string_forallb q (trim s) = true.
Proof. intros H. by apply string_forallb_strip_end, string_forallb_trim_start. Qed.

(** ** Properties *)

(** What is displayed holds no control character, so no line break can forge a
    log line, and displaying it again changes nothing. *)
Theorem sanitizeForDisplay_safe value :
  string_forallb (λ c, negb (is_control c)) (sanitizeForDisplay value) = true ∧
  sanitizeForDisplay (Some (sanitizeForDisplay value)) = sanitizeForDisplay value.
Proof.
  assert (string_forallb (λ c, negb (is_control c)) (sanitizeForDisplay value) = true) as Hsafe.
  { unfold sanitizeForDisplay. destruct (truthy value); [|done].
    apply string_forallb_trim, string_forallb_filtered. }
  split; [done|]. unfold sanitizeForDisplay at 1.
  destruct (truthy (Some (sanitizeForDisplay value))) eqn:E; simpl.
  - rewrite (string_filter_all _ _ Hsafe). unfold sanitizeForDisplay.
    destruct (truthy value); [apply trim_idemp|done].
  - by destruct (sanitizeForDisplay value).
Qed.
