(* ===== verification/MockToken.v ===== *)
(** * The in-database settlement backend (src/src/tokens/services/mock-token.service.ts)

    The service means to open a pot, have both players fund it and release or refund it as a
    whole, with the funds in the users table and the pot on the wagers row ([stake], [stakeHashA],
    [stakeHashB], status OPEN or SETTLED).  The entity has no such columns and its enumeration no
    such labels: these properties live on the object one call has loaded and nowhere else.  The
    file models every method on the table as it is, an abstract account of what is left of the
    service, and the proof that it is exactly that. *)

From S2P Require Import Prelude Decimal Amount Entities TokenService.

(** Property values the mock writes to the row's status. *)
Definition OPEN : string := "OPEN".
Definition SETTLED : string := "SETTLED".

(** ** The errors the service throws and catches itself *)

Definition InsufficientBalanceError (decimals : nat) (balance required : Stroops) : result exn :=
  b ← fromStroops decimals balance;
  r ← fromStroops decimals required;
  Ok (PlainError "InsufficientBalanceError"
        ("Insufficient balance: have " +:+ b +:+ ", need " +:+ r)).
Definition NoPotError (sessionId : string) : exn :=
  PlainError "NoPotError" ("No pot open for session " +:+ sessionId).
Definition PotSettledError : exn :=
  PlainError "PotSettledError" "This pot has already been settled".
Definition AlreadyStakedError : exn :=
  PlainError "AlreadyStakedError" "This player has already staked".
Definition BothMustStakeError : exn :=
  PlainError "BothMustStakeError" "Both players must stake before the pot can be released".

Definition error_class (e : exn) : string :=
  match e with PlainError c _ => c | _ => "HttpException" end.

(** [error instanceof C1 || ... || error instanceof Cn] *)
Definition instance_of (e : exn) (classes : list string) : bool :=
  bool_decide (error_class e ∈ classes).

(** A row as a call has loaded it, with the properties the service puts on the object. *)
Record LoadedWager := mkLoaded {
  lw_row : Wager;
  lw_stakeHashA : option string;
  lw_stakeHashB : option string;
}.
#[export] Instance LoadedWager_settable : Settable LoadedWager := λ w,
  mkLoaded (lw_row w) (lw_stakeHashA w) (lw_stakeHashB w).
(** [manager.save]: the columns, and no other property. *)
Definition save_loaded {X} (w : LoadedWager) : M (Db X) unit := write_wager (lw_row w).

Section MockTokenService.
Context {X : Type}.
(** [randomBytes(16).toString('hex')], by how many values were drawn before. *)
Variable randomHex : nat → string.
(** [getTokenDecimals()] *)
Variable decimals : nat.

Local Abbreviation M := (M (Db X)).

Definition failure (msg : string) : TokenTransactionResult :=
  mkTtr false SettlementStatus.FAILED None None None None (Some msg).

Definition fakeTxHash : M string :=
  n ← gets nonce;
  modify (λ d, d <| nonce := S (nonce d) |>);;
  mret ("mock_" +:+ randomHex n).

Definition lockUser (userId : string) : M User :=
  user ← find_user userId;
  require user (NotFound ("User with ID " +:+ userId +:+ " not found")).

(** What is loaded has no property but its columns. *)
Definition lockWager (sessionId : string) : M (option LoadedWager) :=
  wager ← find_wager sessionId;
  mret ((λ w, mkLoaded w None None) <$> wager).

Definition confirmed (hash : string) (balance : option Stroops) (msg : string) :
    TokenTransactionResult :=
  mkTtr true SettlementStatus.CONFIRMED (Some hash) None balance None (Some msg).

Definition openEscrow (context : EscrowContext) : M TokenTransactionResult :=
  existing ← find_wager (ctx_sessionId context);
  match existing with
  | Some _ => mret (failure ("A pot already exists for session " +:+ ctx_sessionId context))
  | None =>
      (* [create] keeps the columns of what it is given: not [stake], [stakeHashA] and [stakeHashB] *)
      write_wager (new_wager (ctx_sessionId context)
        <| w_playerAId := ctx_playerAId context |>
        <| w_playerBId := ctx_playerBId context |>
        <| w_status := OPEN |>);;
      hash ← fakeTxHash;
      shown ← lift (fromStroops decimals (ctx_stake context));
      mret (confirmed hash None ("Escrow opened for " +:+ shown +:+ " LYRIC per player"))
  end.

(** [if (!wager) throw ...; if (wager.status === 'SETTLED') throw ...] *)
Definition lockOpenPot (sessionId : string) : M LoadedWager :=
  wager ← lockWager sessionId;
  wager ← require wager (NoPotError sessionId);
  throw_if (w_status (lw_row wager) == SETTLED) PotSettledError;;
  mret wager.

Definition stakeTransaction (userId : string) (isPlayerA isPlayerB : bool)
    (context : EscrowContext) : M Stroops :=
  wager ← lockOpenPot (ctx_sessionId context);
  throw_if ((isPlayerA && truthy (lw_stakeHashA wager))
            || (isPlayerB && truthy (lw_stakeHashB wager))) AlreadyStakedError;;
  user ← lockUser userId;
  enough ← lift (isAtLeast (u_mockBalance user) (ctx_stake context));
  (if (enough : bool) then mret tt
   else e ← lift (InsufficientBalanceError decimals (u_mockBalance user) (ctx_stake context)); throw e);;
  balance ← lift (subtractStroops (u_mockBalance user) (ctx_stake context));
  save_user (user <| u_mockBalance := balance |>);;
  stakeHash ← fakeTxHash;
  save_loaded (if isPlayerA then wager <| lw_stakeHashA := Some stakeHash |>
               else wager <| lw_stakeHashB := Some stakeHash |>);;
  mret balance.

Definition stakeTokens (userId : string) (context : EscrowContext) : M TokenTransactionResult :=
  let isPlayerA := userId == ctx_playerAId context in
  let isPlayerB := userId == ctx_playerBId context in
  if negb isPlayerA && negb isPlayerB then mret (failure "User is not a player in this wager")
  else try_catch
    (newBalance ← transaction (stakeTransaction userId isPlayerA isPlayerB context);
     (* the debug line renders both amounts *)
     shown ← lift (fromStroops decimals (ctx_stake context));
     _ ← lift (fromStroops decimals newBalance);
     hash ← fakeTxHash;
     mret (confirmed hash (Some newBalance) ("Staked " +:+ shown +:+ " LYRIC")))
    (λ error,
       if instance_of error ["InsufficientBalanceError"; "NoPotError"; "PotSettledError";
            "AlreadyStakedError"]
       then mret (failure (exn_message error))
       else mret (failure ("Failed to stake: " +:+ exn_message error))).

Definition confirmStake : M TokenTransactionResult :=
  mret (failure
    "The mock settlement backend signs stakes itself; there is nothing to confirm").

Definition releaseTransaction (winnerId : string) (payout : Stroops) (context : EscrowContext) :
    M Stroops :=
  wager ← lockOpenPot (ctx_sessionId context);
  throw_if (negb (truthy (lw_stakeHashA wager))
            || negb (truthy (lw_stakeHashB wager))) BothMustStakeError;;
  winner ← lockUser winnerId;
  balance ← lift (addStroops (u_mockBalance winner) payout);
  save_user (winner <| u_mockBalance := balance |>);;
  save_loaded (wager <| lw_row := lw_row wager <| w_status := SETTLED |> |>);;
  mret balance.

Definition releaseToWinner (winnerId : string) (context : EscrowContext) :
    M TokenTransactionResult :=
  if negb (winnerId == ctx_playerAId context) && negb (winnerId == ctx_playerBId context)
  then mret (failure "The winner must be one of the wagering players")
  else
    payout ← lift (multiplyStroops (ctx_stake context) 2);
    try_catch
      (newBalance ← transaction (releaseTransaction winnerId payout context);
       hash ← fakeTxHash;
       shown ← lift (fromStroops decimals payout);
       mret (confirmed hash (Some newBalance) ("You won " +:+ shown +:+ " LYRIC!")))
      (λ error,
         if instance_of error ["NoPotError"; "PotSettledError"; "BothMustStakeError"]
         then mret (failure (exn_message error))
         else mret (failure ("Failed to release the pot: " +:+ exn_message error))).

(** One iteration of the refund loop. *)
Definition refundUser (context : EscrowContext) (userId : string) : M unit :=
  user ← lockUser userId;
  balance ← lift (addStroops (u_mockBalance user) (ctx_stake context));
  save_user (user <| u_mockBalance := balance |>).

Definition refundTransaction (context : EscrowContext) : M Z :=
  wager ← lockOpenPot (ctx_sessionId context);
  let refunds :=
    (if truthy (lw_stakeHashA wager) then [ctx_playerAId context] else []) ++
    (if truthy (lw_stakeHashB wager) then [ctx_playerBId context] else []) in
  for_each (refundUser context) refunds;;
  save_loaded (wager <| lw_stakeHashA := None |> <| lw_stakeHashB := None |>
    <| lw_row := lw_row wager <| w_status := SETTLED |> |>);;
  mret (Z.of_nat (length refunds)).

Definition refundEscrow (context : EscrowContext) : M TokenTransactionResult :=
  try_catch
    (refunded ← transaction (refundTransaction context);
     hash ← fakeTxHash;
     shown ← lift (fromStroops decimals (ctx_stake context));
     mret (confirmed hash None
       ("Refunded " +:+ shown +:+ " LYRIC to " +:+ show refunded +:+ " player(s)")))
    (λ error,
       if instance_of error ["NoPotError"; "PotSettledError"]
       then mret (failure (exn_message error))
       else mret (failure ("Failed to refund: " +:+ exn_message error))).

Definition getUserBalance (userId : string) : M Stroops :=
  user ← find_user userId;
  user ← require user (NotFound ("User with ID " +:+ userId +:+ " not found"));
  mret (u_mockBalance user).

Definition hasSufficientTokens (userId : string) (amount : Stroops) : M bool :=
  user ← find_user userId;
  match user with
  | None => mret false
  | Some user => lift (isAtLeast (u_mockBalance user) amount)
  end.

#[export] Instance mock_token_service : ITokenService X := {|
  TokenService.settlementMode := "mock";
  TokenService.openEscrow := openEscrow;
  TokenService.stakeTokens := stakeTokens;
  TokenService.confirmStake := λ _ _ _, confirmStake;
  TokenService.releaseToWinner := releaseToWinner;
  TokenService.refundEscrow := refundEscrow;
  TokenService.getUserBalance := getUserBalance;
  TokenService.hasSufficientTokens := hasSufficientTokens;
  (* [MockTokenService] declares no such method: the call is a TypeError *)
  TokenService.reconcile := λ _ _,
    throw (PlainError "TypeError" "this.tokenService.reconcile is not a function");
|}.
End MockTokenService.

(** ** What is left of the service

    Balances, and the sessions that have a row.  A stake is debited and forgotten; nothing is
    opened, released or refunded. *)

Module Purse.
Record t := mk { bal : gmap string Z; sessions : gset string }.
Inductive op := Open | Stake (userId : string) | Release (winnerId : string) | Refund.
Inductive answer := Accepted | Refused | Threw.
#[global] Instance answer_eq_dec : EqDecision answer.
Proof. solve_decision. Defined.

(** A stake is accepted whenever the player has the money, however often they have staked. *)
Definition apply (o : op) (ctx : EscrowContext) (L : t) : answer * t :=
  match o with
  | Open => (if bool_decide (ctx_sessionId ctx ∈ sessions L) then Refused else Threw, L)
  | Stake u =>
      if negb (u == ctx_playerAId ctx) && negb (u == ctx_playerBId ctx) then (Refused, L)
      else if negb (bool_decide (ctx_sessionId ctx ∈ sessions L)) then (Refused, L)
      else match bal L !! u with
      | Some b => if b <? BigInt (ctx_stake ctx) then (Refused, L)
                  else (Accepted, mk (<[u := b - BigInt (ctx_stake ctx)]> (bal L)) (sessions L))
      | None => (Refused, L)
      end
  | Release _ | Refund => (Refused, L)
  end.
End Purse.

(** ** The service is that and no more *)

Section refinement.
Context {X : Type}.
Variable randomHex : nat → string.
Variable decimals : nat.
Local Abbreviation Db := (Db X).

Definition abs (d : Db) : Purse.t :=
  Purse.mk ((λ u, BigInt (u_mockBalance u)) <$> users d) (dom (wagers d)).

(** Rows as the database keeps them: keys agree with the stored ids, balances are whole amounts
    of an i128, and statuses are labels of the enumeration. *)
Record WF (d : Db) : Prop := {
  wf_user k u : users d !! k = Some u →
    u_id u = k ∧ toBigInt (u_mockBalance u) = Ok (BigInt (u_mockBalance u)) ∧ 0 ≤ BigInt (u_mockBalance u);
  wf_wager k w : wagers d !! k = Some w → w_sessionId w = k ∧ w_status w ∈ wager_status_enum;
}.

(** The context a caller passes. *)
Record valid_ctx (ctx : EscrowContext) : Prop := {
  vc_stake : toBigInt (ctx_stake ctx) = Ok (BigInt (ctx_stake ctx));
  vc_range : 0 < BigInt (ctx_stake ctx) ∧ BigInt (ctx_stake ctx) * 2 ≤ I128_MAX;
}.

Definition run_op (o : Purse.op) (ctx : EscrowContext) : M Db TokenTransactionResult :=
  match o with
  | Purse.Open => openEscrow randomHex decimals ctx
  | Purse.Stake u => stakeTokens randomHex decimals u ctx
  | Purse.Release u => releaseToWinner randomHex decimals u ctx
  | Purse.Refund => refundEscrow randomHex decimals ctx
  end.

Definition answers (r : result TokenTransactionResult) (a : Purse.answer) : Prop :=
  match a with
  | Purse.Accepted => ∃ t, r = Ok t ∧ success t = true
  | Purse.Refused => ∃ t, r = Ok t ∧ success t = false
  | Purse.Threw => r = Err (not_a_status OPEN)
  end.

#[local] Arguments fromStroops : simpl never.
#[local] Arguments isAtLeast : simpl never.
#[local] Arguments addStroops : simpl never.
#[local] Arguments subtractStroops : simpl never.
#[local] Arguments multiplyStroops : simpl never.
#[local] Arguments BigInt : simpl never.
#[local] Arguments toBigInt : simpl never.
#[local] Arguments show : simpl never.
#[local] Arguments bool_decide : simpl never.
#[local] Arguments fakeTxHash /.

Lemma open_not_a_label : OPEN ∉ wager_status_enum.
Proof. by apply (bool_decide_unpack _). Qed.
Lemma settled_not_a_label : SETTLED ∉ wager_status_enum.
Proof. by apply (bool_decide_unpack _). Qed.

Lemma write_open w (d : Db) : w_status w = OPEN → write_wager w d = (Err (not_a_status OPEN), d).
Proof. intros Hw. unfold write_wager. rewrite Hw, bool_decide_false by exact open_not_a_label. done. Qed.
Lemma write_settled w (d : Db) : w_status w = SETTLED → write_wager w d = (Err (not_a_status SETTLED), d).
Proof. intros Hw. unfold write_wager. rewrite Hw, bool_decide_false by exact settled_not_a_label. done. Qed.

(** Saving what was loaded changes nothing, whatever was put on the object. *)
Lemma save_unchanged w (d : Db) : w_status (lw_row w) ∈ wager_status_enum →
  wagers d !! w_sessionId (lw_row w) = Some (lw_row w) → save_loaded w d = (Ok tt, d).
Proof.
  intros Hs Hw. unfold save_loaded, write_wager.
  rewrite bool_decide_true by done. unfold save_wager, modify. rewrite insert_id by done. by destruct d.
Qed.

Lemma bind_lockUser {A} u (f : User → M Db A) (d : Db) :
  (lockUser u ≫= f) d =
  match users d !! u with
  | Some usr => f usr d
  | None => (Err (NotFound ("User with ID " +:+ u +:+ " not found")), d)
  end.
Proof. unfold lockUser, find_user. mrun. by destruct (users d !! u). Qed.

(** Locking finds the row of the session, never settled and with no stakes. *)
Lemma lockOpenPot_run sid (d : Db) : WF d →
  match wagers d !! sid with
  | Some w => lockOpenPot sid d = (Ok (mkLoaded w None None), d)
  | None => lockOpenPot sid d = (Err (NoPotError sid), d)
  end.
Proof.
  intros HWF. unfold lockOpenPot, lockWager, find_wager. mrun. destruct (wagers d !! sid) as [w|] eqn:Hw; cbn [fmap option_fmap option_map]; [|done].
  mrun. cbn [lw_row]. rewrite bool_decide_false; [done|]. intros Hs. destruct (wf_wager d HWF _ _ Hw) as [_ Hin].
  rewrite Hs in Hin. by apply settled_not_a_label in Hin.
Qed.

(** A transaction that throws leaves the rows, and its error becomes a reply. *)
Lemma refused_reply {A} (m : M Db A) k h (d : Db) : WF d → (∃ e, m d = (Err e, d)) →
  (∀ e d', ∃ t, h e d' = (Ok t, d') ∧ success t = false) →
  ∃ r d', try_catch (transaction m ≫= k) h d = (r, d') ∧ WF d' ∧ wagers d' = wagers d ∧ ext d' = ext d ∧
    answers r Purse.Refused ∧ abs d' = abs d.
Proof.
  intros HWF [e Hm] Hh. destruct (Hh e d) as (t & Ht & Hs). exists (Ok t), d. split; [|split_and!; try done; by exists t].
  erewrite try_catch_err; [exact Ht|]. apply bind_run_err. unfold transaction. rewrite Hm. by destruct d.
Qed.
Ltac refused := apply refused_reply; [done|eauto|intros e' d'; case_match; by eexists].

Lemma stake_tx u ctx (d : Db) : WF d → valid_ctx ctx →
  let m := stakeTransaction randomHex decimals u (u == ctx_playerAId ctx) (u == ctx_playerBId ctx) ctx in
  match wagers d !! ctx_sessionId ctx, users d !! u with
  | Some _, Some usr =>
      let b := BigInt (u_mockBalance usr) - BigInt (ctx_stake ctx) in
      if b <? 0 then ∃ e, m d = (Err e, d)
      else m d = (Ok (show b), d <| users := <[u := usr <| u_mockBalance := show b |>]> (users d) |> <| nonce := S (nonce d) |>)
  | _, _ => ∃ e, m d = (Err e, d)
  end.
Proof.
  intros HWF [Hs Hrange]. cbv zeta. pose proof (lockOpenPot_run (ctx_sessionId ctx) d HWF) as Hlock. unfold stakeTransaction.
  destruct (wagers d !! ctx_sessionId ctx) as [w|] eqn:Hw; [|eexists; by apply bind_run_err].
  rewrite (bind_run _ _ _ _ _ Hlock). cbn [lw_stakeHashA lw_stakeHashB truthy]. rewrite !andb_false_r, bind_throw_if, bind_lockUser.
  cbn [orb]. destruct (users d !! u) as [usr|] eqn:Hu; [|by eexists].
  destruct (wf_user d HWF u usr Hu) as (Hid & Hb & Hb0). pose proof (isAtLeast_ok _ _ _ _ Hb Hs) as Hal. mrun.
  destruct (wf_wager d HWF _ _ Hw) as [Hsid Hst].
  destruct (Z.ltb_spec (BigInt (u_mockBalance usr) - BigInt (ctx_stake ctx)) 0) as [Hlt|Hge].
  - rewrite (proj2 (Z.leb_gt _ _)) by lia. unfold InsufficientBalanceError.
    destruct (fromStroops_total decimals _ _ Hb) as [? ->], (fromStroops_total decimals _ _ Hs) as [? ->]. by eexists.
  - rewrite (proj2 (Z.leb_le _ _)) by lia. pose proof (subtractStroops_ok _ _ _ _ Hb Hs) as Hsub.
    unfold save_user, fakeTxHash. mrun. erewrite bind_run; [|apply save_unchanged].
    + cbn. by rewrite Hid.
    + by destruct (u == ctx_playerAId ctx).
    + destruct (u == ctx_playerAId ctx); cbn; by rewrite Hsid.
Qed.

Lemma WF_debit u usr b n (d : Db) : WF d → users d !! u = Some usr → 0 ≤ b ≤ I128_MAX →
  WF (d <| users := <[u := usr <| u_mockBalance := show b |>]> (users d) |> <| nonce := n |>).
Proof.
  intros HWF Hu Hb. destruct (wf_user d HWF u usr Hu) as (Hid & _). constructor; [|exact (wf_wager d HWF)].
  intros k u'. cbn. intros [[<- <-]|[Hne H]]%lookup_insert_Some; [|by apply (wf_user d HWF)]. cbn.
  destruct (show_spec b) as [_ Hv]. rewrite Hv. split_and!; [done| |lia]. apply toBigInt_show, in_i128_iff. unfold I128_MIN. lia.
Qed.

Lemma stake_outcome u ctx (d : Db) : WF d → valid_ctx ctx →
  ∃ r d', stakeTokens randomHex decimals u ctx d = (r, d') ∧ WF d' ∧ wagers d' = wagers d ∧ ext d' = ext d ∧
    answers r (Purse.apply (Purse.Stake u) ctx (abs d)).1 ∧ abs d' = (Purse.apply (Purse.Stake u) ctx (abs d)).2.
Proof.
  intros HWF HV. pose proof (stake_tx u ctx d HWF HV) as Htx. cbv zeta in Htx. destruct HV as [Hs Hrange].
  unfold stakeTokens, Purse.apply. destruct (negb (u == ctx_playerAId ctx) && negb (u == ctx_playerBId ctx)).
  { eexists _, d. split; [reflexivity|]. split_and!; try done. by eexists. }
  cbn [Purse.sessions Purse.bal abs]. rewrite lookup_fmap.
  destruct (wagers d !! ctx_sessionId ctx) as [w|] eqn:Hw.
  2:{ rewrite (bool_decide_false (ctx_sessionId ctx ∈ dom (wagers d))) by by apply not_elem_of_dom. cbn [negb]. refused. }
  rewrite (bool_decide_true (ctx_sessionId ctx ∈ dom (wagers d))) by by apply elem_of_dom. cbn [negb].
  destruct (users d !! u) as [usr|] eqn:Hu; cbn [fmap option_fmap option_map]; [|refused].
  destruct (wf_user d HWF u usr Hu) as (Hid & Hb & Hb0).
  destruct (Z.ltb_spec (BigInt (u_mockBalance usr) - BigInt (ctx_stake ctx)) 0) as [Hlt|Hge].
  { rewrite (proj2 (Z.ltb_lt _ _)) by lia. refused. }
  rewrite (proj2 (Z.ltb_ge _ _)) by lia. set (b := BigInt (u_mockBalance usr) - BigInt (ctx_stake ctx)) in *.
  assert (b ≤ I128_MAX) as Hmax by (apply toBigInt_in_i128 in Hb as [Hb%in_i128_iff _]; unfold b; lia).
  destruct (fromStroops_total decimals _ _ Hs) as [shown Hsh].
  destruct (fromStroops_total decimals (show b) b) as [shown2 Hsh2]; [apply toBigInt_show, in_i128_iff; unfold I128_MIN; lia|].
  eexists _, _. split.
  { apply try_catch_ok. erewrite bind_run; [|unfold transaction; rewrite Htx; reflexivity]. unfold fakeTxHash. mrun. reflexivity. }
  split; [exact (WF_debit u usr b _ d HWF Hu (conj Hge Hmax))|]. split_and!; try done; [by eexists|].
  unfold abs. cbn. rewrite fmap_insert. cbn. by rewrite (proj2 (show_spec b)).
Qed.

Lemma call_outcome o ctx (d : Db) : WF d → valid_ctx ctx →
  ∃ r d', run_op o ctx d = (r, d') ∧ WF d' ∧ wagers d' = wagers d ∧ ext d' = ext d ∧
    answers r (Purse.apply o ctx (abs d)).1 ∧ abs d' = (Purse.apply o ctx (abs d)).2.
Proof.
  intros HWF HV. destruct o as [|u|u|]; cbn [run_op]; [| |cbn [Purse.apply fst snd]..].
  - unfold openEscrow, find_wager. mrun. cbn [Purse.apply Purse.sessions abs].
    destruct (wagers d !! ctx_sessionId ctx) as [w|] eqn:Hw.
    + rewrite (bool_decide_true (ctx_sessionId ctx ∈ dom (wagers d))) by by apply elem_of_dom. eexists _, d. split; [reflexivity|]. split_and!; try done. by eexists.
    + rewrite (bool_decide_false (ctx_sessionId ctx ∈ dom (wagers d))) by by apply not_elem_of_dom. eexists _, d. split; [by apply bind_run_err, write_open|]. by split_and!.
  - by apply stake_outcome.
  - unfold releaseToWinner. destruct (negb _ && negb _); [eexists _, d; split; [reflexivity|]; split_and!; try done; by eexists|].
    destruct HV as [Hs Hrange]. pose proof (multiplyStroops_ok _ _ Hs 2) as Hmul. mrun.
    assert (∃ e, releaseTransaction u (show (BigInt (ctx_stake ctx) * 2)) ctx d = (Err e, d)) as He.
    { unfold releaseTransaction. pose proof (lockOpenPot_run (ctx_sessionId ctx) d HWF) as Hlock.
      destruct (wagers d !! ctx_sessionId ctx); [rewrite (bind_run _ _ _ _ _ Hlock); by eexists|eexists; by apply bind_run_err]. }
    refused.
  - unfold refundEscrow.
    assert (∃ e, refundTransaction ctx d = (Err e, d)) as He.
    { unfold refundTransaction. pose proof (lockOpenPot_run (ctx_sessionId ctx) d HWF) as Hlock.
      destruct (wagers d !! ctx_sessionId ctx); [|eexists; by apply bind_run_err]. rewrite (bind_run _ _ _ _ _ Hlock).
      eexists. erewrite bind_run; [|reflexivity]. apply bind_run_err. unfold save_loaded. by apply write_settled. }
    refused.
Qed.

(** C1. What the mock settlement backend does on the table as it is, call by call: opening a pot is refused when the
    session has a row and otherwise throws, since OPEN is no status; a stake is accepted exactly when the session has a row and
    the player the money, is debited, and leaves no other trace, so that it is accepted again; releasing and refunding are
    always refused and pay nobody.  No row of a wager ever changes. *)
Theorem mock_keeps_no_pot o ctx (d : Db) : WF d → valid_ctx ctx →
  ∃ r d', run_op o ctx d = (r, d') ∧ WF d' ∧ wagers d' = wagers d ∧ ext d' = ext d ∧
    answers r (Purse.apply o ctx (abs d)).1 ∧ abs d' = (Purse.apply o ctx (abs d)).2.
Proof. exact (call_outcome o ctx d). Qed.

(** ** Runs: any calls, in any order, on any sessions *)

Fixpoint calls (cs : list (Purse.op * EscrowContext)) (d : Db) : list (Purse.op * EscrowContext * result TokenTransactionResult) * Db :=
  match cs with
  | [] => ([], d)
  | (o, ctx) :: cs =>
      let '(r, d1) := run_op o ctx d in
      let '(log, d') := calls cs d1 in ((o, ctx, r) :: log, d')
  end.

Definition succeeded (r : result TokenTransactionResult) : bool := match r with Ok t => success t | Err _ => false end.
(** What a player was told they staked. *)
Fixpoint staked (k : string) (log : list (Purse.op * EscrowContext * result TokenTransactionResult)) : Z :=
  match log with
  | [] => 0
  | (Purse.Stake u, ctx, r) :: log => (if (u == k) && succeeded r then BigInt (ctx_stake ctx) else 0) + staked k log
  | _ :: log => staked k log
  end.

Lemma answers_succeeded r a : answers r a → succeeded r = bool_decide (a = Purse.Accepted).
Proof. destruct a; cbn; [intros (t & -> & Hs)|intros (t & -> & Hs)|intros ->]; cbn; rewrite ?Hs; done. Qed.

Lemma apply_accepted o ctx L : (Purse.apply o ctx L).1 = Purse.Accepted → ∃ u, o = Purse.Stake u.
Proof. destruct o as [|u|u|]; cbn; [by case_match|by exists u|done..]. Qed.

(** A call lowers the balance of who staked by the stake, and no other. *)
Lemma apply_balance o ctx L k b : Purse.bal L !! k = Some b →
  Purse.bal (Purse.apply o ctx L).2 !! k =
    Some (b - match o with Purse.Stake u => if (u == k) && bool_decide ((Purse.apply o ctx L).1 = Purse.Accepted) then BigInt (ctx_stake ctx) else 0 | _ => 0 end).
Proof.
  intros Hk. destruct o as [|u|u|]; cbn [Purse.apply fst snd]; rewrite ?Z.sub_0_r; try done.
  destruct (negb _ && negb _); cbn; [by rewrite andb_false_r, Z.sub_0_r|].
  destruct (negb _); cbn; [by rewrite andb_false_r, Z.sub_0_r|].
  destruct (Purse.bal L !! u) as [b'|] eqn:Hu; cbn; [|by rewrite andb_false_r, Z.sub_0_r].
  destruct (b' <? _); cbn; [by rewrite andb_false_r, Z.sub_0_r|]. rewrite andb_true_r.
  destruct (decide (u = k)) as [->|Hne].
  - rewrite lookup_insert_eq, bool_decide_true by done. by simplify_eq.
  - rewrite lookup_insert_ne, bool_decide_false by done. by rewrite Z.sub_0_r.
Qed.

(** C2. Over any calls, whatever they are answered, the mock backend only takes: a player ends with what they had less all
    the stakes that were accepted from them, only stakes are ever accepted, and the rows of the wagers are those of the
    beginning, so that no later call could know of a stake. *)
Theorem mock_only_takes cs (d : Db) : WF d → Forall (λ c, valid_ctx c.2) cs →
  let '(log, d') := calls cs d in
  WF d' ∧ wagers d' = wagers d ∧
  (∀ k b, Purse.bal (abs d) !! k = Some b → Purse.bal (abs d') !! k = Some (b - staked k log)) ∧
  (∀ o ctx r, (o, ctx, r) ∈ log → succeeded r = true → ∃ u, o = Purse.Stake u).
Proof.
  revert d. induction cs as [|[o ctx] cs IH]; intros d HWF Hcs; cbn [calls staked].
  { split; [done|]. split; [done|]. split; [intros k b Hb; by rewrite Z.sub_0_r|]. intros o ctx r Hin; by apply elem_of_nil in Hin. }
  inversion_clear Hcs as [|c cs' HV Hcs']. destruct (call_outcome o ctx d HWF HV) as (r & d1 & Hrun & HWF1 & Hw1 & _ & Hr & Habs).
  rewrite Hrun. specialize (IH d1 HWF1 Hcs'). destruct (calls cs d1) as [log d']. destruct IH as (HWF' & Hw' & Hbal & Hlog).
  split; [done|]. split; [congruence|]. split.
  - intros k b Hb. pose proof (apply_balance o ctx _ k b Hb) as Hb1. rewrite <-Habs in Hb1.
    rewrite (Hbal _ _ Hb1). rewrite <-(answers_succeeded _ _ Hr). destruct o; cbn [staked]; f_equal; lia.
  - intros o' ctx' r' [[= -> -> ->]|Hin]%elem_of_cons Hs; [|by eapply Hlog].
    rewrite (answers_succeeded _ _ Hr), bool_decide_eq_true in Hs. by apply apply_accepted in Hs.
Qed.
End refinement.

(** ** Witnesses: two players and the row of a wager *)

Definition ex_user (id : string) (balance : Stroops) : User :=
  new_user id "" id "" <| u_mockBalance := balance |>.
Definition ex_ctx : EscrowContext := mkCtx "s" "a" "b" "10".
Definition ex_db : Db unit :=
  mkDb (<["a" := ex_user "a" "90"]> (<["b" := ex_user "b" "100"]> ∅)) (<["s" := new_wager "s"]> ∅) 0 0 ().
Definition ex_hex (_ : nat) : string := "0".

Lemma ex_WF : WF ex_db.
Proof.
  constructor.
  - intros k u. cbn. intros [[<- <-]|[_ [[<- <-]|[_ H]]%lookup_insert_Some]]%lookup_insert_Some.
    1, 2: by split_and!; [done|vm_compute|vm_compute].
    done.
  - intros k w. cbn. intros [[<- <-]|[_ H]]%lookup_insert_Some; [|done]. split; [done|]. by apply (bool_decide_unpack _).
Qed.
Lemma ex_valid : valid_ctx ex_ctx.
Proof. by constructor; vm_compute. Qed.

(** Player B stakes: the balance drops by the stake. *)
Lemma mock_keeps_no_pot_witness :
  ∃ r d', run_op ex_hex 7 (Purse.Stake "b") ex_ctx ex_db = (r, d') ∧ answers r Purse.Accepted ∧ Purse.bal (abs d') !! "b" = Some 90.
Proof.
  destruct (mock_keeps_no_pot ex_hex 7 (Purse.Stake "b") ex_ctx ex_db ex_WF ex_valid) as (r & d' & Hrun & _ & _ & _ & Hr & Habs).
  exists r, d'. split; [exact Hrun|]. split; [exact Hr|]. rewrite Habs. by vm_compute.
Defined.

(** Both stake, B a second time; the winner is not paid, nobody is refunded. *)
Definition ex_calls : list (Purse.op * EscrowContext) :=
  [(Purse.Open, ex_ctx); (Purse.Stake "a", ex_ctx); (Purse.Stake "b", ex_ctx); (Purse.Stake "b", ex_ctx);
   (Purse.Release "a", ex_ctx); (Purse.Refund, ex_ctx)].
Lemma mock_only_takes_witness :
  ∃ log d', calls ex_hex 7 ex_calls ex_db = (log, d') ∧ staked "b" log = 20 ∧ Purse.bal (abs d') !! "b" = Some 80.
Proof.
  pose proof (mock_only_takes ex_hex 7 ex_calls ex_db ex_WF) as H.
  assert (staked "b" (calls ex_hex 7 ex_calls ex_db).1 = 20) as Hs by (by vm_compute).
  destruct (calls ex_hex 7 ex_calls ex_db) as [log d']. destruct H as (_ & _ & Hb & _); [unfold ex_calls; repeat (apply Forall_cons_2; [exact ex_valid|]); apply Forall_nil_2|].
  exists log, d'. split; [done|]. split; [done|]. specialize (Hb "b" 100 eq_refl). cbn [fst] in Hs. by rewrite Hs in Hb.
Defined.
