(* ===== verification/WagerService.v ===== *)
(** * The wager coordinator (src/src/tokens/services/wager.service.ts)

    [WagerService] moves a wager's row and its pot together: it commits its
    intent, calls the settlement backend outside any transaction and commits the
    outcome.  The file models [createWager], [acceptWager] and [confirmStake]
    over any backend, a guard that says when the backend may be called, and
    what becomes of the coordinator over the mock backend.

    The source ends after [confirmStake]; the private methods it calls and does
    not define ([requireUser], [requireWager], [markFailed], [contextFor]) are
    arguments here, with their documented behaviour as hypotheses. *)

From S2P Require Import Prelude Decimal Amount Entities Common MockToken TokenService.

Record CreateWagerDto := mkCreateWager {
  cw_sessionId : string;
  cw_playerAId : string;
  cw_playerBId : string;
  cw_stake : Stroops;
}.

Record WagerResult := mkWr {
  wr_success : bool;
  wr_wager : option Wager;
  wr_message : option string;
  wr_pendingSignatures : list (string * option UnsignedTransaction);
}.

(** The private methods missing from the source.  [markFailed] assigns to the row
    object it is given; the model returns the object. *)
Class WagerRows (X : Type) := {
  requireUser : string → string → M (Db X) User;
  requireWager : string → M (Db X) Wager;
  markFailed : Wager → string → M (Db X) Wager;
  contextFor : Wager → EscrowContext;
}.

(** [a ?? b] *)
Definition nullish {A} (a b : option A) : option A := match a with Some _ => a | None => b end.

Section WagerService.
Context {X : Type} {rows : WagerRows X} {T : ITokenService X}.
Variable decimals : nat.
(** [configService.get('WAGER_STAKE_DEADLINE_MINUTES')] *)
Variable deadlineMinutes : option Z.

Local Abbreviation M := (M (Db X)).

Definition stakeDeadlineMs : Z := default 15 deadlineMinutes * 60000.

Definition refused (msg : option string) : WagerResult := mkWr false None msg [].

Definition insufficient (username : string) (stake : Stroops) : result string :=
  shown ← fromStroops decimals stake;
  Ok (sanitizeForDisplay (Some username) +:+ " has insufficient LYRIC for this wager (" +:+
      shown +:+ " required)").

(** The body of the [try] of [createWager], once the stake is known. *)
Definition createWagerBody (sessionId playerAId playerBId : string) (stake : Stroops) :
    M WagerResult :=
  let context := mkCtx sessionId playerAId playerBId stake in
  playerA ← requireUser playerAId "Player A";
  playerB ← requireUser playerBId "Player B";
  if playerAId == playerBId then
    mret (refused (Some "A player cannot wager against themselves")) else
  existingWager ← find_wager sessionId;
  if existingWager is Some _ then
    mret (refused (Some "Wager already exists for this session")) else
  playerAFunded ← hasSufficientTokens playerAId stake;
  playerBFunded ← hasSufficientTokens playerBId stake;
  if negb playerAFunded then
    msg ← lift (insufficient (u_username playerA) stake); mret (refused (Some msg)) else
  if negb playerBFunded then
    msg ← lift (insufficient (u_username playerB) stake); mret (refused (Some msg)) else
  (* step 1: record the intent *)
  total ← lift (multiplyStroops stake 2);
  let wager := new_wager sessionId
    <| w_playerAId := playerAId |> <| w_playerBId := playerBId |>
    <| w_stakeStroops := stake |> <| w_totalPotStroops := total |>
    <| w_status := WagerStatus.PENDING |> <| w_settlementMode := settlementMode |> in
  save_wager wager;;
  (* step 2: open the pot *)
  escrowResult ← openEscrow context;
  if negb (success escrowResult) then
    markFailed wager ("Could not open escrow: " +:+ show_message (message escrowResult));;
    mret (refused (message escrowResult)) else
  let wager := wager <| w_escrowTxHash := txHash escrowResult |>
    <| w_status := WagerStatus.AWAITING_STAKES |> in
  save_wager wager;;
  (* step 3: stake player one *)
  stakeA ← stakeTokens playerAId context;
  match status stakeA with
  | SettlementStatus.PENDING_SIGNATURE =>
      time ← gets now;
      let wager := wager
        <| w_playerALatestStakeHash := ut_hash <$> unsignedTransaction stakeA |>
        <| w_stakeDeadline := Some (time + stakeDeadlineMs) |>
        <| w_resultMessage := "Sign your stake transaction in your wallet. Player two stakes when they accept." |> in
      save_wager wager;;
      mret (mkWr true (Some wager) (Some (w_resultMessage wager))
              [(playerAId, unsignedTransaction stakeA)])
  | _ =>
      if negb (success stakeA) then
        refund ← refundEscrow context;
        wager ← markFailed wager
          ("Staking failed (" +:+ show_message (message stakeA) +:+ "). " +:+
           (if success refund then "Any stake that landed has been refunded."
            else "Refund also failed: " +:+ show_message (message refund) +:+
                 ". Needs operator attention."));
        mret (mkWr false (Some wager) (Some (w_resultMessage wager)) [])
      else
        shown ← lift (fromStroops decimals stake);
        let wager := wager <| w_playerAStakeTxHash := txHash stakeA |>
          <| w_resultMessage := "You staked " +:+ shown +:+
               " LYRIC. Waiting for your opponent to accept." |> in
        save_wager wager;;
        mret (mkWr true (Some wager) (Some (w_resultMessage wager)) [])
  end.

Definition createWager (dto : CreateWagerDto) : M WagerResult :=
  match assertPositiveStroops (cw_stake dto) "Stake" with
  | Err error => mret (refused (Some (exn_message error)))
  | Ok stake =>
      (* the debug line renders the stake outside the [try] *)
      _ ← lift (fromStroops decimals stake);
      try_catch (createWagerBody (cw_sessionId dto) (cw_playerAId dto) (cw_playerBId dto) stake)
        (λ error, mret (refused (Some ("Failed to create wager: " +:+ exn_message error))))
  end.

Definition acceptWager (sessionId userId : string) : M WagerResult :=
  wager ← requireWager sessionId;
  throw_if (negb (userId == w_playerBId wager))
    (BadRequest "Only the invited player can accept");;
  if negb (w_status wager == WagerStatus.AWAITING_STAKES) || truthy (w_playerBStakeTxHash wager)
  then mret (mkWr false (Some wager)
         (Some ("This wager is not awaiting your stake (status: " +:+ w_status wager +:+ ")")) [])
  else
    stakeB ← stakeTokens userId (contextFor wager);
    match status stakeB with
    | SettlementStatus.PENDING_SIGNATURE =>
        mret (mkWr true (Some wager) (message stakeB) [(userId, unsignedTransaction stakeB)])
    | _ =>
        if negb (success stakeB) then mret (mkWr false (Some wager) (message stakeB) []) else
        let wager := wager <| w_playerBStakeTxHash := txHash stakeB |> in
        wager ← (if truthy (w_playerAStakeTxHash wager) then
                   pot ← lift (fromStroops decimals (w_totalPotStroops wager));
                   mret (wager <| w_status := WagerStatus.STAKED |>
                     <| w_resultMessage := "Wager on! Pot: " +:+ pot +:+ " LYRIC" |>)
                 else mret (wager <| w_resultMessage :=
                   "Stake confirmed. Waiting for your opponent to sign theirs." |>));
        save_wager wager;;
        mret (mkWr true (Some wager) (Some (w_resultMessage wager)) [])
    end.

Definition expectedHash (wager : Wager) (userId : string) : option string :=
  if userId == w_playerAId wager then w_playerALatestStakeHash wager
  else w_playerBLatestStakeHash wager.

Definition confirmStake (sessionId userId signedXdr : string) : M WagerResult :=
  wager ← requireWager sessionId;
  if negb (w_status wager == WagerStatus.AWAITING_STAKES) then
    mret (mkWr false (Some wager)
      (Some ("This wager is not awaiting stakes (status: " +:+ w_status wager +:+ ")")) [])
  else
    throw_if (negb (userId == w_playerAId wager) && negb (userId == w_playerBId wager))
      (BadRequest "You are not a player in this wager");;
    result ← TokenService.confirmStake userId signedXdr (contextFor wager);
    if success result && truthy (expectedHash wager userId) && truthy (txHash result)
       && negb (bool_decide (txHash result = expectedHash wager userId))
    then mret (mkWr false (Some wager)
      (Some ("This stake transaction has expired. Request a new one via " +:+
             "POST /game-sessions/:id/stake/transaction and sign that instead.")) [])
    else
      let wager :=
        if userId == w_playerAId wager
        then wager <| w_playerAStakeTxHash := nullish (txHash result) (w_playerAStakeTxHash wager) |>
        else wager <| w_playerBStakeTxHash := nullish (txHash result) (w_playerBStakeTxHash wager) |> in
      save_wager wager;;
      mret (mkWr (success result) (Some wager) (message result) []).
End WagerService.

(** ** When the backend may be called

    A call of the settlement backend that moves or opens a pot, as the
    coordinator makes it. *)
Inductive backend_call :=
  | COpen (ctx : EscrowContext)
  | CStake (userId : string) (ctx : EscrowContext)
  | CConfirm (userId signedXdr : string) (ctx : EscrowContext)
  | CRelease (winnerId : string) (ctx : EscrowContext)
  | CRefund (ctx : EscrowContext).

Definition forbidden : exn := PlainError "" "call not allowed".

(** The backend [T] that refuses every call the policy forbids in the database it
    is made in. *)
Definition guarded {X} (policy : backend_call → Db X → bool) (T : ITokenService X) :
    ITokenService X :=
  let guard {A} (c : backend_call) (m : M (Db X) A) : M (Db X) A :=
    λ d, if policy c d then m d else (Err forbidden, d) in
  {| TokenService.settlementMode := settlementMode;
     TokenService.openEscrow ctx := guard (COpen ctx) (openEscrow ctx);
     TokenService.stakeTokens u ctx := guard (CStake u ctx) (stakeTokens u ctx);
     TokenService.confirmStake u xdr ctx :=
       guard (CConfirm u xdr ctx) (TokenService.confirmStake u xdr ctx);
     TokenService.releaseToWinner w ctx := guard (CRelease w ctx) (releaseToWinner w ctx);
     TokenService.refundEscrow ctx := guard (CRefund ctx) (refundEscrow ctx);
     TokenService.getUserBalance := getUserBalance;
     TokenService.hasSufficientTokens := hasSufficientTokens;
     TokenService.reconcile := reconcile |}.

(** The committed row of the session of [ctx], which names the same players and
    the same stake. *)
Definition committed {X} (ctx : EscrowContext) (status : string) (d : Db X) : bool :=
  match wagers d !! ctx_sessionId ctx with
  | Some w => (w_status w == status) && (w_playerAId w == ctx_playerAId ctx) &&
              (w_playerBId w == ctx_playerBId ctx) && (w_stakeStroops w == ctx_stake ctx)
  | None => false
  end.

(** [createWager]: the pot is opened once the intent is committed as pending, and
    only player one is ever staked, once the row says the pot is open. *)
Definition create_policy {X} (c : backend_call) (d : Db X) : bool :=
  match c with
  | COpen ctx => committed ctx WagerStatus.PENDING d
  | CStake u ctx => committed ctx WagerStatus.AWAITING_STAKES d &&
                    (u == ctx_playerAId ctx) && negb (u == ctx_playerBId ctx)
  | CRefund _ => true
  | CConfirm _ _ _ | CRelease _ _ => false
  end.

Definition awaiting {X} (sessionId : string) (player : Wager → bool) (d : Db X) : bool :=
  match wagers d !! sessionId with
  | Some w => (w_status w == WagerStatus.AWAITING_STAKES) && player w
  | None => false
  end.

(** [acceptWager]: only the invited player of a wager that awaits their stake. *)
Definition accept_policy {X} (sessionId : string) (c : backend_call) (d : Db X) : bool :=
  match c with
  | CStake u _ =>
      awaiting sessionId (λ w, (u == w_playerBId w) && negb (truthy (w_playerBStakeTxHash w))) d
  | _ => false
  end.

(** [confirmStake]: only a player of a wager that awaits stakes. *)
Definition confirm_policy {X} (sessionId : string) (c : backend_call) (d : Db X) : bool :=
  match c with
  | CConfirm u _ _ =>
      awaiting sessionId (λ w, (u == w_playerAId w) || (u == w_playerBId w)) d
  | _ => false
  end.

Section wager_properties.
Context {X : Type} {rows : WagerRows X} {T : ITokenService X}.
Variable decimals : nat.
Variable deadlineMinutes : option Z.

(** What the code relies on of the missing [requireWager]: it reads the row. *)
Definition requireWager_reads : Prop := ∀ sid (d : Db X) w d',
  requireWager sid d = (Ok w, d') → d' = d ∧ wagers d !! sid = Some w.

(** C3. [createWager] calls the settlement backend only when the database already
    says why: against every backend, the run is the same as with a guard that
    refuses to open a pot before its pending row is committed, refuses any stake
    before the row is [AWAITING_STAKES], and refuses any stake of player two. *)
Theorem createWager_intent_first dto d :
  createWager (T := guarded create_policy T) decimals deadlineMinutes dto d =
  createWager (T := T) decimals deadlineMinutes dto d.
Proof.
  unfold createWager. destruct (assertPositiveStroops _ _) as [stake|e]; [|done].
  apply bind_ext; [done|]. intros _ d0 _. unfold try_catch.
  assert (∀ d, createWagerBody (T := guarded create_policy T) decimals deadlineMinutes
            (cw_sessionId dto) (cw_playerAId dto) (cw_playerBId dto) stake d =
          createWagerBody (T := T) decimals deadlineMinutes
            (cw_sessionId dto) (cw_playerAId dto) (cw_playerBId dto) stake d)
    as ->; [|done].
  clear d d0. intros d. unfold createWagerBody.
  apply bind_ext; [done|]. intros playerA d1 _.
  apply bind_ext; [done|]. intros playerB d2 _.
  destruct (_ == _) eqn:Hne; [done|]. bool_prop.
  apply bind_ext; [done|]. intros [w|] d3 _; [done|].
  apply bind_ext; [done|]. intros fundedA d4 _.
  apply bind_ext; [done|]. intros fundedB d5 _.
  destruct (negb fundedA); [done|]. destruct (negb fundedB); [done|].
  apply bind_ext; [done|]. intros total d6 _. cbv zeta.
  unfold save_wager. rewrite !bind_modify. apply bind_ext.
  { cbn. unfold committed. cbn. rewrite lookup_insert_eq. cbn. by rewrite !bool_decide_true. }
  intros escrow d7 _. destruct (negb (success escrow)); [done|].
  rewrite !bind_modify. apply bind_ext; [|done].
  cbn. unfold committed. cbn. rewrite lookup_insert_eq. cbn.
  by rewrite (bool_decide_false _ Hne), !bool_decide_true.
Qed.

Lemma awaiting_true sid (d : Db X) w player : wagers d !! sid = Some w →
  w_status w == WagerStatus.AWAITING_STAKES = true → player w = true →
  awaiting sid player d = true.
Proof. intros Hw Hs Hp. unfold awaiting. by rewrite Hw, Hs, Hp. Qed.

(** [acceptWager] moves funds only of the player who was invited, only while
    the wager awaits stakes, and only if they have not staked yet; it makes no
    other call of the backend that moves or opens anything. *)
Theorem acceptWager_only_invited sid u d : requireWager_reads →
  acceptWager (T := guarded (accept_policy sid) T) decimals sid u d =
  acceptWager (T := T) decimals sid u d.
Proof.
  intros Hreq. unfold acceptWager. apply bind_ext; [done|]. intros w d1 H.
  apply Hreq in H as [-> Hw]. rewrite !bind_throw_if.
  destruct (negb (u == w_playerBId w)) eqn:HB; [done|]. apply negb_false_iff in HB.
  destruct (negb _ || _) eqn:Hst; [done|]. apply orb_false_iff in Hst as [Hs Hb].
  apply negb_false_iff in Hs. apply bind_ext; [|done]. cbn.
  rewrite (awaiting_true sid d w); [done|done|done|]. by rewrite HB, Hb.
Qed.

(** [confirmStake] hands a signed transaction to the backend only for a player
    of the wager and only while the wager awaits stakes. *)
Theorem confirmStake_only_players sid u xdr d : requireWager_reads →
  confirmStake (T := guarded (confirm_policy sid) T) sid u xdr d =
  confirmStake (T := T) sid u xdr d.
Proof.
  intros Hreq. unfold confirmStake. apply bind_ext; [done|]. intros w d1 H.
  apply Hreq in H as [-> Hw].
  destruct (w_status w == WagerStatus.AWAITING_STAKES) eqn:Hs; [|done]. cbn [negb].
  rewrite !bind_throw_if.
  destruct (negb (u == w_playerAId w) && negb (u == w_playerBId w)) eqn:HP; [done|].
  apply bind_ext; [|done]. cbn. rewrite (awaiting_true sid d w); [done|done|done|].
  rewrite <-negb_orb in HP. by apply negb_false_iff in HP.
Qed.

(** An accepted wager: when [acceptWager] succeeds without asking for a
    signature, the stored row carries player two's stake and is [STAKED] exactly
    when player one's stake is already recorded; otherwise it keeps waiting. *)
Theorem acceptWager_promotes sid u d r d' : requireWager_reads →
  acceptWager (T := T) decimals sid u d = (Ok r, d') →
  wr_success r = true → wr_pendingSignatures r = [] →
  ∃ w w' res d1, wagers d !! sid = Some w ∧ u = w_playerBId w ∧
    stakeTokens u (contextFor w) d = (Ok res, d1) ∧ success res = true ∧
    wr_wager r = Some w' ∧ wagers d' !! w_sessionId w = Some w' ∧
    w_playerBStakeTxHash w' = txHash res ∧
    w_status w' = (if truthy (w_playerAStakeTxHash w) then WagerStatus.STAKED
                   else WagerStatus.AWAITING_STAKES).
Proof.
  intros Hreq Hrun Hsucc Hsig. unfold acceptWager in Hrun.
  apply bind_Ok_inv in Hrun as (w & d0 & H & Hrun). apply Hreq in H as [-> Hw].
  rewrite bind_throw_if in Hrun. destruct (negb (u == w_playerBId w)) eqn:HB; [done|].
  bool_prop. subst u. destruct (negb _ || _) eqn:Hst.
  { injection Hrun as <- <-. by simpl in Hsucc. }
  apply orb_false_iff in Hst as [Hs Hb]. bool_prop.
  apply bind_Ok_inv in Hrun as (res & d1 & Hstake & Hrun).
  exists w. destruct (status res) eqn:Est; [injection Hrun as <- <-; by simpl in Hsig|..];
    (destruct (success res) eqn:Eok; cbn [negb] in Hrun;
      [|injection Hrun as <- <-; by simpl in Hsucc]);
    apply bind_Ok_inv in Hrun as (w' & d2 & Hw' & Hrun);
    unfold save_wager in Hrun; rewrite bind_modify in Hrun; injection Hrun as <- <-;
    exists w', res, d1; (split; [done|]); (split; [done|]); (split; [done|]);
    (split; [done|]); (split; [done|]);
    change (truthy (w_playerAStakeTxHash (w <| w_playerBStakeTxHash := txHash res |>)))
      with (truthy (w_playerAStakeTxHash w)) in Hw';
    (destruct (truthy (w_playerAStakeTxHash w));
      [apply bind_Ok_inv in Hw' as (? & ? & _ & Hw')|]; injection Hw' as <- <-);
    cbn; by rewrite lookup_insert_eq.
Qed.

(** The backend keeps its hands off the wagers table when it confirms a stake. *)
Definition confirm_keeps_wagers : Prop := ∀ u xdr ctx (d : Db X) r d',
  TokenService.confirmStake u xdr ctx d = (r, d') → wagers d' = wagers d.

(** [confirmStake] never moves a wager on: whatever the backend answers, and
    even when it records the second of the two stakes, the wager it returns and
    the row it leaves have the status they had. *)
Theorem confirmStake_keeps_status sid u xdr d r d' :
  requireWager_reads → confirm_keeps_wagers →
  confirmStake (T := T) sid u xdr d = (Ok r, d') →
  ∃ w w', wagers d !! sid = Some w ∧ wr_wager r = Some w' ∧ w_status w' = w_status w ∧
    (w_sessionId w = sid → wagers d' !! sid = Some w').
Proof.
  intros Hreq Hkeep Hrun. unfold confirmStake in Hrun.
  apply bind_Ok_inv in Hrun as (w & d0 & H & Hrun). apply Hreq in H as [-> Hw].
  exists w. destruct (negb _) eqn:Hs.
  { injection Hrun as <- <-. by exists w. }
  rewrite bind_throw_if in Hrun. destruct (_ && _); [done|].
  apply bind_Ok_inv in Hrun as (res & d1 & Hc & Hrun). apply Hkeep in Hc.
  destruct (_ && _) in Hrun.
  - injection Hrun as <- <-. exists w. by rewrite Hc.
  - unfold save_wager in Hrun. rewrite bind_modify in Hrun. injection Hrun as <- <-.
    eexists. split; [done|]. split; [done|].
    destruct (u == w_playerAId w); (split; [done|]); cbn; intros <-; by rewrite lookup_insert_eq.
Qed.

(** A stake the backend did not confirm counts all the same: when
    [confirmStake] of player one comes back without success but with a
    transaction hash, the hash is stored as player one's stake, so that the
    acceptance of player two then makes the wager [STAKED]. *)
Theorem unconfirmed_stake_recorded sid xdr w d res d1 h :
  requireWager sid d = (Ok w, d) → w_sessionId w = sid →
  w_status w = WagerStatus.AWAITING_STAKES →
  TokenService.confirmStake (w_playerAId w) xdr (contextFor w) d = (Ok res, d1) →
  success res = false → txHash res = Some h →
  ∃ r d', confirmStake (T := T) sid (w_playerAId w) xdr d = (Ok r, d') ∧
    wr_success r = false ∧
    wagers d' !! sid = Some (w <| w_playerAStakeTxHash := Some h |>).
Proof.
  intros Hreq Hsid Hst Hc Hs Hh. unfold confirmStake.
  rewrite (bind_run _ _ _ _ _ Hreq), Hst, bool_decide_true by done. cbn [negb].
  rewrite bind_throw_if, bool_decide_true by done. cbn [negb andb].
  rewrite (bind_run _ _ _ _ _ Hc), Hs. cbn [andb]. rewrite Hh. cbn [nullish].
  unfold save_wager. rewrite bind_modify. eexists _, _. split; [done|]. split; [done|].
  cbn. rewrite Hsid. by rewrite lookup_insert_eq.
Qed.
End wager_properties.

(** ** Over the mock backend *)

Section over_the_mock.
Context {X : Type} {rows : WagerRows X}.
Variable randomHex : nat → string.
Variables decimals decimals' : nat.
Variable deadlineMinutes : option Z.
Local Abbreviation mock := (mock_token_service (X := X) randomHex decimals').

(** What the code relies on of the missing methods: none of them moves money. *)
Definition same_users (d d' : Db X) : Prop := users d' = users d.
Definition helpers_keep_users : Prop :=
  (∀ id label, preserves same_users (requireUser id label)) ∧
  (∀ w msg, preserves same_users (markFailed w msg)).

(** Runs that report failure and leave the users alone. *)
Definition fails (m : M (Db X) WagerResult) : Prop := ∀ d r d',
  m d = (r, d') → same_users d d' ∧ ∀ x, r = Ok x → wr_success x = false.

Lemma fails_ret msg : fails (mret (refused msg)).
Proof. intros d r d' [= <- <-]. split; [done|]. by intros x [= <-]. Qed.

Lemma fails_bind {A} (m : M (Db X) A) f : preserves same_users m → (∀ a, fails (f a)) →
  fails (m ≫= f).
Proof.
  intros Hm Hf d r d'. unfold mbind, M_bind. destruct (m d) as [[a|e] d1] eqn:E; intros H.
  - destruct (Hf a _ _ _ H) as [H1 H2]. split; [|done].
    unfold same_users. rewrite H1. by apply (Hm _ _ _ E).
  - injection H as <- <-. split; [by apply (Hm _ _ _ E)|done].
Qed.

#[local] Instance same_users_refl : Reflexive same_users.
Proof. done. Qed.
#[local] Instance same_users_trans : Transitive same_users.
Proof. unfold same_users. intros ??? -> ->. done. Qed.

Lemma fails_try (m : M (Db X) WagerResult) h : fails m → (∀ e, fails (h e)) → fails (try_catch m h).
Proof.
  intros Hm Hh d r d'. unfold try_catch. destruct (m d) as [[a|e] d1] eqn:E; intros H.
  - injection H as <- <-. by apply (Hm _ _ _ E).
  - destruct (Hm _ _ _ E) as [H1 _]. destruct (Hh e _ _ _ H) as [H2 H3].
    split; [|done]. by trans d1.
Qed.

(** Opening a pot in a database that holds the session's row. *)
Lemma mock_open_taken ctx (d : Db X) w : wagers d !! ctx_sessionId ctx = Some w →
  MockToken.openEscrow randomHex decimals' ctx d =
  (Ok (failure ("A pot already exists for session " +:+ ctx_sessionId ctx)), d).
Proof. intros Hw. unfold MockToken.openEscrow, find_wager. mrun. by rewrite Hw. Qed.

(** Over the mock backend no wager can be created: the coordinator commits its
    own row first, and the mock takes any row of the session for an open pot, so
    [createWager] reports failure (or throws) whatever it is asked, and no balance
    changes. *)
Theorem createWager_mock_never_succeeds dto d r d' : helpers_keep_users →
  createWager (T := mock) decimals deadlineMinutes dto d = (r, d') →
  users d' = users d ∧ ∀ x, r = Ok x → wr_success x = false.
Proof.
  intros [Hru Hmf]. revert d r d'. change (fails (createWager (T := mock) decimals deadlineMinutes dto)).
  unfold createWager. destruct (assertPositiveStroops _ _) as [stake|e]; [|apply fails_ret].
  apply fails_bind; [auto with frame typeclass_instances|intros _].
  apply fails_try; [|intros e; apply fails_ret].
  unfold createWagerBody. apply fails_bind; [done|intros playerA].
  apply fails_bind; [done|intros playerB].
  destruct (_ == _); [apply fails_ret|].
  apply fails_bind; [apply preserves_gets; exact _|intros [w|]]; [apply fails_ret|].
  assert (∀ u, preserves same_users (hasSufficientTokens (ITokenService := mock) u stake)) as Hhas.
  { intros u d r d'. cbn. unfold MockToken.hasSufficientTokens, find_user. rewrite bind_gets.
    destruct (users d !! u); by intros [= <- <-]. }
  apply fails_bind; [done|intros fundedA]. apply fails_bind; [done|intros fundedB].
  destruct fundedA; [|apply fails_bind; [|intros; apply fails_ret]; by apply preserves_lift].
  destruct fundedB; [|apply fails_bind; [|intros; apply fails_ret]; by apply preserves_lift].
  cbn [negb]. apply fails_bind; [by apply preserves_lift|intros total]. cbv zeta.
  intros d r d'. unfold save_wager. rewrite bind_modify. erewrite bind_run.
  2:{ cbn [TokenService.openEscrow mock_token_service]. eapply mock_open_taken. cbn.
      by rewrite lookup_insert_eq. }
  cbn [success failure negb]. intros H.
  pose proof (fails_bind _ (λ _, mret (refused _)) (Hmf _ _) (λ _, fails_ret _) _ _ _ H) as [H1 H2].
  done.
Qed.
End over_the_mock.

(** ** Witnesses: a database with one wager, a backend that answers at once *)

#[local] Instance ex_rows : WagerRows unit := {|
  requireUser id label :=
    user ← find_user id;
    require user (NotFound (label +:+ " with ID " +:+ id +:+ " not found"));
  requireWager sid :=
    wager ← find_wager sid; require wager (NotFound ("No wager for session " +:+ sid));
  markFailed w msg :=
    let w := w <| w_status := WagerStatus.FAILED |> <| w_resultMessage := msg |> in
    save_wager w;; mret w;
  contextFor w := mkCtx (w_sessionId w) (w_playerAId w) (w_playerBId w) (w_stakeStroops w);
|}.

(** Answers every call with [success] and the hash [h]. *)
Definition ex_reply (ok : bool) : TokenTransactionResult :=
  mkTtr ok (if ok then SettlementStatus.CONFIRMED else SettlementStatus.SUBMITTED)
    (Some "h") None None None (Some "").
Definition ex_backend (ok : bool) : ITokenService unit := {|
  TokenService.settlementMode := "stellar";
  TokenService.openEscrow _ := mret (ex_reply ok);
  TokenService.stakeTokens _ _ := mret (ex_reply ok);
  TokenService.confirmStake _ _ _ := mret (ex_reply ok);
  TokenService.releaseToWinner _ _ := mret (ex_reply ok);
  TokenService.refundEscrow _ := mret (ex_reply ok);
  TokenService.getUserBalance _ := mret "0";
  TokenService.hasSufficientTokens _ _ := mret true;
  TokenService.reconcile _ _ := mret (ex_reply ok);
|}.

Definition ex_wager (hashA : option string) : Wager :=
  new_wager "s" <| w_playerAId := "a" |> <| w_playerBId := "b" |>
    <| w_stakeStroops := "10" |> <| w_totalPotStroops := "20" |>
    <| w_status := WagerStatus.AWAITING_STAKES |> <| w_playerAStakeTxHash := hashA |>.
Definition ex_wager_db (hashA : option string) : Db unit :=
  mkDb (<["a" := ex_user "a" "90"]> (<["b" := ex_user "b" "100"]> ∅))
    (<["s" := ex_wager hashA]> ∅) 0 0 ().

Lemma ex_reads : requireWager_reads (X := unit).
Proof.
  intros sid d w d'. cbn. unfold find_wager. rewrite bind_gets.
  destruct (wagers d !! sid) as [w'|] eqn:E; [|done]. by intros [= <- <-].
Qed.

Lemma ex_helpers : helpers_keep_users (X := unit).
Proof.
  split.
  - intros id label d r d'. cbn. unfold find_user. rewrite bind_gets.
    destruct (users d !! id); by intros [= <- <-].
  - intros w msg d r d'. cbn. unfold save_wager. rewrite bind_modify. by intros [= <- <-].
Qed.

Lemma acceptWager_only_invited_witness :
  (acceptWager (T := guarded (accept_policy "s") (ex_backend true)) 7 "s" "b"
     (ex_wager_db (Some "h"))).1 =
  Ok (mkWr true (Some (ex_wager (Some "h") <| w_playerBStakeTxHash := Some "h" |>
        <| w_status := WagerStatus.STAKED |> <| w_resultMessage := "Wager on! Pot: 0.000002 LYRIC" |>))
      (Some "Wager on! Pot: 0.000002 LYRIC") []).
Proof. rewrite (acceptWager_only_invited _ _ _ _ ex_reads). vm_compute. reflexivity. Defined.

Lemma confirmStake_only_players_witness :
  ∃ w, (confirmStake (T := guarded (confirm_policy "s") (ex_backend true)) "s" "a" "xdr"
     (ex_wager_db None)).1 = Ok (mkWr true (Some w) (Some "") []) ∧
     w_playerAStakeTxHash w = Some "h".
Proof.
  rewrite (confirmStake_only_players _ _ _ _ ex_reads). eexists. split; vm_compute; reflexivity.
Defined.

Lemma acceptWager_promotes_witness :
  ∃ w w' res d1, wagers (ex_wager_db (Some "h")) !! "s" = Some w ∧ "b" = w_playerBId w ∧
    stakeTokens (ITokenService := ex_backend true) "b" (contextFor w) (ex_wager_db (Some "h"))
      = (Ok res, d1) ∧ success res = true ∧
    Some w' = Some w' ∧
    wagers (acceptWager (T := ex_backend true) 7 "s" "b" (ex_wager_db (Some "h"))).2 !! w_sessionId w
      = Some w' ∧
    w_playerBStakeTxHash w' = txHash res ∧
    w_status w' = (if truthy (w_playerAStakeTxHash w) then WagerStatus.STAKED
                   else WagerStatus.AWAITING_STAKES).
Proof.
  destruct (acceptWager_promotes (T := ex_backend true) 7 "s" "b" (ex_wager_db (Some "h")) _ _
    ex_reads ltac:(vm_compute; reflexivity) eq_refl eq_refl)
    as (w & w' & res & d1 & H1 & H2 & H3 & H4 & H5 & H6 & H7 & H8).
  exists w, w', res, d1. repeat (split; [first [exact H1|exact H2|exact H3|exact H4|reflexivity
    |vm_compute; vm_compute in H6; exact H6|exact H7]|]). exact H8.
Defined.

(** Player two confirms, player one's stake being there already: still waiting. *)
Lemma confirmStake_keeps_status_witness :
  ∃ r d' w', confirmStake (T := ex_backend true) "s" "b" "xdr" (ex_wager_db (Some "h")) = (Ok r, d') ∧
    wr_wager r = Some w' ∧ wagers d' !! "s" = Some w' ∧ w_status w' = WagerStatus.AWAITING_STAKES.
Proof.
  assert (∃ r d', confirmStake (T := ex_backend true) "s" "b" "xdr" (ex_wager_db (Some "h"))
            = (Ok r, d')) as (r & d' & Hrun) by (eexists _, _; vm_compute; reflexivity).
  destruct (confirmStake_keeps_status (T := ex_backend true) "s" "b" "xdr"
    (ex_wager_db (Some "h")) r d' ex_reads ltac:(by intros ?????? [= <- <-]) Hrun)
    as (w & w' & H1 & H2 & H3 & H4).
  assert (w = ex_wager (Some "h")) as -> by (vm_compute in H1; injection H1 as <-; reflexivity).
  exists r, d', w'. split; [exact Hrun|]. split; [exact H2|]. split; [apply H4; reflexivity|].
  exact H3.
Defined.

Lemma unconfirmed_stake_recorded_witness :
  ∃ r d', confirmStake (T := ex_backend false) "s" "a" "xdr" (ex_wager_db None) = (Ok r, d') ∧
    wr_success r = false ∧ wagers d' !! "s" = Some (ex_wager (Some "h")).
Proof.
  exact (unconfirmed_stake_recorded (T := ex_backend false) "s" "xdr" (ex_wager None)
    (ex_wager_db None) (ex_reply false) (ex_wager_db None) "h"
    eq_refl eq_refl eq_refl eq_refl eq_refl eq_refl).
Defined.

Lemma createWager_mock_never_succeeds_witness :
  users (createWager (T := mock_token_service ex_hex 7) 7 None (mkCreateWager "t" "a" "b" "10")
    (ex_wager_db None)).2 = users (ex_wager_db None) ∧
  ∃ m, (createWager (T := mock_token_service ex_hex 7) 7 None (mkCreateWager "t" "a" "b" "10")
    (ex_wager_db None)).1 = Ok (mkWr false None m []).
Proof.
  split; [|eexists; vm_compute; reflexivity].
  exact (proj1 (createWager_mock_never_succeeds ex_hex 7 7 None (mkCreateWager "t" "a" "b" "10")
    (ex_wager_db None) _ _ ex_helpers (surjective_pairing _))).
Defined.
