(* ===== verification/GameSessions.v ===== *)
(** * Game sessions (src/src/game-sessions)

    [GameSessionsService] of game-sessions.service.ts and the idle sweep of
    session-expiry.service.ts: sessions between players, the invitation of player
    two, and the calls that create, accept, refund and settle the wager of a
    session.  The wager coordinator is an interface here, [IWagerService]; its
    instance is WagerService with the settlement methods the source lacks. *)

From stdpp Require Import sorting.
From S2P Require Import Prelude Decimal Amount Entities MockToken TokenService Common WagerService.

(** ** The entity (entities/game-session.entity.ts) *)

Module GameSessionStatus.
Inductive t := WAITING_FOR_PLAYER | IN_PROGRESS | COMPLETED | ABANDONED.
#[global] Instance eq_dec : EqDecision t.
Proof. solve_decision. Defined.
Definition value (s : t) : string :=
  match s with
  | WAITING_FOR_PLAYER => "waiting_for_player"
  | IN_PROGRESS => "in_progress"
  | COMPLETED => "completed"
  | ABANDONED => "abandoned"
  end.
End GameSessionStatus.

Inductive GameMode := SINGLE_PLAYER | MULTIPLAYER | WAGERED.
#[export] Instance GameMode_eq_dec : EqDecision GameMode.
Proof. solve_decision. Defined.

Inductive GameCategory := AFROBEATS | NINETIES_RNB | HIP_HOP | POP | ROCK.
#[export] Instance GameCategory_eq_dec : EqDecision GameCategory.
Proof. solve_decision. Defined.

(** [g_playerId] is the key behind the relation [player]. *)
Record GameSession := mkGameSession {
  g_id : string;
  g_playerId : option string;
  g_playerTwoId : option string;
  g_score : Z;
  g_playerTwoScore : Z;
  g_category : GameCategory;
  g_mode : GameMode;
  g_status : GameSessionStatus.t;
  g_winnerId : option string;
  g_wagerStroops : option Stroops;
  g_hasWager : bool;
  g_createdAt : Z;
  g_updatedAt : Z;
  g_completedAt : option Z;
}.
#[export] Instance GameSession_settable : Settable GameSession := λ g,
  mkGameSession (g_id g) (g_playerId g) (g_playerTwoId g) (g_score g) (g_playerTwoScore g)
    (g_category g) (g_mode g) (g_status g) (g_winnerId g) (g_wagerStroops g) (g_hasWager g)
    (g_createdAt g) (g_updatedAt g) (g_completedAt g).

(** ** The wager coordinator, as the sessions see it *)

Class IWagerService (X : Type) := {
  ws_createWager : CreateWagerDto → M (Db X) WagerResult;
  ws_acceptWager : string → string → M (Db X) WagerResult;
  ws_confirmStake : string → string → string → M (Db X) WagerResult;
  ws_resolveWagerWithWinner : string → option string → M (Db X) WagerResult;
  ws_resolveWagerAsDraw : string → M (Db X) WagerResult;
  ws_reconcileWager : string → M (Db X) WagerResult;
  ws_requestFreshStakeTransaction : string → string → M (Db X) WagerResult;
  ws_getWagerBySessionId : string → M (Db X) (option Wager);
  ws_getUserWagers : string → nat → nat → M (Db X) (list Wager);
}.

(** The public methods of the coordinator that its truncated source lacks. *)
Class WagerSettlement (X : Type) := {
  wm_resolveWagerWithWinner : string → option string → M (Db X) WagerResult;
  wm_resolveWagerAsDraw : string → M (Db X) WagerResult;
  wm_reconcileWager : string → M (Db X) WagerResult;
  wm_requestFreshStakeTransaction : string → string → M (Db X) WagerResult;
  wm_getWagerBySessionId : string → M (Db X) (option Wager);
  wm_getUserWagers : string → nat → nat → M (Db X) (list Wager);
}.

Definition wager_service {X} `{!WagerRows X, !ITokenService X, !WagerSettlement X}
    (decimals : nat) (deadlineMinutes : option Z) : IWagerService X := {|
  ws_createWager := createWager decimals deadlineMinutes;
  ws_acceptWager := acceptWager decimals;
  ws_confirmStake := WagerService.confirmStake;
  ws_resolveWagerWithWinner := wm_resolveWagerWithWinner;
  ws_resolveWagerAsDraw := wm_resolveWagerAsDraw;
  ws_reconcileWager := wm_reconcileWager;
  ws_requestFreshStakeTransaction := wm_requestFreshStakeTransaction;
  ws_getWagerBySessionId := wm_getWagerBySessionId;
  ws_getUserWagers := wm_getUserWagers;
|}.

(** ** The state: the sessions table beside the settlement database *)

Record Store (X : Type) := mkStore {
  sessions : gmap string GameSession;
  created : nat;
  base : Db X;
}.
Arguments mkStore {_} _ _ _.
Arguments sessions {_} _.
Arguments created {_} _.
Arguments base {_} _.
#[export] Instance Store_settable {X} : Settable (Store X) := λ d,
  mkStore (sessions d) (created d) (base d).

(** A call into the settlement database. *)
Definition on_base {X A} (m : M (Db X) A) : M (Store X) A := λ d,
  let (r, b) := m (base d) in (r, d <| base := b |>).

(** ** Requests and responses *)

(** [gd_hasWager] is read by the service; the DTO declares no such property. *)
Record CreateGameSessionDto := mkCreateSession {
  gd_category : GameCategory;
  gd_mode : option GameMode;
  gd_playerTwoId : option string;
  gd_score : option Z;
  gd_wagerAmount : option string;
  gd_hasWager : option bool;
}.

Record CreateGameSessionResponse := mkCreated {
  resp_session : GameSession;
  resp_wager : option Wager;
  resp_pendingSignatures : list (string * option UnsignedTransaction);
}.

Record CompletedGame := mkCompleted {
  cg_gameSession : GameSession;
  cg_wagerResult : WagerResult;
  cg_message : string;
  cg_winnerId : option string;
  cg_winnerUsername : option string;
}.

Definition TERMINAL_WAGER_STATUSES : list string :=
  [WagerStatus.WON; WagerStatus.REFUNDED; WagerStatus.FAILED].

Section GameSessionsService.
Context {X : Type} {T : ITokenService X} {W : IWagerService X}.
Variable decimals : nat.
(** The identifiers the database generates, by how many rows were created. *)
Variable uuid : nat → string.
(** [process.env.INVITATION_TTL_MINUTES] *)
Variable ttlMinutes : option Z.

Local Abbreviation M := (M (Store X)).

Definition INVITATION_TTL_MS : Z := default 30 ttlMinutes * 60 * 1000.

Definition find_session (id : string) : M (option GameSession) := gets (λ d, sessions d !! id).
Definition find_player (id : string) : M (option User) := on_base (find_user id).

(** [gameSessionRepository.save] of a row that exists already. *)
Definition save_session (g : GameSession) : M GameSession :=
  time ← gets (λ d, now (base d));
  let g := g <| g_updatedAt := time |> in
  modify (λ d, d <| sessions := <[g_id g := g]> (sessions d) |>);;
  mret g.

(** [gameSessionRepository.save] of a new row. *)
Definition insert_session (g : GameSession) : M GameSession :=
  n ← gets created;
  time ← gets (λ d, now (base d));
  let g := g <| g_id := uuid n |> <| g_createdAt := time |> <| g_updatedAt := time |> in
  modify (λ d, d <| sessions := <[g_id g := g]> (sessions d) |> <| created := S n |>);;
  mret g.

(** [gameSessionRepository.delete], with the number of rows it affects. *)
Definition delete_session (id : string) : M nat :=
  g ← find_session id;
  modify (λ d, d <| sessions := delete id (sessions d) |>);;
  mret (if g is Some _ then 1%nat else 0%nat).

Definition isWagered (g : GameSession) : bool :=
  bool_decide (g_mode g = WAGERED) || g_hasWager g.

Definition isExpired (g : GameSession) : M bool :=
  time ← gets (λ d, now (base d));
  mret (g_createdAt g <=? time - INVITATION_TTL_MS).

Definition mode_is (mode : option GameMode) (m : GameMode) : bool := bool_decide (mode = Some m).

(** ** Creating a session *)

(** [mode === MULTIPLAYER || mode === WAGERED] *)
Definition isMultiplayer (mode : option GameMode) : bool :=
  mode_is mode MULTIPLAYER || mode_is mode WAGERED.

Definition checkOpponent (dto : CreateGameSessionDto) (player : User) : M unit :=
  if isMultiplayer (gd_mode dto) then
    throw_if (negb (truthy (gd_playerTwoId dto)))
      (BadRequest "Player Two ID is required for multiplayer games");;
    let playerTwoId := default "" (gd_playerTwoId dto) in
    playerTwo ← find_player playerTwoId;
    _ ← require playerTwo (NotFound ("Player Two with ID " +:+ playerTwoId +:+ " not found"));
    throw_if (u_id player == playerTwoId) (BadRequest "Cannot play against yourself")
  else mret tt.

(** [mode === WAGERED || hasWager] *)
Definition wantsWager (dto : CreateGameSessionDto) : bool :=
  mode_is (gd_mode dto) WAGERED || default false (gd_hasWager dto).

Definition checkStake (dto : CreateGameSessionDto) (player : User) : M (option Stroops) :=
  if wantsWager dto then
    let no_amount := BadRequest "Wager amount must be greater than 0 for wagered games" in
    throw_if (negb (truthy (gd_wagerAmount dto))) no_amount;;
    stake ← lift (toStroops decimals (default "" (gd_wagerAmount dto)));
    positive ← lift (isPositive stake);
    throw_if (negb positive) no_amount;;
    throw_if (negb (truthy (gd_playerTwoId dto)))
      (BadRequest "Player Two ID is required for wagered games");;
    let playerTwoId := default "" (gd_playerTwoId dto) in
    playerOneBalance ← on_base (hasSufficientTokens (u_id player) stake);
    playerTwoBalance ← on_base (hasSufficientTokens playerTwoId stake);
    (if negb playerOneBalance then
       shown ← lift (fromStroops decimals stake);
       throw (BadRequest ("You have insufficient tokens for this wager (" +:+ shown +:+
         " LYRIC required)"))
     else mret tt);;
    (if negb playerTwoBalance then
       playerTwo ← find_player playerTwoId;
       let name := sanitizeForDisplay (u_username <$> playerTwo) in
       throw (BadRequest ((if nonempty name then name else "Player Two") +:+
         " has insufficient tokens for this wager"))
     else mret tt);;
    mret (Some stake)
  else mret None.

Definition new_session (dto : CreateGameSessionDto) (player : User) (stake : option Stroops) :
    GameSession :=
  mkGameSession "" (Some (u_id player)) (gd_playerTwoId dto) (default 0 (gd_score dto)) 0
    (gd_category dto) (default SINGLE_PLAYER (gd_mode dto))
    (if isMultiplayer (gd_mode dto) then GameSessionStatus.WAITING_FOR_PLAYER
     else GameSessionStatus.IN_PROGRESS)
    None stake (default false (gd_hasWager dto)) 0 0 None.

Definition create (dto : CreateGameSessionDto) (player : User) : M CreateGameSessionResponse :=
  checkOpponent dto player;;
  stake ← checkStake dto player;
  saved ← insert_session (new_session dto player stake);
  if wantsWager dto && truthy stake && truthy (gd_playerTwoId dto) then
    wagerResult ← on_base (ws_createWager (mkCreateWager (g_id saved) (u_id player)
      (default "" (gd_playerTwoId dto)) (default "" stake)));
    if negb (wr_success wagerResult) then
      delete_session (g_id saved);;
      throw (BadRequest ("Failed to create wager: " +:+ show_message (wr_message wagerResult)))
    else mret (mkCreated saved (wr_wager wagerResult) (wr_pendingSignatures wagerResult))
  else mret (mkCreated saved None []).

(** ** The invitation *)

Definition requireInvitation (sessionId : string) (user : User) : M GameSession :=
  g ← find_session sessionId;
  g ← require g (NotFound ("Game session with ID " +:+ dq +:+ sessionId +:+ dq +:+ " not found"));
  throw_if (negb (bool_decide (g_playerTwoId g = Some (u_id user))))
    (Forbidden "You were not invited to this session");;
  throw_if (negb (bool_decide (g_status g = GameSessionStatus.WAITING_FOR_PLAYER)))
    (BadRequest ("This invitation is no longer open (status: " +:+
       GameSessionStatus.value (g_status g) +:+ ")"));;
  mret g.

Definition abandonInvitation (g : GameSession) : M (GameSession * option WagerResult) :=
  saved ← save_session (g <| g_status := GameSessionStatus.ABANDONED |>);
  if negb (isWagered g) then mret (saved, None) else
  wagerResult ← on_base (ws_resolveWagerAsDraw (g_id g));
  mret (saved, Some wagerResult).

Definition accept (sessionId : string) (user : User) : M CreateGameSessionResponse :=
  g ← requireInvitation sessionId user;
  expired ← isExpired g;
  if (expired : bool) then
    abandonInvitation g;; throw (Gone "This invitation has expired")
  else if negb (isWagered g) then
    saved ← save_session (g <| g_status := GameSessionStatus.IN_PROGRESS |>);
    mret (mkCreated saved None [])
  else
    wagerResult ← on_base (ws_acceptWager sessionId (u_id user));
    throw_if (negb (wr_success wagerResult))
      (BadRequest ("Failed to accept wager: " +:+ show_message (wr_message wagerResult)));;
    saved ← save_session (g <| g_status := GameSessionStatus.IN_PROGRESS |>);
    mret (mkCreated saved (wr_wager wagerResult) (wr_pendingSignatures wagerResult)).

Definition decline (sessionId : string) (user : User) : M (GameSession * option WagerResult) :=
  g ← requireInvitation sessionId user;
  abandonInvitation g.

(** The rows the expiry sweep selects. *)
Definition unanswered (time : Z) (g : GameSession) : bool :=
  bool_decide (g_status g = GameSessionStatus.WAITING_FOR_PLAYER) &&
  (g_createdAt g <? time - INVITATION_TTL_MS).
Definition rows_where (p : GameSession → bool) (d : Store X) : list GameSession :=
  filter p (map_to_list (sessions d)).*2.

Definition expireInvitations : M nat :=
  expired ← gets (λ d, rows_where (unanswered (now (base d))) d);
  for_each (λ g, abandonInvitation g;; mret tt) expired;;
  mret (length expired).

(** ** Reading and changing a session *)

Definition assertParticipant (g : GameSession) (user : User) : M unit :=
  let isParticipant := bool_decide (g_playerId g = Some (u_id user))
                       || bool_decide (g_playerTwoId g = Some (u_id user)) in
  throw_if (negb isParticipant && negb (bool_decide (u_role user = Admin)))
    (Forbidden "You are not a player in this session").

Definition findOne (id : string) (user : option User) : M GameSession :=
  g ← find_session id;
  g ← require g (NotFound ("Game session with ID " +:+ dq +:+ id +:+ dq +:+ " not found"));
  (match user with Some user => assertParticipant g user | None => mret tt end);;
  mret g.

Definition update (id : string) (category : option GameCategory) (user : User) : M GameSession :=
  g ← findOne id (Some user);
  save_session (match category with Some c => g <| g_category := c |> | None => g end).

Definition remove (id : string) (user : User) : M unit :=
  _ ← findOne id (Some user);
  wager ← on_base (ws_getWagerBySessionId id);
  (match wager with
   | Some w => throw_if (negb (bool_decide (w_status w ∈ TERMINAL_WAGER_STATUSES)))
       (Conflict ("This session has a wager that is still " +:+ w_status w +:+
          "; it cannot be deleted until it is settled or refunded"))
   | None => mret tt
   end);;
  affected ← delete_session id;
  throw_if (bool_decide (affected = 0%nat))
    (NotFound ("Game session with ID " +:+ dq +:+ id +:+ dq +:+ " not found")).

Definition updateGameStatus (id : string) (status : GameSessionStatus.t) : M GameSession :=
  g ← findOne id None;
  save_session (g <| g_status := status |>).

Definition updateScore (id : string) (score : Z) : M GameSession :=
  g ← findOne id None;
  let g := g <| g_score := score |> in
  save_session (if 0 <? score then g <| g_status := GameSessionStatus.COMPLETED |> else g).

(** ** Settling *)

Definition playerOf (id : option string) : M (option User) :=
  match id with Some id => find_player id | None => mret None end.

Definition completeWageredGame (sessionId : string) (playerOneScore playerTwoScore : Z) :
    M CompletedGame :=
  g ← find_session sessionId;
  g ← require g (NotFound ("Game session with ID " +:+ sessionId +:+ " not found"));
  player ← playerOf (g_playerId g);
  playerTwo ← playerOf (g_playerTwoId g);
  throw_if (negb (g_hasWager g)) (BadRequest "This game session does not have a wager");;
  throw_if (bool_decide (g_status g = GameSessionStatus.COMPLETED))
    (BadRequest "Game session is already completed");;
  time ← gets (λ d, now (base d));
  let g := g <| g_score := playerOneScore |> <| g_playerTwoScore := playerTwoScore |>
             <| g_status := GameSessionStatus.COMPLETED |> <| g_completedAt := Some time |> in
  if playerTwoScore <? playerOneScore then
    player ← require player
      (PlainError "TypeError" "Cannot read properties of null (reading 'id')");
    let g := g <| g_winnerId := Some (u_id player) |> in
    wagerResult ← on_base (ws_resolveWagerWithWinner sessionId (Some (u_id player)));
    let name := sanitizeForDisplay (Some (u_username player)) in
    updated ← save_session g;
    mret (mkCompleted updated wagerResult
      (name +:+ " wins! " +:+ show_message (wr_message wagerResult))
      (Some (u_id player)) (Some name))
  else if playerOneScore <? playerTwoScore then
    let g := g <| g_winnerId := g_playerTwoId g |> in
    wagerResult ← on_base (ws_resolveWagerWithWinner sessionId (g_playerTwoId g));
    let name := sanitizeForDisplay (u_username <$> playerTwo) in
    updated ← save_session g;
    mret (mkCompleted updated wagerResult
      (name +:+ " wins! " +:+ show_message (wr_message wagerResult))
      (g_playerTwoId g) (Some name))
  else
    wagerResult ← on_base (ws_resolveWagerAsDraw sessionId);
    updated ← save_session g;
    mret (mkCompleted updated wagerResult
      ("It's a draw! " +:+ show_message (wr_message wagerResult)) None None).

(** ** Passed through to the coordinator and the backend *)

Definition getUserTokenBalance (userId : string) : M (Stroops * string) :=
  stroops ← on_base (getUserBalance userId);
  shown ← lift (fromStroops decimals stroops);
  mret (stroops, shown).

Definition confirmStake (sessionId userId signedTransaction : string) : M WagerResult :=
  on_base (ws_confirmStake sessionId userId signedTransaction).
Definition requestFreshStakeTransaction (sessionId userId : string) : M WagerResult :=
  on_base (ws_requestFreshStakeTransaction sessionId userId).
Definition reconcileWager (sessionId : string) : M WagerResult :=
  on_base (ws_reconcileWager sessionId).
Definition getSessionWager (sessionId : string) (user : User) : M (option Wager) :=
  _ ← findOne sessionId (Some user);
  on_base (ws_getWagerBySessionId sessionId).
Definition getUserWagers (userId : string) (limit offset : nat) : M (list Wager) :=
  on_base (ws_getUserWagers userId limit offset).

(** ** Queries

    Rows that the order leaves tied come in the order of [merge_sort]. *)

Definition ordered_by (key : GameSession → Z) (g1 g2 : GameSession) : Prop := key g2 ≤ key g1.
#[local] Instance ordered_by_dec key : RelDecision (ordered_by key).
Proof. intros g1 g2. unfold ordered_by. apply _. Defined.
Definition page (limit offset : nat) (l : list GameSession) : list GameSession :=
  take limit (drop offset l).
Definition query (p : GameSession → bool) (key : GameSession → Z) (limit offset : nat)
    (d : Store X) : list GameSession :=
  page limit offset (merge_sort (ordered_by key) (rows_where p d)).

Definition findAll (user : User) (limit offset : nat) : M (list GameSession) :=
  gets (query (λ g, bool_decide (u_role user = Admin)
                    || bool_decide (g_playerId g = Some (u_id user))
                    || bool_decide (g_playerTwoId g = Some (u_id user))) g_createdAt limit offset).
Definition getTopScores (limit offset : nat) : M (list GameSession) :=
  gets (query (λ g, bool_decide (g_status g = GameSessionStatus.COMPLETED))
    (λ g, Z.max (g_score g) (g_playerTwoScore g)) limit offset).
Definition getRecentGames (userId : string) (limit offset : nat) : M (list GameSession) :=
  gets (query (λ g, bool_decide (g_playerId g = Some userId)) g_createdAt limit offset).

(** ** The idle sweep (session-expiry.service.ts) *)

(** [configService.get('SESSION_TIMEOUT_MINUTES')] *)
Variable timeoutMinutes : option Z.
Definition SESSION_TIMEOUT_MINUTES : Z := 30.
Definition timeoutMs : Z := default SESSION_TIMEOUT_MINUTES timeoutMinutes * 60 * 1000.

Definition idle (time : Z) (g : GameSession) : bool :=
  bool_decide (g_status g ∈ [GameSessionStatus.WAITING_FOR_PLAYER; GameSessionStatus.IN_PROGRESS])
  && negb (g_hasWager g) && (g_updatedAt g <? time - timeoutMs).

(** One [UPDATE ... WHERE]; the number of rows it changes is returned. *)
Definition sweep : M nat :=
  time ← gets (λ d, now (base d));
  affected ← gets (λ d, length (rows_where (idle time) d));
  modify (λ d, d <| sessions := (λ g, if idle time g
    then g <| g_status := GameSessionStatus.ABANDONED |> <| g_updatedAt := time |> else g)
    <$> sessions d |>);;
  mret affected.
End GameSessionsService.

(** ** Lemmas *)

(** What the sessions rely on of the coordinator: its promises never reject
    where the code awaits them without a [try]. *)
Class WagerLaws {X} (W : IWagerService X) : Prop := {
  createWager_returns dto b : ∃ r b', ws_createWager dto b = (Ok r, b');
}.

(** [WagerService.createWager] keeps that promise: everything after the stake is
    read runs inside its [try]. *)
#[export] Instance wager_service_laws {X} `{!WagerRows X, !ITokenService X, !WagerSettlement X}
    decimals minutes : WagerLaws (wager_service (X := X) decimals minutes).
Proof.
  constructor. intros dto b. cbn. unfold createWager.
  destruct (assertPositiveStroops (cw_stake dto) "Stake") as [stake|e] eqn:E; [|by eexists _, _].
  assert (∃ s, fromStroops decimals stake = Ok s) as [s Hs].
  { unfold assertPositiveStroops in E.
    destruct (toBigInt (cw_stake dto)) as [v|] eqn:Hv; [|done]. simpl in E.
    destruct (v <=? 0); [done|]. injection E as <-.
    eapply fromStroops_total, toBigInt_show. by apply toBigInt_in_i128 in Hv as [? _]. }
  mrun. unfold try_catch. destruct (createWagerBody _ _ _ _ _ _ b) as [[r|e] b']; by eexists _, _.
Qed.

Section sessions_properties.
Context {X : Type} {T : ITokenService X} {W : IWagerService X}.
Variable decimals : nat.
Variable uuid : nat → string.
Variable ttlMinutes timeoutMinutes : option Z.
Local Abbreviation Store := (Store X).

(** Every row is stored under its identifier. *)
Definition keyed (d : Store) : Prop := ∀ k g, sessions d !! k = Some g → g_id g = k.

Lemma bind_on_base {A B} (m : M (Db X) A) (f : A → M Store B) (d : Store) :
  (on_base m ≫= f) d =
  match m (base d) with
  | (Ok a, b) => f a (d <| base := b |>)
  | (Err e, b) => (Err e, d <| base := b |>)
  end.
Proof. unfold mbind, M_bind, on_base. by destruct (m (base d)) as [[a|e] b]. Qed.

Lemma bind_find_player {B} id (f : option User → M Store B) (d : Store) :
  (find_player id ≫= f) d = f (users (base d) !! id) d.
Proof. by destruct d. Qed.

Lemma bind_find_session {B} id (f : option GameSession → M Store B) (d : Store) :
  (find_session id ≫= f) d = f (sessions d !! id) d.
Proof. done. Qed.

Lemma bind_save_session {B} g (f : GameSession → M Store B) (d : Store) :
  (save_session g ≫= f) d =
  let g' := g <| g_updatedAt := now (base d) |> in
  f g' (d <| sessions := <[g_id g := g']> (sessions d) |>).
Proof. done. Qed.

Lemma settle_inv {A} (m : M (Db X) A) g (k : GameSession → A → CompletedGame) (d : Store) c d' :
  (on_base m ≫= λ a, save_session g ≫= λ u, mret (k u a)) d = (Ok c, d') →
  ∃ time, sessions d' = <[g_id g := g <| g_updatedAt := time |>]> (sessions d) ∧ created d' = created d.
Proof.
  rewrite bind_on_base. destruct (m (base d)) as [[a|e] b]; [|done].
  rewrite bind_save_session. intros [= _ <-]. by eexists.
Qed.

Lemma requireInvitation_inv sid user (d : Store) g d' : requireInvitation sid user d = (Ok g, d') →
  d' = d ∧ sessions d !! sid = Some g ∧ g_playerTwoId g = Some (u_id user) ∧
  g_status g = GameSessionStatus.WAITING_FOR_PLAYER.
Proof.
  unfold requireInvitation. rewrite bind_find_session, bind_require.
  destruct (sessions d !! sid) as [g'|]; [|done]. rewrite !bind_throw_if.
  destruct (bool_decide (g_playerTwoId g' = _)) eqn:H1; [|done]. cbn [negb].
  destruct (bool_decide (g_status g' = _)) eqn:H2; [|done].
  cbn [negb]. intros [= <- <-]. by bool_prop.
Qed.

Lemma requireInvitation_err sid user (d : Store) e d' : requireInvitation sid user d = (Err e, d') → d' = d.
Proof.
  unfold requireInvitation. rewrite bind_find_session, bind_require.
  destruct (sessions d !! sid) as [g'|]; [|by intros [= <- <-]]. rewrite !bind_throw_if.
  destruct (negb _); [by intros [= <- <-]|].
  destruct (negb _); by intros [= <- <-].
Qed.

(** Steps that leave the sessions table alone. *)
Definition same_sessions (d d' : Store) : Prop :=
  sessions d' = sessions d ∧ created d' = created d.
#[local] Instance same_sessions_refl : Reflexive same_sessions.
Proof. done. Qed.
#[local] Instance same_sessions_trans : Transitive same_sessions.
Proof. intros x y z [? ?] [? ?]. split; congruence. Qed.

Lemma on_base_frame {A} (m : M (Db X) A) : preserves same_sessions (on_base m).
Proof. intros s r s'. unfold on_base. destruct (m (base s)). by intros [= <- <-]. Qed.
#[local] Hint Resolve on_base_frame : frame.

Lemma checkOpponent_frame dto player : preserves same_sessions (checkOpponent dto player).
Proof.
  unfold checkOpponent, find_player. cbv zeta.
  destruct (isMultiplayer _); eauto 10 with frame typeclass_instances.
Qed.

Lemma checkStake_frame dto player : preserves same_sessions (checkStake decimals dto player).
Proof.
  unfold checkStake, find_player. cbv zeta. destruct (wantsWager _); [|by apply preserves_ret].
  repeat first [ solve [eauto with frame typeclass_instances]
               | apply (preserves_bind same_sessions); [|intros] | case_goal ].
Qed.

(** ** Properties *)

(** C4. Settling a session pays the player with the higher score, and refunds a
    tie: exactly one settlement call is made, for that outcome, and the session is
    stored as completed with both scores and that winner; when the call throws,
    the session is left as it was. *)
Theorem completeWageredGame_settles sid s1 s2 (d : Store) g p :
  sessions d !! sid = Some g → g_id g = sid → g_hasWager g = true →
  g_status g ≠ GameSessionStatus.COMPLETED →
  g_playerId g = Some (u_id p) → users (base d) !! u_id p = Some p →
  let winner := if s2 <? s1 then Some (u_id p) else
                if s1 <? s2 then g_playerTwoId g else None in
  let settlement := if (s2 <? s1) || (s1 <? s2) then ws_resolveWagerWithWinner sid winner
                    else ws_resolveWagerAsDraw sid in
  match settlement (base d) with
  | (Ok wr, b) => ∃ c d', completeWageredGame sid s1 s2 d = (Ok c, d') ∧
      base d' = b ∧ cg_wagerResult c = wr ∧ cg_winnerId c = winner ∧
      sessions d' = <[sid := cg_gameSession c]> (sessions d) ∧
      g_status (cg_gameSession c) = GameSessionStatus.COMPLETED ∧
      g_score (cg_gameSession c) = s1 ∧ g_playerTwoScore (cg_gameSession c) = s2 ∧
      (winner ≠ None → g_winnerId (cg_gameSession c) = winner)
  | (Err e, b) => completeWageredGame sid s1 s2 d = (Err e, d <| base := b |>)
  end.
Proof.
  intros Hg Hid Hw Hst Hp Hu winner settlement.
  assert (∃ two, ∀ B (f : option User → M Store B), (playerOf (g_playerTwoId g) ≫= f) d = f two d)
    as [two Htwo].
  { destruct (g_playerTwoId g) as [id|]; cbn; [|by exists None].
    exists (users (base d) !! id). intros B f. by rewrite bind_find_player. }
  unfold completeWageredGame. rewrite bind_find_session, Hg, bind_require, Hp. cbn [playerOf].
  rewrite bind_find_player, Htwo, !bind_throw_if, Hw. cbn [negb]. rewrite ?bind_throw_if, bool_decide_false by done.
  rewrite bind_gets. unfold settlement, winner. clear settlement winner.
  destruct (s2 <? s1) eqn:E1; cbn [orb]; [|destruct (s1 <? s2) eqn:E2; cbn [orb]].
  - rewrite Hu, bind_require, bind_on_base.
    destruct (ws_resolveWagerWithWinner _ _ _) as [[wr|e] b]; [|done].
    rewrite bind_save_session. eexists _, _. split; [reflexivity|]. cbn. by rewrite Hid.
  - rewrite bind_on_base. destruct (ws_resolveWagerWithWinner _ _ _) as [[wr|e] b]; [|done].
    rewrite bind_save_session. eexists _, _. split; [reflexivity|]. cbn. by rewrite Hid.
  - rewrite bind_on_base. destruct (ws_resolveWagerAsDraw _ _) as [[wr|e] b]; [|done].
    rewrite bind_save_session. eexists _, _. split; [reflexivity|]. cbn. by rewrite Hid.
Qed.

(** Only the invited player can answer an invitation, and only while it is
    open: if [accept] or [decline] changes anything at all, sessions, wagers or
    balances, then the session was waiting for exactly this user. *)
Theorem invitation_only_by_invitee sid user (d : Store) :
  (accept ttlMinutes sid user d).2 ≠ d ∨ (decline sid user d).2 ≠ d →
  ∃ g, sessions d !! sid = Some g ∧ g_playerTwoId g = Some (u_id user) ∧
       g_status g = GameSessionStatus.WAITING_FOR_PLAYER.
Proof.
  intros Hne. destruct (requireInvitation sid user d) as [[g|err] d1] eqn:Hreq.
  - apply requireInvitation_inv in Hreq as (-> & H1 & H2 & H3). eauto.
  - exfalso. pose proof (requireInvitation_err _ _ _ _ _ Hreq) as ->.
    unfold accept, decline in Hne. rewrite !(bind_run_err _ _ _ _ _ Hreq) in Hne.
    by destruct Hne.
Qed.

(** A session whose wager cannot be created leaves no trace in the sessions
    table: [create] either keeps the new row or, on every error, restores the
    table. *)
Theorem create_no_orphan `{!WagerLaws W} dto player (d : Store) e d' :
  sessions d !! uuid (created d) = None →
  create decimals uuid dto player d = (Err e, d') → sessions d' = sessions d.
Proof.
  intros Hfresh Hrun. unfold create in Hrun.
  pose proof (checkOpponent_frame dto player) as H1. pose proof (checkStake_frame dto player) as H2.
  destruct (checkOpponent dto player d) as [[[]|e1] d1] eqn:E1;
    destruct (H1 _ _ _ E1) as [Hs1 Hc1].
  2:{ rewrite (bind_run_err _ _ _ _ _ E1) in Hrun. by injection Hrun as _ <-. }
  rewrite (bind_run _ _ _ _ _ E1) in Hrun.
  destruct (checkStake decimals dto player d1) as [[stake|e2] d2] eqn:E2;
    destruct (H2 _ _ _ E2) as [Hs2 Hc2]; rewrite Hs1 in Hs2; rewrite Hc1 in Hc2.
  2:{ rewrite (bind_run_err _ _ _ _ _ E2) in Hrun. by injection Hrun as _ <-. }
  rewrite (bind_run _ _ _ _ _ E2) in Hrun.
  unfold insert_session in Hrun. rewrite bind_assoc, bind_gets in Hrun.
  rewrite bind_assoc, bind_gets, bind_assoc, bind_modify, bind_ret in Hrun.
  destruct (_ && _); [|done]. rewrite bind_on_base in Hrun.
  edestruct createWager_returns as (wr & b & Hcw). rewrite Hcw in Hrun.
  destruct (wr_success wr); [done|]. cbn [negb] in Hrun.
  unfold delete_session in Hrun. rewrite bind_assoc, bind_find_session in Hrun.
  rewrite bind_assoc, bind_modify, bind_ret in Hrun. injection Hrun as _ <-. cbn.
  rewrite Hs2, Hc2. by rewrite delete_insert_id.
Qed.

(** The row a successful [create] stores. *)
Lemma create_row dto player (d : Store) resp d' :
  create decimals uuid dto player d = (Ok resp, d') →
  sessions d' !! g_id (resp_session resp) = Some (resp_session resp) ∧
  g_hasWager (resp_session resp) = default false (gd_hasWager dto) ∧
  g_mode (resp_session resp) = default SINGLE_PLAYER (gd_mode dto) ∧
  g_status (resp_session resp) = (if isMultiplayer (gd_mode dto)
    then GameSessionStatus.WAITING_FOR_PLAYER else GameSessionStatus.IN_PROGRESS).
Proof.
  unfold create. intros (? & d1 & _ & Hrun)%bind_Ok_inv.
  apply bind_Ok_inv in Hrun as (stake & d2 & _ & Hrun).
  unfold insert_session in Hrun. rewrite bind_assoc, bind_gets in Hrun.
  rewrite bind_assoc, bind_gets, bind_assoc, bind_modify, bind_ret in Hrun.
  destruct (_ && _).
  - rewrite bind_on_base in Hrun. destruct (ws_createWager _ _) as [[wr|e] b]; [|done].
    destruct (wr_success wr); [|by cbn in Hrun]. cbn [negb] in Hrun.
    injection Hrun as <- <-. cbn. by rewrite lookup_insert_eq.
  - injection Hrun as <- <-. cbn. by rewrite lookup_insert_eq.
Qed.

(** No wagered session can be settled: the service stores [hasWager] as the
    request says, the request type has no such property, and nothing sets it, so a
    session created in mode [wagered] answers every [completeWageredGame] with an
    error, and its pot is never paid out that way. *)
Theorem wagered_session_never_settles dto player (d : Store) resp d' s1 s2 :
  gd_mode dto = Some WAGERED → gd_hasWager dto = None →
  create decimals uuid dto player d = (Ok resp, d') →
  completeWageredGame (g_id (resp_session resp)) s1 s2 d' =
  (Err (BadRequest "This game session does not have a wager"), d').
Proof.
  intros Hm Hw Hrun. destruct (create_row _ _ _ _ _ Hrun) as (Hrow & Hhas & _).
  rewrite Hw in Hhas. cbn in Hhas.
  unfold completeWageredGame. rewrite bind_find_session, Hrow, bind_require.
  assert (∀ id B (f : option User → M Store B), ∃ u, (playerOf id ≫= f) d' = f u d') as Hpl.
  { intros [id|] B f; eexists; [apply bind_find_player|apply bind_ret]. }
  edestruct Hpl as [p ->]. edestruct Hpl as [p2 ->].
  by rewrite !bind_throw_if, Hhas.
Qed.

(** The idle sweep: it abandons exactly the sessions without the [hasWager]
    mark that wait or are played and were last touched before the timeout, reports
    how many, keeps every other row, and touches neither wagers nor balances. *)
Theorem sweep_spec (d : Store) :
  ∃ n d', sweep timeoutMinutes d = (Ok n, d') ∧ base d' = base d ∧
    n = length (rows_where (idle timeoutMinutes (now (base d))) d) ∧
    (∀ k g, sessions d !! k = Some g →
       ∃ g', sessions d' !! k = Some g' ∧
         if idle timeoutMinutes (now (base d)) g
         then g_status g' = GameSessionStatus.ABANDONED else g' = g) ∧
    (∀ k g', sessions d' !! k = Some g' → idle timeoutMinutes (now (base d)) g' = false).
Proof.
  eexists _, _. split; [reflexivity|]. cbn. split; [done|]. split; [done|]. split.
  - intros k g Hk. rewrite lookup_fmap, Hk. cbn. eexists. split; [done|].
    by destruct (idle _ _ g).
  - intros k g'. rewrite lookup_fmap. intros (g & Hk & ->)%fmap_Some.
    destruct (idle timeoutMinutes (now (base d)) g) eqn:E; [|done].
    unfold idle. cbn. by rewrite bool_decide_false by (intros H; set_solver).
Qed.

(** The idle sweep also abandons wagered sessions, with their stakes still in
    escrow: a session created in mode [wagered] that has been idle for the timeout
    is abandoned like any other, and its wager and both balances stay as they
    were. *)
Theorem sweep_abandons_wagered dto player (d : Store) resp (d1 d2 : Store) :
  gd_mode dto = Some WAGERED → gd_hasWager dto = None →
  create decimals uuid dto player d = (Ok resp, d1) →
  sessions d2 !! g_id (resp_session resp) = Some (resp_session resp) →
  g_updatedAt (resp_session resp) < now (base d2) - timeoutMs timeoutMinutes →
  ∃ n d3 g, sweep timeoutMinutes d2 = (Ok n, d3) ∧ base d3 = base d2 ∧
    sessions d3 !! g_id (resp_session resp) = Some g ∧ isWagered g = true ∧
    g_status g = GameSessionStatus.ABANDONED.
Proof.
  intros Hm Hw Hrun Hrow Hidle. destruct (create_row _ _ _ _ _ Hrun) as (_ & Hhas & Hmode & Hst).
  rewrite Hw in Hhas. rewrite Hm in Hmode, Hst. cbn in Hhas, Hmode, Hst.
  assert (idle timeoutMinutes (now (base d2)) (resp_session resp) = true) as Hid.
  { unfold idle. rewrite Hst, Hhas. cbn [negb]. by rewrite (proj2 (Z.ltb_lt _ _) Hidle). }
  eexists _, _, _. split; [reflexivity|]. split; [done|]. cbn.
  rewrite lookup_fmap, Hrow. cbn. rewrite Hid. split; [done|]. split; [|done].
  unfold isWagered. cbn. by rewrite Hmode.
Qed.

(** Abandoning, when the refund call answers. *)
Lemma abandonInvitation_run g (d : Store) : 
  (∀ b, ∃ r b', ws_resolveWagerAsDraw (g_id g) b = (Ok r, b') ∧ now b' = now b) →
  ∃ x d', abandonInvitation g d = (Ok x, d') ∧ now (base d') = now (base d) ∧
    sessions d' = <[g_id g := g <| g_status := GameSessionStatus.ABANDONED |>
                                <| g_updatedAt := now (base d) |>]> (sessions d).
Proof.
  intros Hdraw. unfold abandonInvitation. rewrite bind_save_session. cbv zeta.
  destruct (isWagered g); cbn [negb]; [|by eexists _, _].
  rewrite bind_on_base. edestruct Hdraw as (r & b' & Hr & Hn).
  change (g_id (g <| g_status := _ |>)) with (g_id g). cbn [base]. rewrite Hr.
  eexists _, _. split; [reflexivity|]. by split; [cbn; rewrite Hn|].
Qed.

Lemma elem_of_rows_where p (d : Store) g :
  g ∈ rows_where p d ↔ p g = true ∧ ∃ k, sessions d !! k = Some g.
Proof.
  unfold rows_where. rewrite list_elem_of_filter, list_elem_of_fmap, Is_true_true. split.
  - intros (Hp & [k g0] & -> & Hk%elem_of_map_to_list). eauto.
  - intros (Hp & k & Hk). split; [done|]. exists (k, g). by rewrite elem_of_map_to_list.
Qed.

(** The loop of the sweep: every session it is given ends abandoned, the others
    stay as they were. *)
Lemma abandon_all l (d1 : Store) :
  (∀ sid b, ∃ r b', ws_resolveWagerAsDraw sid b = (Ok r, b') ∧ now b' = now b) →
  ∃ d', for_each (λ g, abandonInvitation g;; mret tt) l d1 = (Ok tt, d') ∧
    ∀ k, (sessions d' !! k = sessions d1 !! k ∧ k ∉ g_id <$> l) ∨
         (k ∈ g_id <$> l ∧ ∃ g', sessions d' !! k = Some g' ∧
            g_status g' = GameSessionStatus.ABANDONED).
Proof.
  intros Hdraw. revert d1. induction l as [|g l IH]; intros d1; cbn [for_each].
  { eexists. split; [reflexivity|]. intros k. left. split; [done|apply not_elem_of_nil]. }
  destruct (abandonInvitation_run g d1 (Hdraw (g_id g))) as (x & d2 & Hrun & _ & Hs).
  rewrite bind_assoc, (bind_run _ _ _ _ _ Hrun), bind_ret.
  destruct (IH d2) as (d' & Hrun' & Hd'). exists d'. split; [done|].
  intros k. rewrite fmap_cons, elem_of_cons.
  destruct (Hd' k) as [[Hsame Hnot]|(Hin & Hab)]; [|by right; split; [right|]].
  rewrite Hsame, Hs. destruct (decide (g_id g = k)) as [<-|Hne].
  - right. split; [by left|]. rewrite lookup_insert_eq. eexists. by split.
  - left. rewrite lookup_insert_ne by done. split; [done|]. by intros [->|].
Qed.

(** The expiry sweep, when no refund call throws: afterwards no invitation
    older than the limit is open, every session it did not select is unchanged,
    and it reports how many it abandoned. *)
Theorem expireInvitations_spec (d : Store) : keyed d →
  (∀ sid b, ∃ r b', ws_resolveWagerAsDraw sid b = (Ok r, b') ∧ now b' = now b) →
  let stale := unanswered ttlMinutes (now (base d)) in
  ∃ d', expireInvitations ttlMinutes d = (Ok (length (rows_where stale d)), d') ∧
    (∀ k g, sessions d' !! k = Some g → stale g = false) ∧
    (∀ k g, sessions d !! k = Some g →
       if stale g then ∃ g', sessions d' !! k = Some g' ∧ g_status g' = GameSessionStatus.ABANDONED
       else sessions d' !! k = Some g).
Proof.
  intros Hk Hdraw stale. unfold expireInvitations. rewrite bind_gets. fold stale.
  assert (∀ g, g_status g = GameSessionStatus.ABANDONED → stale g = false) as Hab.
  { intros g Hg. unfold stale, unanswered. by rewrite Hg. }
  assert (∀ k, k ∈ g_id <$> rows_where stale d ↔
               ∃ g, sessions d !! k = Some g ∧ stale g = true) as Hsel.
  { intros k. rewrite list_elem_of_fmap. setoid_rewrite elem_of_rows_where. split.
    - intros (g & -> & Hst & k' & Hg). rewrite (Hk _ _ Hg). eauto.
    - intros (g & Hg & Hst). exists g. split; [by rewrite (Hk _ _ Hg)|eauto]. }
  destruct (abandon_all (rows_where stale d) d Hdraw) as (d' & Hrun & Hd').
  exists d'. rewrite (bind_run _ _ _ _ _ Hrun). split; [done|]. split; intros k g Hg.
  - destruct (Hd' k) as [[Hsame Hnot]|(_ & g' & Hg' & Hst)].
    + rewrite Hsame in Hg. destruct (stale g) eqn:E; [|done].
      exfalso. apply Hnot, Hsel. eauto.
    + rewrite Hg in Hg'. injection Hg' as ->. by apply Hab.
  - destruct (Hd' k) as [[Hsame Hnot]|(Hin & Hend)]; destruct (stale g) eqn:E.
    + exfalso. apply Hnot, Hsel. eauto.
    + by rewrite Hsame.
    + done.
    + apply Hsel in Hin as (g' & Hg' & E'). rewrite Hg in Hg'. injection Hg' as ->. congruence.
Qed.

(** Deleting a session never orphans a pot: when [remove] succeeds, the caller
    plays in the session or is an admin, the session's wager, if it has one, is
    already won, refunded or failed, and exactly that session is gone. *)
Theorem remove_only_settled sid user (d d' : Store) :
  remove sid user d = (Ok tt, d') →
  ∃ g w b, sessions d !! sid = Some g ∧
    (g_playerId g = Some (u_id user) ∨ g_playerTwoId g = Some (u_id user) ∨ u_role user = Admin) ∧
    ws_getWagerBySessionId sid (base d) = (Ok w, b) ∧
    (∀ w', w = Some w' → w_status w' ∈ TERMINAL_WAGER_STATUSES) ∧
    d' = d <| base := b |> <| sessions := delete sid (sessions d) |>.
Proof.
  unfold remove, findOne, assertParticipant. rewrite bind_assoc, bind_find_session.
  rewrite bind_assoc, bind_require. destruct (sessions d !! sid) as [g|] eqn:Hg; [|done].
  rewrite bind_assoc, bind_throw_if. destruct (negb _ && _) eqn:Hp; [done|].
  rewrite bind_ret, bind_on_base. intros Hrun.
  destruct (ws_getWagerBySessionId sid (base d)) as [[w|e] b] eqn:Hw; [|done].
  exists g, w, b. split; [done|]. split.
  { rewrite <-!negb_orb in Hp. apply negb_false_iff in Hp. bool_prop.
    destruct Hp as [[Hp|Hp]%orb_true_iff|Hp]; apply bool_decide_eq_true in Hp; auto. }
  split; [done|].
  assert (∀ (d0 : Store) x d1,
    (delete_session sid ≫= λ n, throw_if (bool_decide (n = 0%nat))
      (NotFound ("Game session with ID " +:+ dq +:+ sid +:+ dq +:+ " not found"))) d0 = (Ok x, d1) →
    d1 = d0 <| sessions := delete sid (sessions d0) |>) as Hdel.
  { intros d0 x d1. unfold delete_session. rewrite bind_assoc, bind_find_session.
    rewrite bind_assoc, bind_modify, bind_ret. destruct (sessions d0 !! sid); [|done].
    rewrite bool_decide_false by done. by intros [= _ <-]. }
  destruct w as [w|].
  - rewrite bind_throw_if in Hrun. 
    destruct (bool_decide (w_status w ∈ _)) eqn:Ht; [|done]. cbn [negb] in Hrun. bool_prop.
    split; [by intros w' [= <-]|]. by apply Hdel in Hrun.
  - rewrite bind_ret in Hrun. split; [done|]. by apply Hdel in Hrun.
Qed.

(** The scoreboard: a page of [getTopScores] holds completed sessions in
    descending order of the better of their two scores, and no completed session
    beats one of the first page without being on it. *)
Theorem getTopScores_ranked limit offset (d : Store) :
  let best g := Z.max (g_score g) (g_playerTwoScore g) in
  ∃ l, getTopScores limit offset d = (Ok l, d) ∧
    StronglySorted (ordered_by best) l ∧
    (∀ g, g ∈ l → g_status g = GameSessionStatus.COMPLETED ∧ ∃ k, sessions d !! k = Some g) ∧
    (offset = 0%nat → ∀ k g g', sessions d !! k = Some g →
       g_status g = GameSessionStatus.COMPLETED → g' ∈ l → g ∉ l → best g ≤ best g').
Proof.
  intros best. unfold getTopScores. eexists. split; [reflexivity|].
  set (p := λ g : GameSession, bool_decide (g_status g = GameSessionStatus.COMPLETED)).
  assert (Transitive (ordered_by best)) by (intros ???; unfold ordered_by; lia).
  assert (Total (ordered_by best)) by (intros ??; unfold ordered_by; lia).
  unfold query, page. fold best.
  set (rows := merge_sort (ordered_by best) (rows_where p d)).
  assert (StronglySorted (ordered_by best) rows) as Hsorted
    by (apply StronglySorted_merge_sort; apply _).
  assert (∀ g, g ∈ rows ↔ g ∈ rows_where p d) as Hrows.
  { intros g. unfold rows. by rewrite merge_sort_Permutation. }
  assert (rows = take offset rows ++ take limit (drop offset rows) ++
    drop limit (drop offset rows)) as Hsplit by by rewrite (take_drop limit), take_drop.
  split_and!.
  - rewrite Hsplit in Hsorted. apply StronglySorted_app_1_r in Hsorted.
    by apply StronglySorted_app_1_l in Hsorted.
  - intros g Hg. assert (g ∈ rows) as Hr by (rewrite Hsplit, !elem_of_app; auto).
    apply Hrows, elem_of_rows_where in Hr as [Hp Hk]. split; [by apply bool_decide_eq_true in Hp|done].
  - intros -> k g g' Hk Hst Hg' Hg. rewrite take_0, drop_0 in *. cbn [app] in Hsplit.
    assert (g ∈ rows) as Hgr.
    { apply Hrows, elem_of_rows_where. split; [by apply bool_decide_eq_true|eauto]. }
    rewrite Hsplit, !elem_of_app in Hgr. destruct Hgr as [|Hd]; [done|].
    rewrite Hsplit in Hsorted. by apply (StronglySorted_app_1_elem_of _ _ _ g' g Hsorted).
Qed.
(** *** What happens to a settled session *)

Lemma completeWageredGame_stored sid s1 s2 (d : Store) c d' : keyed d → completeWageredGame sid s1 s2 d = (Ok c, d') →
  ∃ g, sessions d' = <[sid := g]> (sessions d) ∧ created d' = created d ∧ g_id g = sid ∧
    g_hasWager g = true ∧ g_status g = GameSessionStatus.COMPLETED.
Proof.
  intros Hk Hrun. unfold completeWageredGame in Hrun. rewrite bind_find_session, bind_require in Hrun.
  destruct (sessions d !! sid) as [g|] eqn:Hg; [|done]. pose proof (Hk _ _ Hg) as Hid.
  assert (∀ id B (f : option User → M Store B) b d1 d2, (playerOf id ≫= f) d1 = (Ok b, d2) →
    ∃ u, f u d1 = (Ok b, d2)) as Hpl.
  { intros [id|] B f b d1 d2 H; eexists; [rewrite <-(bind_find_player id)|]; exact H. }
  apply Hpl in Hrun as [p Hrun]. apply Hpl in Hrun as [p2 Hrun].
  rewrite !bind_throw_if in Hrun. destruct (g_hasWager g) eqn:Hw; [|done]. cbn [negb] in Hrun.
  destruct (bool_decide _); [done|]. rewrite bind_gets in Hrun.
  destruct (s2 <? s1); [|destruct (s1 <? s2)].
  1: rewrite bind_require in Hrun; destruct p as [p|]; [|done].
  all: apply settle_inv in Hrun as (time & Hrun & Hc); cbn in Hrun; rewrite Hid in Hrun;
    eexists; (split; [exact Hrun|]); by cbn.
Qed.

Section settled.
Variable sid : string.

(** A row that may be stored without unsettling [sid]. *)
Definition harmless (g : GameSession) : Prop :=
  g_id g = sid → g_hasWager g = true ∧ g_status g = GameSessionStatus.COMPLETED.
(** Rows are stored under their ids, the session is completed or gone, and its id is not given again. *)
Definition settled (d : Store) : Prop :=
  keyed d ∧ (∀ k g, sessions d !! k = Some g → harmless g) ∧ (∀ n, (created d ≤ n)%nat → uuid n ≠ sid).
Definition stays (d d' : Store) : Prop := settled d → settled d'.
#[local] Instance stays_refl : Reflexive stays.
Proof. intros d Hd. exact Hd. Qed.
#[local] Instance stays_trans : Transitive stays.
Proof. intros d1 d2 d3 H1 H2 Hd. exact (H2 (H1 Hd)). Qed.

Lemma stays_on_base {A} (m : M (Db X) A) : preserves stays (on_base m).
Proof. intros d r d'. unfold on_base. destruct (m (base d)) as [x b]. intros [= <- <-] Hd. exact Hd. Qed.

Lemma stays_save g : harmless g → preserves stays (save_session g).
Proof.
  intros Hg d r d'. unfold save_session. rewrite bind_gets, bind_modify. intros [= <- <-] (Hk & Hh & Hu).
  split; [|split; [|exact Hu]]; intros k g'; cbn; intros [[<- <-]|[_ Hin]]%lookup_insert_Some.
  - done.
  - by apply Hk.
  - exact Hg.
  - by eapply Hh.
Qed.

Lemma stays_insert g : preserves stays (insert_session uuid g).
Proof.
  intros d r d'. unfold insert_session. rewrite !bind_gets, bind_modify. intros [= <- <-] (Hk & Hh & Hu).
  split; [|split]; cbn.
  - intros k g'. cbn. intros [[<- <-]|[_ Hin]]%lookup_insert_Some; [done|by apply Hk].
  - intros k g' [[<- <-]|[_ Hin]]%lookup_insert_Some; [|by eapply Hh]. cbn. intros Hid. by destruct (Hu (created d)).
  - intros n Hn. apply Hu. lia.
Qed.

Lemma stays_delete id : preserves stays (delete_session id).
Proof.
  intros d r d'. unfold delete_session. rewrite bind_find_session, bind_modify. intros [= <- <-] (Hk & Hh & Hu).
  split; [|split; [|exact Hu]]; intros k g; cbn; intros [_ H]%lookup_delete_Some; [by apply Hk|by eapply Hh].
Qed.

(** What is found may be used as a row of a settled table. *)
Lemma stays_find {A} id (f : option GameSession → M Store A) :
  (∀ o, (∀ g, o = Some g → harmless g) → preserves stays (f o)) → preserves stays (find_session id ≫= f).
Proof.
  intros Hf d r d' Hrun Hd. rewrite bind_find_session in Hrun. eapply Hf; [|exact Hrun|exact Hd].
  intros g Hg. destruct Hd as (_ & Hh & _). by eapply Hh.
Qed.
Lemma stays_found {A} (o : option GameSession) e (f : GameSession → M Store A) :
  (∀ g, o = Some g → harmless g) → (∀ g, harmless g → preserves stays (f g)) → preserves stays (require o e ≫= f).
Proof. intros Ho Hf. destruct o as [g|]; [apply Hf, Ho; done|]. intros d r d' [= <- <-]; reflexivity. Qed.

Lemma not_settled g status : harmless g → g_status g = status → status ≠ GameSessionStatus.COMPLETED → g_id g ≠ sid.
Proof. intros Hh Hs Hne Hid. destruct (Hh Hid) as [_ H]. congruence. Qed.

#[local] Hint Resolve stays_on_base stays_save stays_insert stays_delete : frame.

Lemma stays_throw_if {A} b e (f : unit → M Store A) : (b = false → preserves stays (f tt)) → preserves stays (throw_if b e ≫= f).
Proof. destruct b; intros Hf; [intros d r d' [= <- <-]; reflexivity|by apply Hf]. Qed.

Lemma stays_abandon g : g_id g ≠ sid → preserves stays (abandonInvitation g).
Proof.
  intros Hid. unfold abandonInvitation. apply preserves_bind; [exact _|apply stays_save; intros H; by destruct (Hid H)|intros g'].
  destruct (negb _); [apply preserves_ret; exact _|]. apply preserves_bind; [exact _|apply stays_on_base|intros]. apply preserves_ret; exact _.
Qed.

Lemma stays_invitation {A} id user (f : GameSession → M Store A) :
  (∀ g, g_id g ≠ sid → preserves stays (f g)) → preserves stays (requireInvitation id user ≫= f).
Proof.
  intros Hf d r d' Hrun Hd. destruct (requireInvitation id user d) as [[g|e] d1] eqn:Hi.
  - rewrite (bind_run _ _ _ _ _ Hi) in Hrun. apply requireInvitation_inv in Hi as (-> & Hg & _ & Hs).
    eapply Hf; [|exact Hrun|exact Hd]. destruct Hd as (_ & Hh & _). by eapply not_settled; [eapply Hh| |].
  - rewrite (bind_run_err _ _ _ _ _ Hi) in Hrun. injection Hrun as <- <-. by apply requireInvitation_err in Hi as ->.
Qed.

Lemma stays_accept id user : preserves stays (accept ttlMinutes id user).
Proof.
  unfold accept. apply stays_invitation. intros g Hg. apply preserves_bind; [exact _|unfold isExpired; eauto with frame typeclass_instances|intros expired].
  assert (∀ s, harmless (g <| g_status := s |>)) as Hh by (intros s H; by destruct (Hg H)). destruct expired.
  - apply preserves_bind; [exact _|by apply stays_abandon|intros]. apply preserves_throw; exact _.
  - destruct (negb _); [eauto with frame typeclass_instances|]. eauto 10 with frame typeclass_instances.
Qed.

Lemma stays_decline id user : preserves stays (decline id user).
Proof. apply stays_invitation. exact stays_abandon. Qed.

Lemma stays_abandon_all l : Forall (λ g, g_id g ≠ sid) l → preserves stays (for_each (λ g, abandonInvitation g;; mret tt) l).
Proof.
  induction 1 as [|g l Hg _ IH]; [apply preserves_ret; exact _|]. cbn [for_each]. apply preserves_bind; [exact _| |by intros []].
  apply preserves_bind; [exact _|by apply stays_abandon|intros]. apply preserves_ret; exact _.
Qed.

Lemma stays_expire : preserves stays (expireInvitations ttlMinutes).
Proof.
  intros d r d'. unfold expireInvitations. rewrite bind_gets. intros Hrun Hd.
  assert (Forall (λ g, g_id g ≠ sid) (rows_where (unanswered ttlMinutes (now (base d))) d)) as Hall.
  { apply Forall_forall. intros g Hin. apply list_elem_of_In, elem_of_rows_where in Hin as (Hu & k & Hk). apply andb_true_iff in Hu as [Hs%bool_decide_eq_true _].
    destruct Hd as (_ & Hh & _). by eapply not_settled; [eapply Hh| |]. }
  refine (preserves_bind stays _ _ (stays_abandon_all _ Hall) _ d r d' Hrun Hd). intros; apply preserves_ret; exact _.
Qed.

Lemma stays_findOne {A} id user (f : GameSession → M Store A) :
  (∀ g, harmless g → preserves stays (f g)) → preserves stays (findOne id user ≫= f).
Proof.
  intros Hf. unfold findOne. intros d r d' Hrun. rewrite bind_assoc in Hrun. revert Hrun. apply (stays_find id). intros o Ho.
  intros d1 r1 d1'. rewrite bind_assoc. apply (stays_found o); [done|]. intros g Hg d2 r2 d2'. rewrite bind_assoc.
  apply preserves_bind; [exact _| |].
  - destruct user as [user|]; [apply preserves_throw_if|apply preserves_ret]; exact _.
  - intros []. rewrite <-(left_id_L _ _ (f g)) || idtac. intros d3 r3 d3'. rewrite bind_ret. by apply Hf.
Qed.

Lemma stays_update id category user : preserves stays (update id category user).
Proof. apply stays_findOne. intros g Hg. apply stays_save. by destruct category. Qed.
Lemma stays_updateScore id score : preserves stays (updateScore id score).
Proof.
  apply stays_findOne. intros g Hg. apply stays_save. destruct (0 <? score); [|exact Hg].
  intros Hid. by destruct (Hg Hid) as [Hw _].
Qed.

Lemma stays_remove id user : preserves stays (remove id user).
Proof.
  apply stays_findOne. intros g _. apply preserves_bind; [exact _|apply stays_on_base|intros wager].
  apply preserves_bind; [exact _|destruct wager; eauto with frame typeclass_instances|intros].
  apply preserves_bind; [exact _|apply stays_delete|intros]. apply preserves_throw_if; exact _.
Qed.

Lemma stays_quiet {A} (m : M Store A) : preserves same_sessions m → preserves stays m.
Proof. intros Hm d r d' Hrun (Hk & Hh & Hu). destruct (Hm _ _ _ Hrun) as [Hs Hc]. unfold settled, keyed. by rewrite Hs, Hc. Qed.

Lemma stays_create dto player : preserves stays (create decimals uuid dto player).
Proof.
  unfold create. apply preserves_bind; [exact _|apply stays_quiet, checkOpponent_frame|intros].
  apply preserves_bind; [exact _|apply stays_quiet, checkStake_frame|intros stake].
  apply preserves_bind; [exact _|apply stays_insert|intros saved]. destruct (_ && _); [|apply preserves_ret; exact _].
  apply preserves_bind; [exact _|apply stays_on_base|intros w]. destruct (negb _); [|apply preserves_ret; exact _].
  apply preserves_bind; [exact _|apply stays_delete|intros]. apply preserves_throw; exact _.
Qed.

Lemma stays_playerOf id : preserves stays (playerOf id).
Proof. destruct id; [apply stays_on_base|apply preserves_ret; exact _]. Qed.

Lemma stays_complete id s1 s2 : preserves stays (completeWageredGame id s1 s2).
Proof.
  unfold completeWageredGame. apply stays_find. intros o Ho. apply stays_found; [done|]. intros g Hg.
  apply preserves_bind; [exact _|apply stays_playerOf|intros p]. apply preserves_bind; [exact _|apply stays_playerOf|intros p2].
  apply stays_throw_if. intros Hw%negb_false_iff. apply stays_throw_if. intros _.
  apply preserves_bind; [exact _|apply preserves_gets; exact _|intros time]. cbv zeta.
  destruct (s2 <? s1); [|destruct (s1 <? s2)]; [apply preserves_bind; [exact _|apply preserves_require; exact _|intros u]|..];
    (apply preserves_bind; [exact _|apply stays_on_base|intros wr]);
    (apply preserves_bind; [exact _|apply stays_save; intros Hid; by destruct (Hg Hid)|intros]; apply preserves_ret; exact _).
Qed.

Lemma stays_sweep : preserves stays (sweep timeoutMinutes).
Proof.
  intros d r d'. unfold sweep. rewrite !bind_gets, bind_modify. intros [= <- <-] (Hk & Hh & Hu).
  split; [|split; [|exact Hu]]; intros k g; cbn; rewrite lookup_fmap; intros (g0 & Hg0 & ->)%fmap_Some_1.
  - destruct (idle _ _ g0); exact (Hk _ _ Hg0).
  - destruct (idle _ _ g0) eqn:Hi; [|exact (Hh _ _ Hg0)]. intros Hid. destruct (Hh _ _ Hg0 Hid) as [Hw Hs].
    unfold idle in Hi. by rewrite Hw, andb_false_r in Hi.
Qed.
End settled.

(** The requests and jobs that reach the sessions ([updateGameStatus], which nothing calls, is not among them). *)
Inductive call :=
  | Create (dto : CreateGameSessionDto) (player : User)
  | Accept (id : string) (user : User) | Decline (id : string) (user : User)
  | Update (id : string) (category : option GameCategory) (user : User) | Remove (id : string) (user : User)
  | UpdateScore (id : string) (score : Z) | Complete (id : string) (s1 s2 : Z)
  | ExpireInvitations | Sweep.

Definition run_call (c : call) (d : Store) : Store :=
  match c with
  | Create dto player => (create decimals uuid dto player d).2
  | Accept id user => (accept ttlMinutes id user d).2
  | Decline id user => (decline id user d).2
  | Update id category user => (update id category user d).2
  | Remove id user => (remove id user d).2
  | UpdateScore id score => (updateScore id score d).2
  | Complete id s1 s2 => (completeWageredGame id s1 s2 d).2
  | ExpireInvitations => (expireInvitations ttlMinutes d).2
  | Sweep => (sweep timeoutMinutes d).2
  end.

(** One call, or anything that happens outside of the sessions: time, wagers, users. *)
Inductive call_step : relation Store :=
  | step_call c d : call_step d (run_call c d)
  | step_outside b d : call_step d (d <| base := b |>).

Lemma stays_step sid d d' : call_step d d' → stays sid d d'.
Proof.
  intros [c d0|b d0]; [|by intros Hd].
  assert (∀ A (m : M Store A), preserves (stays sid) m → stays sid d0 (m d0).2) as Hrun
    by (intros A m Hm; eapply Hm, surjective_pairing).
  destruct c; apply Hrun; [apply stays_create|apply stays_accept|apply stays_decline|apply stays_update|apply stays_remove
    |apply stays_updateScore|apply stays_complete|apply stays_expire|apply stays_sweep].
Qed.

End sessions_properties.

(** ** Witnesses: two players, a coordinator that agrees to everything *)

Definition ex_answer : WagerResult := mkWr true None (Some "Done.") [].
Definition ex_coordinator : IWagerService unit := {|
  ws_createWager _ := mret ex_answer;
  ws_acceptWager _ _ := mret ex_answer;
  ws_confirmStake _ _ _ := mret ex_answer;
  ws_resolveWagerWithWinner _ _ := mret ex_answer;
  ws_resolveWagerAsDraw _ := mret ex_answer;
  ws_reconcileWager _ := mret ex_answer;
  ws_requestFreshStakeTransaction _ _ := mret ex_answer;
  ws_getWagerBySessionId sid := find_wager sid;
  ws_getUserWagers _ _ _ := mret [];
|}.
#[local] Existing Instance ex_coordinator.
#[local] Instance ex_tokens : ITokenService unit := ex_backend true.

(** A coordinator that refuses every wager. *)
Definition ex_refusing : IWagerService unit := {|
  ws_createWager _ := mret (refused (Some "no"));
  ws_acceptWager _ _ := mret (refused (Some "no"));
  ws_confirmStake _ _ _ := mret (refused (Some "no"));
  ws_resolveWagerWithWinner _ _ := mret (refused (Some "no"));
  ws_resolveWagerAsDraw _ := mret (refused (Some "no"));
  ws_reconcileWager _ := mret (refused (Some "no"));
  ws_requestFreshStakeTransaction _ _ := mret (refused (Some "no"));
  ws_getWagerBySessionId _ := mret None;
  ws_getUserWagers _ _ _ := mret [];
|}.
Lemma ex_refusing_laws : WagerLaws ex_refusing.
Proof. constructor. intros dto b. by eexists _, _. Qed.

Definition ex_uuid (n : nat) : string := "id" +:+ show (Z.of_nat n).
Definition ex_dto (mode : GameMode) : CreateGameSessionDto :=
  mkCreateSession POP (Some mode) (Some "b") None (Some "2.5") None.
Definition ex_session : GameSession :=
  mkGameSession "s" (Some "a") (Some "b") 0 0 POP WAGERED GameSessionStatus.WAITING_FOR_PLAYER
    None (Some "25000000") true 0 0 None.
Definition ex_store (time : Z) : Store unit :=
  mkStore (<["s" := ex_session]> ∅) 0 (ex_wager_db None <| now := time |> <| wagers := ∅ |>).

Lemma ex_keyed time : keyed (ex_store time).
Proof. intros k g H. cbn in H. by apply lookup_insert_Some in H as [[<- <-]|[_ H]]. Qed.

(** Player two wins 7 to 3. *)
Lemma completeWageredGame_settles_witness :
  ∃ c d', completeWageredGame "s" 3 7 (ex_store 1000) = (Ok c, d') ∧
    cg_winnerId c = Some "b" ∧ g_status (cg_gameSession c) = GameSessionStatus.COMPLETED.
Proof.
  pose proof (completeWageredGame_settles "s" 3 7 (ex_store 1000) ex_session (ex_user "a" "90")
    eq_refl eq_refl eq_refl ltac:(discriminate) eq_refl ltac:(vm_compute; reflexivity)) as H.
  cbn in H. destruct H as (c & d' & H1 & _ & _ & H2 & _ & H3 & _).
  exists c, d'. split; [exact H1|]. split; [exact H2|exact H3].
Defined.


Lemma invitation_only_by_invitee_witness :
  ∃ g, sessions (ex_store 1000) !! "s" = Some g ∧ g_playerTwoId g = Some "b".
Proof.
  destruct (invitation_only_by_invitee None "s" (ex_user "b" "1") (ex_store 1000)) as (g & H1 & H2 & _).
  - left. intros H. apply (f_equal (λ d, g_status <$> sessions d !! "s")) in H.
    vm_compute in H. discriminate.
  - exists g. split; [exact H1|exact H2].
Defined.

(** The coordinator refuses the wager: the session is gone again. *)
Lemma create_no_orphan_witness :
  ∃ e d', create (W := ex_refusing) 7 ex_uuid (ex_dto WAGERED) (ex_user "a" "90") (ex_store 0)
    = (Err e, d') ∧ sessions d' = sessions (ex_store 0).
Proof.
  destruct (create (W := ex_refusing) 7 ex_uuid (ex_dto WAGERED) (ex_user "a" "90") (ex_store 0))
    as [[r|e] d'] eqn:E; [vm_compute in E; discriminate|].
  exists e, d'. split; [reflexivity|].
  apply (create_no_orphan (WagerLaws0 := ex_refusing_laws) 7 ex_uuid (ex_dto WAGERED)
    (ex_user "a" "90") (ex_store 0) e d'); [vm_compute; reflexivity|exact E].
Defined.

Lemma wagered_session_never_settles_witness :
  ∃ resp d', create 7 ex_uuid (ex_dto WAGERED) (ex_user "a" "90") (ex_store 0) = (Ok resp, d') ∧
    g_wagerStroops (resp_session resp) = Some "25000000" ∧
    completeWageredGame (g_id (resp_session resp)) 1 0 d' =
      (Err (BadRequest "This game session does not have a wager"), d').
Proof.
  destruct (create 7 ex_uuid (ex_dto WAGERED) (ex_user "a" "90") (ex_store 0))
    as [[resp|e] d'] eqn:E; [|vm_compute in E; discriminate].
  exists resp, d'. split; [reflexivity|]. split; [vm_compute in E; injection E as <- _; reflexivity|].
  exact (wagered_session_never_settles 7 ex_uuid (ex_dto WAGERED) (ex_user "a" "90") (ex_store 0)
    resp d' 1 0 eq_refl eq_refl E).
Defined.

Lemma sweep_abandons_wagered_witness :
  ∃ resp d1, create 7 ex_uuid (ex_dto WAGERED) (ex_user "a" "90") (ex_store 0) = (Ok resp, d1) ∧
  ∃ n d3 g, sweep None (d1 <| base := base d1 <| now := 1800001 |> |>) = (Ok n, d3) ∧
    sessions d3 !! g_id (resp_session resp) = Some g ∧ isWagered g = true ∧
    g_status g = GameSessionStatus.ABANDONED.
Proof.
  destruct (create 7 ex_uuid (ex_dto WAGERED) (ex_user "a" "90") (ex_store 0))
    as [[resp|e] d1] eqn:E; [|vm_compute in E; discriminate].
  exists resp, d1. split; [reflexivity|].
  destruct (sweep_abandons_wagered 7 ex_uuid None (ex_dto WAGERED) (ex_user "a" "90") (ex_store 0)
    resp d1 (d1 <| base := base d1 <| now := 1800001 |> |>) eq_refl eq_refl E)
    as (n & d3 & g & H1 & _ & H2 & H3 & H4).
  - vm_compute in E. injection E as <- <-. vm_compute. reflexivity.
  - vm_compute in E. injection E as <- <-. vm_compute. reflexivity.
  - exists n, d3, g. split; [exact H1|]. split; [exact H2|]. split; [exact H3|exact H4].
Defined.

(** Half an hour later the invitation of [ex_session] is swept. *)
Lemma expireInvitations_spec_witness :
  ∃ d', expireInvitations None (ex_store 1800001) = (Ok 1%nat, d') ∧
    ∃ g, sessions d' !! "s" = Some g ∧ g_status g = GameSessionStatus.ABANDONED.
Proof.
  destruct (expireInvitations_spec None (ex_store 1800001) (ex_keyed _)) as (d' & H1 & _ & H2).
  { intros sid b. exists ex_answer, b. split; reflexivity. }
  exists d'. split; [exact H1|]. exact (H2 "s" ex_session eq_refl).
Defined.

Lemma remove_only_settled_witness :
  ∃ d', remove "s" (ex_user "a" "90") (ex_store 0) = (Ok tt, d') ∧ sessions d' = ∅.
Proof.
  destruct (remove "s" (ex_user "a" "90") (ex_store 0)) as [[[]|e] d'] eqn:E;
    [|vm_compute in E; discriminate].
  exists d'. split; [reflexivity|].
  destruct (remove_only_settled "s" (ex_user "a" "90") (ex_store 0) d' E) as (g & w & b & _ & _ & _ & _ & ->).
  vm_compute. reflexivity.
Defined.
