(* ===== verification/WagerJobs.v ===== *)
(** * Background work on wagers (src/src/tokens/services)

    The in-flight settlement tracker (in-flight-settlement.tracker.ts), the sweep
    that refunds wagers past their stake deadline (wager-refund.job.ts) and the
    one that reconciles wagers stuck in settlement (wager-reconcile.job.ts). *)

From S2P Require Import Prelude Decimal Number Entities TokenService WagerService GameSessions.
From Stdlib Require Import Ascii.

(** ** The in-flight settlement tracker

    A promise is its number; [resolved] holds the promises resolved so far. *)

Module Tracker.
Record t := mk {
  pending : gmap string nat;
  resolved : gset nat;
  next : nat;
}.
Definition empty : t := mk ∅ ∅ 0.

(** [register]: the state and the callback, a label with its promise. *)
Definition register (label : string) (s : t) : t * (string * nat) :=
  (mk (<[label := next s]> (pending s)) (resolved s) (S (next s)), (label, next s)).

(** Calling the callback [register] returned. *)
Definition settle (done : string * nat) (s : t) : t :=
  mk (delete done.1 (pending s)) ({[done.2]} ∪ resolved s) (next s).

Definition count (s : t) : nat := size (pending s).

(** The promises [onApplicationShutdown] waits for, and whether they are there. *)
Definition drain (s : t) : list nat := (map_to_list (pending s)).*2.
Definition drained (snapshot : list nat) (s : t) : bool :=
  forallb (λ p, bool_decide (p ∈ resolved s)) snapshot.

(** What a shutdown waits for: the promises pending when it began, or its timeout.  It returns
    at once when there are none. *)
Record waiting := mkWaiting { snapshot : list nat; deadline : Z }.
Definition onApplicationShutdown (s : t) (now timeoutMs : Z) : option waiting :=
  if bool_decide (count s = 0%nat) then None else Some (mkWaiting (drain s) (now + timeoutMs)).
(** [Promise.race([drain, timeout])] is settled. *)
Definition over (w : waiting) (s : t) (now : Z) : bool :=
  drained (snapshot w) s || (deadline w <=? now).

(** [process.env['SETTLEMENT_DRAIN_TIMEOUT_MS']]: [Number] of the string, [None] when it is
    not a finite number. *)
Definition drainTimeoutMs (Number : string → option Z) (raw : option string) : Z :=
  match (if truthy raw then Number (default "" raw) else None) with
  | Some parsed => if 0 <? parsed then parsed else 30000
  | None => 30000
  end.

(** What the settlement code does with the tracker: settlements start, and the ones
    in flight finish, each by its own callback. *)
Inductive step : relation (t * gset (string * nat)) :=
  | step_start label s fl s' cb : register label s = (s', cb) →
      step (s, fl) (s', {[cb]} ∪ fl)
  | step_finish cb s fl : cb ∈ fl → step (s, fl) (settle cb s, fl ∖ {[cb]}).

(** The same, when no label starts again while it is in flight. *)
Inductive fresh_step : relation (t * gset (string * nat)) :=
  | fresh_start label s fl s' cb : (∀ n, (label, n) ∉ fl) → register label s = (s', cb) →
      fresh_step (s, fl) (s', {[cb]} ∪ fl)
  | fresh_finish cb s fl : cb ∈ fl → fresh_step (s, fl) (settle cb s, fl ∖ {[cb]}).
End Tracker.

Definition envInt (env : option string) (fallback : Z) : Z :=
  match parseInt (default "" env) with
  | Some parsed => if 0 <? parsed then parsed else fallback
  | None => fallback
  end.

(** [runWithRootSpan]: with the tracer at hand an error of [fn] is caught outside
    the span, where [fn] runs a second time; without it [fn] runs once. *)
Definition runWithRootSpan {S A} (tracing : bool) (fn : M S A) : M S A :=
  if tracing then try_catch fn (λ _, fn) else fn.

(** ** The refund job *)

Section WagerRefundJob.
Context {X : Type} {W : IWagerService X}.
Variable tracing : bool.
Local Abbreviation M := (M (Store X)).

(** [status = AWAITING_STAKES AND stakeDeadline < now]; a null deadline never matches. *)
Definition pastDeadline (time : Z) (w : Wager) : bool :=
  (w_status w == WagerStatus.AWAITING_STAKES) &&
  match w_stakeDeadline w with Some t => t <? time | None => false end.

Definition expiredWagers (d : Db X) : list Wager :=
  filter (pastDeadline (now d)) (map_to_list (wagers d)).*2.

(** [gameSessionRepository.update({ id }, { status: ABANDONED })] *)
Definition abandonSession (id : string) : M unit :=
  modify (λ d, d <| sessions := alter (λ g,
    g <| g_status := GameSessionStatus.ABANDONED |> <| g_updatedAt := now (base d) |>) id
    (sessions d) |>).

Definition refundOne (w : Wager) : M unit :=
  try_catch
    (result ← on_base (ws_resolveWagerAsDraw (w_sessionId w));
     if negb (wr_success result) then mret tt else abandonSession (w_sessionId w))
    (λ _, mret tt).

Definition sweepExpiredWagers : M unit :=
  expired ← gets (λ d, expiredWagers (base d));
  for_each (λ w, runWithRootSpan tracing (refundOne w)) expired.
End WagerRefundJob.

(** ** The reconcile job *)

Record Attempt := mkAttempt { a_count : Z; a_nextAt : Z }.

Record JobState (X : Type) := mkJob {
  attempts : gmap string Attempt;
  reconcileGiveups : Z;
  oldestSettlingAge : Z;
  j_db : Db X;
}.
Arguments mkJob {_} _ _ _ _.
Arguments attempts {_} _.
Arguments reconcileGiveups {_} _.
Arguments oldestSettlingAge {_} _.
Arguments j_db {_} _.
#[export] Instance JobState_settable {X} : Settable (JobState X) := λ s,
  mkJob (attempts s) (reconcileGiveups s) (oldestSettlingAge s) (j_db s).

Section WagerReconcileJob.
Context {X : Type} {W : IWagerService X}.
Variable tracing : bool.
(** The environment's WAGER_RECONCILE_* values. *)
Variables minAgeSeconds maxAttemptsEnv baseDelaySeconds : option string.
(** [wagerService.notifyWagerOutcome], which the source lacks. *)
Variable notifyWagerOutcome : Wager → string → M (Db X) unit.
Local Abbreviation M := (M (JobState X)).

Definition minAgeMs : Z := envInt minAgeSeconds 120 * 1000.
Definition maxAttempts : Z := envInt maxAttemptsEnv 8.
Definition baseDelayMs : Z := envInt baseDelaySeconds 60 * 1000.

Definition on_db {A} (m : Prelude.M (Db X) A) : M A := λ s,
  let (r, d) := m (j_db s) in (r, s <| j_db := d |>).

Definition stuck (time : Z) (w : Wager) : bool :=
  (w_status w == WagerStatus.SETTLING) && (w_updatedAt w <? time - minAgeMs).

Definition computeOldestSettlingAgeSeconds (time : Z) (l : list Wager) : Z :=
  match l with
  | [] => 0
  | _ => let oldest := foldl (λ o w, if w_updatedAt w <? o then w_updatedAt w else o) time l in
         Z.max 0 ((time - oldest + 500) / 1000)
  end.

(** [wagerRepository.update({ id, status: SETTLING }, { status: FAILED, ... })] *)
Definition giveUp (id message : string) : M unit :=
  modify (λ s, s <| j_db := j_db s <| wagers := (λ w,
    if (w_id w == id) && (w_status w == WagerStatus.SETTLING)
    then w <| w_status := WagerStatus.FAILED |> <| w_resultMessage := message |>
           <| w_updatedAt := now (j_db s) |> else w) <$> wagers (j_db s) |> |>).

(** The span's function: one attempt, counted from [state]. *)
Definition attempt (w : Wager) (state : Attempt) : M unit :=
  reconciled ← try_catch
    (result ← on_db (ws_reconcileWager (w_sessionId w)); mret (wr_success result))
    (λ _, mret false);
  if (reconciled : bool) then modify (λ s, s <| attempts := delete (w_id w) (attempts s) |>)
  else
    time ← gets (λ s, now (j_db s));
    let count := a_count state + 1 in
    modify (λ s, s <| attempts := <[w_id w :=
      mkAttempt count (time + baseDelayMs * 2 ^ (count - 1))]> (attempts s) |>);;
    if maxAttempts <=? count then
      giveUp (w_id w) ("Gave up reconciling after " +:+ show count +:+
        " attempts; needs operator review");;
      modify (λ s, s <| attempts := delete (w_id w) (attempts s) |>
                     <| reconcileGiveups := reconcileGiveups s + 1 |>);;
      try_catch (on_db (notifyWagerOutcome w "wager.needs_attention")) (λ _, mret tt)
    else mret tt.

(** One turn of the loop over the stuck wagers. *)
Definition reconcileOne (w : Wager) : M unit :=
  state ← gets (λ s, default (mkAttempt 0 0) (attempts s !! w_id w));
  time ← gets (λ s, now (j_db s));
  if time <? a_nextAt state then mret tt
  else runWithRootSpan tracing (attempt w state).

Definition reconcileStuckWagers : M unit :=
  time ← gets (λ s, now (j_db s));
  stuckWagers ← gets (λ s, filter (stuck time) (map_to_list (wagers (j_db s))).*2);
  modify (λ s, s <| oldestSettlingAge := computeOldestSettlingAgeSeconds time stuckWagers |>);;
  for_each reconcileOne stuckWagers.

(** [sweep], by whether the advisory lock was granted; the query runner's calls are
    the database driver's. *)
Definition sweep (locked : bool) : M unit :=
  if negb locked then mret tt
  else try_catch reconcileStuckWagers (λ _, mret tt).
End WagerReconcileJob.

(** ** Properties of the tracker *)

Section tracker_properties.
Import Tracker.

(** The pending map is the set of settlements in flight. *)
Record tracks (s : t) (fl : gset (string * nat)) : Prop := {
  tr_pending label n : pending s !! label = Some n ↔ (label, n) ∈ fl;
  tr_bound label n : (label, n) ∈ fl → (n < next s)%nat;
  tr_resolved n : n ∈ resolved s ↔ (n < next s)%nat ∧ ∀ label, (label, n) ∉ fl;
  tr_unique l1 l2 n : (l1, n) ∈ fl → (l2, n) ∈ fl → l1 = l2;
}.

Lemma tracks_start label s fl : tracks s fl → (∀ n, (label, n) ∉ fl) →
  tracks (register label s).1 ({[(label, next s)]} ∪ fl).
Proof.
  intros [Hp Hb Hr Hu] Hfresh. constructor; cbn.
  - intros l n. rewrite elem_of_union, elem_of_singleton.
    destruct (decide (l = label)) as [->|Hne].
    + rewrite lookup_insert_eq. split; [by intros [= <-]; left|].
      intros [[= ->]|H]; [done|by destruct (Hfresh n)].
    + rewrite lookup_insert_ne by done. rewrite Hp. split; [by right|]. by intros [[= -> ->]|].
  - intros l n [[= -> ->]%elem_of_singleton|H]%elem_of_union; [lia|].
    specialize (Hb _ _ H). lia.
  - intros n. rewrite Hr. split.
    + intros [H1 H2]. split; [lia|].
      intros l [[= -> ->]%elem_of_singleton|H']%elem_of_union; [lia|by destruct (H2 l)].
    + intros [H1 H2]. split; [|intros l Hl; apply (H2 l); by apply elem_of_union_r].
      destruct (decide (n = next s)) as [->|]; [|lia]. destruct (H2 label). by apply elem_of_union_l, elem_of_singleton.
  - intros l1 l2 n [[= -> ->]%elem_of_singleton|H1]%elem_of_union
      [[= ->]%elem_of_singleton|H2]%elem_of_union; [done| | |eauto].
    + specialize (Hb _ _ H2). lia.
    + subst. specialize (Hb _ _ H1). lia.
Qed.

Lemma tracks_finish cb s fl : tracks s fl → cb ∈ fl → tracks (settle cb s) (fl ∖ {[cb]}).
Proof.
  intros [Hp Hb Hr Hu] Hcb. destruct cb as [label n0]. constructor; cbn.
  - intros l n. rewrite elem_of_difference, elem_of_singleton.
    destruct (decide (l = label)) as [->|Hne].
    + rewrite lookup_delete_eq. split; [done|]. intros [H1 H2].
      apply Hp in H1, Hcb. congruence.
    + rewrite lookup_delete_ne by done. rewrite Hp. split; [|by intros [? _]].
      intros H. split; [done|]. by intros [= -> ->].
  - intros l n [H _]%elem_of_difference. by eapply Hb.
  - intros n. rewrite elem_of_union, elem_of_singleton, Hr. split.
    + intros [->|[H1 H2]].
      * split; [by eapply Hb|]. intros l [H1 H2]%elem_of_difference.
        apply H2, elem_of_singleton. f_equal. by eapply Hu.
      * split; [done|]. intros l [H3 _]%elem_of_difference. by apply (H2 l).
    + intros [H1 H2]. destruct (decide (n = n0)) as [->|Hne]; [by left|right]. split; [done|].
      intros l Hl. apply (H2 l). apply elem_of_difference. split; [done|]. intros [= -> ->]%elem_of_singleton. done.
  - intros l1 l2 n [H1 _]%elem_of_difference [H2 _]%elem_of_difference. by eapply Hu.
Qed.

Lemma tracks_step x y : tracks x.1 x.2 → fresh_step x y → tracks y.1 y.2.
Proof.
  intros HT Hstep. destruct Hstep as [label s0 fl0 s1 cb Hf Hreg|cb s0 fl0 Hcb].
  - injection Hreg as <- <-. by apply (tracks_start label s0 fl0).
  - by apply tracks_finish.
Qed.

Lemma tracks_drain s fl n : tracks s fl → n ∈ drain s ↔ ∃ label, (label, n) ∈ fl.
Proof.
  intros [Hp _ _ _]. unfold drain. rewrite list_elem_of_fmap. setoid_rewrite <-Hp. split.
  - intros ([l m] & -> & H%elem_of_map_to_list). eauto.
  - intros (l & H%elem_of_map_to_list). by exists (l, n).
Qed.

Lemma tracks_count s fl : tracks s fl → count s = 0%nat ↔ fl = ∅.
Proof.
  intros [Hp _ _ _]. unfold count. rewrite map_size_empty_iff. split.
  - intros He. apply elem_of_equiv_empty_L. intros [l n] Hl%Hp. by rewrite He in Hl.
  - intros ->. apply map_empty. intros l. apply eq_None_not_Some. intros [n Hn%Hp]. set_solver.
Qed.

(** No promise is in flight again once it is not. *)
Lemma in_flight_before x y : star fresh_step x y → tracks x.1 x.2 →
  tracks y.1 y.2 ∧ (next x.1 ≤ next y.1)%nat ∧
  ∀ label n, (label, n) ∈ y.2 → (n < next x.1)%nat → (label, n) ∈ x.2.
Proof.
  induction 1 as [x|x y z Hstep Hrun IH]; intros HT; [done|].
  destruct (IH (tracks_step x y HT Hstep)) as (HTz & Hle & Hin). split; [done|].
  destruct Hstep as [label s fl s1 cb Hf Hreg|cb s fl Hcb]; cbn [fst snd] in *.
  - injection Hreg as <- <-. cbn in *. split; [lia|]. intros l n Hl Hn.
    assert (n < S (next s))%nat as Hn' by lia.
    specialize (Hin l n Hl Hn'). apply elem_of_union in Hin as [[= -> ->]%elem_of_singleton|H]; [lia|done].
  - cbn in *. split; [done|]. intros l n Hl Hn. by apply (Hin l n Hl) in Hn as [? _]%elem_of_difference.
Qed.

(** C29. A shutdown waits for exactly the settlements in flight, while no label is registered twice
    at once: it returns at once when there are none; otherwise, whatever starts and finishes
    meanwhile, it goes on as soon as every settlement that was in flight when it began has
    finished, or its timeout is over, and not before. *)
Theorem tracker_drains_in_flight s fl s' fl' now now' timeoutMs :
  star fresh_step (empty, ∅) (s, fl) → star fresh_step (s, fl) (s', fl') →
  match onApplicationShutdown s now timeoutMs with
  | None => fl = ∅
  | Some w => fl ≠ ∅ ∧
      (over w s' now' = true ↔ (∀ cb, cb ∈ fl → cb ∉ fl') ∨ now + timeoutMs ≤ now')
  end.
Proof.
  intros Hrun Hlater. assert (tracks empty ∅) as H0.
  { constructor; cbn; [|set_solver| |set_solver].
    - intros l n. rewrite lookup_empty. set_solver.
    - intros n. split; [set_solver|lia]. }
  apply in_flight_before in Hrun as (HT & _ & _); [|done].
  apply in_flight_before in Hlater as (HT' & Hnext & Hold); [|done]. cbn [fst snd] in *.
  pose proof (tracks_count s fl HT) as Hcount. unfold onApplicationShutdown.
  case_bool_decide as Hc; [by apply Hcount|]. split; [by rewrite <-Hcount|].
  unfold over. cbn [snapshot deadline]. rewrite orb_true_iff, Z.leb_le.
  assert (drained (drain s) s' = true ↔ ∀ cb, cb ∈ fl → cb ∉ fl') as ->; [|done].
  unfold drained. rewrite forallb_forall. split.
  - intros Hall [l n] Hin Hin'. assert (n ∈ drain s) as Hn by (apply (tracks_drain s fl n HT); eauto).
    apply list_elem_of_In, Hall, bool_decide_eq_true, (tr_resolved _ _ HT') in Hn as [_ Hn]. by apply (Hn l).
  - intros Hdone n Hn%list_elem_of_In. apply (tracks_drain s fl n HT) in Hn as [l Hl].
    apply bool_decide_eq_true, (tr_resolved _ _ HT'). pose proof (tr_bound _ _ HT _ _ Hl) as Hb.
    split; [lia|]. intros l' Hl'. apply (Hdone (l', n)); [by apply Hold|done].
Qed.

(** A label registered again while it is in flight is lost: there is a run after
    which a settlement is in flight and the tracker counts none, so that a shutdown
    does not wait for it. *)
Theorem tracker_loses_reused_label :
  ∃ s fl, star step (empty, ∅) (s, fl) ∧ fl ≠ ∅ ∧ count s = 0%nat ∧ drain s = [].
Proof.
  eexists _, _. split.
  { eapply star_step; [by apply (step_start "s")|].
    eapply star_step; [by apply (step_start "s")|].
    eapply star_step; [apply (step_finish ("s", 1%nat)); set_solver|]. apply star_refl. }
  split; [|by vm_compute].
  intros H. assert (("s", 0%nat) ∈ (∅ : gset (string * nat))) as H'; [|set_solver].
  rewrite <-H. set_solver.
Qed.
End tracker_properties.

(** ** Properties of the sweeps *)

Section sweep_properties.
Context {X : Type} {W : IWagerService X}.
Variable tracing : bool.

(** One refund: it always answers, and the session is abandoned exactly when the
    coordinator says the refund went through. *)
Lemma refundOne_run w (d : Store X) :
  refundOne w d =
  (Ok tt, match ws_resolveWagerAsDraw (w_sessionId w) (base d) with
          | (Ok r, b) => if wr_success r
              then (abandonSession (w_sessionId w) (d <| base := b |>)).2 else d <| base := b |>
          | (Err _, b) => d <| base := b |>
          end).
Proof.
  unfold refundOne, try_catch. rewrite bind_on_base.
  destruct (ws_resolveWagerAsDraw _ _) as [[r|e] b]; [|done]. by destruct (wr_success r).
Qed.

Lemma runWithRootSpan_ok {S A} (fn : M S A) s a s' :
  fn s = (Ok a, s') → runWithRootSpan tracing fn s = (Ok a, s').
Proof. intros H. unfold runWithRootSpan. destruct tracing; [by apply try_catch_ok|done]. Qed.

(** The refund sweep asks for the refund of every wager past its deadline once,
    in the order of the query, whatever becomes of the others: it never throws,
    tracing never makes it run a refund twice, and it ends in the state of those
    refunds one after the other. *)
Theorem refund_sweep_visits_all (d : Store X) :
  sweepExpiredWagers tracing d =
  (Ok tt, foldl (λ d w, (refundOne w d).2) d (expiredWagers (base d))) ∧
  (∀ w, w ∈ expiredWagers (base d) ↔ (∃ k, wagers (base d) !! k = Some w) ∧
     w_status w = WagerStatus.AWAITING_STAKES ∧
     ∃ t, w_stakeDeadline w = Some t ∧ t < now (base d)).
Proof.
  split.
  - unfold sweepExpiredWagers. rewrite bind_gets. generalize (expiredWagers (base d)) as l.
    intros l. revert d. induction l as [|w l IH]; intros d; [done|]. cbn [for_each foldl].
    pose proof (refundOne_run w d) as Hrun.
    rewrite (bind_run _ _ _ _ _ (runWithRootSpan_ok _ _ _ _ Hrun)). rewrite IH. by rewrite Hrun.
  - intros w. unfold expiredWagers. rewrite list_elem_of_filter, list_elem_of_fmap, Is_true_true.
    assert ((∃ y, w = y.2 ∧ y ∈ map_to_list (wagers (base d))) ↔
            ∃ k, wagers (base d) !! k = Some w) as ->.
    { split; [intros ([k w'] & -> & H%elem_of_map_to_list); eauto|].
      intros (k & H%elem_of_map_to_list). by exists (k, w). }
    unfold pastDeadline. rewrite andb_true_iff, bool_decide_eq_true.
    destruct (w_stakeDeadline w) as [t|]; [rewrite Z.ltb_lt|]; naive_solver.
Qed.

Variables minAgeSeconds maxAttemptsEnv baseDelaySeconds : option string.
Variable notifyWagerOutcome : Wager → string → M (Db X) unit.
Local Abbreviation reconcileOne := (reconcileOne tracing maxAttemptsEnv baseDelaySeconds
  notifyWagerOutcome).
Local Abbreviation attempt := (attempt maxAttemptsEnv baseDelaySeconds notifyWagerOutcome).
Local Abbreviation maxAttempts := (maxAttempts maxAttemptsEnv).
Local Abbreviation baseDelayMs := (baseDelayMs baseDelaySeconds).

(** The wager's row is still in settlement, after [c] failed attempts. *)
Definition waiting (w : Wager) (c next : Z) (s : JobState X) : Prop :=
  default (mkAttempt 0 0) (attempts s !! w_id w) = mkAttempt c next ∧
  ∃ w', wagers (j_db s) !! w_sessionId w = Some w' ∧ w_id w' = w_id w ∧
        w_status w' = WagerStatus.SETTLING.

Definition given_up (w : Wager) (giveups : Z) (s : JobState X) : Prop :=
  attempts s !! w_id w = None ∧ reconcileGiveups s = giveups + 1 ∧
  ∃ w', wagers (j_db s) !! w_sessionId w = Some w' ∧ w_status w' = WagerStatus.FAILED.

(** Reconciliation that does not get through, and changes no row. *)
Definition unreconciled (w : Wager) : Prop := ∀ db, ∃ r,
  ws_reconcileWager (w_sessionId w) db = (r, db) ∧ ∀ x, r = Ok x → wr_success x = false.

(** The notification keeps the wagers table. *)
Definition notify_keeps_wagers : Prop := ∀ w event db r db',
  notifyWagerOutcome w event db = (r, db') → wagers db' = wagers db.

Lemma attempt_fails w c next s : unreconciled w → notify_keeps_wagers → waiting w c next s →
  ∃ s', attempt w (mkAttempt c next) s = (Ok tt, s') ∧
    if maxAttempts <=? c + 1 then given_up w (reconcileGiveups s) s'
    else waiting w (c + 1) (now (j_db s) + baseDelayMs * 2 ^ c) s' ∧
         reconcileGiveups s' = reconcileGiveups s.
Proof.
  intros Hun Hnot [_ (w' & Hrow & Hid & Hst)]. unfold WagerJobs.attempt.
  destruct (Hun (j_db s)) as (r & Hr & Hf).
  assert (try_catch (result ← on_db (ws_reconcileWager (w_sessionId w)); mret (wr_success result))
    (λ _, mret false) s = (Ok false, s)) as Hrec.
  { unfold try_catch, mbind, M_bind, on_db. rewrite Hr.
    destruct r as [x|e]; destruct s; cbn; [by rewrite (Hf x)|done]. }
  rewrite (bind_run _ _ _ _ _ Hrec), bind_gets. cbv zeta. cbn [a_count].
  rewrite bind_modify. replace (c + 1 - 1) with c by lia.
  destruct (maxAttempts <=? c + 1).
  - unfold giveUp. rewrite !bind_modify.
    match goal with |- ∃ _, try_catch ?m ?h ?x = _ ∧ _ => set (s1 := x); set (note := m) end.
    assert (given_up w (reconcileGiveups s) s1) as Hup.
    { unfold given_up, s1. cbn. rewrite lookup_delete_eq. split_and!; [done|done|].
      rewrite lookup_fmap, Hrow. cbn. eexists. split; [done|].
      rewrite Hid, Hst. by rewrite !bool_decide_true. }
    unfold try_catch, note, on_db.
    destruct (notifyWagerOutcome w _ (j_db s1)) as [r1 db1] eqn:Hn. apply Hnot in Hn.
    destruct Hup as (H1 & H2 & H3).
    destruct r1 as [[]|e]; eexists; (split; [reflexivity|]); unfold given_up; cbn; by rewrite Hn.
  - eexists. split; [reflexivity|]. split; [|done]. unfold waiting. cbn.
    rewrite lookup_insert_eq. eauto.
Qed.

(** Sweeps at the given times, as far as the wager [w] goes. *)
Fixpoint sweeps (w : Wager) (times : list Z) (s : JobState X) : JobState X :=
  match times with
  | [] => s
  | t :: ts => sweeps w ts (reconcileOne w (s <| j_db := j_db s <| now := t |> |>)).2
  end.

(** Times at which the backoff lets an attempt through: the [i]-th delay is
    [baseDelayMs * 2 ^ i]. *)
Fixpoint due (c next : Z) (times : list Z) : Prop :=
  match times with
  | [] => True
  | t :: ts => next ≤ t ∧ due (c + 1) (t + baseDelayMs * 2 ^ c) ts
  end.

Lemma sweeps_count w times c next s :
  unreconciled w → notify_keeps_wagers → waiting w c next s → due c next times →
  c + Z.of_nat (length times) ≤ maxAttempts → times ≠ [] →
  if c + Z.of_nat (length times) =? maxAttempts then
    given_up w (reconcileGiveups s) (sweeps w times s)
  else ∃ next', waiting w (c + Z.of_nat (length times)) next' (sweeps w times s).
Proof.
  intros Hun Hnot. revert c next s. induction times as [|t ts IH]; intros c next s Hw Hdue Hle Hne;
    [done|].
  cbn [sweeps due length] in *. destruct Hdue as [Ht Hdue].
  set (s0 := s <| j_db := j_db s <| now := t |> |>).
  assert (waiting w c next s0) as Hw0 by exact Hw.
  destruct (attempt_fails w c next s0 Hun Hnot Hw0) as (s1 & Hrun & Hs1).
  assert (reconcileOne w s0 = (Ok tt, s1)) as Hone.
  { unfold WagerJobs.reconcileOne. rewrite !bind_gets. rewrite (proj1 Hw0). cbn [a_nextAt].
    change (now (j_db s0)) with t. rewrite (proj2 (Z.ltb_ge _ _)) by done.
    by apply runWithRootSpan_ok. }
  rewrite Hone. cbn [snd]. destruct ts as [|t' ts].
  - cbn [sweeps length]. change (c + Z.of_nat 1) with (c + 1) in *.
    destruct (Z.eqb_spec (c + 1) maxAttempts) as [He|He].
    + rewrite (proj2 (Z.leb_le _ _)) in Hs1 by lia. exact Hs1.
    + rewrite (proj2 (Z.leb_gt _ _)) in Hs1 by lia. destruct Hs1 as [Hs1 _]. eauto.
  - cbn [length] in Hle. rewrite (proj2 (Z.leb_gt _ _)) in Hs1 by lia.
    destruct Hs1 as [Hs1 Hg]. change (now (j_db s0)) with t in Hs1.
    specialize (IH (c + 1) _ s1 Hs1 Hdue). cbn [length] in *.
    replace (c + Z.of_nat (S (S (length ts)))) with (c + 1 + Z.of_nat (S (length ts))) by lia.
    rewrite Hg in IH. change (reconcileGiveups s0) with (reconcileGiveups s) in IH.
    apply IH; [lia|done].
Qed.

(** A wager the chain cannot settle is given up after exactly the configured
    number of attempts, not before: with [n] sweeps that the exponential backoff
    lets through, it is still in settlement while [n] is below the limit, and is
    marked failed, counted and forgotten when [n] reaches it. *)
Theorem reconcile_gives_up w times s :
  unreconciled w → notify_keeps_wagers →
  attempts s !! w_id w = None → wagers (j_db s) !! w_sessionId w = Some w →
  w_status w = WagerStatus.SETTLING → due 0 0 times → times ≠ [] →
  Z.of_nat (length times) ≤ maxAttempts →
  if Z.of_nat (length times) =? maxAttempts then
    given_up w (reconcileGiveups s) (sweeps w times s)
  else ∃ next, waiting w (Z.of_nat (length times)) next (sweeps w times s).
Proof.
  intros Hun Hnot Ha Hrow Hst Hdue Hne Hle.
  apply (sweeps_count w times 0 0 s Hun Hnot); [|done|lia|done].
  split; [by rewrite Ha|]. eauto.
Qed.
End sweep_properties.

(** ** Witnesses *)

(** One settlement in flight at the signal: the shutdown waits for it, not for one that starts later. *)
Lemma tracker_drains_in_flight_witness :
  let s := (Tracker.register "s" Tracker.empty).1 in
  let s' := Tracker.settle ("s", 0%nat) (Tracker.register "t" s).1 in
  let w := Tracker.mkWaiting [0%nat] 30000 in
  Tracker.onApplicationShutdown s 0 30000 = Some w ∧ Tracker.over w s 1 = false ∧ Tracker.over w s' 1 = true.
Proof.
  intros s s' w. split; [reflexivity|]. split; [reflexivity|].
  assert (star Tracker.fresh_step (Tracker.empty, ∅) (s, {[("s", 0%nat)]} ∪ ∅)) as H1.
  { eapply star_step; [apply (Tracker.fresh_start "s"); [set_solver|reflexivity]|apply star_refl]. }
  assert (star Tracker.fresh_step (s, {[("s", 0%nat)]} ∪ ∅)
    (s', ({[("t", 1%nat)]} ∪ ({[("s", 0%nat)]} ∪ ∅)) ∖ {[("s", 0%nat)]})) as H2.
  { eapply star_step; [apply (Tracker.fresh_start "t"); [set_solver|reflexivity]|].
    eapply star_step; [apply (Tracker.fresh_finish ("s", 0%nat)); set_solver|apply star_refl]. }
  apply (tracker_drains_in_flight _ _ _ _ 0 1 30000 H1 H2). left. set_solver.
Defined.

Definition ex_stuck : Wager := ex_wager None <| w_id := "w" |> <| w_status := WagerStatus.SETTLING |>.
Definition ex_job : JobState unit :=
  mkJob ∅ 0 0 (mkDb ∅ (<["s" := ex_stuck]> ∅) 0 0 ()).

(** Two sweeps a minute apart with a limit of two attempts. *)
Lemma reconcile_gives_up_witness :
  given_up ex_stuck 0 (sweeps (W := ex_refusing) true (Some "2") None (λ _ _, mret tt)
    ex_stuck [0; 60000] ex_job).
Proof.
  apply (reconcile_gives_up (W := ex_refusing) true (Some "2") None (λ _ _, mret tt)
    ex_stuck [0; 60000] ex_job).
  - intros db. eexists. split; [reflexivity|]. by intros x [= <-].
  - intros w e db r db'. by intros [= _ <-].
  - reflexivity.
  - reflexivity.
  - reflexivity.
  - split; [lia|]. split; [|done]. vm_compute. discriminate.
  - discriminate.
  - vm_compute. discriminate.
Defined.
