(* ===== verification/XpLevel.v ===== *)
(** * Experience and levels (src/src/xp-level/xp-level.service.ts)

    The level curve, the rule that turns a guess into XP, and the two ways XP is
    persisted: [handleCorrectGuess], an UPDATE whose answer decides whether another
    follows, and [awardGuessXp], which reads the row and saves it back.  The
    interleavings of concurrent calls are a step relation over the users table and
    a pool of calls.

    An UPDATE that goes through [query] of TypeORM on Postgres is answered with the
    array [rows, affected], which the retention job takes apart and
    [handleCorrectGuess] does not: it reads the properties of the array of rows. *)

From S2P Require Import Prelude Decimal Amount Entities.

(** ** The curve *)

Record LevelThreshold := mkThreshold {
  t_min : Z;
  t_max : option Z;  (** [None] is [Infinity] *)
  t_level : Z;
  t_title : UserLevel;
}.

Definition LEVEL_THRESHOLDS : list LevelThreshold := [
  mkThreshold 0 (Some 99) 1 GOSSIP_ROOKIE;
  mkThreshold 100 (Some 299) 2 WORD_WHISPERER;
  mkThreshold 300 (Some 599) 3 LYRIC_SNIPER;
  mkThreshold 600 (Some 999) 4 BAR_GENIUS;
  mkThreshold 1000 None 5 GOSSIP_GURU ].

Definition XP_PER_CORRECT_GUESS : Z := 10.

Definition in_threshold (xp : Z) (t : LevelThreshold) : bool :=
  (t_min t <=? xp) && match t_max t with Some m => xp <=? m | None => true end.

Definition getLevelFromXp (xp : Z) : Z * UserLevel :=
  let threshold := default (mkThreshold 0 (Some 99) 1 GOSSIP_ROOKIE)
                     (List.find (in_threshold xp) LEVEL_THRESHOLDS) in
  (t_level threshold, t_title threshold).

(** A number that may be [NaN], which compares with nothing. *)
Definition js_number : Type := option Z.
Definition NaN : js_number := None.
Definition js_gt (a : Z) (b : js_number) : bool := match b with Some b => b <? a | None => false end.

(** The function at a number: no threshold matches [NaN]. *)
Definition getLevelFromNumber (xp : js_number) : Z * UserLevel :=
  match xp with Some xp => getLevelFromXp xp | None => (1, GOSSIP_ROOKIE) end.

(** [xpChange] and [leveledUp] are missing from two of the results built. *)
Record XpResult := mkXp {
  x_xp : js_number;
  x_level : Z;
  x_levelTitle : UserLevel;
  x_xpChange : option Z;
  x_leveledUp : option bool;
}.

(** The exported function. *)
Definition calculateXpGain (currentXp correctGuesses xpPerGuess : Z) : XpResult :=
  let newXp := currentXp + correctGuesses * xpPerGuess in
  let '(level, levelTitle) := getLevelFromXp newXp in
  mkXp (Some newXp) level levelTitle None None.

Definition POINTS_PER_XP : Z := 10.
Definition STREAK_BONUS_XP : Z := 2.

Definition calculateXpForGuess (pointsAwarded : Z) (isCorrect : bool) (streak : Z) : Z :=
  if negb isCorrect || (pointsAwarded <=? 0) then 0
  else pointsAwarded / POINTS_PER_XP + (if 1 <? streak then (streak - 1) * STREAK_BONUS_XP else 0).

(** What the two methods report. *)
Definition xp_result (currentXp xpChange : Z) : XpResult :=
  let newXp := currentXp + xpChange in
  let '(level, levelTitle) := getLevelFromXp newXp in
  mkXp (Some newXp) level levelTitle (Some xpChange)
    (Some (negb (level =? (getLevelFromXp currentXp).1))).

(** The method of the service; its second [return] is unreachable. *)
Definition service_calculateXpGain (currentXp correctGuesses xpPerGuess : Z) : XpResult :=
  xp_result currentXp (correctGuesses * xpPerGuess).

(** ** Persistence *)

Section XpLevelService.
Context {X : Type}.
Local Abbreviation M := (M (Db X)).

(** What [query] answers is an array of rows, or, for an UPDATE, of the array of the returned rows
    and the number of rows affected. *)
Inductive answer :=
  | Row (xp level : Z)
  | Rows (rows : list (Z * Z))
  | Affected (n : Z).

(** [Number(x.xp)] and [Number(x.level)]: an array or a number has no such property. *)
Definition number_xp (x : answer) : js_number := match x with Row xp _ => Some xp | _ => NaN end.
Definition number_level (x : answer) : js_number := match x with Row _ level => Some level | _ => NaN end.

(** [UPDATE users SET xp = xp + $1 WHERE id = $2 RETURNING xp, level], answered as
    [[rows, affected]] *)
Definition incrementXp (userId : string) : M (list answer) :=
  user ← find_user userId;
  match user with
  | None => mret [Rows []; Affected 0]
  | Some user =>
      let user := user <| u_xp := u_xp user + XP_PER_CORRECT_GUESS |> in
      modify (λ d, d <| users := <[userId := user]> (users d) |>);;
      mret [Rows [(u_xp user, u_level user)]; Affected 1]
  end.

(** [UPDATE users SET level = $1, levelTitle = $2 WHERE id = $3 AND level < $1]: the unquoted
    name is folded to leveltitle, and the table has no such column. *)
Definition raiseLevel (level : Z) (levelTitle : UserLevel) (userId : string) : M unit :=
  throw (PlainError "QueryFailedError"
    ("column " +:+ dq +:+ "leveltitle" +:+ dq +:+ " of relation " +:+ dq +:+ "users" +:+ dq +:+ " does not exist")).

Definition entityNotFound (userId : string) : exn :=
  PlainError "EntityNotFoundError" ("Could not find any entity of type " +:+ dq +:+ "User" +:+ dq).

(** What [handleCorrectGuess] does with the answer. *)
Definition afterIncrement (userId : string) (rows : list answer) : M XpResult :=
  match head rows with
  | None =>
      user ← find_user userId;
      _ ← require user (entityNotFound userId);
      throw (PlainError "Error" ("User " +:+ userId +:+ " not found"))
  | Some updated =>
      let newXp := number_xp updated in
      let '(level, levelTitle) := getLevelFromNumber newXp in
      (if js_gt level (number_level updated) then raiseLevel level levelTitle userId else mret tt);;
      mret (mkXp newXp level levelTitle None None)
  end.

Definition handleCorrectGuess (userId : string) : M XpResult :=
  rows ← incrementXp userId;
  afterIncrement userId rows.

(** [awardGuessXp] up to its read, and from there on. *)
Definition loadUser (userId : string) : M User :=
  user ← find_user userId; require user (entityNotFound userId).

Definition saveAward (user : User) (xpChange : Z) : M XpResult :=
  let result := xp_result (u_xp user) xpChange in
  modify (λ d, d <| users := <[u_id user := user <| u_xp := u_xp user + xpChange |>
    <| u_level := x_level result |> <| u_levelTitle := x_levelTitle result |>]> (users d) |>);;
  mret result.

Definition awardGuessXp (userId : string) (pointsAwarded : Z) (isCorrect : bool) (streak : Z) :
    M XpResult :=
  user ← loadUser userId;
  saveAward user (calculateXpForGuess pointsAwarded isCorrect streak).
End XpLevelService.

(** ** Concurrent calls

    A call of [handleCorrectGuess] has not started, has incremented the XP and
    holds what the statement answered, or is over; a call of [awardGuessXp] has
    not started, has read the row, or is over. *)
Inductive call :=
  | Guess (userId : string)
  | Incremented (userId : string) (rows : list answer)
  | Award (userId : string) (xpChange : Z)
  | Loaded (user : User) (xpChange : Z)
  | Over (answer : result XpResult).

(** A call that ends here, with what it answers. *)
Definition ends {X} (m : M (Db X) XpResult) : M (Db X) call := λ d, let '(r, d') := m d in (Ok (Over r), d').

(** One call runs up to its next point of suspension. *)
Definition run_call {X} (c : call) : M (Db X) call :=
  match c with
  | Guess u => rows ← incrementXp u; mret (Incremented u rows)
  | Incremented u rows => ends (afterIncrement u rows)
  | Award u change => try_catch (user ← loadUser u; mret (Loaded user change)) (λ e, mret (Over (Err e)))
  | Loaded user change => ends (saveAward user change)
  | Over r => mret (Over r)
  end.

Inductive interleave {X} : relation (Db X * list call) :=
  | interleave_step d cs i c c' d' : cs !! i = Some c → run_call c d = (Ok c', d') →
      interleave (d, cs) (d', <[i := c']> cs).

(** ** The curve: lemmas and properties *)

Lemma level_cases xp :
  getLevelFromXp xp =
  if xp <? 100 then (1, GOSSIP_ROOKIE) else if xp <? 300 then (2, WORD_WHISPERER)
  else if xp <? 600 then (3, LYRIC_SNIPER) else if xp <? 1000 then (4, BAR_GENIUS)
  else (5, GOSSIP_GURU).
Proof.
  unfold getLevelFromXp, LEVEL_THRESHOLDS, in_threshold. cbn [List.find t_min t_max].
  repeat match goal with |- context [?a <=? ?b] => destruct (Z.leb_spec a b); cbn [andb] end;
  repeat match goal with |- context [?a <? ?b] => destruct (Z.ltb_spec a b) end;
  cbn; try lia; done.
Qed.

(** The numeric level of an amount of XP. *)
Definition levelOf (xp : Z) : Z := (getLevelFromXp xp).1.

Lemma levelOf_mono xp xp' : xp ≤ xp' → levelOf xp ≤ levelOf xp'.
Proof.
  intros H. unfold levelOf. rewrite !level_cases.
  repeat match goal with |- context [?a <? ?b] => destruct (Z.ltb_spec a b) end; cbn; lia.
Qed.

#[local] Arguments levelOf : simpl never.
#[local] Arguments getLevelFromXp : simpl never.

(** The level curve: the level of any amount of XP is one more than the number
    of milestones it has reached, the title is the one listed for that level, and
    more XP is never a lower level. *)
Theorem level_curve xp :
  (getLevelFromXp xp).1 =
    1 + Z.of_nat (length (List.filter (λ m, m <=? xp) [100; 300; 600; 1000])) ∧
  t_title <$> LEVEL_THRESHOLDS !! Z.to_nat ((getLevelFromXp xp).1 - 1) =
    Some (getLevelFromXp xp).2 ∧
  ∀ xp', xp ≤ xp' → (getLevelFromXp xp).1 ≤ (getLevelFromXp xp').1.
Proof.
  split_and!; [| |intros xp'; apply levelOf_mono]; rewrite level_cases; cbn [List.filter];
  repeat match goal with
  | |- context [?a <? ?b] => destruct (Z.ltb_spec a b)
  | |- context [?a <=? ?b] => destruct (Z.leb_spec a b)
  end; try lia; done.
Qed.

(** ** Awards that interleave *)

Section concurrency.
Context {X : Type}.
Local Abbreviation Db := (Db X).

(** The calls of [u] in a pool that have not started. *)
Definition is_guess (u : string) (c : call) : bool :=
  match c with Guess u' => u' == u | _ => false end.
Definition pending (u : string) (cs : list call) : Z := Z.of_nat (length (List.filter (is_guess u) cs)).

Lemma pending_insert u cs i c c' : cs !! i = Some c →
  pending u (<[i:=c']> cs) = pending u cs - (if is_guess u c then 1 else 0) + (if is_guess u c' then 1 else 0).
Proof.
  unfold pending. revert i. induction cs as [|c0 cs IH]; intros i; [done|].
  destruct i as [|i]; [cbn; intros [= ->]; destruct (is_guess u c), (is_guess u c'); cbn [length]; lia|]. intros H.
  change (<[S i:=c']> (c0 :: cs)) with (c0 :: <[i:=c']> cs). cbn [List.filter].
  specialize (IH i H). destruct (is_guess u c0); cbn [length]; lia.
Qed.

(** What every call answers: no total, and the lowest level. *)
Definition blind_answer : XpResult := mkXp NaN 1 GOSSIP_ROOKIE None None.

(** A call of [handleCorrectGuess] on its way: what the driver answered, and what it answers itself. *)
Definition guess_call (c : call) : Prop :=
  match c with
  | Guess _ => True
  | Incremented _ rows => ∃ returned, head rows = Some (Rows returned)
  | Over r => r = Ok blind_answer
  | _ => False
  end.

Lemma afterIncrement_blind u rows returned (d : Db) : head rows = Some (Rows returned) →
  afterIncrement u rows d = (Ok blind_answer, d).
Proof. unfold afterIncrement. by intros ->. Qed.

Lemma incrementXp_run u (d : Db) : ∃ rows returned d', head rows = Some (Rows returned) ∧
  incrementXp u d = (Ok rows, d') ∧ ext d' = ext d ∧
  users d' = alter (λ row, row <| u_xp := u_xp row + 10 |>) u (users d).
Proof.
  unfold incrementXp, find_user. rewrite bind_gets.
  destruct (users d !! u) as [row|] eqn:Hu.
  - rewrite bind_modify. do 3 eexists. split; [|split; [reflexivity|]]; [reflexivity|]. split; [done|].
    cbn. symmetry. apply map_eq. intros k. destruct (decide (k = u)) as [->|].
    + by rewrite lookup_insert_eq, lookup_alter_eq, Hu.
    + by rewrite lookup_insert_ne, lookup_alter_ne by done.
  - do 3 eexists. split; [|split; [reflexivity|]]; [reflexivity|]. split; [done|].
    symmetry. apply map_eq. intros k. destruct (decide (k = u)) as [->|].
    + by rewrite lookup_alter_eq, Hu.
    + by rewrite lookup_alter_ne.
Qed.

Lemma handleCorrectGuess_run u (d : Db) : ∃ d', handleCorrectGuess u d = (Ok blind_answer, d') ∧
  ext d' = ext d ∧ users d' = alter (λ row, row <| u_xp := u_xp row + 10 |>) u (users d).
Proof.
  destruct (incrementXp_run u d) as (rows & returned & d' & Hhead & Hrun & He & Hus). exists d'.
  unfold handleCorrectGuess. rewrite (bind_run _ _ _ _ _ Hrun). split; [|done].
  by apply (afterIncrement_blind u rows returned).
Qed.

(** The row of [u], which started as [row], while [n] of its calls were to come at first. *)
Definition accounted (u : string) (row : User) (n : Z) (s : Db * list call) : Prop :=
  (∀ c, c ∈ s.2 → guess_call c) ∧
  users s.1 !! u = Some (row <| u_xp := u_xp row + 10 * (n - pending u s.2) |>).

Lemma accounted_step u row n s s' : accounted u row n s → interleave s s' → accounted u row n s'.
Proof.
  intros HA Hstep. destruct Hstep as [d cs i c c' d' Hi Hrun]. destruct HA as [Hcalls Hrow]. cbn [fst snd] in *.
  assert (guess_call c) as Hc by (by eapply Hcalls, list_elem_of_lookup_2).
  assert (∀ c', guess_call c' → ∀ c0, c0 ∈ <[i:=c']> cs → guess_call c0) as Hins.
  { intros c1 H1 c0 (j & Hj)%list_elem_of_lookup_1. destruct (decide (i = j)) as [<-|Hne].
    - rewrite list_lookup_insert_eq in Hj by by eapply lookup_lt_Some. by injection Hj as <-.
    - rewrite list_lookup_insert_ne in Hj by done. by eapply Hcalls, list_elem_of_lookup_2. }
  unfold accounted. cbn [fst snd]. destruct c as [u'|u' rows|u' change|user change|res]; try done.
  - destruct (incrementXp_run u' d) as (rows & returned & d1 & Hhead & Hg & _ & Hus).
    cbn [run_call] in Hrun. rewrite (bind_run _ _ _ _ _ Hg) in Hrun. injection Hrun as <- <-. rewrite Hus.
    split; [apply Hins; cbn; eauto|]. rewrite (pending_insert u cs i (Guess u')) by done. cbn.
    case_bool_decide as Hu.
    + subst u'. rewrite lookup_alter_eq, Hrow. cbn [fmap option_fmap option_map].
      replace (n - (pending u cs - 1 + 0)) with (n - pending u cs + 1) by lia.
      rewrite Z.mul_add_distr_l, Z.add_assoc. reflexivity.
    + rewrite lookup_alter_ne by done. by rewrite Hrow, Z.sub_0_r, Z.add_0_r.
  - destruct Hc as [returned Hc]. cbn in Hrun. unfold ends in Hrun.
    rewrite (afterIncrement_blind u' rows returned d Hc) in Hrun. injection Hrun as <- <-.
    split; [by apply Hins|]. rewrite (pending_insert u cs i (Incremented u' rows)) by done. cbn.
    by rewrite Hrow, Z.sub_0_r, Z.add_0_r.
  - injection Hrun as <- <-. split; [by apply Hins|]. by rewrite list_insert_id by done.
Qed.

(** C23. Concurrent awards of XP are never lost, and never noticed: run any number of
    [handleCorrectGuess] calls for any users, interleaved in any way at their SQL statements.  At
    every moment a user has gained exactly ten XP for each call of theirs that has begun, and
    nothing else of the row has changed: no award ever raises a level or a title, however much XP
    there is.  Every call that ends answers no total (NaN) and the first level, for users who do
    not exist as well. *)
Theorem concurrent_guesses_exact u row (d d' : Db) cs cs' :
  users d !! u = Some row → (∀ c, c ∈ cs → ∃ u', c = Guess u') →
  star interleave (d, cs) (d', cs') →
  users d' !! u = Some (row <| u_xp := u_xp row + 10 * (pending u cs - pending u cs') |>) ∧
  ∀ r, Over r ∈ cs' → r = Ok (mkXp NaN 1 GOSSIP_ROOKIE None None).
Proof.
  intros Hrow Hcs Hrun.
  assert (accounted u row (pending u cs) (d, cs)) as H0.
  { split; cbn.
    - intros c [u' ->]%Hcs. done.
    - rewrite Hrow. f_equal. destruct row. unfold set_field. cbn. f_equal. lia. }
  apply (star_invariant interleave _ (accounted_step u row (pending u cs)) _ _ H0) in Hrun as [Hcalls Hrow'].
  split; [done|]. intros r Hr. by apply Hcalls in Hr.
Qed.

(** [awardGuessXp] does lose awards: for any user and any two amounts, two calls
    can both answer and leave the row with the second amount alone. *)
Theorem awardGuessXp_loses u row (d : Db) change1 change2 :
  users d !! u = Some row → u_id row = u →
  ∃ d' r1 r2 row', star interleave (d, [Award u change1; Award u change2]) (d', [Over (Ok r1); Over (Ok r2)]) ∧
    users d' !! u = Some row' ∧ u_xp row' = u_xp row + change2.
Proof.
  intros Hrow Hid.
  assert (∀ change, run_call (Award u change) d = (Ok (Loaded row change), d)) as Hload.
  { intros change. cbn. unfold try_catch, loadUser, find_user. mrun. by rewrite Hrow. }
  set (saved change d := (saveAward row change d).2 : Db).
  assert (∀ change d, run_call (Loaded row change) d =
    (Ok (Over (Ok (xp_result (u_xp row) change))), saved change d)) as Hsave by done.
  exists (saved change2 (saved change1 d)), (xp_result (u_xp row) change1), (xp_result (u_xp row) change2).
  eexists. split; [|split].
  - eapply star_step; [apply (interleave_step _ _ 0%nat) with (2 := Hload change1); reflexivity|].
    eapply star_step; [apply (interleave_step _ _ 1%nat) with (2 := Hload change2); reflexivity|].
    eapply star_step; [apply (interleave_step _ _ 0%nat) with (2 := Hsave change1 d); reflexivity|].
    eapply star_step; [apply (interleave_step _ _ 1%nat) with (2 := Hsave change2 (saved change1 d)); reflexivity|].
    apply star_refl.
  - rewrite <-Hid. apply lookup_insert_eq.
  - done.
Qed.

(** The XP rule: wrong or worthless guesses earn nothing, a correct guess earns
    a tenth of its points and two more for every further correct guess of the
    streak, so never less for more points or a longer streak. *)
Theorem calculateXpForGuess_rule points streak :
  calculateXpForGuess points false streak = 0 ∧
  (points ≤ 0 → calculateXpForGuess points true streak = 0) ∧
  (0 < points → calculateXpForGuess points true streak =
     points / 10 + 2 * Z.max 0 (streak - 1)) ∧
  (∀ points' streak', points ≤ points' → streak ≤ streak' →
     0 ≤ calculateXpForGuess points true streak ≤ calculateXpForGuess points' true streak').
Proof.
  unfold calculateXpForGuess, POINTS_PER_XP, STREAK_BONUS_XP. cbn [negb orb].
  split_and!; [done| | |].
  - intros H. by rewrite (proj2 (Z.leb_le _ _) H).
  - intros H. rewrite (proj2 (Z.leb_gt _ _) H). destruct (Z.ltb_spec 1 streak); lia.
  - intros p' s' Hp Hs.
    pose proof (Z.div_le_mono points p' 10 ltac:(lia) Hp).
    destruct (Z.leb_spec points 0), (Z.leb_spec p' 0), (Z.ltb_spec 1 streak), (Z.ltb_spec 1 s');
      try lia; pose proof (Z.div_pos p' 10); try pose proof (Z.div_pos points 10); lia.
Qed.
End concurrency.

(** ** Witnesses *)

Definition ex_player (id : string) (xp : Z) : User :=
  new_user id "" id "" <| u_xp := xp |> <| u_level := levelOf xp |>
    <| u_levelTitle := (getLevelFromXp xp).2 |>.
Definition ex_players : Db unit := mkDb (<["a" := ex_player "a" 90]> ∅) ∅ 0 0 ().

Lemma ex_step (d : Db unit) cs i c : cs !! i = Some c → (∃ c', (run_call c d).1 = Ok c') →
  interleave (d, cs) ((run_call c d).2, <[i := match (run_call c d).1 with Ok c' => c' | Err _ => c end]> cs).
Proof.
  intros Hi [c' Hc]. apply (interleave_step _ _ _ c); [done|]. destruct (run_call c d) as [r d']. cbn in *.
  by rewrite Hc.
Qed.

(** Two guesses at 90 XP that interleave: 110 XP, which is level 2 of the curve, and still level 1. *)
Lemma concurrent_guesses_exact_witness :
  ∃ d' r row', star interleave (ex_players, [Guess "a"; Guess "a"]) (d', [Over r; Over r]) ∧
    r = Ok (mkXp NaN 1 GOSSIP_ROOKIE None None) ∧
    users d' !! "a" = Some row' ∧ u_xp row' = 110 ∧ u_level row' = 1 ∧ levelOf (u_xp row') = 2.
Proof.
  eassert (star interleave (ex_players, [Guess "a"; Guess "a"])
    (_, [Over (Ok (mkXp NaN 1 GOSSIP_ROOKIE None None)); Over _])) as Hrun.
  { eapply star_step; [eapply (ex_step _ _ 0%nat); [reflexivity|eexists; reflexivity]|].
    eapply star_step; [eapply (ex_step _ _ 1%nat); [reflexivity|eexists; reflexivity]|].
    eapply star_step; [eapply (ex_step _ _ 1%nat); [reflexivity|eexists; reflexivity]|].
    eapply star_step; [eapply (ex_step _ _ 0%nat); [reflexivity|eexists; reflexivity]|].
    apply star_refl. }
  destruct (concurrent_guesses_exact "a" (ex_player "a" 90) ex_players _
    [Guess "a"; Guess "a"] _ eq_refl ltac:(intros c Hc; exists "a"; set_solver) Hrun) as [H1 H2].
  eexists _, _, _. split; [exact Hrun|]. split; [apply H2; left|]. split; [exact H1|].
  split; [vm_compute; reflexivity|]. split; vm_compute; reflexivity.
Defined.

Lemma awardGuessXp_loses_witness :
  ∃ d' r1 r2 row', star interleave (ex_players, [Award "a" 10; Award "a" 12]) (d', [Over (Ok r1); Over (Ok r2)]) ∧
    users d' !! "a" = Some row' ∧ u_xp row' = 102.
Proof. exact (awardGuessXp_loses "a" (ex_player "a" 90) ex_players 10 12 eq_refl eq_refl). Defined.
