(* ===== verification/Auth.v ===== *)
(** * Accounts and sessions (src/src/auth)

    [AuthService] (auth.service.ts) with the services it calls: the access tokens
    (auth-token.service.ts) and their check on every request (jwt.strategy.ts),
    email verification, password reset, and the job that deletes dead sessions.
    Hashing, signing and mailing are third-party code: the class [Crypto]. *)

From S2P Require Import Prelude Decimal Amount Entities Common.
From Stdlib Require Import Ascii.

(** ** Entities *)

Record RefreshToken := mkRefresh {
  rt_id : string;
  rt_userId : string;
  rt_tokenHash : string;
  rt_expiresAt : Z;
  rt_revokedAt : option Z;
  rt_userAgent : option string;
  rt_ip : option string;
  rt_lastUsedAt : option Z;
  rt_deviceName : option string;
  rt_createdAt : Z;
}.
#[export] Instance RefreshToken_settable : Settable RefreshToken := λ t,
  mkRefresh (rt_id t) (rt_userId t) (rt_tokenHash t) (rt_expiresAt t) (rt_revokedAt t)
    (rt_userAgent t) (rt_ip t) (rt_lastUsedAt t) (rt_deviceName t) (rt_createdAt t).

(** A row of email_tokens, whose only purpose is verification, or of
    password_reset_tokens. *)
Record MailToken := mkMailToken {
  mt_userId : string;
  mt_tokenHash : string;
  mt_expiresAt : Z;
  mt_usedAt : option Z;
}.
#[export] Instance MailToken_settable : Settable MailToken := λ t,
  mkMailToken (mt_userId t) (mt_tokenHash t) (mt_expiresAt t) (mt_usedAt t).

(** ** What is signed into an access token *)

Record JwtPayload := mkPayload {
  sub : string;
  p_email : string;
  p_username : string;
  p_role : Role;
  p_tokenVersion : option Z;
}.

(** ** Third-party code: node's crypto, bcrypt, the JWT service, the mailer, and the
    query the driver runs when it is given an object for a key. *)
Class Crypto := {
  sha256 : string → string;
  bcrypt_hash : string → nat → result string;
  bcrypt_compare : string → string → result bool;
  randomHex : nat → nat → string;
  uuid : nat → string;
  jwt_sign : JwtPayload → string;
  jwt_verify : string → option JwtPayload;
  isIP : string → nat;
  deliver : string → string → result unit;
  findByObject : User → gmap string User → result (option User);
}.

(** ** The state *)

Record AuthDb := mkAuthDb {
  a_users : gmap string User;
  a_refresh : gmap string RefreshToken;      (** by the unique [tokenHash] *)
  a_emailTokens : gmap string MailToken;
  a_resetTokens : gmap string MailToken;
  a_now : Z;
  a_nonce : nat;
}.
#[export] Instance AuthDb_settable : Settable AuthDb := λ d,
  mkAuthDb (a_users d) (a_refresh d) (a_emailTokens d) (a_resetTokens d) (a_now d) (a_nonce d).

Record SignupDto := mkSignup { su_username : string; su_email : string; su_password : string }.
Record LoginDto := mkLogin { li_email : string; li_password : string }.
Record ChangePasswordDto := mkChange { cp_currentPassword : string; cp_newPassword : string }.
Record TokenPair := mkPair { accessToken : string; refreshToken : string }.
Record AuthResult := mkAuth { ar_accessToken : string; ar_user : User }.
Record ClientContext := mkClient {
  c_userAgent : option string; c_ip : option string; c_deviceName : option string }.
Record SessionView := mkSession {
  sv_id : string; sv_deviceName : option string; sv_userAgent : option string;
  sv_ip : option string; sv_createdAt : Z; sv_lastUsedAt : option Z; sv_expiresAt : Z }.

Definition REFRESH_TOKEN_TTL_MS : Z := 30 * 24 * 60 * 60 * 1000.
Definition EMAIL_VERIFICATION_TOKEN_TTL_MS : Z := 24 * 60 * 60 * 1000.
Definition RESET_TOKEN_TTL_MS : Z := 60 * 60 * 1000.
Definition REVOKED_SESSION_RETENTION_DAYS : Z := 30.
Definition INACTIVE_USER_MESSAGE : string := "User is inactive".

(** ** IP addresses (common/utils/ip.util.ts) *)

Section ip.
Context `{Crypto}.

(** [s.split(c)] for a separator of one character. *)
Fixpoint split_char (c : Ascii.ascii) (s : string) : list string :=
  match s with
  | EmptyString => [EmptyString]
  | String x s' =>
      if (x =? c)%char then EmptyString :: split_char c s'
      else match split_char c s' with
           | w :: ws => String x w :: ws
           | [] => [String x EmptyString]
           end
  end.

(** The first two parts of [address.split('::')], and whether there is a second. *)
Fixpoint split_colons (s : string) : string * option string :=
  match s with
  | String ":"%char (String ":"%char s') => (EmptyString, Some (split_colons s').1)
  | String x s' => let '(head, tail) := split_colons s' in (String x head, tail)
  | EmptyString => (EmptyString, None)
  end.

Definition expandIpv6 (address : string) : list string :=
  let '(head, tail) := split_colons address in
  let headGroups := if nonempty head then split_char ":"%char head else [] in
  let tailGroups := if nonempty (default "" tail) then split_char ":"%char (default "" tail) else [] in
  let missing := (8 - length headGroups - length tailGroups)%nat in
  headGroups ++ replicate missing "0" ++ tailGroups.

(** [g.replace(/^0+(?=.)/, '')] *)
Fixpoint strip_leading_zeros (s : string) : string :=
  match s with
  | String "0"%char (String _ _ as s') => strip_leading_zeros s'
  | _ => s
  end.

(** [ip.trim().replace(/^::ffff:/i, '')] *)
Definition unmapped (ip : string) : string :=
  let t := trim ip in
  if String.prefix "::ffff:" (lower t) then String.substring 7 (String.length t - 7) t else t.

Definition truncateIp (ip : option string) : option string :=
  if negb (truthy ip) then None else
  let address := unmapped (default "" ip) in
  match isIP address with
  | 4%nat => match split_char "."%char address with
             | a :: b :: c :: _ => Some (a +:+ "." +:+ b +:+ "." +:+ c +:+ ".0")
             | _ => None
             end
  | 6%nat => Some (String.concat ":" (strip_leading_zeros <$> take 3 (expandIpv6 address)) +:+ "::")
  | _ => None
  end.
End ip.

Section auth.
Context `{C : Crypto}.
Local Abbreviation M := (M AuthDb).

(** [randomBytes(n).toString('hex')] *)
Definition draw (bytes : nat) : M string :=
  n ← gets a_nonce; modify (λ d, d <| a_nonce := S n |>);; mret (randomHex bytes n).

Definition date_now : M Z := gets a_now.
Definition find_user_by_id (id : string) : M (option User) := gets (λ d, a_users d !! id).
Definition save_account (u : User) : M unit :=
  modify (λ d, d <| a_users := <[u_id u := u]> (a_users d) |>).

(** [getOne()] of a query over the users: some row that matches. *)
Definition find_user_where (p : User → bool) : M (option User) :=
  gets (λ d, head (filter p (map_to_list (a_users d)).*2)).

(** ** auth-token.service.ts *)

Definition assertActive (user : User) : M unit :=
  throw_if (negb (u_isActive user)) (Unauthorized INACTIVE_USER_MESSAGE).

Definition issueToken (user : User) : AuthResult :=
  let payload := mkPayload (u_id user) (u_email user) (u_username user) (u_role user) None in
  mkAuth (jwt_sign payload) (user <| u_passwordHash := "" |>).

(** ** jwt.strategy.ts: the check of every request *)

Definition validate (payload : JwtPayload) : M User :=
  user ← find_user_by_id (sub payload);
  user ← require user (Unauthorized "Token is invalid");
  throw_if (negb (u_isActive user)) (Unauthorized INACTIVE_USER_MESSAGE);;
  throw_if (negb (default 0 (p_tokenVersion payload) =? u_tokenVersion user))
    (Unauthorized "Token has been revoked");;
  mret user.

(** A request with a bearer token: passport verifies it and calls [validate]. *)
Definition authenticate (token : string) : M User :=
  payload ← require (jwt_verify token) (Unauthorized "Unauthorized");
  validate payload.

(** ** Mailed tokens: email-verification.service.ts and password-reset.service.ts *)

Definition issueVerification (user : User) : M unit :=
  rawToken ← draw 32;
  time ← date_now;
  modify (λ d, d <| a_emailTokens := <[sha256 rawToken :=
    mkMailToken (u_id user) (sha256 rawToken) (time + EMAIL_VERIFICATION_TOKEN_TTL_MS) None]>
    (a_emailTokens d) |>);;
  lift (deliver (u_email user) rawToken).

Definition consumeVerification (rawToken : string) : M User :=
  throw_if (negb (nonempty rawToken)) (BadRequest "Invalid verification token");;
  token ← gets (λ d, a_emailTokens d !! sha256 rawToken);
  token ← require token (BadRequest "Invalid verification token");
  throw_if (bool_decide (mt_usedAt token ≠ None))
    (BadRequest "Verification token has already been used");;
  time ← date_now;
  throw_if (mt_expiresAt token <=? time) (BadRequest "Verification token has expired");;
  user ← find_user_by_id (mt_userId token);
  user ← require user (NotFound "User not found");
  modify (λ d, d <| a_emailTokens := <[mt_tokenHash token := token <| mt_usedAt := Some time |>]>
    (a_emailTokens d) |>);;
  match u_emailVerifiedAt user with
  | Some _ => mret user
  | None => let user := user <| u_emailVerifiedAt := Some time |> in
            save_account user;; mret user
  end.

Definition issueReset (user : User) : M unit :=
  rawToken ← draw 32;
  time ← date_now;
  modify (λ d, d <| a_resetTokens := <[sha256 rawToken :=
    mkMailToken (u_id user) (sha256 rawToken) (time + RESET_TOKEN_TTL_MS) None]>
    (a_resetTokens d) |>);;
  try_catch (lift (deliver (u_email user) rawToken)) (λ _, mret tt).

Definition invalidReset : exn := BadRequest "Invalid or expired password reset token".

Definition consumeReset (rawToken : string) : M User :=
  throw_if (negb (nonempty rawToken)) invalidReset;;
  token ← gets (λ d, a_resetTokens d !! sha256 rawToken);
  token ← require token invalidReset;
  throw_if (bool_decide (mt_usedAt token ≠ None)) invalidReset;;
  time ← date_now;
  throw_if (mt_expiresAt token <=? time) invalidReset;;
  modify (λ d, d <| a_resetTokens := <[mt_tokenHash token := token <| mt_usedAt := Some time |>]>
    (a_resetTokens d) |>);;
  user ← find_user_by_id (mt_userId token);
  require user invalidReset.

(** ** auth.service.ts *)

Definition signup (dto : SignupDto) : M AuthResult :=
  existingUser ← find_user_where (λ u, (lower (u_email u) == lower (su_email dto))
                                   || (lower (u_username u) == lower (su_username dto)));
  (match existingUser with
   | Some u =>
       throw_if (lower (u_email u) == su_email dto) (Conflict "Email already exists");;
       throw_if (lower (u_username u) == lower (su_username dto)) (Conflict "Username already exists")
   | None => mret tt
   end);;
  n ← gets a_nonce;
  passwordHash ← try_catch (lift (bcrypt_hash (su_password dto) n))
                   (λ _, throw (BadRequest "Failed to hash password"));
  let user := new_user (uuid n) (su_email dto) (su_username dto) passwordHash in
  modify (λ d, d <| a_nonce := S n |>);;
  (* the unique columns *)
  clash ← find_user_where (λ u, (u_email u == su_email dto) || (u_username u == su_username dto));
  throw_if (bool_decide (clash ≠ None)) (BadRequest "Failed to create user");;
  save_account user;;
  mret (issueToken user).

Definition invalidCredentials : exn := Unauthorized "Invalid credentials".

Definition login (dto : LoginDto) : M AuthResult :=
  user ← find_user_where (λ u, u_email u == li_email dto);
  user ← require user invalidCredentials;
  isPasswordValid ← try_catch (lift (bcrypt_compare (li_password dto) (u_passwordHash user)))
                      (λ _, throw invalidCredentials);
  throw_if (negb isPasswordValid) invalidCredentials;;
  assertActive user;;
  time ← date_now;
  let user := user <| u_lastLoginAt := Some time |> in
  save_account user;;
  mret (issueToken user).

Definition hashRefreshToken (token : string) : string := sha256 token.

(** [userAgent?.slice(0, 255)] *)
Definition slice255 (s : string) : string := String.substring 0 255 s.

Definition issueTokenPair (user : User) (context : ClientContext) : M TokenPair :=
  let payload := mkPayload (u_id user) (u_email user) (u_username user) (u_role user)
                   (Some (u_tokenVersion user)) in
  let accessToken := jwt_sign payload in
  n ← gets a_nonce;
  rawRefreshToken ← draw 40;
  time ← date_now;
  let tokenHash := hashRefreshToken rawRefreshToken in
  clash ← gets (λ d, a_refresh d !! tokenHash);
  throw_if (bool_decide (clash ≠ None)) (PlainError "QueryFailedError" "duplicate key");;
  modify (λ d, d <| a_refresh := <[tokenHash :=
    mkRefresh (uuid n) (u_id user) tokenHash (time + REFRESH_TOKEN_TTL_MS) None
      (slice255 <$> c_userAgent context) (truncateIp (c_ip context)) (Some time)
      (c_deviceName context) time]> (a_refresh d) |>);;
  mret (mkPair accessToken rawRefreshToken).

Definition invalidRefresh : exn := Unauthorized "Refresh token is invalid or expired".

Definition refresh (token : string) (context : ClientContext) : M TokenPair :=
  let tokenHash := hashRefreshToken token in
  existing ← gets (λ d, a_refresh d !! tokenHash);
  time ← date_now;
  existing ← require existing invalidRefresh;
  throw_if (bool_decide (rt_revokedAt existing ≠ None) || (rt_expiresAt existing <? time))
    invalidRefresh;;
  user ← find_user_by_id (rt_userId existing);
  user ← require user invalidRefresh;
  throw_if (negb (u_isActive user)) invalidRefresh;;
  modify (λ d, d <| a_refresh := <[rt_tokenHash existing :=
    existing <| rt_revokedAt := Some time |>]> (a_refresh d) |>);;
  issueTokenPair user (mkClient (c_userAgent context) (c_ip context)
    (match c_deviceName context with Some n => Some n | None => rt_deviceName existing end)).

Definition live (userId : string) (time : Z) (t : RefreshToken) : bool :=
  (rt_userId t == userId) && bool_decide (rt_revokedAt t = None) && (time <? rt_expiresAt t).

(** The rows in no particular order: ordering is for display. *)
Definition listSessions (userId : string) : M (list SessionView) :=
  time ← date_now;
  tokens ← gets (λ d, filter (live userId time) (map_to_list (a_refresh d)).*2);
  mret ((λ t, mkSession (rt_id t) (rt_deviceName t) (rt_userAgent t) (rt_ip t) (rt_createdAt t)
                (rt_lastUsedAt t) (rt_expiresAt t)) <$> tokens).

(** [refreshTokenRepository.update({ ..., revokedAt: IsNull() }, { revokedAt: new Date() })],
    with the number of rows it affects. *)
Definition revokeWhere (p : RefreshToken → bool) : M nat :=
  time ← date_now;
  let selected t := p t && bool_decide (rt_revokedAt t = None) in
  affected ← gets (λ d, length (filter selected (map_to_list (a_refresh d)).*2));
  modify (λ d, d <| a_refresh := (λ t, if selected t then t <| rt_revokedAt := Some time |> else t)
    <$> a_refresh d |>);;
  mret affected.

Definition revokeSession (userId sessionId : string) : M unit :=
  affected ← revokeWhere (λ t, (rt_id t == sessionId) && (rt_userId t == userId));
  throw_if (bool_decide (affected = 0%nat)) (NotFound "Session not found").

Definition logoutAll (userId : string) : M unit :=
  modify (λ d, d <| a_users := alter (λ u, u <| u_tokenVersion := u_tokenVersion u + 1 |>) userId
    (a_users d) |>);;
  revokeWhere (λ t, rt_userId t == userId);; mret tt.

Definition logout (token : string) : M unit :=
  revokeWhere (λ t, rt_tokenHash t == hashRefreshToken token);; mret tt.

(** The end of [changePassword] and of [resetPassword]. *)
Definition setPassword (user : User) (password : string) : M unit :=
  n ← gets a_nonce;
  passwordHash ← lift (bcrypt_hash password n);
  modify (λ d, d <| a_nonce := S n |>);;
  save_account (user <| u_passwordHash := passwordHash |>
                     <| u_tokenVersion := u_tokenVersion user + 1 |>);;
  revokeWhere (λ t, rt_userId t == u_id user);; mret tt.

Definition changePassword (userId : string) (dto : ChangePasswordDto) : M unit :=
  user ← find_user_by_id userId;
  user ← require user (Unauthorized "User not found");
  isCurrentValid ← lift (bcrypt_compare (cp_currentPassword dto) (u_passwordHash user));
  throw_if (negb isCurrentValid) (Unauthorized "Current password is incorrect");;
  setPassword user (cp_newPassword dto).

Definition verifyEmail (token : string) : M unit := consumeVerification token;; mret tt.

Definition resendVerification (email : string) : M unit :=
  user ← find_user_where (λ u, lower (u_email u) == lower email);
  match user with
  | Some user => match u_emailVerifiedAt user with
                 | Some _ => mret tt
                 | None => issueVerification user
                 end
  | None => mret tt
  end.

Definition forgotPassword (email : string) : M unit :=
  user ← find_user_where (λ u, lower (u_email u) == lower email);
  match user with Some user => issueReset user | None => mret tt end.

(** [consume] returns the user, which is then passed where an identifier belongs:
    the query is [findByObject]. *)
Definition resetPassword (token password : string) : M unit :=
  userId ← consumeReset token;
  found ← gets (λ d, findByObject userId (a_users d));
  user ← lift found;
  user ← require user (BadRequest "Invalid or expired reset token");
  setPassword user password.

(** ** session-cleanup.job.ts *)

Definition dead (time : Z) (t : RefreshToken) : bool :=
  (rt_expiresAt t <? time) ||
  match rt_revokedAt t with
  | Some r => r <? time - REVOKED_SESSION_RETENTION_DAYS * 24 * 60 * 60 * 1000
  | None => false
  end.

Definition purgeDeadSessions : M nat :=
  time ← date_now;
  deleted ← gets (λ d, length (filter (dead time) (map_to_list (a_refresh d)).*2));
  modify (λ d, d <| a_refresh := filter (λ kt, dead time kt.2 = false) (a_refresh d) |>);;
  mret deleted.
End auth.

(** ** Properties *)

Section auth_properties.
Context `{C : Crypto}.

(** What the checks rely on: a signed payload verifies to itself. *)
Definition jwt_roundtrip : Prop := ∀ p, jwt_verify (jwt_sign p) = Some p.

Lemma bind_find_user_where {B} p (f : option User → M AuthDb B) d :
  (find_user_where p ≫= f) d = f (head (filter p (map_to_list (a_users d)).*2)) d.
Proof. done. Qed.

(** A token whose stored row does not let it be exchanged. *)
Definition refused_refresh (token : string) (d : AuthDb) : Prop :=
  match a_refresh d !! hashRefreshToken token with
  | Some t => rt_revokedAt t ≠ None ∨ rt_expiresAt t < a_now d
  | None => True
  end.

Lemma refresh_refused token context d : refused_refresh token d →
  refresh token context d = (Err invalidRefresh, d).
Proof.
  unfold refused_refresh, refresh, date_now. intros H. rewrite !bind_gets, bind_require.
  destruct (a_refresh d !! hashRefreshToken token) as [t|]; [|done].
  rewrite bind_throw_if. destruct (_ || _) eqn:E; [done|]. exfalso.
  apply orb_false_iff in E as [E1 E2]. bool_prop. destruct H as [H|H]; [done|lia].
Qed.

(** The run of a refresh that succeeds. *)
Lemma refresh_inv token context d pair d' : refresh token context d = (Ok pair, d') →
  ∃ t u, a_refresh d !! hashRefreshToken token = Some t ∧ rt_revokedAt t = None ∧
    a_now d ≤ rt_expiresAt t ∧ a_users d !! rt_userId t = Some u ∧ u_isActive u = true ∧
    let d1 := d <| a_refresh := <[rt_tokenHash t := t <| rt_revokedAt := Some (a_now d) |>]> (a_refresh d) |> in
    let raw := randomHex 40 (a_nonce d) in
    a_refresh d1 !! hashRefreshToken raw = None ∧
    accessToken pair = jwt_sign (mkPayload (u_id u) (u_email u) (u_username u) (u_role u)
                                   (Some (u_tokenVersion u))) ∧
    refreshToken pair = raw ∧
    a_users d' = a_users d ∧ a_now d' = a_now d ∧ a_nonce d' = S (a_nonce d) ∧
    ∃ t', rt_userId t' = u_id u ∧ rt_revokedAt t' = None ∧
      rt_expiresAt t' = a_now d + REFRESH_TOKEN_TTL_MS ∧ rt_tokenHash t' = hashRefreshToken raw ∧
      a_refresh d' = <[hashRefreshToken raw := t']> (a_refresh d1).
Proof.
  unfold refresh, date_now. rewrite !bind_gets, bind_require. intros H.
  destruct (a_refresh d !! hashRefreshToken token) as [t|]; [|done].
  rewrite bind_throw_if in H. destruct (_ || _) eqn:E in H; [done|].
  apply orb_false_iff in E as [E1 E2]. bool_prop.
  assert (rt_revokedAt t = None) as Hrev by (destruct (rt_revokedAt t); [by destruct E1|done]).
  unfold find_user_by_id in H. rewrite bind_gets, bind_require in H.
  destruct (a_users d !! rt_userId t) as [u|] eqn:Hu; [|done].
  rewrite bind_throw_if in H. destruct (u_isActive u) eqn:Hact; [|done]. cbn [negb] in H.
  rewrite bind_modify in H. unfold issueTokenPair, draw, date_now in H.
  rewrite bind_gets in H. rewrite !bind_assoc, bind_gets, bind_assoc, bind_modify, bind_ret in H.
  rewrite !bind_gets, bind_throw_if in H.
  exists t, u. do 5 (split; [done|]). cbv zeta.
  destruct (bool_decide (_ ≠ None)) eqn:Hcl in H; [done|]. bool_prop.
  rewrite bind_modify in H. injection H as <- <-. cbn.
  split; [apply dec_stable, Hcl|].
  do 5 (split; [done|]). eexists. split_and!; try reflexivity; done.
Qed.

(** Rows are stored under their hash, and users under their identifier. *)
Record auth_wf (d : AuthDb) : Prop := {
  aw_refresh h t : a_refresh d !! h = Some t → rt_tokenHash t = h;
  aw_users k u : a_users d !! k = Some u → u_id u = k;
}.

(** Nothing that is drawn from [d] on is stored already, and no draw repeats another: what
    the 40 bytes of [randomBytes] and SHA-256 are relied on for. *)
Definition draws_fresh (d : AuthDb) : Prop := ∀ n, (a_nonce d ≤ n)%nat →
  a_refresh d !! hashRefreshToken (randomHex 40 n) = None ∧
  ∀ m, hashRefreshToken (randomHex 40 m) = hashRefreshToken (randomHex 40 n) → m = n.

(** The row with hash [h] is revoked or gone. *)
Definition spent (h : string) (d : AuthDb) : Prop :=
  match a_refresh d !! h with Some t => rt_revokedAt t ≠ None | None => True end.

Lemma spent_refused token d : spent (hashRefreshToken token) d → refused_refresh token d.
Proof. unfold spent, refused_refresh. destruct (a_refresh d !! _); [by left|done]. Qed.

(** Where every later draw differs from [h], a row of [h] that is spent stays so. *)
Definition stays_spent (h : string) (n0 : nat) : relation AuthDb := λ d d',
  (a_nonce d ≤ a_nonce d')%nat ∧ ((n0 ≤ a_nonce d)%nat → spent h d → spent h d').
#[local] Instance stays_spent_refl h n0 : Reflexive (stays_spent h n0).
Proof. done. Qed.
#[local] Instance stays_spent_trans h n0 : Transitive (stays_spent h n0).
Proof. intros x y z [H1 H2] [H3 H4]. split; [lia|]. intros. apply H4; [lia|]. by apply H2. Qed.

(** A request to the service, the nightly purge, or what happens elsewhere: users change,
    rows are deleted with their users, and time passes. *)
Inductive request :=
  | Signup (dto : SignupDto) | Login (dto : LoginDto)
  | Refresh (token : string) (context : ClientContext)
  | ListSessions (userId : string) | RevokeSession (userId sessionId : string)
  | LogoutAll (userId : string) | Logout (token : string)
  | ChangePassword (userId : string) (dto : ChangePasswordDto)
  | VerifyEmail (token : string) | ResendVerification (email : string)
  | ForgotPassword (email : string) | ResetPassword (token password : string)
  | Purge
  | Elsewhere (users : gmap string User → gmap string User) (kept : RefreshToken → bool) (ms : Z).

Definition run_request (r : request) (d : AuthDb) : AuthDb :=
  match r with
  | Signup dto => (signup dto d).2
  | Login dto => (login dto d).2
  | Refresh token context => (refresh token context d).2
  | ListSessions userId => (listSessions userId d).2
  | RevokeSession userId sessionId => (revokeSession userId sessionId d).2
  | LogoutAll userId => (logoutAll userId d).2
  | Logout token => (logout token d).2
  | ChangePassword userId dto => (changePassword userId dto d).2
  | VerifyEmail token => (verifyEmail token d).2
  | ResendVerification email => (resendVerification email d).2
  | ForgotPassword email => (forgotPassword email d).2
  | ResetPassword token password => (resetPassword token password d).2
  | Purge => (purgeDeadSessions d).2
  | Elsewhere users kept ms =>
      d <| a_users := users (a_users d) |> <| a_now := a_now d + ms |>
        <| a_refresh := filter (λ kt, kept kt.2 = true) (a_refresh d) |>
  end.

Section stays_spent.
Context (h : string) (n0 : nat).
Context (later_draws : ∀ n, (n0 ≤ n)%nat → hashRefreshToken (randomHex 40 n) ≠ h).
Let R := stays_spent h n0.

Lemma revoke_spent {t : RefreshToken} d k time : spent h d →
  spent h (d <| a_refresh := <[k := t <| rt_revokedAt := Some time |>]> (a_refresh d) |>).
Proof.
  unfold spent. cbn. destruct (decide (k = h)) as [->|Hk].
  - by rewrite lookup_insert_eq.
  - by rewrite lookup_insert_ne.
Qed.

Lemma delete_spent (P : string * RefreshToken → Prop) `{∀ kt, Decision (P kt)} d : spent h d →
  spent h (d <| a_refresh := filter P (a_refresh d) |>).
Proof.
  unfold spent. cbn. intros Hs. destruct (filter P (a_refresh d) !! h) eqn:E; [|done].
  apply map_lookup_filter_Some in E as [E _]. by rewrite E in Hs.
Qed.

Lemma revokeWhere_stays p : preserves R (revokeWhere p).
Proof.
  unfold revokeWhere, date_now. frame_with R. intros d. split; [done|]. intros _.
  unfold spent. cbn. rewrite lookup_fmap. destruct (a_refresh d !! h) as [t|]; [|done]. cbn.
  intros Ht. rewrite (bool_decide_false _ Ht), andb_false_r. done.
Qed.

Lemma issueTokenPair_stays user context : preserves R (issueTokenPair user context).
Proof.
  intros d r d'. unfold issueTokenPair, draw, date_now. cbv zeta.
  rewrite bind_gets, !bind_assoc, bind_gets, bind_assoc, bind_modify, bind_ret, !bind_gets, bind_throw_if.
  case_bool_decide; [by intros [= <- <-]; split; [cbn; lia|]|].
  rewrite bind_modify. intros [= <- <-]. split; [cbn; lia|]. intros Hn. unfold spent. cbn.
  by rewrite lookup_insert_ne by (apply later_draws; lia).
Qed.

Lemma save_account_stays u : preserves R (save_account u).
Proof. unfold save_account. frame_with R. by intros d. Qed.

Lemma draw_stays bytes : preserves R (draw bytes).
Proof. intros d r d' [= <- <-]. split; [cbn; lia|done]. Qed.

#[local] Hint Resolve revokeWhere_stays issueTokenPair_stays save_account_stays draw_stays : framed.

Lemma take_nonce_stays {A B} (m : nat → M AuthDb A) (f : nat → A → M AuthDb B) :
  (∀ n, preserves eq (m n)) → (∀ n x, preserves R (f n x)) →
  preserves R (n ← gets a_nonce; x ← m n; modify (λ d, d <| a_nonce := S n |>);; f n x).
Proof.
  intros Hm Hf d r d'. rewrite bind_gets. unfold mbind at 1, M_bind at 1.
  destruct (m (a_nonce d) d) as [[x|e] d1] eqn:E; apply Hm in E as <-; [|by intros [= <- <-]].
  rewrite bind_modify. intros H. etrans; [|by eapply Hf]. split; [cbn; lia|done].
Qed.

Lemma setPassword_stays user password : preserves R (setPassword user password).
Proof.
  unfold setPassword. apply (take_nonce_stays (λ n, lift _)); [intros; apply (preserves_lift eq)|].
  intros. frame_with R.
Qed.

Lemma signup_stays dto : preserves R (signup dto).
Proof.
  unfold signup, find_user_where. apply (preserves_bind R); [frame_with R|intros].
  apply (preserves_bind R); [frame_with R|intros _].
  apply (take_nonce_stays (λ n, try_catch (lift _) _)).
  - intros. apply (preserves_try_catch eq); intros; [apply (preserves_lift eq)|apply (preserves_throw eq)].
  - intros. frame_with R.
Qed.

#[local] Hint Resolve setPassword_stays signup_stays : framed.

Lemma consumeVerification_stays token : preserves R (consumeVerification token).
Proof. unfold consumeVerification, find_user_by_id, date_now. frame_with R; by intros d. Qed.
Lemma consumeReset_stays token : preserves R (consumeReset token).
Proof. unfold consumeReset, find_user_by_id, date_now. frame_with R; by intros d. Qed.
Lemma issueVerification_stays user : preserves R (issueVerification user).
Proof. unfold issueVerification, date_now. frame_with R; by intros d. Qed.
Lemma issueReset_stays user : preserves R (issueReset user).
Proof. unfold issueReset, date_now. frame_with R; by intros d. Qed.

#[local] Hint Resolve consumeVerification_stays consumeReset_stays issueVerification_stays
  issueReset_stays : framed.

Lemma run_request_stays r d : R d (run_request r d).
Proof.
  assert (∀ A (m : M AuthDb A), preserves R m → R d (m d).2) as Hrun.
  { intros A m Hm. destruct (m d) eqn:E. by eapply Hm. }
  destruct r; cbn [run_request]; try apply Hrun;
    unfold login, refresh, listSessions, revokeSession, logoutAll, logout, changePassword, verifyEmail,
      resendVerification, forgotPassword, resetPassword, purgeDeadSessions, find_user_where,
      find_user_by_id, assertActive, date_now; frame_with R.
  all: try (intros d1; split; [done|intros _]).
  all: try (apply revoke_spent || apply delete_spent || done).
  split; [done|]. intros _. apply (delete_spent (λ kt, kept kt.2 = true)).
Qed.

Lemma run_requests_stay rs d : R d (foldl (flip run_request) d rs).
Proof.
  revert d. induction rs as [|r rs IH]; intros d; [done|]. cbn. etrans; [|apply IH].
  apply run_request_stays.
Qed.
End stays_spent.

Lemma refresh_succeeds token context d t u :
  a_refresh d !! hashRefreshToken token = Some t → rt_tokenHash t = hashRefreshToken token →
  rt_revokedAt t = None → a_now d ≤ rt_expiresAt t →
  a_users d !! rt_userId t = Some u → u_isActive u = true →
  a_refresh d !! hashRefreshToken (randomHex 40 (a_nonce d)) = None →
  ∃ pair d', refresh token context d = (Ok pair, d').
Proof.
  intros Ht Hh Hrev Hexp Hu Hact Hfresh. unfold refresh, date_now, find_user_by_id.
  rewrite !bind_gets, bind_require, Ht, bind_throw_if, Hrev, bool_decide_false by naive_solver.
  cbn [orb]. rewrite (proj2 (Z.ltb_ge _ _)) by done. rewrite bind_gets, bind_require, Hu, bind_throw_if, Hact.
  cbn [negb]. rewrite bind_modify. unfold issueTokenPair, draw, date_now. cbv zeta.
  rewrite bind_gets, !bind_assoc, bind_gets, bind_assoc, bind_modify, bind_ret, !bind_gets, bind_throw_if.
  cbn. rewrite Hh, lookup_insert_ne, Hfresh by congruence. rewrite bool_decide_false by naive_solver.
  rewrite bind_modify. by eexists _, _.
Qed.

(** C11. Refresh tokens rotate: after a successful exchange the presented token is refused for
    good, whatever requests, purges and changes of the users follow one another; and the one
    handed out, which belongs to the same user, can be exchanged at any moment of its 30 days
    while that user is active. *)
Theorem refresh_rotates token context d pair d' : auth_wf d → draws_fresh d →
  refresh token context d = (Ok pair, d') →
  (∀ rs context', let later := foldl (flip run_request) d' rs in
     refresh token context' later = (Err invalidRefresh, later)) ∧
  (∃ t t', a_refresh d !! hashRefreshToken token = Some t ∧
     a_refresh d' !! hashRefreshToken (refreshToken pair) = Some t' ∧ rt_userId t' = rt_userId t) ∧
  ∀ ms context', 0 ≤ ms ≤ REFRESH_TOKEN_TTL_MS →
    ∃ pair' d'', refresh (refreshToken pair) context' (d' <| a_now := a_now d' + ms |>) = (Ok pair', d'').
Proof.
  intros [Hh Hu] Hdraws Hrun. apply refresh_inv in Hrun as (t & u & Ht & Hrev & Hexp & Hus & Hact & Hrun).
  cbv zeta in Hrun.
  destruct Hrun as (Hfresh & Hacc & Hraw & Husers & Hnow & Hnonce & t' & H1 & H2 & H3 & H4 & Href).
  pose proof (Hh _ _ Ht) as Hth. cbn in Hfresh, Href. rewrite Hth in Hfresh, Href.
  assert (∀ n, (a_nonce d ≤ n)%nat → hashRefreshToken (randomHex 40 n) ≠ hashRefreshToken token) as Hne.
  { intros n Hn He. apply Hdraws in Hn as [Hn _]. by rewrite He, Ht in Hn. }
  split_and!.
  - intros rs context'. apply refresh_refused, spent_refused.
    apply (run_requests_stay (hashRefreshToken token) (a_nonce d) Hne rs d'); [lia|].
    unfold spent. by rewrite Href, lookup_insert_ne, lookup_insert_eq by (apply Hne; lia).
  - exists t, t'. rewrite Hraw, Href, lookup_insert_eq, H1, (Hu _ _ Hus). done.
  - intros ms context' Hms. rewrite Hraw. apply (refresh_succeeds _ _ _ t' u); cbn; rewrite ?Href, ?Hnow; try done.
    + by rewrite lookup_insert_eq.
    + lia.
    + by rewrite H1, (Hu _ _ Hus), Husers.
    + rewrite Hnonce. assert (a_nonce d ≤ S (a_nonce d))%nat as Hn by lia.
      destruct (Hdraws _ Hn) as [Hnone Hinj].
      rewrite !lookup_insert_ne; [done|..]; intros He; [by eapply (Hne (S (a_nonce d)))|].
      apply Hinj in He. lia.
Qed.

Lemma revokeWhere_run p d :
  ∃ n, revokeWhere p d = (Ok n, d <| a_refresh :=
    (λ t, if p t && bool_decide (rt_revokedAt t = None)
          then t <| rt_revokedAt := Some (a_now d) |> else t) <$> a_refresh d |>).
Proof.
  eexists. unfold revokeWhere, date_now. rewrite bind_gets. cbv zeta.
  rewrite bind_gets, bind_modify. reflexivity.
Qed.

Lemma revokeWhere_refused p token d t :
  a_refresh d !! hashRefreshToken token = Some t → p t = true →
  refused_refresh token (revokeWhere p d).2.
Proof.
  intros Ht Hp. destruct (revokeWhere_run p d) as [n ->]. unfold refused_refresh. cbn.
  rewrite lookup_fmap, Ht. cbn. rewrite Hp. left.
  destruct (rt_revokedAt t) eqn:E; cbn; by rewrite ?E.
Qed.

(** Nobody can act as [u] with what they held before [d]. *)
Definition signed_out (u : User) (d d' : AuthDb) : Prop :=
  (∀ p, sub p = u_id u → default 0 (p_tokenVersion p) = u_tokenVersion u →
     ∃ e, validate p d' = (Err e, d')) ∧
  (∀ token t context, a_refresh d !! hashRefreshToken token = Some t → rt_userId t = u_id u →
     refresh token context d' = (Err invalidRefresh, d')).

Lemma signed_out_intro u u' d d1 :
  a_users d1 !! u_id u = Some u' → u_tokenVersion u' = u_tokenVersion u + 1 →
  a_refresh d1 = a_refresh d →
  signed_out u d (revokeWhere (λ t, rt_userId t == u_id u) d1).2.
Proof.
  intros Hu Hv Hr. split.
  - intros p Hsub Hp. destruct (revokeWhere_run (λ t, rt_userId t == u_id u) d1) as [n ->].
    unfold validate, find_user_by_id. cbn [snd]. rewrite bind_gets, Hsub. cbn.
    rewrite Hu, bind_require, !bind_throw_if. destruct (u_isActive u'); [|by eexists].
    cbn [negb]. rewrite Hp, Hv, (proj2 (Z.eqb_neq _ _)) by lia. by eexists.
  - intros token t context Ht Hid. apply refresh_refused, revokeWhere_refused with t.
    + by rewrite Hr.
    + by apply bool_decide_eq_true.
Qed.

(** C12. Signing out everywhere works: after [logoutAll], and after a successful
    [changePassword], every access token of the user that was valid before is
    rejected, and none of their refresh tokens can be exchanged. *)
Theorem logoutAll_signs_out u d dto : auth_wf d → a_users d !! u_id u = Some u →
  (∃ d', logoutAll (u_id u) d = (Ok tt, d') ∧ signed_out u d d') ∧
  (∀ d', changePassword (u_id u) dto d = (Ok tt, d') → signed_out u d d').
Proof.
  intros [_ Hids] Hu. split.
  - unfold logoutAll. rewrite bind_modify.
    match goal with |- context [(revokeWhere _ ≫= _) ?x] => set (d1 := x) end.
    destruct (revokeWhere_run (λ t, rt_userId t == u_id u) d1) as [n Hrun].
    rewrite (bind_run _ _ _ _ _ Hrun). eexists. split; [reflexivity|].
    pose proof (signed_out_intro u (u <| u_tokenVersion := u_tokenVersion u + 1 |>) d d1) as H.
    rewrite Hrun in H. apply H; [|done|done]. unfold d1. cbn. by rewrite lookup_alter_eq, Hu.
  - intros d'. unfold changePassword, find_user_by_id. rewrite bind_gets, Hu, bind_require.
    intros (valid & d1 & Hc & H)%bind_Ok_inv. injection Hc as _ <-.
    rewrite bind_throw_if in H. destruct (negb valid); [done|].
    unfold setPassword in H. rewrite bind_gets in H.
    apply bind_Ok_inv in H as (hash & d1 & Hhash & H). injection Hhash as _ <-.
    unfold save_account in H. rewrite !bind_modify in H.
    match type of H with (revokeWhere _ ≫= _) ?x = _ => set (d1 := x) in H end.
    destruct (revokeWhere_run (λ t, rt_userId t == u_id u) d1) as [n Hrun].
    rewrite (bind_run _ _ _ _ _ Hrun) in H. injection H as <-.
    pose proof (signed_out_intro u (u <| u_passwordHash := hash |>
      <| u_tokenVersion := u_tokenVersion u + 1 |>) d d1) as H.
    rewrite Hrun in H. apply H; [|done|done]. unfold d1. cbn. by rewrite lookup_insert_eq.
Qed.

(** The run of a login, by what is found and what the password check says. *)
Lemma login_run dto d :
  login dto d =
  match head (filter (λ u, u_email u == li_email dto) (map_to_list (a_users d)).*2) with
  | None => (Err invalidCredentials, d)
  | Some u =>
      match bcrypt_compare (li_password dto) (u_passwordHash u) with
      | Ok true =>
          if u_isActive u then
            let u' := u <| u_lastLoginAt := Some (a_now d) |> in
            (Ok (issueToken u'), d <| a_users := <[u_id u := u']> (a_users d) |>)
          else (Err (Unauthorized INACTIVE_USER_MESSAGE), d)
      | _ => (Err invalidCredentials, d)
      end
  end.
Proof.
  unfold login. rewrite bind_find_user_where, bind_require.
  destruct (head _) as [u|]; [|done]. unfold mbind at 1, M_bind at 1, try_catch, lift.
  destruct (bcrypt_compare _ _) as [[]|e]; [|done|done].
  unfold assertActive. rewrite !bind_throw_if. cbn [negb]. by destruct (u_isActive u).
Qed.

(** A sign-in after that is useless: the access token of a login carries no
    token version, so for a user whose version was ever bumped, every request with
    a freshly issued token is rejected as revoked. *)
Theorem login_after_bump_rejected dto d r d' : jwt_roundtrip →
  login dto d = (Ok r, d') → u_tokenVersion (ar_user r) ≠ 0 →
  authenticate (ar_accessToken r) d' = (Err (Unauthorized "Token has been revoked"), d').
Proof.
  intros Hjwt. rewrite login_run. destruct (head _) as [u|]; [|done].
  destruct (bcrypt_compare _ _) as [[]|]; [|done..].
  destruct (u_isActive u) eqn:Hact; [|done]. intros [= <- <-]. cbn. intros Hv.
  unfold authenticate. rewrite Hjwt, bind_require. unfold validate, find_user_by_id.
  rewrite bind_gets. cbn -[Z.eqb]. rewrite lookup_insert_eq, bind_require, !bind_throw_if.
  cbn -[Z.eqb]. rewrite Hact. cbn [negb]. by rewrite (proj2 (Z.eqb_neq _ _)) by congruence.
Qed.

(** Login tells nothing apart: an unknown address, a wrong password and a hash
    that cannot be compared get the same answer, whether an account is inactive is
    told only to who knows its password, and nothing is written; whoever is let in
    has given the right password of an active account with exactly that address. *)
Theorem login_guarded dto d :
  match login dto d with
  | (Ok r, d') => ∃ k u, a_users d !! k = Some u ∧ u_email u = li_email dto ∧
      u_isActive u = true ∧ bcrypt_compare (li_password dto) (u_passwordHash u) = Ok true ∧
      a_users d' = <[u_id u := u <| u_lastLoginAt := Some (a_now d) |>]> (a_users d)
  | (Err e, d') => d' = d ∧
      (e = invalidCredentials ∨
       e = Unauthorized INACTIVE_USER_MESSAGE ∧ ∃ k u, a_users d !! k = Some u ∧
         u_email u = li_email dto ∧ u_isActive u = false ∧
         bcrypt_compare (li_password dto) (u_passwordHash u) = Ok true)
  end.
Proof.
  rewrite login_run. destruct (head _) as [u|] eqn:Hu; [|by auto].
  apply head_Some_elem_of in Hu.
  rewrite list_elem_of_filter, list_elem_of_fmap, Is_true_true in Hu.
  destruct Hu as (He & [k u'] & -> & Hk%elem_of_map_to_list). bool_prop. cbn in *.
  destruct (bcrypt_compare _ _) as [[]|] eqn:Hc; [|by auto..].
  destruct (u_isActive u') eqn:Hact; cbn; eauto 12.
Qed.

(** A verification link works once: consuming it succeeds only for a stored,
    unused, unexpired token of an existing user, whose address is verified from
    then on; and the same link is refused afterwards. *)
Theorem verification_single_use token d u d' :
  (∀ h t, a_emailTokens d !! h = Some t → mt_tokenHash t = h) → auth_wf d →
  consumeVerification token d = (Ok u, d') →
  (∃ t, a_emailTokens d !! sha256 token = Some t ∧ mt_usedAt t = None ∧ a_now d < mt_expiresAt t ∧
     ∃ row, a_users d' !! mt_userId t = Some row ∧ u_emailVerifiedAt row ≠ None) ∧
  consumeVerification token d' =
    (Err (BadRequest "Verification token has already been used"), d').
Proof.
  intros Hh [_ Hids]. unfold consumeVerification, date_now, find_user_by_id.
  rewrite bind_throw_if. destruct (nonempty token) eqn:Hne; [|done]. cbn [negb].
  rewrite bind_gets, bind_require. destruct (a_emailTokens d !! sha256 token) as [t|] eqn:Ht; [|done].
  rewrite bind_throw_if. destruct (bool_decide _) eqn:Hused; [done|]. rewrite bind_gets, bind_throw_if.
  destruct (mt_expiresAt t <=? a_now d) eqn:Hexp; [done|]. rewrite bind_gets, bind_require.
  destruct (a_users d !! mt_userId t) as [u0|] eqn:Hu; [|done]. rewrite bind_modify. bool_prop.
  assert (mt_usedAt t = None) as Hnone by (destruct (mt_usedAt t); [by destruct Hused|done]).
  intros Hrun.
  assert (a_emailTokens d' !! sha256 token = Some (t <| mt_usedAt := Some (a_now d) |>) ∧
          ∃ row, a_users d' !! mt_userId t = Some row ∧ u_emailVerifiedAt row ≠ None) as [Htok Hrow].
  { destruct (u_emailVerifiedAt u0) eqn:Hv.
    - injection Hrun as <- <-. cbn. rewrite (Hh _ _ Ht), lookup_insert_eq, Hu.
      split; [done|]. exists u0. by rewrite Hv.
    - unfold save_account in Hrun. rewrite bind_modify in Hrun. injection Hrun as <- <-. cbn.
      rewrite (Hh _ _ Ht), (Hids _ _ Hu), !lookup_insert_eq. split; [done|]. by eexists. }
  split; [eauto 10|].
  rewrite bind_throw_if. cbn [negb]. rewrite bind_gets, Htok, bind_require, bind_throw_if.
  by rewrite bool_decide_true.
Qed.

(** A password can never be reset: when the query by an object finds no row,
    as no key equals one, [resetPassword] fails whatever it is given, changes no
    account, and if the token was good it is used up. *)
Theorem resetPassword_never_succeeds token password d :
  (∀ u us, findByObject u us = Ok None ∨ ∃ e, findByObject u us = Err e) →
  (∀ h t, a_resetTokens d !! h = Some t → mt_tokenHash t = h) →
  ∃ e d', resetPassword token password d = (Err e, d') ∧ a_users d' = a_users d ∧
    ∀ u d1, consumeReset token d = (Ok u, d1) → d' = d1 ∧
      mt_usedAt <$> a_resetTokens d' !! sha256 token = Some (Some (a_now d)).
Proof.
  intros Hobj Hh. unfold resetPassword.
  assert (∀ r d1, consumeReset token d = (r, d1) → a_users d1 = a_users d ∧
    ∀ u, r = Ok u → mt_usedAt <$> a_resetTokens d1 !! sha256 token = Some (Some (a_now d))) as Hcons.
  { intros r d1. unfold consumeReset, date_now, find_user_by_id. rewrite bind_throw_if.
    destruct (negb _); [by intros [= <- <-]|].
    rewrite bind_gets, bind_require. destruct (a_resetTokens d !! sha256 token) as [t|] eqn:Ht;
      [|by intros [= <- <-]].
    rewrite bind_throw_if. destruct (bool_decide _); [by intros [= <- <-]|].
    rewrite bind_gets, bind_throw_if. destruct (_ <=? _); [by intros [= <- <-]|].
    rewrite bind_modify, bind_gets. cbn. rewrite (Hh _ _ Ht).
    destruct (a_users d !! mt_userId t); intros [= <- <-]; cbn; by rewrite lookup_insert_eq. }
  destruct (consumeReset token d) as [[u|e] d1] eqn:Hc; destruct (Hcons _ _ eq_refl) as [Hus Hused].
  - rewrite (bind_run _ _ _ _ _ Hc), bind_gets.
    destruct (Hobj u (a_users d1)) as [Ho|[e Ho]]; rewrite Ho.
    + eexists _, d1. split; [reflexivity|]. split; [done|]. intros u' d2 [= <- <-]. eauto.
    + eexists _, d1. split; [reflexivity|]. split; [done|]. intros u' d2 [= <- <-]. eauto.
  - rewrite (bind_run_err _ _ _ _ _ Hc). eexists _, d1. split; [reflexivity|]. split; [done|].
    by intros u' d2 [= ].
Qed.

(** What an exchange answers, when the hash it will draw is not taken. *)
Lemma refresh_answer token context d t :
  a_refresh d !! hashRefreshToken token = Some t →
  a_refresh d !! hashRefreshToken (randomHex 40 (a_nonce d)) = None →
  (refresh token context d).1 =
  if bool_decide (rt_revokedAt t ≠ None) || (rt_expiresAt t <? a_now d) then Err invalidRefresh else
  match a_users d !! rt_userId t with
  | None => Err invalidRefresh
  | Some u =>
      if negb (u_isActive u) then Err invalidRefresh
      else if bool_decide (rt_tokenHash t = hashRefreshToken (randomHex 40 (a_nonce d)))
      then Err (PlainError "QueryFailedError" "duplicate key")
      else Ok (mkPair (jwt_sign (mkPayload (u_id u) (u_email u) (u_username u) (u_role u)
             (Some (u_tokenVersion u)))) (randomHex 40 (a_nonce d)))
  end.
Proof.
  intros Ht Hfresh. unfold refresh, date_now, find_user_by_id.
  rewrite !bind_gets, bind_require, Ht, bind_throw_if. destruct (_ || _); [done|].
  rewrite bind_gets, bind_require. destruct (a_users d !! _) as [u|]; [|done].
  rewrite bind_throw_if. destruct (negb _); [done|]. rewrite bind_modify.
  unfold issueTokenPair, draw, date_now.
  rewrite !bind_gets, !bind_assoc, !bind_gets, !bind_assoc, !bind_modify, !bind_ret, !bind_gets.
  rewrite bind_throw_if. cbn.
  destruct (decide (rt_tokenHash t = hashRefreshToken (randomHex 40 (a_nonce d)))) as [He|Hne].
  - by rewrite He, lookup_insert_eq, !bool_decide_true.
  - rewrite lookup_insert_ne, Hfresh by done. by rewrite !bool_decide_false by auto.
Qed.

(** The nightly purge goes unnoticed: every exchange of a refresh token answers
    as it would have without the purge, and every live session is still there. *)
Theorem purge_unnoticed token context userId d :
  a_refresh d !! hashRefreshToken (randomHex 40 (a_nonce d)) = None →
  ∃ n d', purgeDeadSessions d = (Ok n, d') ∧
    (refresh token context d').1 = (refresh token context d).1 ∧
    (∀ h t, a_refresh d !! h = Some t → live userId (a_now d) t = true →
       a_refresh d' !! h = Some t).
Proof.
  intros Hfresh. eexists _, _. split; [reflexivity|].
  set (d' := d <| a_refresh := filter (λ kt, dead (a_now d) kt.2 = false) (a_refresh d) |>).
  assert (∀ h t, a_refresh d' !! h = Some t ↔ a_refresh d !! h = Some t ∧ dead (a_now d) t = false) as Hd'.
  { intros h t. unfold d'. cbn. by rewrite map_lookup_filter_Some. }
  split.
  - destruct (a_refresh d !! hashRefreshToken token) as [t|] eqn:Ht.
    2:{ assert (a_refresh d' !! hashRefreshToken token = None) as Ht'.
        { destruct (a_refresh d' !! _) as [t|] eqn:E; [|done]. apply Hd' in E as [E _]. congruence. }
        rewrite !refresh_refused; [done|..]; unfold refused_refresh; by rewrite ?Ht, ?Ht'. }
    destruct (dead (a_now d) t) eqn:Hdead.
    + assert (a_refresh d' !! hashRefreshToken token = None) as Ht'.
      { destruct (a_refresh d' !! _) as [t'|] eqn:E; [|done]. apply Hd' in E as [E E'].
        rewrite Ht in E. injection E as ->. congruence. }
      rewrite !refresh_refused; [done|..]; unfold refused_refresh; rewrite ?Ht, ?Ht'; [|done].
      unfold dead in Hdead. apply orb_true_iff in Hdead as [H|H]; bool_prop; [by right|].
      left. by destruct (rt_revokedAt t).
    + assert (a_refresh d' !! hashRefreshToken token = Some t) as Ht' by by apply Hd'.
      assert (a_refresh d' !! hashRefreshToken (randomHex 40 (a_nonce d')) = None) as Hfresh'.
      { apply eq_None_not_Some. intros [t0 [E _]%Hd'].
        change (a_nonce d') with (a_nonce d) in E. by rewrite Hfresh in E. }
      by rewrite (refresh_answer _ _ _ _ Ht Hfresh), (refresh_answer _ _ _ _ Ht' Hfresh').
  - intros h t Ht Hlive. apply Hd'. split; [done|]. unfold live in Hlive. unfold dead.
    apply andb_true_iff in Hlive as [[_ Hr]%andb_true_iff Hx]. bool_prop. rewrite Hr.
    apply orb_false_iff. split; [|done]. apply Z.ltb_ge. lia.
Qed.
End auth_properties.

(** ** Witnesses: transparent stand-ins for the third-party code *)

Definition ex_encode (p : JwtPayload) : string * string * string * bool * option Z :=
  (sub p, p_email p, p_username p, bool_decide (p_role p = Admin), p_tokenVersion p).
Definition ex_decode (t : string * string * string * bool * option Z) : JwtPayload :=
  let '(s, e, u, a, v) := t in mkPayload s e u (if (a : bool) then Admin else UserRole) v.
#[local] Instance ex_crypto : Crypto := {|
  sha256 s := "#" +:+ s;
  bcrypt_hash p _ := Ok ("$" +:+ p);
  bcrypt_compare p h := Ok (h == ("$" +:+ p));
  randomHex _ n := show (Z.of_nat n);
  uuid n := "u" +:+ show (Z.of_nat n);
  jwt_sign p := show (Zpos (encode (ex_encode p)));
  jwt_verify s := ex_decode <$> decode (Z.to_pos (BigInt s));
  isIP _ := 0%nat;
  deliver _ _ := Ok tt;
  findByObject _ _ := Err (PlainError "QueryFailedError" "invalid input syntax for type uuid");
|}.

Lemma ex_jwt : jwt_roundtrip.
Proof.
  intros p. unfold jwt_verify, jwt_sign, ex_crypto.
  destruct (show_spec (Zpos (encode (ex_encode p)))) as [_ ->].
  rewrite Pos2Z.id, decode_encode. by destruct p as [? ? ? [] ?].
Qed.

(** One user, whose tokens were revoked once, with a session and two mailed links. *)
Definition ex_member : User := new_user "a" "a@x" "ada" "$pw" <| u_tokenVersion := 1 |>.
Definition ex_auth : AuthDb :=
  mkAuthDb (<["a" := ex_member]> ∅)
    (<["#old" := mkRefresh "r" "a" "#old" 100 None None None None None 0]> ∅)
    (<["#mail" := mkMailToken "a" "#mail" 100 None]> ∅)
    (<["#reset" := mkMailToken "a" "#reset" 100 None]> ∅) 50 0.

Lemma ex_auth_wf : auth_wf ex_auth.
Proof.
  constructor; cbn.
  - intros h t. cbn. by intros [[<- <-]|[_ ?]]%lookup_insert_Some.
  - intros h t. cbn. by intros [[<- <-]|[_ ?]]%lookup_insert_Some.
Qed.

Lemma ex_draws_fresh : draws_fresh ex_auth.
Proof.
  intros n _. split.
  - cbn. rewrite lookup_insert_ne; [apply lookup_empty|]. intros [= H].
    pose proof (proj1 (show_spec (Z.of_nat n))) as Hd.
    change ("old" = show (Z.of_nat n)) in H. by rewrite <-H in Hd.
  - intros m H. cbn in H. injection H as H. apply (f_equal BigInt) in H.
    change (BigInt (show (Z.of_nat m)) = BigInt (show (Z.of_nat n))) in H.
    rewrite !(proj2 (show_spec _)) in H. lia.
Qed.

Lemma refresh_rotates_witness :
  ∃ pair d', refresh "old" (mkClient None None None) ex_auth = (Ok pair, d') ∧
    let later := foldl (flip run_request) d' [Purge; Login (mkLogin "a@x" "pw"); Refresh "old" (mkClient None None None)] in
    refresh "old" (mkClient None None None) later = (Err invalidRefresh, later).
Proof.
  destruct (refresh "old" (mkClient None None None) ex_auth) as [[pair|e] d'] eqn:E;
    [|vm_compute in E; discriminate].
  exists pair, d'. split; [reflexivity|].
  exact (proj1 (refresh_rotates "old" _ ex_auth pair d' ex_auth_wf ex_draws_fresh E) _ _).
Defined.

Lemma logoutAll_signs_out_witness :
  ∃ d', logoutAll "a" ex_auth = (Ok tt, d') ∧
    refresh "old" (mkClient None None None) d' = (Err invalidRefresh, d').
Proof.
  destruct (logoutAll_signs_out ex_member ex_auth (mkChange "pw" "new") ex_auth_wf eq_refl)
    as [(d' & H1 & H2) _].
  exists d'. split; [exact H1|].
  exact (proj2 H2 "old" (mkRefresh "r" "a" "#old" 100 None None None None None 0) _ eq_refl eq_refl).
Defined.

Lemma login_after_bump_rejected_witness :
  ∃ r d', login (mkLogin "a@x" "pw") ex_auth = (Ok r, d') ∧
    authenticate (ar_accessToken r) d' = (Err (Unauthorized "Token has been revoked"), d').
Proof.
  destruct (login (mkLogin "a@x" "pw") ex_auth) as [[r|e] d'] eqn:E; [|vm_compute in E; discriminate].
  exists r, d'. split; [reflexivity|].
  apply (login_after_bump_rejected (mkLogin "a@x" "pw") ex_auth r d' ex_jwt E).
  vm_compute in E. injection E as <- _. vm_compute. discriminate.
Defined.

Lemma verification_single_use_witness :
  ∃ u d', consumeVerification "mail" ex_auth = (Ok u, d') ∧
    consumeVerification "mail" d' =
      (Err (BadRequest "Verification token has already been used"), d').
Proof.
  destruct (consumeVerification "mail" ex_auth) as [[u|e] d'] eqn:E; [|vm_compute in E; discriminate].
  exists u, d'. split; [reflexivity|].
  refine (proj2 (verification_single_use "mail" ex_auth u d' _ ex_auth_wf E)).
  intros h t. cbn. by intros [[<- <-]|[_ ?]]%lookup_insert_Some.
Defined.

Lemma resetPassword_never_succeeds_witness :
  ∃ e d', resetPassword "reset" "newpw" ex_auth = (Err e, d') ∧ a_users d' = a_users ex_auth.
Proof.
  destruct (resetPassword_never_succeeds "reset" "newpw" ex_auth) as (e & d' & H1 & H2 & _).
  - intros u us. right. eexists. reflexivity.
  - intros h t. cbn. by intros [[<- <-]|[_ ?]]%lookup_insert_Some.
  - exists e, d'. split; [exact H1|exact H2].
Defined.

Lemma purge_unnoticed_witness :
  ∃ n d', purgeDeadSessions (ex_auth <| a_now := 200 |>) = (Ok n, d') ∧
    (refresh "old" (mkClient None None None) d').1 = Err invalidRefresh.
Proof.
  destruct (purge_unnoticed "old" (mkClient None None None) "a" (ex_auth <| a_now := 200 |>))
    as (n & d' & H1 & H2 & _); [vm_compute; reflexivity|].
  exists n, d'. split; [exact H1|]. rewrite H2. vm_compute. reflexivity.
Defined.
