(* ===== verification/Matching.v ===== *)
(** * Matching a guess with an answer (src/src/game)

    The normaliser and matcher of answer-matching.ts, and the token and edit
    distance measures of guess-matcher.ts.  Text is a list of UTF-16 code units,
    as JavaScript strings are. *)

From S2P Require Import Prelude.
From Stdlib Require Import Bool.

Definition text := list Z.

(** A text from a literal. *)
Definition ascii_text (s : string) : text := (λ c, Z.of_nat (Ascii.nat_of_ascii c)) <$> String.list_ascii_of_string s.

(** ** Unicode tables: [normalize('NFKD')] and [toLowerCase] *)
Class Unicode := {
  nfkd : text → text;
  toLowerCase : text → text;
}.

(** ** Characters *)

Definition between (lo hi c : Z) : bool := (lo <=? c) && (c <=? hi).
(** [\s] *)
Definition is_white (c : Z) : bool :=
  between 9 13 c || (c =? 32) || (c =? 160) || (c =? 5760) || between 8192 8202 c
  || (c =? 8232) || (c =? 8233) || (c =? 8239) || (c =? 8287) || (c =? 12288) || (c =? 65279).
(** [[a-z0-9]] *)
Definition is_alnum (c : Z) : bool := between 97 122 c || between 48 57 c.
(** [\w], for [\b] *)
Definition is_word (c : Z) : bool := is_alnum c || between 65 90 c || (c =? 95).
(** What [.] does not match. *)
Definition is_newline (c : Z) : bool := (c =? 10) || (c =? 13) || (c =? 8232) || (c =? 8233).
(** [[\u0300-\u036f]] *)
Definition is_diacritic (c : Z) : bool := between 768 879 c.

Definition space : Z := 32.

(** ** The replacements of [normalizeAnswer], one by one *)

Definition strip_diacritics (t : text) : text := filter (λ c, is_diacritic c = false) t.

(** [.replace(/&/g, ' and ')] *)
Definition spell_and (t : text) : text :=
  t ≫= λ c, if c =? 38 then ascii_text " and " else [c].

Definition starts_with (w t : text) : bool := bool_decide (take (length w) t = w).
(** No word character at the head. *)
Definition word_ends (t : text) : bool := match t with c :: _ => negb (is_word c) | [] => true end.
Definition feat_words : list text := [ascii_text "feat"; ascii_text "ft"; ascii_text "featuring"].

(** [/\b(feat|ft|featuring)\b\.?.*$/] at the head of [t]: one of the words, a word
    boundary, and no line terminator up to the end. *)
Definition feat_here (t : text) : bool :=
  existsb (λ w, starts_with w t && word_ends (drop (length w) t)
                && forallb (λ c, negb (is_newline c)) (drop (length w) t)) feat_words.

(** [.replace(/\b(feat|ft|featuring)\b\.?.*$/g, ' ')]; [boundary] says that no word
    character came before. *)
Fixpoint strip_feat (boundary : bool) (t : text) : text :=
  if boundary && feat_here t then [space]
  else match t with
       | [] => []
       | c :: t' => c :: strip_feat (negb (is_word c)) t'
       end.

(** [.replace(/[^a-z0-9\s]/g, ' ')] *)
Definition strip_punctuation (t : text) : text :=
  (λ c, if is_alnum c || is_white c then c else space) <$> t.

(** [.replace(/\s+/g, ' ')]; [seen] says that the run was already replaced. *)
Fixpoint collapse (seen : bool) (t : text) : text :=
  match t with
  | [] => []
  | c :: t' => if is_white c then (if seen then [] else [space]) ++ collapse true t'
               else c :: collapse false t'
  end.

Fixpoint drop_white (t : text) : text :=
  match t with
  | c :: t' => if is_white c then drop_white t' else t
  | [] => []
  end.
(** [.trim()] *)
Definition trim_text (t : text) : text := reverse (drop_white (reverse (drop_white t))).

(** [.replace(/^(the|a|an)\s+/, '')] *)
Definition strip_article (t : text) : text :=
  match List.find (λ w, starts_with w t &&
          match drop (length w) t with c :: _ => is_white c | [] => false end)
        [ascii_text "the"; ascii_text "a"; ascii_text "an"] with
  | Some w => drop_white (drop (length w) t)
  | None => t
  end.

Section matching.
Context `{Unicode}.

Definition normalizeAnswer (value : option text) : text :=
  match value with
  | None | Some [] => []
  | Some value =>
      let result := trim_text (collapse false (strip_punctuation (strip_feat true (spell_and
        (toLowerCase (strip_diacritics (nfkd value))))))) in
      trim_text (strip_article result)
  end.

Definition EXACT_MATCH_POINTS : Z := 100.
Definition PARTIAL_MATCH_POINTS : Z := 50.

Record MatchResult := mkMatch { isCorrect : bool; isExact : bool; points : Z }.

Definition matchAnswer (guess canonical : option text) (aliases : list text) : MatchResult :=
  let normalizedGuess := normalizeAnswer guess in
  if bool_decide (normalizedGuess = []) then mkMatch false false 0 else
  let normalizedCanonical := normalizeAnswer canonical in
  if negb (bool_decide (normalizedCanonical = []))
     && bool_decide (normalizedGuess = normalizedCanonical)
  then mkMatch true true EXACT_MATCH_POINTS
  else if existsb (λ alias, bool_decide (normalizeAnswer (Some alias) = normalizedGuess)) aliases
  then mkMatch true true EXACT_MATCH_POINTS
  else mkMatch false false 0.

(** The second [matchGuess] of guess-matcher.ts, the one later declarations see. *)
Record GuessMatch := mkGuess { gm_isCorrect : bool; gm_isExactMatch : bool; gm_points : Z }.
Definition matchGuess (guess answer : text) (aliases : list text) : GuessMatch :=
  let result := matchAnswer (Some guess) (Some answer) aliases in
  mkGuess (isCorrect result) (isExact result) (points result).
End matching.

(** ** guess-matcher.ts: similarity of token sets, as exact fractions *)

Definition STOP_WORDS : list text :=
  ascii_text <$> ["the"; "a"; "an"; "of"; "and"; "or"; "to"; "in"; "on"; "for"; "with"; "love"].

(** [str.split(' ')] *)
Fixpoint split_spaces (t : text) : list text :=
  match t with
  | [] => [[]]
  | c :: t' =>
      if c =? space then [] :: split_spaces t'
      else match split_spaces t' with w :: ws => (c :: w) :: ws | [] => [[c]] end
  end.

(** [str.split(/\bfeat\b/)[0]] *)
Fixpoint before_feat (boundary : bool) (t : text) : text :=
  if boundary && starts_with (ascii_text "feat") t && word_ends (drop 4 t) then []
  else match t with [] => [] | c :: t' => c :: before_feat (negb (is_word c)) t' end.

Definition tokenize (str : text) : list text :=
  filter (λ token, token ≠ [] ∧ token ∉ STOP_WORDS) (split_spaces (before_feat true str)).

(** Numerator and denominator; the denominator zero stands for the result 0. *)
Definition jaccard (a b : list text) : Z * Z :=
  let setA : gset text := list_to_set a in
  let setB : gset text := list_to_set b in
  (Z.of_nat (size (setA ∩ setB)), Z.of_nat (size (setA ∪ setB))).
Definition dice (a b : list text) : Z * Z :=
  let setA : gset text := list_to_set a in
  let setB : gset text := list_to_set b in
  (2 * Z.of_nat (size (setA ∩ setB)), Z.of_nat (size setA + size setB)).

(** ** Edit distance *)

Definition cell (dp : list (list Z)) (i j : nat) : Z := default 0 (dp !! i ≫= λ row, row !! j).
(** [dp[i][j] = v] *)
Definition set_cell (i j : nat) (v : Z) (dp : list (list Z)) : list (list Z) :=
  alter (λ row, <[j := v]> row) i dp.

Definition levenshtein_cell (a b : text) (i j : nat) (dp : list (list Z)) : list (list Z) :=
  let cost := if bool_decide (a !! (i - 1)%nat = b !! (j - 1)%nat) then 0 else 1 in
  set_cell i j (Z.min (Z.min (cell dp (i - 1) j + 1) (cell dp i (j - 1) + 1))
                      (cell dp (i - 1) (j - 1) + cost)) dp.

Definition levenshtein (a b : text) : Z :=
  let rows := S (length a) in
  let cols := S (length b) in
  let dp := replicate rows (replicate cols 0) in
  let dp := foldl (λ dp i, set_cell i 0 (Z.of_nat i) dp) dp (seq 0 rows) in
  let dp := foldl (λ dp j, set_cell 0 j (Z.of_nat j) dp) dp (seq 0 cols) in
  let dp := foldl (λ dp i, foldl (λ dp j, levenshtein_cell a b i j dp) dp (seq 1 (length b)))
              dp (seq 1 (length a)) in
  cell dp (length a) (length b).

(** An alignment of two texts, with the number of its edits: deletions, insertions
    and substitutions. *)
Inductive align : text → text → Z → Prop :=
  | align_nil : align [] [] 0
  | align_delete x a b n : align a b n → align (x :: a) b (n + 1)
  | align_insert y a b n : align a b n → align a (y :: b) (n + 1)
  | align_both x y a b n : align a b n →
      align (x :: a) (y :: b) (n + if bool_decide (x = y) then 0 else 1).

Example levenshtein_ex : levenshtein (ascii_text "kitten") (ascii_text "sitting") = 3.
Proof. vm_compute. reflexivity. Qed.

(** ** The table holds the distances of the prefixes *)

(** The recurrence, on texts read from their ends. *)
Fixpoint edit (xs : text) : text → Z :=
  match xs with
  | [] => λ ys, Z.of_nat (length ys)
  | x :: xs' => fix go ys :=
      match ys with
      | [] => Z.of_nat (length xs)
      | y :: ys' => Z.min (Z.min (edit xs' ys + 1) (go ys' + 1))
                          (edit xs' ys' + if bool_decide (x = y) then 0 else 1)
      end
  end.

Lemma edit_nil_r xs : edit xs [] = Z.of_nat (length xs).
Proof. by destruct xs. Qed.

Lemma edit_cons x xs y ys :
  edit (x :: xs) (y :: ys) = Z.min (Z.min (edit xs (y :: ys) + 1) (edit (x :: xs) ys + 1))
    (edit xs ys + if bool_decide (x = y) then 0 else 1).
Proof. done. Qed.

Lemma align_eq a b n m : align a b n → n = m → align a b m.
Proof. by intros ? <-. Qed.

Lemma align_deletes xs : align xs [] (Z.of_nat (length xs)).
Proof.
  induction xs as [|x xs IH]; [constructor|]. eapply align_eq; [by apply align_delete|]. cbn. lia.
Qed.

Lemma align_inserts ys : align [] ys (Z.of_nat (length ys)).
Proof.
  induction ys as [|y ys IH]; [constructor|]. eapply align_eq; [by apply align_insert|]. cbn. lia.
Qed.

(** The recurrence is reached by an alignment, and no alignment beats it. *)
Lemma edit_align xs ys : align xs ys (edit xs ys).
Proof.
  revert ys. induction xs as [|x xs IHx]; intros ys; [apply align_inserts|].
  induction ys as [|y ys IHy]; [apply (align_deletes (x :: xs))|].
  rewrite edit_cons. destruct (Z.min_spec (Z.min (edit xs (y :: ys) + 1) (edit (x :: xs) ys + 1))
    (edit xs ys + if bool_decide (x = y) then 0 else 1)) as [[_ ->]|[_ ->]].
  - destruct (Z.min_spec (edit xs (y :: ys) + 1) (edit (x :: xs) ys + 1)) as [[_ ->]|[_ ->]].
    + by apply align_delete.
    + by apply align_insert.
  - by apply align_both.
Qed.

Lemma edit_le xs ys n : align xs ys n → edit xs ys ≤ n.
Proof.
  induction 1 as [|x a b n _ IH|y a b n _ IH|x y a b n _ IH]; [done| | |].
  - destruct b as [|y b]; [rewrite edit_nil_r in *; cbn [length]; lia|]. rewrite edit_cons. lia.
  - destruct a as [|x a]; [cbn [edit length] in *; lia|]. rewrite edit_cons. lia.
  - rewrite edit_cons. lia.
Qed.

Lemma align_delete_end x a b n : align a b n → align (a ++ [x]) b (n + 1).
Proof.
  induction 1 as [|x' a b n H IH|y a b n H IH|x' y a b n H IH]; cbn.
  - apply (align_delete x [] []). constructor.
  - by apply align_delete.
  - by apply align_insert.
  - eapply align_eq; [by apply align_both|]. lia.
Qed.

Lemma align_insert_end y a b n : align a b n → align a (b ++ [y]) (n + 1).
Proof.
  induction 1 as [|x' a b n H IH|y' a b n H IH|x' y' a b n H IH]; cbn.
  - apply (align_insert y [] []). constructor.
  - by apply align_delete.
  - by apply align_insert.
  - eapply align_eq; [by apply align_both|]. lia.
Qed.

Lemma align_both_end x y a b n : align a b n →
  align (a ++ [x]) (b ++ [y]) (n + if bool_decide (x = y) then 0 else 1).
Proof.
  induction 1 as [|x' a b n H IH|y' a b n H IH|x' y' a b n H IH]; cbn.
  - apply align_both. constructor.
  - eapply align_eq; [by apply align_delete|]. lia.
  - eapply align_eq; [by apply align_insert|]. lia.
  - eapply align_eq; [by apply align_both|]. lia.
Qed.

Lemma align_reverse a b n : align a b n → align (reverse a) (reverse b) n.
Proof.
  induction 1; rewrite ?reverse_cons.
  - constructor.
  - by apply align_delete_end.
  - by apply align_insert_end.
  - by apply align_both_end.
Qed.

(** Arithmetic on the sets of filled cells. *)
Ltac cell_lia := cbv beta in *; lia.

Section table.
Variables a b : text.
Local Abbreviation rows := (S (length a)).
Local Abbreviation cols := (S (length b)).

Definition shaped (dp : list (list Z)) : Prop :=
  length dp = rows ∧ ∀ i row, dp !! i = Some row → length row = cols.

Lemma cell_set i j v dp i' j' : shaped dp → (i < rows)%nat → (j < cols)%nat →
  cell (set_cell i j v dp) i' j' =
  if bool_decide (i = i' ∧ j = j') then v else cell dp i' j'.
Proof.
  intros [Hl Hr] Hi Hj. unfold cell, set_cell.
  destruct (lookup_lt_is_Some_2 dp i) as [row Hrow]; [lia|]. pose proof (Hr _ _ Hrow) as Hlen.
  destruct (decide (i = i')) as [<-|Hne].
  - rewrite list_lookup_alter_eq, Hrow. cbn. destruct (decide (j = j')) as [<-|Hnj].
    + rewrite list_lookup_insert_eq by lia. by rewrite bool_decide_true.
    + rewrite list_lookup_insert_ne by done. by rewrite bool_decide_false by naive_solver.
  - rewrite list_lookup_alter_ne by done. by rewrite bool_decide_false by naive_solver.
Qed.

Lemma shaped_set i j v dp : shaped dp → shaped (set_cell i j v dp).
Proof.
  intros [Hl Hr]. unfold set_cell. split; [by rewrite length_alter|].
  intros i' row. destruct (decide (i = i')) as [<-|Hne].
  - rewrite list_lookup_alter_eq. intros (row0 & H & ->)%fmap_Some.
    rewrite length_insert. by eapply Hr.
  - rewrite list_lookup_alter_ne by done. apply Hr.
Qed.

(** The distance of two prefixes. *)
Definition prefixes (i j : nat) : Z := edit (reverse (take i a)) (reverse (take j b)).

(** The cells in [done] hold the distances. *)
Definition filled (is_done : nat → nat → Prop) (dp : list (list Z)) : Prop :=
  shaped dp ∧ ∀ i j, (i < rows)%nat → (j < cols)%nat → is_done i j → cell dp i j = prefixes i j.

Lemma prefixes_0_l j : (j < cols)%nat → prefixes 0 j = Z.of_nat j.
Proof.
  intros H. unfold prefixes. rewrite take_0, reverse_nil. cbn [edit].
  rewrite length_reverse, length_take. lia.
Qed.

Lemma prefixes_0_r i : (i < rows)%nat → prefixes i 0 = Z.of_nat i.
Proof.
  intros H. unfold prefixes. rewrite take_0, reverse_nil, edit_nil_r, length_reverse, length_take. lia.
Qed.

Lemma prefixes_S i j : (S i < rows)%nat → (S j < cols)%nat →
  prefixes (S i) (S j) = Z.min (Z.min (prefixes i (S j) + 1) (prefixes (S i) j + 1))
    (prefixes i j + if bool_decide (a !! i = b !! j) then 0 else 1).
Proof.
  intros Hi Hj. unfold prefixes.
  destruct (lookup_lt_is_Some_2 a i) as [x Hx]; [lia|].
  destruct (lookup_lt_is_Some_2 b j) as [y Hy]; [lia|].
  assert (bool_decide (a !! i = b !! j) = bool_decide (Some x = Some y)) as ->.
  { apply bool_decide_ext. by rewrite <-Hx, <-Hy. }
  rewrite (take_S_r _ _ _ Hx), (take_S_r _ _ _ Hy), !reverse_snoc, edit_cons.
  rewrite (bool_decide_ext (x = y) (Some x = Some y)) by naive_solver. done.
Qed.

(** Running a loop whose steps fill one more cell each. *)
Lemma loop_filled (P : nat → list (list Z) → Prop) (f : list (list Z) → nat → list (list Z)) n k dp :
  P k dp → (∀ i dp, (k ≤ i < k + n)%nat → P i dp → P (S i) (f dp i)) →
  P (k + n)%nat (foldl f dp (seq k n)).
Proof.
  revert k dp. induction n as [|n IH]; intros k dp H0 Hf; cbn.
  - by rewrite Nat.add_0_r.
  - rewrite <-Nat.add_succ_comm. apply IH; [apply Hf; [lia|done]|].
    intros i dp' Hi. apply Hf. lia.
Qed.

Lemma set_filled i j v dp (D D' : nat → nat → Prop) : filled D dp → (i < rows)%nat → (j < cols)%nat →
  v = prefixes i j → (∀ i' j', D' i' j' → D i' j' ∨ (i' = i ∧ j' = j)) →
  filled D' (set_cell i j v dp).
Proof.
  intros [Hs Hc] Hi Hj Hv HD. split; [by apply shaped_set|].
  intros i' j' Hi' Hj' Hd. rewrite cell_set by done.
  case_bool_decide as He; [destruct He as [<- <-]; done|].
  destruct (HD _ _ Hd) as [?|[-> ->]]; [by apply Hc|by destruct He].
Qed.

Lemma cell_filled i j dp : filled (λ i' j', i' = 0 ∨ j' = 0 ∨ i' < S i ∨ (i' = S i ∧ j' < S j))%nat dp →
  (S i < rows)%nat → (S j < cols)%nat →
  filled (λ i' j', i' = 0 ∨ j' = 0 ∨ i' < S i ∨ (i' = S i ∧ j' < S (S j)))%nat
    (levenshtein_cell a b (S i) (S j) dp).
Proof.
  intros H Hi Hj. pose proof H as [_ Hc].
  eapply set_filled; [exact H|done|done| |intros; cell_lia].
  rewrite !Nat.sub_succ, !Nat.sub_0_r, prefixes_S by done.
  rewrite !Hc by cell_lia. done.
Qed.

Lemma levenshtein_prefixes : levenshtein a b = prefixes (length a) (length b).
Proof.
  unfold levenshtein. set (dp0 := replicate rows _).
  assert (filled (λ _ _, False) dp0) as H0.
  { split; [|done]. split; [apply length_replicate|].
    intros i row [-> _]%lookup_replicate. apply length_replicate. }
  set (dp1 := foldl _ dp0 _).
  assert (filled (λ i' j', j' = 0 ∧ i' < 0 + rows)%nat dp1) as H1.
  { apply (loop_filled (λ i, filled (λ i' j', j' = 0 ∧ i' < i)%nat)).
    - destruct H0 as [Hs _]. split; [done|intros; cell_lia].
    - intros i dp Hi H. eapply set_filled; [exact H|lia|lia|by rewrite prefixes_0_r by lia|intros; cell_lia]. }
  set (dp2 := foldl _ dp1 _).
  assert (filled (λ i' j', j' = 0 ∨ (i' = 0 ∧ j' < 0 + cols))%nat dp2) as H2.
  { apply (loop_filled (λ j, filled (λ i' j', j' = 0 ∨ (i' = 0 ∧ j' < j))%nat)).
    - destruct H1 as [Hs Hc]. split; [done|]. intros i j Hi Hj Hd. apply Hc; cell_lia.
    - intros j dp Hj H. eapply set_filled; [exact H|lia|lia|by rewrite prefixes_0_l by lia|intros; cell_lia]. }
  set (dp3 := foldl _ dp2 _).
  assert (filled (λ i' j', i' = 0 ∨ j' = 0 ∨ i' < 1 + length a)%nat dp3) as [_ H3].
  { apply (loop_filled (λ i, filled (λ i' j', i' = 0 ∨ j' = 0 ∨ i' < i)%nat)).
    - destruct H2 as [Hs Hc]. split; [done|]. intros i j Hi Hj Hd. apply Hc; cell_lia.
    - intros [|i] dp Hi H; [lia|].
      assert (filled (λ i' j', i' = 0 ∨ j' = 0 ∨ i' < S i ∨ (i' = S i ∧ j' < 1 + length b))%nat
        (foldl (λ dp j, levenshtein_cell a b (S i) j dp) dp (seq 1 (length b)))) as [Hs Hc].
      { apply (loop_filled (λ j, filled (λ i' j', i' = 0 ∨ j' = 0 ∨ i' < S i ∨ (i' = S i ∧ j' < j))%nat)).
        - destruct H as [Hs Hc]. split; [done|]. intros i' j' Hi' Hj' Hd. apply Hc; cell_lia.
        - intros [|j] dp' Hj H'; [lia|]. apply cell_filled; [done|lia|lia]. }
      split; [done|]. intros i' j' Hi' Hj' Hd. apply Hc; cell_lia. }
  apply H3; cell_lia.
Qed.
End table.

(** ** Properties *)

(** C27. [levenshtein] is the edit distance: its table loop returns the number of
    edits of an alignment of the two strings, and no alignment has fewer. *)
Theorem levenshtein_minimal a b :
  align a b (levenshtein a b) ∧ ∀ n, align a b n → levenshtein a b ≤ n.
Proof.
  rewrite levenshtein_prefixes. unfold prefixes. rewrite !take_ge by done. split.
  - pose proof (align_reverse _ _ _ (edit_align (reverse a) (reverse b))) as H.
    by rewrite !reverse_involutive in H.
  - intros n H. by apply edit_le, align_reverse.
Qed.

(** A guess is right exactly when something of it is left after normalising and
    that is what is left of the answer or of one of the aliases; every right guess
    is an exact match and earns the full points, every other one none: the partial
    points are never awarded. *)
Theorem matchAnswer_spec `{Unicode} guess canonical aliases :
  let result := matchAnswer guess canonical aliases in
  (isCorrect result = true ↔ normalizeAnswer guess ≠ [] ∧
     (normalizeAnswer canonical = normalizeAnswer guess ∨
      ∃ alias, alias ∈ aliases ∧ normalizeAnswer (Some alias) = normalizeAnswer guess)) ∧
  isExact result = isCorrect result ∧
  points result = (if isCorrect result then EXACT_MATCH_POINTS else 0).
Proof.
  unfold matchAnswer. case_bool_decide as Hg; [by naive_solver|].
  destruct (negb _ && _) eqn:Hc; cbn.
  - apply andb_true_iff in Hc as [_ Hc]. bool_prop. naive_solver.
  - assert (normalizeAnswer canonical ≠ normalizeAnswer guess) as Hne.
    { intros He. apply andb_false_iff in Hc as [Hc|Hc]; bool_prop; [|congruence].
      apply Hg. by rewrite <-He. }
    destruct (existsb _ _) eqn:Ha; cbn; (split; [|done]).
    + apply existsb_exists in Ha as (alias & Hin%list_elem_of_In & Ha). bool_prop.
      split; [|done]. intros _. split; [done|]. right. eauto.
    + split; [done|]. intros [_ [?|(alias & Hin & He)]]; [done|].
      apply not_true_iff_false in Ha. destruct Ha. apply existsb_exists. exists alias.
      split; [by apply list_elem_of_In|]. by apply bool_decide_eq_true.
Qed.
