(* ===== verification/DailySeed.v ===== *)
(** * The seeded daily draw (src/src/challenges/daily-seed.util.ts)

    The FNV-1a hash, the mulberry32 generator and the partial Fisher-Yates shuffle
    behind the daily challenge, with JavaScript's 32-bit operators and the rounding
    of its floating-point product written out, and the name of a UTC day. *)

From S2P Require Import Prelude Decimal.
From stdpp Require Import sorting.
From Stdlib Require Import ZifyBool.

#[local] Open Scope Z_scope.

(** ** JavaScript's 32-bit operators on integral numbers *)

Definition ToUint32 (z : Z) : Z := z mod 2 ^ 32.
Definition ToInt32 (z : Z) : Z :=
  let u := ToUint32 z in if u <? 2 ^ 31 then u else u - 2 ^ 32.
(** [a ^ b], [a | b], [a >>> k] and [Math.imul(a, b)] *)
Definition bit_xor (a b : Z) : Z := Z.lxor (ToInt32 a) (ToInt32 b).
Definition bit_or (a b : Z) : Z := Z.lor (ToInt32 a) (ToInt32 b).
Definition shift_right (a k : Z) : Z := Z.shiftr (ToUint32 a) k.
Definition imul (a b : Z) : Z := ToInt32 (ToUint32 a * ToUint32 b).

(** A binary64 product of integers, scaled by a power of two: to the nearest of the
    numbers of 53 significant bits, ties to even. *)
Definition round53 (m : Z) : Z :=
  let e := Z.log2 m - 52 in
  if e <=? 0 then m
  else
    let q := m / 2 ^ e in
    let r := m mod 2 ^ e in
    let up := (2 ^ (e - 1) <? r) || ((2 ^ (e - 1) =? r) && Z.odd q) in
    (q + if up then 1 else 0) * 2 ^ e.

(** ** The hash and the generator *)

(** The UTF-16 code units of a literal or of a string of the model. *)
Definition code_units (s : string) : list Z :=
  (λ c, Z.of_nat (Ascii.nat_of_ascii c)) <$> String.list_ascii_of_string s.

Definition hash_step (hash code : Z) : Z := imul (bit_xor hash code) 16777619.

(** The seed is a string, as the list of its UTF-16 code units. *)
Definition hashSeed (seed : list Z) : Z :=
  shift_right (foldl hash_step 2166136261 seed) 0.

(** One call of the generator: the numerator of the float over 2^32, and the state
    the closure keeps. *)
Definition random (state : Z) : Z * Z :=
  let state := shift_right (state + 1831565813) 0 in
  let t := state in
  let t := imul (bit_xor t (shift_right t 15)) (bit_or t 1) in
  let t := bit_xor t (t + imul (bit_xor t (shift_right t 7)) (bit_or t 61)) in
  (shift_right (bit_xor t (shift_right t 14)) 0, state).

(** [seededRandom(seed)], the initial state. *)
Definition seededRandom (seed : Z) : Z := shift_right seed 0.

(** [Math.floor(random() * k)] *)
Definition random_below (numerator k : Z) : Z := round53 (numerator * k) / 2 ^ 32.

(** ** The draw *)

(** [[pool[i], pool[j]] = [pool[j], pool[i]]]; [None] when an index is out of range,
    where JavaScript would write [undefined]. *)
Definition swap (i j : nat) (pool : list Z) : option (list Z) :=
  x ← pool !! j; y ← pool !! i; Some (<[j := y]> (<[i := x]> pool)).

Definition shuffle_step (acc : option (list Z * Z)) (i : nat) : option (list Z * Z) :=
  '(pool, state) ← acc;
  let '(numerator, state) := random state in
  let j := Z.of_nat i + random_below numerator (Z.of_nat (length pool) - Z.of_nat i) in
  pool ← swap i (Z.to_nat j) pool;
  Some (pool, state).

(** [pool.slice(0, take)] *)
Definition slice_to (n : Z) (pool : list Z) : list Z :=
  if n <? 0 then take (Z.to_nat (Z.of_nat (length pool) + n)) pool else take (Z.to_nat n) pool.

Definition pickDeterministic (ids : list Z) (count : Z) (seed : list Z) : option (list Z) :=
  let pool := merge_sort Z.le ids in
  let state := seededRandom (hashSeed seed) in
  let n := Z.min count (Z.of_nat (length pool)) in
  '(pool, _) ← foldl shuffle_step (Some (pool, state)) (seq 0 (Z.to_nat n));
  Some (slice_to n pool).

Definition dailySeed (day salt : list Z) : list Z := salt ++ [58] ++ day.

Definition pickDailyLyrics (ids : list Z) (count : Z) (day salt : list Z) : option (list Z) :=
  pickDeterministic ids count (dailySeed day salt).

(** ** The name of a day: [new Date(now).toISOString().slice(0, 10)] *)

(** Year, month and day of the month of a day counted from 1970-01-01, through years
    that start in March. *)
Definition civil (days : Z) : Z * Z * Z :=
  let z := days + 719468 in
  let era := z / 146097 in
  let doe := z mod 146097 in
  let yoe := (doe - doe / 1460 + doe / 36524 - doe / 146096) / 365 in
  let doy := doe - (365 * yoe + yoe / 4 - yoe / 100) in
  let mp := (5 * doy + 2) / 153 in
  let d := doy - (153 * mp + 2) / 5 + 1 in
  let m := if mp <? 10 then mp + 3 else mp - 9 in
  (yoe + era * 400 + (if m <=? 2 then 1 else 0), m, d).

(** The last [n] decimal digits of [z]. *)
Fixpoint pad (n : nat) (z : Z) : string :=
  match n with
  | O => ""
  | S n => pad n (z / 10) +:+ String (digit_char (z mod 10)) ""
  end.

Definition iso_date (days : Z) : string :=
  let '(y, m, d) := civil days in
  let year := if (0 <=? y) && (y <=? 9999) then pad 4 y
              else (if y <? 0 then "-" else "+") +:+ pad 6 (Z.abs y) in
  year +:+ "-" +:+ pad 2 m +:+ "-" +:+ pad 2 d.

Definition utcDay (now : Z) : string := String.substring 0 10 (iso_date (now / 86400000)).

Example hash_ex : hashSeed [97] = 3826002220 ∧ hashSeed [] = 2166136261.
Proof. split; reflexivity. Qed.
Example utcDay_ex : utcDay 1790467199000 = "2026-09-26" ∧ utcDay 1790467200000 = "2026-09-27"
  ∧ utcDay 951782400000 = "2000-02-29" ∧ utcDay 0 = "1970-01-01".
Proof. repeat split; reflexivity. Qed.

(** ** The product of a float stays below its integer factor *)

Lemma round53_bounds m : 0 ≤ m → 0 ≤ round53 m ∧ 2 ^ 53 * round53 m ≤ (2 ^ 53 + 1) * m.
Proof.
  intros Hm. unfold round53. destruct (Z.leb_spec (Z.log2 m - 52) 0) as [He|He]; [lia|].
  set (e := Z.log2 m - 52) in *.
  assert (2 ^ e = 2 * 2 ^ (e - 1)) as Hp.
  { rewrite <-Z.pow_succ_r by lia. f_equal. lia. }
  pose proof (Z.pow_pos_nonneg 2 (e - 1) ltac:(lia) ltac:(lia)) as Hpos.
  assert (2 ^ 52 * 2 ^ e ≤ m) as Hlog.
  { rewrite <-Z.pow_add_r by lia. replace (52 + e) with (Z.log2 m) by lia.
    apply Z.log2_spec. destruct (decide (m = 0)) as [->|]; [|lia]. subst e. cbn in He. lia. }
  pose proof (Z.div_mod m (2 ^ e) ltac:(lia)) as Hd.
  pose proof (Z.mod_pos_bound m (2 ^ e) ltac:(lia)) as Hr.
  pose proof (Z.div_pos m (2 ^ e) Hm ltac:(lia)) as Hq.
  destruct (_ || _) eqn:Hup.
  - assert (2 ^ (e - 1) ≤ m mod 2 ^ e) by lia. split; nia.
  - split; nia.
Qed.

Lemma random_below_bound n k : 0 ≤ n < 2 ^ 32 → 1 ≤ k → 0 ≤ random_below n k < k.
Proof.
  intros Hn Hk. unfold random_below. destruct (round53_bounds (n * k)) as [H0 H1]; [nia|]. split.
  - apply Z.div_pos; lia.
  - apply Z.div_lt_upper_bound; [lia|]. assert (n * k ≤ (2 ^ 32 - 1) * k) by nia. lia.
Qed.

Lemma ToUint32_bound z : 0 ≤ ToUint32 z < 2 ^ 32.
Proof. by apply Z.mod_pos_bound. Qed.

Lemma random_bound state : 0 ≤ (random state).1 < 2 ^ 32.
Proof. unfold random, shift_right at 1. rewrite Z.shiftr_0_r. apply ToUint32_bound. Qed.

(** ** The shuffle *)

#[local] Arguments random : simpl never.
#[local] Arguments random_below : simpl never.

Definition transpose (i j k : nat) : nat :=
  if decide (k = i) then j else if decide (k = j) then i else k.

#[local] Instance transpose_inj i j : Inj (=) (=) (transpose i j).
Proof. intros x y. unfold transpose. repeat case_decide; congruence. Qed.

Lemma swap_in_range i j pool : (i < length pool)%nat → (j < length pool)%nat →
  ∃ pool', swap i j pool = Some pool' ∧ pool' ≡ₚ pool.
Proof.
  intros Hi Hj. unfold swap.
  destruct (lookup_lt_is_Some_2 pool j Hj) as [x Hx], (lookup_lt_is_Some_2 pool i Hi) as [y Hy].
  rewrite Hx, Hy. cbn. eexists. split; [done|]. apply Permutation_inj.
  split; [by rewrite !length_insert|]. exists (transpose i j). split; [apply _|].
  intros k. unfold transpose. destruct (decide (j = k)) as [<-|Hjk].
  - rewrite list_lookup_insert_eq by (by rewrite length_insert).
    repeat case_decide; congruence.
  - rewrite list_lookup_insert_ne by done. destruct (decide (i = k)) as [<-|Hik].
    + rewrite list_lookup_insert_eq by done. by repeat case_decide.
    + rewrite list_lookup_insert_ne by done. by repeat case_decide.
Qed.

Lemma shuffle_permutes pool state n k : (k + n ≤ length pool)%nat →
  ∃ pool' state', foldl shuffle_step (Some (pool, state)) (seq k n) = Some (pool', state')
    ∧ pool' ≡ₚ pool.
Proof.
  revert pool state k. induction n as [|n IH]; intros pool state k Hk; [by eauto|].
  cbn [seq foldl]. unfold shuffle_step at 2. cbn.
  pose proof (random_bound state) as Hr. destruct (random state) as [num state1]. cbn in Hr |- *.
  pose proof (random_below_bound num (Z.of_nat (length pool) - Z.of_nat k) Hr ltac:(lia)) as Hb.
  destruct (swap_in_range k
    (Z.to_nat (Z.of_nat k + random_below num (Z.of_nat (length pool) - Z.of_nat k))) pool)
    as (pool1 & -> & Hp); [lia|lia|]. cbn.
  destruct (IH pool1 state1 (S k)) as (pool2 & state2 & -> & Hp2).
  { rewrite (Permutation_length Hp). lia. }
  exists pool2, state2. split; [done|]. by rewrite Hp2.
Qed.

Lemma merge_sort_perm l1 l2 : l1 ≡ₚ l2 → merge_sort Z.le l1 = merge_sort Z.le l2.
Proof.
  intros H. apply (StronglySorted_unique Z.le).
  - apply (StronglySorted_merge_sort _).
  - apply (StronglySorted_merge_sort _).
  - by rewrite !merge_sort_Permutation.
Qed.

(** ** The hash, on unsigned words *)

Lemma ToUint32_ToInt32 z : ToUint32 (ToInt32 z) = ToUint32 z.
Proof.
  unfold ToInt32. destruct (_ <? _); unfold ToUint32.
  - by rewrite Z.mod_mod.
  - rewrite Zminus_mod_idemp_l. symmetry. rewrite <-(Z_mod_plus_full (z - 2 ^ 32) 1).
    f_equal. lia.
Qed.

Lemma ToUint32_bit_xor a b : ToUint32 (bit_xor a b) = Z.lxor (ToUint32 a) (ToUint32 b).
Proof.
  rewrite <-(ToUint32_ToInt32 a), <-(ToUint32_ToInt32 b). unfold bit_xor, ToUint32.
  generalize (ToInt32 a), (ToInt32 b). intros x y. apply Z.bits_inj'. intros n Hn.
  rewrite Z.lxor_spec. destruct (decide (n < 32)).
  - by rewrite !Z.mod_pow2_bits_low, Z.lxor_spec by lia.
  - by rewrite !Z.mod_pow2_bits_high by lia.
Qed.

Lemma ToUint32_hash_step h c :
  ToUint32 (hash_step h c) = (Z.lxor (ToUint32 h) (ToUint32 c) * 16777619) mod 2 ^ 32.
Proof.
  unfold hash_step, imul. rewrite ToUint32_ToInt32, ToUint32_bit_xor. reflexivity.
Qed.

(** The multiplier is odd: 899433627 undoes it. *)
Lemma hash_step_inv h c :
  (ToUint32 (hash_step h c) * 899433627) mod 2 ^ 32 = Z.lxor (ToUint32 h) (ToUint32 c).
Proof.
  rewrite ToUint32_hash_step, Zmult_mod_idemp_l, <-Z.mul_assoc.
  change (16777619 * 899433627) with (1 + 3513497 * 2 ^ 32).
  rewrite Z.mul_add_distr_l, Z.mul_1_r, Z.mul_assoc, Z_mod_plus_full.
  rewrite <-ToUint32_bit_xor. apply Z.mod_mod. lia.
Qed.

Lemma lxor_cancel a b c : Z.lxor a b = Z.lxor a c → b = c.
Proof.
  intros H. rewrite <-(Z.lxor_0_l b), <-(Z.lxor_0_l c), <-(Z.lxor_nilpotent a), !Z.lxor_assoc.
  by rewrite H.
Qed.

Lemma hash_tail_inj s h h' : ToUint32 (foldl hash_step h s) = ToUint32 (foldl hash_step h' s) →
  ToUint32 h = ToUint32 h'.
Proof.
  revert h h'. induction s as [|c s IH]; intros h h'; [done|]. cbn [foldl]. intros H%IH.
  apply (f_equal (λ x, (x * 899433627) mod 2 ^ 32)) in H. rewrite !hash_step_inv in H.
  rewrite !(Z.lxor_comm _ (ToUint32 c)) in H. by eapply lxor_cancel.
Qed.

(** ** The calendar *)

Ltac div_lia := Z.to_euclidean_division_equations; lia.

Lemma year_of_era_bounds doe : 0 ≤ doe < 146097 →
  let yoe := (doe - doe / 1460 + doe / 36524 - doe / 146096) / 365 in
  0 ≤ yoe ≤ 399 ∧ 0 ≤ doe - (365 * yoe + yoe / 4 - yoe / 100) ≤ 365.
Proof. intros H yoe. subst yoe. split; div_lia. Qed.

Lemma month_bounds doy : 0 ≤ doy ≤ 365 →
  let mp := (5 * doy + 2) / 153 in
  0 ≤ mp ≤ 11 ∧ 0 ≤ doy - (153 * mp + 2) / 5 ≤ 30.
Proof. intros H mp. subst mp. split; div_lia. Qed.

(** The day of a date. *)
Definition day_number (y m d : Z) : Z :=
  let y' := if m <=? 2 then y - 1 else y in
  let yoe := y' mod 400 in
  let mp := if m <=? 2 then m + 9 else m - 3 in
  y' / 400 * 146097 + (yoe * 365 + yoe / 4 - yoe / 100) + (153 * mp + 2) / 5 + (d - 1) - 719468.

(** Month and day are in range, and the three numbers give the day back. *)
Lemma civil_spec days :
  let '(y, m, d) := civil days in 1 ≤ m ≤ 12 ∧ 1 ≤ d ≤ 31 ∧ day_number y m d = days.
Proof.
  unfold civil. set (z := days + 719468).
  pose proof (Z.mod_pos_bound z 146097 ltac:(lia)) as Hdoe.
  pose proof (Z.div_mod z 146097 ltac:(lia)) as Hz.
  set (doe := z mod 146097) in *. clearbody doe. set (era := z / 146097) in *. clearbody era.
  destruct (year_of_era_bounds doe Hdoe) as [Hyoe Hdoy].
  set (yoe := (doe - doe / 1460 + doe / 36524 - doe / 146096) / 365) in *. clearbody yoe.
  set (doy := doe - (365 * yoe + yoe / 4 - yoe / 100)) in *.
  destruct (month_bounds doy Hdoy) as [Hmp Hd].
  set (mp := (5 * doy + 2) / 153) in *. clearbody mp. unfold day_number.
  destruct (Z.ltb_spec mp 10).
  - replace (mp + 3 <=? 2) with false by lia.
    rewrite !Z.add_0_r, Z.div_add, Z.mod_add by lia.
    rewrite (Z.div_small yoe 400), (Z.mod_small yoe 400) by lia.
    replace (mp + 3 - 3) with mp by lia. split; [lia|]. split; lia.
  - replace (mp - 9 <=? 2) with true by lia.
    replace (yoe + era * 400 + 1 - 1) with (yoe + era * 400) by lia.
    rewrite Z.div_add, Z.mod_add by lia.
    rewrite (Z.div_small yoe 400), (Z.mod_small yoe 400) by lia.
    replace (mp - 9 + 9) with mp by lia. split; [lia|]. split; lia.
Qed.

(** The years of days from 1970 up to the end of 9999. *)
Lemma civil_year days : 0 ≤ days ≤ 2932896 → 0 ≤ (civil days).1.1 ≤ 9999.
Proof.
  intros H. unfold civil. cbn [fst].
  pose proof (Z.div_mod (days + 719468) 146097 ltac:(lia)) as Hz.
  pose proof (Z.mod_pos_bound (days + 719468) 146097 ltac:(lia)) as Hdoe.
  set (doe := (days + 719468) mod 146097) in *. set (era := (days + 719468) / 146097) in *.
  destruct (year_of_era_bounds doe Hdoe) as [Hyoe Hdoy].
  set (yoe := (doe - doe / 1460 + doe / 36524 - doe / 146096) / 365) in *.
  destruct (month_bounds _ Hdoy) as [Hmp _].
  set (doy := doe - (365 * yoe + yoe / 4 - yoe / 100)) in *.
  assert (0 ≤ era ≤ 24) as Hera by (clearbody era doe; lia).
  assert (era * 400 + yoe ≤ 9998 ∨ (era = 24 ∧ yoe = 399 ∧ doy ≤ 305)) as Hy.
  { subst doy. clearbody era yoe doe. destruct (decide (era * 400 + yoe ≤ 9998)); [by left|].
    assert (era = 24) as -> by lia. assert (yoe = 399) as -> by lia. right.
    split; [done|]. split; [done|]. change (365 * 399 + 399 / 4 - 399 / 100) with 145731. lia. }
  clearbody doy yoe era.
  set (mp := (5 * doy + 2) / 153) in *.
  assert (doy ≤ 305 → mp < 10) by (subst mp; div_lia).
  destruct (Z.ltb_spec mp 10).
  - replace (mp + 3 <=? 2) with false by lia. lia.
  - replace (mp - 9 <=? 2) with true by lia. lia.
Qed.

(** ** The text of a date *)

#[local] Arguments String.append !_ _ /.

Lemma append_inj s1 s2 t1 t2 : String.length s1 = String.length s2 →
  s1 +:+ t1 = s2 +:+ t2 → s1 = s2 ∧ t1 = t2.
Proof.
  revert s2. induction s1 as [|c s1 IH]; intros [|d s2]; cbn; [done..|].
  intros [= Hl] [= -> H]. by destruct (IH s2 Hl H) as [-> ->].
Qed.

Lemma length_pad n z : String.length (pad n z) = n.
Proof. revert z. induction n as [|n IH]; intros z; [done|]. cbn. rewrite length_append, IH. cbn. lia. Qed.

Lemma substring_whole s n : String.length s = n → String.substring 0 n s = s.
Proof. intros <-. induction s as [|c s IH]; [done|]. cbn. by rewrite IH. Qed.

Lemma digit_char_inj x y : 0 ≤ x < 10 → 0 ≤ y < 10 → digit_char x = digit_char y → x = y.
Proof.
  intros Hx Hy H. unfold digit_char in H. apply (f_equal Ascii.nat_of_ascii) in H.
  rewrite !Ascii.nat_ascii_embedding in H by lia. lia.
Qed.

Lemma pad_inj n x y : 0 ≤ x < 10 ^ Z.of_nat n → 0 ≤ y < 10 ^ Z.of_nat n →
  pad n x = pad n y → x = y.
Proof.
  revert x y. induction n as [|n IH]; intros x y; [cbn; lia|].
  rewrite Nat2Z.inj_succ, Z.pow_succ_r by lia. cbn [pad]. intros Hx Hy H.
  apply append_inj in H as [Hi Hd]; [|by rewrite !length_pad]. simplify_eq.
  apply IH in Hi; [|split; [apply Z.div_pos; lia|apply Z.div_lt_upper_bound; lia]..].
  match goal with H : digit_char _ = digit_char _ |- _ => apply digit_char_inj in H end; div_lia.
Qed.

(** A day in the years with four digits, as its text. *)
Lemma iso_date_inj days days' : 0 ≤ days ≤ 2932896 → 0 ≤ days' ≤ 2932896 →
  String.substring 0 10 (iso_date days) = String.substring 0 10 (iso_date days') → days = days'.
Proof.
  intros H H'. pose proof (civil_spec days) as Hs. pose proof (civil_spec days') as Hs'.
  pose proof (civil_year days H) as Hy. pose proof (civil_year days' H') as Hy'. unfold iso_date.
  destruct (civil days) as [[y m] d], (civil days') as [[y' m'] d']. cbn [fst] in *.
  destruct Hs as (Hm & Hd & <-), Hs' as (Hm' & Hd' & <-).
  replace ((0 <=? y) && (y <=? 9999)) with true by lia.
  replace ((0 <=? y') && (y' <=? 9999)) with true by lia.
  rewrite !substring_whole by (rewrite !length_append, !length_pad; done).
  intros [Ey He]%append_inj; [|by rewrite !length_pad]. apply append_inj in He as [_ He]; [|done].
  apply append_inj in He as [Em He]; [|by rewrite !length_pad].
  apply append_inj in He as [_ Ed]; [|done].
  apply pad_inj in Ey; [|lia..]. apply pad_inj in Em; [|lia..]. apply pad_inj in Ed; [|lia..].
  by subst.
Qed.

(** What the shuffle leaves at the front and what it leaves behind. *)
Lemma pickDeterministic_parts ids count seed : 0 ≤ count →
  ∃ picked rest, pickDeterministic ids count seed = Some picked ∧
    picked ++ rest ≡ₚ ids ∧ Z.of_nat (length picked) = Z.min count (Z.of_nat (length ids)).
Proof.
  intros Hc. unfold pickDeterministic. set (pool := merge_sort Z.le ids).
  assert (pool ≡ₚ ids) as Hp by apply merge_sort_Permutation.
  set (n := Z.min count (Z.of_nat (length pool))).
  destruct (shuffle_permutes pool (seededRandom (hashSeed seed)) (Z.to_nat n) 0)
    as (pool' & state' & -> & Hp'); [lia|].
  cbn. unfold slice_to. replace (n <? 0) with false by lia.
  eexists _, (drop (Z.to_nat n) pool'). split; [done|]. rewrite take_drop.
  split; [by rewrite Hp'|]. rewrite length_take, (Permutation_length Hp').
  pose proof (Permutation_length Hp). lia.
Qed.

(** ** Properties *)

(** The daily draw is a draw: no index of the shuffle leaves the pool, whatever
    the pool's size; the ids picked, with the rest, are the pool's ids exactly, as
    many as asked for when there are enough (so no id is picked twice); and the order
    the database returned the pool in does not matter. *)
Theorem pickDeterministic_draw ids count seed : 0 ≤ count →
  ∃ picked rest, pickDeterministic ids count seed = Some picked ∧
    picked ++ rest ≡ₚ ids ∧ Z.of_nat (length picked) = Z.min count (Z.of_nat (length ids)) ∧
    ∀ ids', ids' ≡ₚ ids → pickDeterministic ids' count seed = Some picked.
Proof.
  intros Hc. destruct (pickDeterministic_parts ids count seed Hc) as (picked & rest & Hpick & ? & ?).
  exists picked, rest. repeat (split; [done|]). intros ids' Hids.
  rewrite <-Hpick. unfold pickDeterministic. by rewrite (merge_sort_perm ids' ids).
Qed.

Lemma pickDeterministic_draw_witness : 0 ≤ 2 ∧
  ∃ picked rest, pickDeterministic [3; 1; 2] 2 [50; 48] = Some picked ∧
    picked ++ rest ≡ₚ [3; 1; 2] ∧ Z.of_nat (length picked) = 2 ∧
    ∀ ids', ids' ≡ₚ [3; 1; 2] → pickDeterministic ids' 2 [50; 48] = Some picked.
Proof. split; [lia|]. apply (pickDeterministic_draw [3; 1; 2] 2 [50; 48]). lia. Defined.

(** Seeds that differ in one character hash differently, so days of the same
    decade of a month never share the state of the generator. *)
Theorem hashSeed_one_character before after c d : 0 ≤ c < 65536 → 0 ≤ d < 65536 →
  hashSeed (before ++ c :: after) = hashSeed (before ++ d :: after) → c = d.
Proof.
  intros Hc Hd. unfold hashSeed, shift_right. rewrite !Z.shiftr_0_r, !foldl_app. cbn [foldl].
  intros H%hash_tail_inj. apply (f_equal (λ x, (x * 899433627) mod 2 ^ 32)) in H.
  rewrite !hash_step_inv in H. apply lxor_cancel in H. unfold ToUint32 in H.
  by rewrite !Z.mod_small in H by lia.
Qed.

Lemma hashSeed_one_character_witness :
  hashSeed ([50; 48] ++ 49 :: [58]) = hashSeed ([50; 48] ++ 49 :: [58]) ∧ 49 = 49.
Proof.
  split; [reflexivity|]. apply (hashSeed_one_character [50; 48] [58]); [lia|lia|reflexivity].
Defined.

(** From 1970 to the end of 9999, two moments have the same [utcDay] exactly when
    they lie in the same UTC day. *)
Theorem utcDay_exact now now' : 0 ≤ now < 253402300800000 → 0 ≤ now' < 253402300800000 →
  utcDay now = utcDay now' ↔ now / 86400000 = now' / 86400000.
Proof.
  intros H H'. unfold utcDay. split; [|by intros ->].
  apply iso_date_inj; div_lia.
Qed.

Lemma utcDay_exact_witness :
  (0 ≤ 1790467199000 < 253402300800000 ∧ 0 ≤ 1790467200000 < 253402300800000) ∧
  (utcDay 1790467199000 = utcDay 1790467200000 ↔
   1790467199000 / 86400000 = 1790467200000 / 86400000).
Proof. split; [lia|]. apply utcDay_exact; lia. Defined.
