(* ===== verification/Challenges.v ===== *)
(** * The daily challenge (src/src/challenges/challenges.service.ts)

    The day's set of lyrics, drawn once and stored; the one attempt each player has
    at each of them; completion, and the day's leaderboard.  The day's set is also
    modelled with its callers interleaved at their database accesses. *)

From S2P Require Import Prelude Entities XpLevel DailySeed.
From stdpp Require Import sorting.

#[local] Open Scope Z_scope.

(** ** Rows *)

(** The columns of a lyric this service reads; the whole row is the matcher's. *)
Record Lyric := mkLyric {
  l_lyricSnippet : string;
  l_category : option string;
  l_decade : option string;
  l_genre : option string;
  l_isActive : bool;
}.

Record DailyChallengeAttempt := mkAttempt {
  a_userId : string;
  a_challengeDate : string;
  a_lyricId : Z;
  a_guessType : string;
  a_isCorrect : bool;
  a_points : Z;
}.

(** A call of [EventEmitter2.emit] with its payload. *)
Record ChallengeEvent := mkEvent {
  e_name : string;
  e_userId : string;
  e_challengeDate : string;
  e_points : Z;
  e_correct : nat;
  e_total : nat;
}.

(** The tables, and the [cached] property of the service. *)
Record ChallengeDb := mkChallengeDb {
  challenges : gmap string (list Z);
  attempts : list DailyChallengeAttempt;
  lyrics : gmap Z Lyric;
  events : list ChallengeEvent;
  cached : option (string * list Z);
}.
#[export] Instance ChallengeDb_settable : Settable ChallengeDb := λ c,
  mkChallengeDb (challenges c) (attempts c) (lyrics c) (events c) (cached c).

(** ** What the service is given *)

(** [issuedAt] of a request: absent, a number ([None] is [NaN]) or a text. *)
Inductive issued :=
  | IssuedNumber (ms : option Z)
  | IssuedText (s : string).

Record DailyGuessDto := mkDto {
  dto_lyricId : Z;
  dto_guessType : string;
  dto_guessValue : string;
  dto_issuedAt : option issued;
}.

(** What [GameLogicService.checkGuess] answers. *)
Record GuessResult := mkGuessResult {
  gr_isCorrect : bool;
  gr_correctAnswer : string;
  gr_explanation : option string;
  gr_points : option Z;
}.

(** The part of [GameLogicService] the service calls, the server secret, and
    [Date.parse]. *)
Class ChallengeDeps := {
  validateGuess : string → option string;  (** the reason a guess is invalid *)
  checkGuess : gmap Z Lyric → Z → string → string → result GuessResult;
  DAILY_CHALLENGE_SALT : list Z;
  Date_parse : string → option Z;
}.

Record DailyLyric := mkDailyLyric {
  dl_id : Z;
  dl_lyricSnippet : string;
  dl_category : option string;
  dl_decade : option string;
  dl_genre : option string;
  dl_attempt : option (bool * Z);
}.

Record DailyChallengeView := mkView {
  v_date : string;
  v_lyrics : list DailyLyric;
  v_attempted : nat;
  v_total : nat;
}.

Record DailyGuessResult := mkDailyGuess {
  r_isCorrect : bool;
  r_correctAnswer : string;
  r_explanation : string;
  r_points : Z;
  r_completed : bool;
}.

Record DailyLeaderboardEntry := mkEntry {
  le_rank : nat;
  le_userId : string;
  le_username : string;
  le_points : Z;
  le_correct : nat;
}.

Definition DAILY_CHALLENGE_SIZE : Z := 10.
Definition LEADERBOARD_SIZE : nat := 50.
(** [GAME_CONSTANTS.LIMITS.ANSWER_WINDOW_MS]: the constants have no such entry. *)
Definition ANSWER_WINDOW_MS : option Z := None.

Local Abbreviation Store := (Db ChallengeDb).
Local Abbreviation M := (M Store).

Definition modify_tables (f : ChallengeDb → ChallengeDb) : M unit :=
  modify (λ d, d <| ext := f (ext d) |>).

(** ** The day's set *)

Definition findChallenge (date : string) : M (option (list Z)) :=
  gets (λ d, challenges (ext d) !! date).

(** The ids of the active lyrics, in whatever order. *)
Definition active_ids (rows : gmap Z Lyric) : list Z :=
  (map_to_list (filter (λ row, l_isActive row.2 = true) rows)).*1.

(** [INSERT ... ON CONFLICT DO NOTHING] *)
Definition insertOrIgnore (date : string) (lyricIds : list Z) : M unit :=
  modify_tables (λ c, c <| challenges :=
    match challenges c !! date with
    | Some _ => challenges c
    | None => <[date := lyricIds]> (challenges c)
    end |>).

Definition challengeNotFound : exn :=
  PlainError "EntityNotFoundError" "Could not find any entity of type DailyChallenge".

Section ChallengesService.
Context `{ChallengeDeps}.

(** The pool is read and the ids are picked from it. *)
Definition drawDaily (date : string) : M (list Z) :=
  pool ← gets (λ d, active_ids (lyrics (ext d)));
  throw_if (bool_decide (pool = [])) (NotFound "No lyrics available for a daily challenge");;
  mret (default [] (pickDeterministic pool DAILY_CHALLENGE_SIZE
    (code_units date ++ [58] ++ DAILY_CHALLENGE_SALT))).

(** [this.cached?.date === date], and the assignment of [this.cached]. *)
Definition cacheHit (date : string) : M (option (list Z)) :=
  gets (λ d, match cached (ext d) with
             | Some (date', lyricIds) => if date' == date then Some lyricIds else None
             | None => None
             end).
Definition remember (date : string) (lyricIds : list Z) : M unit :=
  modify_tables (λ c, c <| cached := Some (date, lyricIds) |>).

Definition getDailyLyricIds (date : string) : M (list Z) :=
  hit ← cacheHit date;
  match hit with
  | Some lyricIds => mret lyricIds
  | None =>
      challenge ← findChallenge date;
      lyricIds ← match challenge with
        | Some lyricIds => mret lyricIds
        | None =>
            lyricIds ← drawDaily date;
            insertOrIgnore date lyricIds;;
            challenge ← findChallenge date;
            require challenge challengeNotFound
        end;
      remember date lyricIds;;
      mret lyricIds
  end.

Definition is_active (rows : gmap Z Lyric) (id : Z) : bool :=
  match rows !! id with Some row => l_isActive row | None => false end.

Definition getActiveDailyLyricIds (lyricIds : list Z) : M (list Z) :=
  gets (λ d, List.filter (is_active (lyrics (ext d))) lyricIds).

Definition findAttempts (userId date : string) : M (list DailyChallengeAttempt) :=
  gets (λ d, List.filter (λ a, (a_userId a == userId) && (a_challengeDate a == date))
               (attempts (ext d))).

Definition getDaily (userId : string) : M DailyChallengeView :=
  date ← gets (λ d, utcDay (now d));
  lyricIds ← getDailyLyricIds date;
  rows ← gets (λ d, lyrics (ext d));
  attempts ← findAttempts userId date;
  let view := (λ id,
    let lyric := default (mkLyric "" None None None false) (rows !! id) in
    let attempt := List.find (λ a, a_lyricId a =? id) (reverse attempts) in
    mkDailyLyric id (l_lyricSnippet lyric) (l_category lyric) (l_decade lyric) (l_genre lyric)
      ((λ a, (a_isCorrect a, a_points a)) <$> attempt))
    <$> List.filter (is_active rows) lyricIds in
  mret (mkView date view (length attempts) (length view)).

(** ** A guess *)

Definition isWithinAnswerWindow (dto : DailyGuessDto) (time : Z) : bool :=
  match dto_issuedAt dto with
  | None => true
  | Some issuedAt =>
      match (match issuedAt with IssuedNumber ms => ms | IssuedText s => Date_parse s end) with
      | None => true
      | Some issuedMs =>
          let elapsed := time - issuedMs in
          match ANSWER_WINDOW_MS with Some window => elapsed <=? window | None => false end
      end
  end.

Definition same_attempt (a b : DailyChallengeAttempt) : bool :=
  (a_userId a == a_userId b) && (a_challengeDate a == a_challengeDate b)
  && (a_lyricId a =? a_lyricId b).

(** The insert, with the constraint [UQ_daily_attempt_user_day_lyric] and the
    exception its violation is turned into. *)
Definition insertAttempt (a : DailyChallengeAttempt) : M unit :=
  taken ← gets (λ d, existsb (same_attempt a) (attempts (ext d)));
  throw_if taken (Conflict "You have already attempted this lyric today");;
  modify_tables (λ c, c <| attempts := attempts c ++ [a] |>).

Definition emit (e : ChallengeEvent) : M unit :=
  modify_tables (λ c, c <| events := events c ++ [e] |>).

Definition completion_event (name userId date : string) (attempts : list DailyChallengeAttempt) :
    ChallengeEvent :=
  mkEvent name userId date (foldl (λ sum a, sum + a_points a) 0 attempts)
    (length (List.filter a_isCorrect attempts)) (length attempts).

Definition announceCompletion (userId date : string) (attempts : list DailyChallengeAttempt) :
    M unit :=
  emit (completion_event "user.completed_challenge" userId date attempts);;
  emit (completion_event "challenge.completed" userId date attempts).

(** The end of [guess]: whether the set is completed, announced when it is. *)
Definition checkCompletion (userId date : string) (lyricIds : list Z) : M bool :=
  attempts ← findAttempts userId date;
  activeLyricIds ← getActiveDailyLyricIds lyricIds;
  let completed := bool_decide (activeLyricIds ≠ []) &&
    forallb (λ id, existsb (λ a, a_lyricId a =? id) attempts) activeLyricIds in
  (if completed then announceCompletion userId date attempts else mret tt);;
  mret completed.

Definition guess (userId : string) (dto : DailyGuessDto) : M DailyGuessResult :=
  date ← gets (λ d, utcDay (now d));
  lyricIds ← getDailyLyricIds date;
  throw_if (negb (existsb (Z.eqb (dto_lyricId dto)) lyricIds))
    (NotFound "That lyric is not part of today's challenge");;
  match validateGuess (dto_guessValue dto) with
  | Some reason => throw (BadRequest reason)
  | None => mret tt
  end;;
  rows ← gets (λ d, lyrics (ext d));
  result ← lift (checkGuess rows (dto_lyricId dto) (dto_guessType dto) (dto_guessValue dto));
  withinWindow ← gets (λ d, isWithinAnswerWindow dto (now d));
  let points := if withinWindow : bool then default 0 (gr_points result) else 0 in
  insertAttempt (mkAttempt userId date (dto_lyricId dto) (dto_guessType dto)
    (gr_isCorrect result) points);;
  (if gr_isCorrect result && withinWindow
   then _ ← (handleCorrectGuess userId : M XpResult); mret tt else mret tt);;
  completed ← checkCompletion userId date lyricIds;
  mret (mkDailyGuess (gr_isCorrect result) (gr_correctAnswer result)
    (default "" (gr_explanation result)) points completed).
End ChallengesService.

(** ** The leaderboard *)

Definition day_attempts (date : string) (d : Store) : list DailyChallengeAttempt :=
  List.filter (λ a, a_challengeDate a == date) (attempts (ext d)).
(** The attempts of one group of the query. *)
Definition player_attempts (userId date : string) (d : Store) : list DailyChallengeAttempt :=
  List.filter (λ a, a_userId a == userId) (day_attempts date d).

Definition total_points (l : list DailyChallengeAttempt) : Z :=
  foldr (λ a sum, a_points a + sum) 0 l.

(** The groups, joined with the players' rows; the rank is not yet known. *)
Definition standings (date : string) (d : Store) : list DailyLeaderboardEntry :=
  omap (λ userId,
      player ← users d !! userId;
      let rows := player_attempts userId date d in
      Some (mkEntry 0 userId (u_username player) (total_points rows)
              (length (List.filter a_isCorrect rows))))
    (remove_dups (a_userId <$> day_attempts date d)).

Section Leaderboard.
(** The order of user names in the database's collation. *)
Context (username_le : relation string) `{!RelDecision username_le}.

(** [ORDER BY points DESC, correct DESC, username ASC] *)
Definition ranks_before (x y : DailyLeaderboardEntry) : Prop :=
  le_points y < le_points x ∨ le_points y = le_points x ∧
  ((le_correct y < le_correct x)%nat ∨ le_correct y = le_correct x ∧
   username_le (le_username x) (le_username y)).
#[global] Instance ranks_before_dec : RelDecision ranks_before.
Proof. intros x y. unfold ranks_before. apply _. Defined.

Definition with_rank (index : nat) (row : DailyLeaderboardEntry) : DailyLeaderboardEntry :=
  mkEntry (index + 1) (le_userId row) (le_username row) (le_points row) (le_correct row).

Definition getLeaderboard (date : string) : M (list DailyLeaderboardEntry) :=
  rows ← gets (λ d, take LEADERBOARD_SIZE (merge_sort ranks_before (standings date d)));
  mret (imap with_rank rows).
End Leaderboard.

(** ** Servers that ask for the day's set at the same time

    A call of [getDailyLyricIds] suspends at its database accesses.  Every server has
    its own secret when none is configured, and its own cache. *)

Inductive draw_call :=
  | Asked (date : string)
  | Unseen (date : string)
  | Drawn (date : string) (lyricIds : list Z)
  | Inserted (date : string)
  | Answered (date : string) (lyricIds : list Z)
  | Failed (date : string).

Record server := mkServer {
  s_deps : ChallengeDeps;
  s_cached : option (string * list Z);
  s_call : draw_call;
}.

(** One call runs up to its next point of suspension. *)
Definition run_draw `{ChallengeDeps} (c : draw_call) : M draw_call :=
  match c with
  | Asked date =>
      hit ← cacheHit date;
      match hit with
      | Some lyricIds => mret (Answered date lyricIds)
      | None =>
          challenge ← findChallenge date;
          match challenge with
          | Some lyricIds => remember date lyricIds;; mret (Answered date lyricIds)
          | None => mret (Unseen date)
          end
      end
  | Unseen date => lyricIds ← drawDaily date; mret (Drawn date lyricIds)
  | Drawn date lyricIds => insertOrIgnore date lyricIds;; mret (Inserted date)
  | Inserted date =>
      challenge ← findChallenge date;
      lyricIds ← require challenge challengeNotFound;
      remember date lyricIds;; mret (Answered date lyricIds)
  | Answered _ _ | Failed _ => mret c
  end.

Definition call_date (c : draw_call) : string :=
  match c with
  | Asked date | Unseen date | Drawn date _ | Inserted date | Answered date _ | Failed date => date
  end.

(** A server takes a step, starts over with another request, or the rest of the
    system changes any table but that of the sets. *)
Inductive serve : relation (Store * list server) :=
  | serve_run d ps i p c' d' : ps !! i = Some p →
      run_draw (H := s_deps p) (s_call p) (d <| ext := ext d <| cached := s_cached p |> |>)
        = (Ok c', d') →
      serve (d, ps) (d', <[i := mkServer (s_deps p) (cached (ext d')) c']> ps)
  | serve_throw d ps i p e d' : ps !! i = Some p →
      run_draw (H := s_deps p) (s_call p) (d <| ext := ext d <| cached := s_cached p |> |>)
        = (Err e, d') →
      serve (d, ps) (d', <[i := mkServer (s_deps p) (cached (ext d')) (Failed (call_date (s_call p)))]> ps)
  | serve_ask d ps i p date : ps !! i = Some p →
      serve (d, ps) (d, <[i := mkServer (s_deps p) (s_cached p) (Asked date)]> ps)
  | serve_other d d' ps : challenges (ext d') = challenges (ext d) →
      serve (d, ps) (d', ps).

(** ** The day's set: lemmas *)

(** What a set that was drawn looks like. *)
Definition good_set (lyricIds : list Z) : Prop :=
  NoDup lyricIds ∧ (1 ≤ length lyricIds ≤ 10)%nat.

Lemma active_ids_NoDup rows : NoDup (active_ids rows).
Proof. apply NoDup_fst_map_to_list. Qed.

Lemma drawDaily_good `{ChallengeDeps} date (d d' : Store) lyricIds :
  drawDaily date d = (Ok lyricIds, d') → good_set lyricIds ∧ d' = d.
Proof.
  unfold drawDaily. rewrite bind_gets. set (pool := active_ids _). rewrite bind_throw_if.
  case_bool_decide as Hpool; [done|]. set (seed := code_units date ++ _).
  destruct (pickDeterministic_parts pool DAILY_CHALLENGE_SIZE seed)
    as (picked & rest & -> & Hp & Hl); [done|]. intros [= <- <-]. split; [|done].
  cbn [default]. split.
  - pose proof (active_ids_NoDup (lyrics (ext d))) as Hnd. fold pool in Hnd.
    rewrite <-Hp in Hnd. by apply NoDup_app in Hnd as [? _].
  - unfold DAILY_CHALLENGE_SIZE in Hl. destruct pool; [done|]. cbn [length] in Hl. lia.
Qed.

(** The calls of one server know what the table holds. *)
Definition knows (sets : gmap string (list Z)) (p : server) : Prop :=
  (∀ date ids, s_cached p = Some (date, ids) → sets !! date = Some ids) ∧
  match s_call p with
  | Drawn _ ids => good_set ids
  | Inserted date => is_Some (sets !! date)
  | Answered date ids => sets !! date = Some ids
  | _ => True
  end.

Lemma knows_mono sets sets' p : sets ⊆ sets' → knows sets p → knows sets' p.
Proof.
  intros Hs [Hc Hk]. split.
  - intros date ids H. eapply lookup_weaken; [by eapply Hc|done].
  - destruct (s_call p); [done..| |by eapply lookup_weaken|done].
    destruct Hk as [ids Hk]. exists ids. by eapply lookup_weaken.
Qed.

Definition good_sets (sets : gmap string (list Z)) : Prop :=
  map_Forall (λ _, good_set) sets.

(** One step: the table only grows, by sets that are well drawn, and the server
    knows the table that results. *)
Lemma run_draw_knows `{ChallengeDeps} c (d : Store) r d' sets p :
  sets = challenges (ext d) → good_sets sets → knows sets p →
  s_call p = c → s_cached p = cached (ext d) → run_draw c d = (r, d') →
  sets ⊆ challenges (ext d') ∧ good_sets (challenges (ext d')) ∧
  knows (challenges (ext d'))
    (mkServer (s_deps p) (cached (ext d')) (match r with Ok c' => c' | Err _ => Failed (call_date c) end)).
Proof.
  intros -> Hg [Hc Hk] Hcall Hcache Hrun. rewrite Hcall in Hk. rewrite Hcache in Hc.
  destruct c as [date|date|date ids|date|date ids|date]; cbn [run_draw] in Hrun.
  - unfold cacheHit, findChallenge in Hrun. rewrite bind_gets in Hrun.
    destruct (match cached (ext d) with Some (_, _) => _ | None => _ end) as [ids|] eqn:Ehit.
    + injection Hrun as <- <-. split_and!; [done|done|]. split; [done|]. cbn.
      destruct (cached (ext d)) as [[date' ids']|] eqn:E; [|done]. case_bool_decide; [|done].
      simplify_eq. by apply Hc.
    + rewrite bind_gets in Hrun. destruct (challenges (ext d) !! date) as [ids|] eqn:E.
      * injection Hrun as <- <-. split_and!; [done|done|]. split; [cbn; naive_solver|]. done.
      * injection Hrun as <- <-. split_and!; [done|done|]. by split.
  - destruct (drawDaily date d) as [[ids|e] d1] eqn:E.
    + rewrite (bind_run _ _ _ _ _ E) in Hrun. injection Hrun as <- <-.
      apply drawDaily_good in E as [Hgood ->]. split_and!; [done|done|]. by split.
    + rewrite (bind_run_err _ _ _ _ _ E) in Hrun. injection Hrun as <- <-.
      unfold drawDaily in E. rewrite bind_gets, bind_throw_if in E. case_bool_decide; [|done].
      injection E as _ <-. split_and!; [done|done|]. by split.
  - injection Hrun as <- <-. cbn. destruct (challenges (ext d) !! date) as [ids'|] eqn:E.
    + split_and!; [done|done|]. split; [done|]. cbn. by rewrite E.
    + split_and!; [by apply insert_subseteq|by apply map_Forall_insert_2|]. split.
      * cbn. intros date' ids' H'. apply lookup_weaken with (challenges (ext d)); [by apply Hc|].
        by apply insert_subseteq.
      * cbn. by rewrite lookup_insert_eq.
  - destruct Hk as [ids Hk]. unfold findChallenge in Hrun. rewrite bind_gets, bind_require, Hk in Hrun.
    injection Hrun as <- <-. split_and!; [done|done|]. split; [cbn; naive_solver|]. done.
  - injection Hrun as <- <-. split_and!; [done|done|]. by split.
  - injection Hrun as <- <-. split_and!; [done|done|]. by split.
Qed.

Definition coherent (sets : gmap string (list Z)) (s : Store * list server) : Prop :=
  sets ⊆ challenges (ext s.1) ∧ good_sets (challenges (ext s.1)) ∧
  ∀ i p, s.2 !! i = Some p → knows (challenges (ext s.1)) p.

Lemma coherent_run sets (d d' : Store) ps i p r : coherent sets (d, ps) → ps !! i = Some p →
  run_draw (H := s_deps p) (s_call p) (d <| ext := ext d <| cached := s_cached p |> |>) = (r, d') →
  coherent sets (d', <[i := mkServer (s_deps p) (cached (ext d'))
    (match r with Ok c' => c' | Err _ => Failed (call_date (s_call p)) end)]> ps).
Proof.
  intros (Hs & Hg & Hk) Hi Hrun. cbn in *.
  eapply (run_draw_knows (H := s_deps p)) with (sets := challenges (ext d)) (p := p) in Hrun
    as (Hs' & Hg' & Hk'); [|done|done|by apply (Hk i)|done|done].
  split; [by transitivity (challenges (ext d))|]. split; [done|]. intros j q. cbn.
  destruct (decide (i = j)) as [<-|Hne].
  - rewrite list_lookup_insert_eq by (by eapply lookup_lt_Some). by intros [= <-].
  - rewrite list_lookup_insert_ne by done. intros Hj. eapply knows_mono; eauto.
Qed.

Lemma coherent_step sets s s' : coherent sets s → serve s s' → coherent sets s'.
Proof.
  intros Hs Hstep. destruct Hstep as [d ps i p c' d' Hi Hrun|d ps i p e d' Hi Hrun|d ps i p date Hi|d d' ps He].
  - by eapply (coherent_run _ _ _ _ _ _ (Ok c')).
  - by eapply (coherent_run _ _ _ _ _ _ (Err e)).
  - destruct Hs as (Hs & Hg & Hk). split; [done|]. split; [done|]. intros j q. cbn.
    destruct (decide (i = j)) as [<-|Hne].
    + rewrite list_lookup_insert_eq by (by eapply lookup_lt_Some). intros [= <-].
      destruct (Hk _ _ Hi) as [Hc _]. by split.
    + rewrite list_lookup_insert_ne by done. apply Hk.
  - unfold coherent in *. cbn in *. by rewrite He.
Qed.

(** ** A guess: lemmas *)

(** What drawing the day's set leaves alone. *)
Definition same_play : relation Store := λ d d',
  users d' = users d ∧ now d' = now d ∧ attempts (ext d') = attempts (ext d) ∧
  lyrics (ext d') = lyrics (ext d) ∧ events (ext d') = events (ext d).
#[local] Instance same_play_refl : Reflexive same_play.
Proof. by repeat split. Qed.
#[local] Instance same_play_trans : Transitive same_play.
Proof.
  intros d1 d2 d3 (? & ? & ? & ? & ?) (? & ? & ? & ? & ?).
  repeat split; by etrans.
Qed.

Lemma getDailyLyricIds_same_play `{ChallengeDeps} date : preserves same_play (getDailyLyricIds date).
Proof.
  unfold getDailyLyricIds, cacheHit, remember, findChallenge, drawDaily, insertOrIgnore, modify_tables.
  repeat first [ apply (preserves_ret same_play) | apply (preserves_gets same_play)
    | apply (preserves_throw_if same_play) | apply (preserves_require same_play)
    | apply (preserves_modify same_play); by repeat split
    | apply (preserves_bind same_play); [|intros] | case_goal ].
Qed.

(** The XP every player has after [userId] was given [n]. *)
Definition xp_added (userId : string) (n : Z) (d d' : Store) : Prop :=
  ∀ u, u_xp <$> users d' !! u = (λ row, u_xp row + if u == userId then n else 0) <$> users d !! u.

Lemma xp_added_0 userId (d d' : Store) : users d' = users d → xp_added userId 0 d d'.
Proof.
  intros He u. rewrite He. destruct (users d !! u); [|done]. cbn. f_equal. case_bool_decide; lia.
Qed.

Lemma existsb_same_attempt a l : existsb (same_attempt a) l = true ↔
  ∃ b, b ∈ l ∧ a_userId b = a_userId a ∧ a_challengeDate b = a_challengeDate a ∧
       a_lyricId b = a_lyricId a.
Proof.
  rewrite existsb_exists. unfold same_attempt. split.
  - intros (b & Hb%list_elem_of_In & Hs). bool_prop. eauto 10.
  - intros (b & Hb & H1 & H2 & H3). exists b. split; [by apply list_elem_of_In|].
    by rewrite H1, H2, H3, !bool_decide_true, Z.eqb_refl by done.
Qed.

Section guessing.
Context `{ChallengeDeps} (userId : string) (dto : DailyGuessDto).

(** The attempt a guess with this outcome records. *)
Definition attempt_at (date : string) (correct : bool) (points : Z) : DailyChallengeAttempt :=
  mkAttempt userId date (dto_lyricId dto) (dto_guessType dto) correct points.

(** The player has not yet guessed the lyric that day. *)
Definition untried (date : string) (d : Store) : Prop :=
  ∀ a, a ∈ attempts (ext d) → a_userId a = userId → a_challengeDate a = date →
    a_lyricId a = dto_lyricId dto → False.

Definition is_complete (date : string) (lyricIds : list Z) (d : Store) : Prop :=
  (∃ id, id ∈ lyricIds ∧ is_active (lyrics (ext d)) id = true) ∧
  ∀ id, id ∈ lyricIds → is_active (lyrics (ext d)) id = true →
    ∃ a, a ∈ attempts (ext d) ∧ a_userId a = userId ∧ a_challengeDate a = date ∧ a_lyricId a = id.

Definition attempts_of (date : string) (d : Store) : list DailyChallengeAttempt :=
  List.filter (λ a, (a_userId a == userId) && (a_challengeDate a == date)) (attempts (ext d)).

Lemma elem_of_attempts_of date d a : a ∈ attempts_of date d ↔
  a ∈ attempts (ext d) ∧ a_userId a = userId ∧ a_challengeDate a = date.
Proof.
  unfold attempts_of. rewrite !list_elem_of_In, filter_In, andb_true_iff, !bool_decide_eq_true. done.
Qed.

(** The boolean the code computes for completion. *)
Lemma completed_spec date lyricIds (d : Store) :
  let active := List.filter (is_active (lyrics (ext d))) lyricIds in
  bool_decide (active ≠ []) &&
  forallb (λ id, existsb (λ a, a_lyricId a =? id) (attempts_of date d)) active = true ↔
  is_complete date lyricIds d.
Proof.
  intros active. assert (∀ id, id ∈ active ↔ id ∈ lyricIds ∧ is_active (lyrics (ext d)) id = true) as Ha.
  { intros id. unfold active. by rewrite !list_elem_of_In, filter_In. }
  rewrite andb_true_iff, bool_decide_eq_true, forallb_forall. unfold is_complete. split.
  - intros [Hne Hall]. split.
    + destruct active as [|id rest]; [done|]. exists id. apply Ha. left.
    + intros id Hin Hact. assert (id ∈ active) as Hid by (by apply Ha).
      apply list_elem_of_In, Hall, existsb_exists in Hid as (a & Hina & He). bool_prop.
      apply list_elem_of_In, elem_of_attempts_of in Hina as (? & ? & ?). eauto 10.
  - intros [(id & Hin) Hall]. split.
    + apply Ha in Hin. intros ->. by apply elem_of_nil in Hin.
    + intros id' Hid%list_elem_of_In. apply Ha in Hid as [Hin' Hact].
      destruct (Hall id' Hin' Hact) as (a & ? & ? & ? & <-). apply existsb_exists. exists a.
      split; [|apply Z.eqb_refl]. apply list_elem_of_In, elem_of_attempts_of. done.
Qed.

(** The announcement of a completed day. *)
Definition announced (completed : bool) (date : string) (d : Store) : list ChallengeEvent :=
  if completed then
    [completion_event "user.completed_challenge" userId date (attempts_of date d);
     completion_event "challenge.completed" userId date (attempts_of date d)]
  else [].

Lemma checkCompletion_run date lyricIds (d : Store) :
  ∃ completed d', checkCompletion userId date lyricIds d = (Ok completed, d') ∧
    users d' = users d ∧ attempts (ext d') = attempts (ext d) ∧
    lyrics (ext d') = lyrics (ext d) ∧ (completed = true ↔ is_complete date lyricIds d) ∧
    events (ext d') = events (ext d) ++ announced completed date d.
Proof.
  unfold checkCompletion, findAttempts, getActiveDailyLyricIds. rewrite !bind_gets. cbv zeta.
  fold (attempts_of date d). pose proof (completed_spec date lyricIds d) as Hspec. cbv zeta in Hspec.
  destruct (bool_decide _ && forallb _ _) eqn:E.
  - unfold announceCompletion, emit, modify_tables. rewrite bind_assoc, !bind_modify.
    eexists true, _. split; [reflexivity|]. split_and!; [done..|by rewrite <-Hspec|].
    cbn. by rewrite <-app_assoc.
  - exists false, d. split; [done|]. split_and!; [done..|by rewrite <-Hspec|]. cbn. by rewrite app_nil_r.
Qed.

(** The award of a guess, on a store [d2] with the players of [d]. *)
Lemma award_outcome (d d2 : Store) (scored : bool) : users d2 = users d →
  ∃ d3, (if scored then _ ← (handleCorrectGuess userId : M XpResult); mret tt else mret tt) d2
      = (Ok tt, d3) ∧ ext d3 = ext d2 ∧ xp_added userId (if scored then 10 else 0) d d3.
Proof.
  intros Hu. destruct scored.
  - destruct (handleCorrectGuess_run userId d2) as (d3 & E & Hext & Hus).
    exists d3. rewrite (bind_run _ _ _ _ _ E). split_and!; [done|done|]. intros u. rewrite Hus, Hu.
    case_bool_decide as Hk; [subst u; by rewrite lookup_alter_eq; destruct (users d !! userId)|].
    rewrite lookup_alter_ne by done. destruct (users d !! u); [|done]. cbn. f_equal. lia.
  - exists d2. split_and!; [done|done|]. by apply xp_added_0.
Qed.

(** A guess is refused before anything is recorded, or its attempt is recorded and it is
    scored. *)
Lemma guess_outcome d r d' : guess userId dto d = (r, d') →
  (∃ e, r = Err e ∧ same_play d d') ∨
  ∃ lyricIds d1 correct points, let date := utcDay (now d) in
    let scored := correct && isWithinAnswerWindow dto (now d) in
    getDailyLyricIds date d = (Ok lyricIds, d1) ∧ dto_lyricId dto ∈ lyricIds ∧ untried date d ∧
    attempts (ext d') = attempts (ext d) ++ [attempt_at date correct points] ∧
    is_ok r = true ∧
    ∀ res, r = Ok res → r_isCorrect res = correct ∧ r_points res = points ∧
      (isWithinAnswerWindow dto (now d) = false → points = 0) ∧
      xp_added userId (if scored then 10 else 0) d d' ∧
      (r_completed res = true ↔ is_complete date lyricIds d') ∧
      events (ext d') = events (ext d) ++ announced (r_completed res) date d'.
Proof.
  unfold guess. rewrite bind_gets.
  destruct (getDailyLyricIds (utcDay (now d)) d) as [[lyricIds|e] d1] eqn:Hids; cycle 1.
  { rewrite (bind_run_err _ _ _ _ _ Hids). intros [= <- <-]. left. exists e. split; [done|].
    by eapply getDailyLyricIds_same_play. }
  rewrite (bind_run _ _ _ _ _ Hids).
  pose proof (getDailyLyricIds_same_play _ _ _ _ Hids) as Hsame.
  rewrite bind_throw_if. destruct (negb _) eqn:Hin; [intros [= <- <-]; by left; eauto|].
  destruct (validateGuess _) as [reason|]; [intros [= <- <-]; by left; eauto|].
  rewrite bind_ret, bind_gets.
  destruct (checkGuess _ _ _ _) as [res|e]; [|intros [= <- <-]; by left; eauto].
  rewrite (bind_lift _ res) by done. rewrite bind_gets. cbv zeta.
  destruct Hsame as (Hu & Hn & Ha & Hl & He). rewrite Hn.
  set (within := isWithinAnswerWindow dto (now d)).
  set (points := if within then _ else 0).
  unfold insertAttempt. rewrite bind_assoc, bind_gets, bind_assoc, bind_throw_if.
  destruct (existsb (same_attempt _) _) eqn:Htaken; [intros [= <- <-]; left; eexists; split; [done|by repeat split]|].
  unfold modify_tables. rewrite bind_modify. intros Hrun. right.
  exists lyricIds, d1, (gr_isCorrect res), points.
  set (d2 := _ <| ext := _ |>) in Hrun.
  assert (dto_lyricId dto ∈ lyricIds) as Hmem.
  { apply negb_false_iff, existsb_exists in Hin as (id & Hid & Heq). bool_prop. subst id.
    by apply list_elem_of_In. }
  assert (untried (utcDay (now d)) d) as Hnew.
  { intros a Hina H1 H2 H3. apply not_true_iff_false in Htaken. apply Htaken, existsb_same_attempt.
    exists a. rewrite Ha. done. }
  assert (attempts (ext d2) = attempts (ext d) ++ [attempt_at (utcDay (now d)) (gr_isCorrect res) points])
    as Ha2 by (cbn; by rewrite Ha).
  destruct (award_outcome d d2 (gr_isCorrect res && within)) as (d3 & Hxp & Hext & Hr3);
    [done|].
  rewrite (bind_run _ _ _ _ _ Hxp) in Hrun.
  destruct (checkCompletion_run (utcDay (now d)) lyricIds d3)
    as (completed & d4 & Hc & Hu4 & Ha4 & Hl4 & Hcomp & Hev).
  rewrite (bind_run _ _ _ _ _ Hc) in Hrun. injection Hrun as <- <-.
  split_and!; [done..|by rewrite Ha4, Hext|done|]. intros res' [= <-]. cbn [r_isCorrect r_points r_completed].
  split_and!; [done|done|by subst points; intros ->|..].
  - intros u. rewrite Hu4. apply Hr3.
  - rewrite Hcomp. unfold is_complete. by rewrite Hl4, Ha4.
  - rewrite Hev, Hext. unfold announced, attempts_of. rewrite Ha4. by rewrite <-He.
Qed.
End guessing.

(** Left alone, the steps of a call are [getDailyLyricIds]. *)
Lemma run_draw_alone `{ChallengeDeps} date (d : Store) :
  (run_draw (Asked date) ≫= λ c, run_draw c ≫= λ c, run_draw c ≫= run_draw) d =
  (getDailyLyricIds date ≫= λ lyricIds, mret (Answered date lyricIds)) d.
Proof.
  unfold getDailyLyricIds. cbn [run_draw]. unfold cacheHit, findChallenge.
  rewrite !bind_assoc, !bind_gets.
  destruct (match cached (ext d) with Some (_, _) => _ | None => _ end); [done|].
  rewrite !bind_assoc, !bind_gets.
  destruct (challenges (ext d) !! date); [done|]. rewrite bind_ret. cbn [run_draw].
  rewrite !bind_assoc. apply bind_ext; [done|]. intros ids d1 _.
  rewrite bind_ret. cbn [run_draw]. rewrite !bind_assoc. apply bind_ext; [done|]. intros [] d2 _.
  rewrite bind_ret. cbn [run_draw]. unfold findChallenge. rewrite !bind_assoc, !bind_gets.
  rewrite !bind_require. by destruct (challenges (ext d2) !! date).
Qed.

(** ** The leaderboard: lemmas *)

Lemma elem_of_standings date (d : Store) e : e ∈ standings date d ↔
  ∃ player, users d !! le_userId e = Some player ∧
    (∃ a, a ∈ day_attempts date d ∧ a_userId a = le_userId e) ∧
    e = mkEntry 0 (le_userId e) (u_username player)
      (total_points (player_attempts (le_userId e) date d))
      (length (List.filter a_isCorrect (player_attempts (le_userId e) date d))).
Proof.
  unfold standings. rewrite list_elem_of_omap. split.
  - intros (userId & Hin & He). rewrite elem_of_remove_dups, list_elem_of_fmap in Hin.
    destruct Hin as (a & -> & Ha). destruct (users d !! a_userId a) as [player|] eqn:Hp; [|done].
    cbn in He. injection He as <-. cbn. eauto 10.
  - intros (player & Hp & (a & Ha & Hu) & He). exists (le_userId e). split.
    + apply elem_of_remove_dups, list_elem_of_fmap. eauto.
    + rewrite Hp. cbn. by rewrite <-He.
Qed.

Lemma standings_NoDup date (d : Store) : NoDup (le_userId <$> standings date d).
Proof.
  unfold standings. generalize (NoDup_remove_dups (a_userId <$> day_attempts date d)).
  generalize (remove_dups (a_userId <$> day_attempts date d)). intros l.
  induction 1 as [|userId l Hu Hl IH]; [constructor|]. cbn.
  destruct (users d !! userId) as [player|]; [|done]. cbn. constructor; [|done].
  rewrite list_elem_of_fmap. intros (e & He & Hin). apply Hu.
  apply list_elem_of_omap in Hin as (userId' & Hin' & Heq).
  destruct (users d !! userId'); [|done]. cbn in Heq. injection Heq as <-. cbn in He. by subst.
Qed.

Section ranking.
Context (username_le : relation string) `{!RelDecision username_le}.

#[local] Instance ranks_before_trans `{!Transitive username_le} :
  Transitive (ranks_before username_le).
Proof.
  intros x y z H1 H2. unfold ranks_before in *.
  destruct H1 as [?|[? [?|[? ?]]]], H2 as [?|[? [?|[? ?]]]]; try (left; lia); right;
    (split; [lia|]); try (left; lia). right. split; [lia|]. by etrans.
Qed.

#[local] Instance ranks_before_total `{!Total username_le} : Total (ranks_before username_le).
Proof.
  intros x y. unfold ranks_before.
  destruct (total username_le (le_username x) (le_username y));
    destruct (Z.lt_trichotomy (le_points x) (le_points y)) as [?|[?|?]];
    destruct (Nat.lt_trichotomy (le_correct x) (le_correct y)) as [?|[?|?]]; auto 10.
Qed.

(** Numbering rows changes nothing but the ranks. *)
Lemma fmap_with_rank {A} (f : DailyLeaderboardEntry → A) rows :
  (∀ i e, f (with_rank i e) = f e) → f <$> imap with_rank rows = f <$> rows.
Proof.
  intros Hf. apply list_eq. intros i. rewrite !list_lookup_fmap, list_lookup_imap.
  destruct (rows !! i); [|done]. cbn. by rewrite Hf.
Qed.

Lemma ranks_with_rank rows : le_rank <$> imap with_rank rows = seq 1 (length rows).
Proof.
  apply list_eq. intros i. rewrite list_lookup_fmap, list_lookup_imap.
  destruct (rows !! i) as [e|] eqn:E.
  - rewrite lookup_seq_lt by (by eapply lookup_lt_Some). cbn. f_equal. lia.
  - symmetry. apply lookup_seq_ge. by apply lookup_ge_None.
Qed.

Lemma sorted_with_rank rows : StronglySorted (ranks_before username_le) rows →
  StronglySorted (ranks_before username_le) (imap with_rank rows).
Proof.
  generalize 0%nat. revert rows.
  assert (∀ rows n, StronglySorted (ranks_before username_le) rows →
    StronglySorted (ranks_before username_le) (imap (λ i, with_rank (n + i)) rows)) as Hgen.
  { intros rows n Hs. revert n. induction Hs as [|e rows Hs IH Hall]; intros n; [constructor|].
    cbn. constructor.
    - eapply (eq_rect _ (StronglySorted _)); [apply (IH (S n))|]. apply imap_ext. intros. cbn. f_equal. lia.
    - apply Forall_lookup. intros i e'. rewrite list_lookup_imap. intros (e0 & He & ->)%fmap_Some.
      apply (Forall_lookup_1 _ _ _ _ Hall He). }
  intros rows _. apply (Hgen rows 0%nat).
Qed.

Lemma elem_of_with_rank e rows : e ∈ imap with_rank rows → ∃ i e0, e0 ∈ rows ∧ e = with_rank i e0.
Proof.
  intros (i & Hi)%list_elem_of_lookup_1. rewrite list_lookup_imap in Hi.
  apply fmap_Some in Hi as (e0 & He & ->). exists i, e0. split; [by eapply list_elem_of_lookup_2|done].
Qed.
End ranking.

(** ** Properties *)

(** C24. Every server answers the same set: however calls of [getDailyLyricIds]
    interleave, whatever secrets the servers have and however the lyrics change
    meanwhile, all answers for a day are the one stored set, it never changes once
    stored, and it has between one and ten different lyrics. *)
Theorem daily_set_agreed d ps d' ps' : good_sets (challenges (ext d)) →
  (∀ p, p ∈ ps → s_cached p = None ∧ ∃ date, s_call p = Asked date) →
  star serve (d, ps) (d', ps') →
  challenges (ext d) ⊆ challenges (ext d') ∧
  ∀ p date ids, p ∈ ps' → s_call p = Answered date ids →
    challenges (ext d') !! date = Some ids ∧ NoDup ids ∧ (1 ≤ length ids ≤ 10)%nat.
Proof.
  intros Hg Hps Hstar.
  assert (coherent (challenges (ext d)) (d, ps)) as Hinit.
  { split; [done|]. split; [done|]. intros i p Hi.
    destruct (Hps p) as [Hc [date Hcall]]; [by eapply list_elem_of_lookup_2|].
    split; [by rewrite Hc|]. by rewrite Hcall. }
  pose proof (star_invariant serve _ (coherent_step _) _ _ Hinit Hstar) as (Hs & Hg' & Hk).
  split; [done|]. intros p date ids [i Hi]%list_elem_of_lookup_1 Hcall.
  destruct (Hk i p Hi) as [_ Hc]. rewrite Hcall in Hc. split; [done|].
  by apply (map_Forall_lookup_1 _ _ _ _ Hg' Hc).
Qed.

(** A guess that is answered was the player's first at that lyric that day, the
    lyric is in the day's set, and the attempt is recorded as it was scored; the
    player, and nobody else, earns ten XP when the guess is right and in time; and the
    day is announced complete exactly when every lyric of the set that is still active
    has been tried. *)
Theorem guess_scores_once `{ChallengeDeps} userId dto d res d' :
  guess userId dto d = (Ok res, d') →
  ∃ lyricIds d1, let date := utcDay (now d) in
    getDailyLyricIds date d = (Ok lyricIds, d1) ∧ dto_lyricId dto ∈ lyricIds ∧
    untried userId dto date d ∧
    attempts (ext d') = attempts (ext d) ++ [attempt_at userId dto date (r_isCorrect res) (r_points res)] ∧
    xp_added userId (if r_isCorrect res && isWithinAnswerWindow dto (now d) then 10 else 0) d d' ∧
    (r_completed res = true ↔ is_complete userId date lyricIds d') ∧
    events (ext d') = events (ext d) ++ announced userId (r_completed res) date d'.
Proof.
  intros Hrun. apply guess_outcome in Hrun as [(e & ? & _)|Hout]; [done|].
  destruct Hout as (ids & d1 & correct & points & Hids & Hin & Hnew & Hatt & _ & Hres).
  destruct (Hres res eq_refl) as (<- & <- & _ & Hxp & Hc & He). eauto 10.
Qed.

(** A guess that is refused costs nothing: the player's attempts, XP and the
    announcements are as before; and a second guess at a lyric is always refused. *)
Theorem guess_refused_free `{ChallengeDeps} userId dto d r d' :
  guess userId dto d = (r, d') →
  (is_ok r = false → users d' = users d ∧ attempts (ext d') = attempts (ext d) ∧
     events (ext d') = events (ext d)) ∧
  (¬ untried userId dto (utcDay (now d)) d → is_ok r = false).
Proof.
  intros Hrun. apply guess_outcome in Hrun as [(e & -> & Hsame)|Hout].
  - destruct Hsame as (? & ? & ? & ? & ?). done.
  - destruct Hout as (ids & d1 & correct & points & _ & _ & Hnew & _ & Hok & _).
    by rewrite Hok.
Qed.


(** [ANSWER_WINDOW_MS] is missing from the constants, and a comparison with
    [undefined] is false: a guess that says when its round was issued, however short
    a time ago, earns nothing. *)
Lemma issued_guess_scores_nothing `{ChallengeDeps} userId dto ms d res d' :
  dto_issuedAt dto = Some (IssuedNumber (Some ms)) →
  guess userId dto d = (Ok res, d') → r_points res = 0 ∧ xp_added userId 0 d d'.
Proof.
  intros Hdto Hrun. apply guess_outcome in Hrun as [(e & ? & _)|Hout]; [done|].
  destruct Hout as (ids & d1 & correct & points & _ & _ & _ & _ & _ & Hres).
  destruct (Hres res eq_refl) as (_ & -> & Hp & Hxp & _).
  assert (isWithinAnswerWindow dto (now d) = false) as Hw.
  { unfold isWithinAnswerWindow. by rewrite Hdto. }
  rewrite Hw, andb_false_r in Hxp. auto.
Qed.

(** ** Witnesses: twelve lyrics, servers with different secrets *)

Definition ex_deps (salt : list Z) : ChallengeDeps := {|
  validateGuess := λ _, None;
  checkGuess := λ _ _ _ _, Ok (mkGuessResult true "Artist" None (Some 100));
  DAILY_CHALLENGE_SALT := salt;
  Date_parse := λ _, None;
|}.

Definition ex_lyric : Lyric := mkLyric "la la" None None None true.
Definition ex_lyrics : gmap Z Lyric := list_to_map ((λ n, (Z.of_nat n, ex_lyric)) <$> seq 1 12).
Definition ex_day : string := "2026-09-26".
Definition ex_store : Store :=
  mkDb (<["a" := new_user "a" "" "ann" ""]> ∅) ∅ 1790467199000 0
    (mkChallengeDb ∅ [] ex_lyrics [] None).
Definition ex_set : Store := ex_store <| ext := ext ex_store <| challenges := {[ex_day := [4; 8]]} |> |>.
Definition ex_dto (lyricId : Z) : DailyGuessDto := mkDto lyricId "artist" "Artist" None.

(** What a step of server [i] makes of a state. *)
Definition serve_at (i : nat) (s : Store * list server) : Store * list server :=
  match s.2 !! i with
  | None => s
  | Some p =>
      match run_draw (H := s_deps p) (s_call p) (s.1 <| ext := ext s.1 <| cached := s_cached p |> |>) with
      | (Ok c', d') => (d', <[i := mkServer (s_deps p) (cached (ext d')) c']> s.2)
      | (Err e, d') => (d', <[i := mkServer (s_deps p) (cached (ext d')) (Failed (call_date (s_call p)))]> s.2)
      end
  end.

Lemma serve_at_step i s : is_Some (s.2 !! i) → serve s (serve_at i s).
Proof.
  intros [p Hp]. destruct s as [d ps]. unfold serve_at. cbn in *. rewrite Hp.
  destruct (run_draw _ _) as [[c'|e] d'] eqn:E; [by eapply serve_run|by eapply serve_throw].
Qed.

Definition ex_servers : list server :=
  [mkServer (ex_deps [1]) None (Asked ex_day); mkServer (ex_deps [2]) None (Asked ex_day)].
Definition ex_served : Store * list server :=
  foldl (λ s i, serve_at i s) (ex_store, ex_servers) [0; 1; 0; 1; 1; 0; 0; 1]%nat.

Lemma serve_at_star l s : (∀ i (s' : Store * list server), i ∈ l → length s'.2 = length s.2 → is_Some (s'.2 !! i)) →
  star serve s (foldl (λ s i, serve_at i s) s l).
Proof.
  revert s. induction l as [|i l IH]; intros s Hl; [apply star_refl|]. cbn.
  eapply star_step; [apply serve_at_step, Hl; [left|done]|]. apply IH.
  intros j s' Hj Hlen. apply Hl; [by right|]. rewrite Hlen. unfold serve_at.
  destruct (s.2 !! i); [|done]. by destruct (run_draw _ _) as [[?|?] ?]; cbn; rewrite length_insert.
Qed.

(** The second server's set is stored first, and both answer it. *)
Lemma daily_set_agreed_witness :
  star serve (ex_store, ex_servers) ex_served ∧
  ∃ ids, s_call <$> ex_served.2 = [Answered ex_day ids; Answered ex_day ids] ∧
    challenges (ext ex_served.1) !! ex_day = Some ids ∧ NoDup ids.
Proof.
  assert (star serve (ex_store, ex_servers) ex_served) as Hrun.
  { apply serve_at_star. intros i s' Hi Hlen. apply lookup_lt_is_Some_2. rewrite Hlen. cbn.
    repeat (apply elem_of_cons in Hi as [->|Hi]; [lia|]). by apply elem_of_nil in Hi. }
  split; [exact Hrun|].
  destruct ex_served as [d' ps'] eqn:E.
  destruct (daily_set_agreed ex_store ex_servers d' ps') as [_ Hall].
  - by apply map_Forall_empty.
  - intros p Hp. unfold ex_servers in Hp.
    repeat (apply elem_of_cons in Hp as [->|Hp]; [split; [reflexivity|eexists; reflexivity]|]).
    destruct (not_elem_of_nil _ Hp).
  - exact Hrun.
  - assert (∃ ids, s_call <$> ps' = [Answered ex_day ids; Answered ex_day ids]) as [ids Hids].
    { assert (ps' = ex_served.2) as -> by (by rewrite E). eexists. vm_compute. reflexivity. }
    exists ids. split; [exact Hids|].
    destruct ps' as [|p ps']; [done|]. injection Hids as Hp _.
    destruct (Hall p ex_day ids ltac:(left) Hp) as (H1 & H2 & _). split; [exact H1|exact H2].
Defined.

Lemma guess_scores_once_witness :
  ∃ res d', guess (H := ex_deps []) "a" (ex_dto 4) ex_set = (Ok res, d') ∧
    r_isCorrect res = true ∧ r_points res = 100 ∧ r_completed res = false ∧
    ∃ lyricIds d1, getDailyLyricIds (H := ex_deps []) ex_day ex_set = (Ok lyricIds, d1) ∧ 4 ∈ lyricIds.
Proof.
  destruct (guess (H := ex_deps []) "a" (ex_dto 4) ex_set) as [r d'] eqn:E.
  assert (r = Ok (mkDailyGuess true "Artist" "" 100 false)) as ->.
  { pose proof (f_equal fst E) as E1. cbn [fst] in E1. rewrite <-E1. vm_compute. reflexivity. }
  eexists _, d'. split; [reflexivity|]. split; [reflexivity|]. split; [reflexivity|].
  split; [reflexivity|].
  destruct (guess_scores_once (H := ex_deps []) _ _ _ _ _ E) as (ids & d1 & Hids & Hin & _).
  exists ids, d1. split; [exact Hids|exact Hin].
Defined.

Definition ex_tried : Store := ex_set <| ext := ext ex_set
  <| attempts := [mkAttempt "a" ex_day 4 "artist" true 100] |> |>.

Lemma guess_refused_free_witness :
  is_Some (users ex_tried !! "a") ∧
  is_ok (guess (H := ex_deps []) "a" (ex_dto 4) ex_tried).1 = false.
Proof.
  split; [eexists; reflexivity|].
  destruct (guess (H := ex_deps []) "a" (ex_dto 4) ex_tried) as [r d'] eqn:E.
  apply (guess_refused_free (H := ex_deps []) "a" (ex_dto 4) ex_tried r d').
  - exact E.
  - intros Hnew. apply (Hnew (mkAttempt "a" ex_day 4 "artist" true 100)); [left|reflexivity..].
Defined.

