(* ===== verification/Rooms.v ===== *)
(** * Rooms (src/src/rooms/rooms.service.ts)

    [RoomsService]: rooms that players join by id or by a short code, the one guess
    each player has, the views of a room, and the job that closes expired rooms.
    Calls of [join] and [submitGuess] are also cut at their database accesses, so that
    their interleavings can be reasoned about.

    The class declares some methods twice; the later declarations, which replace the
    earlier ones, are modelled. *)

From S2P Require Import Prelude Entities Matching.
From stdpp Require Import sorting.

#[local] Open Scope Z_scope.

#[local] Arguments String.append !_ _ /.
#[local] Arguments normalizeAnswer : simpl never.

(** ** Entities *)

Inductive RoomStatus := LOBBY | IN_PROGRESS | FINISHED.
#[export] Instance RoomStatus_eq_dec : EqDecision RoomStatus.
Proof. solve_decision. Defined.

Record Room := mkRoom {
  rm_id : string;
  rm_name : option string;
  rm_code : string;
  rm_lyricId : Z;
  rm_hostId : option string;
  rm_maxPlayers : Z;
  rm_status : RoomStatus;
  rm_startedAt : option Z;
  rm_roundCount : Z;
  rm_createdAt : Z;
  rm_expiresAt : option Z;
  rm_isClosed : bool;
}.
#[export] Instance Room_settable : Settable Room := λ r,
  mkRoom (rm_id r) (rm_name r) (rm_code r) (rm_lyricId r) (rm_hostId r) (rm_maxPlayers r)
    (rm_status r) (rm_startedAt r) (rm_roundCount r) (rm_createdAt r) (rm_expiresAt r)
    (rm_isClosed r).

Record RoomUser := mkRoomUser {
  ru_id : string;
  ru_userId : string;
  ru_roomId : string;
  ru_hasGuessed : bool;
  ru_score : Z;
  ru_guessedAt : option Z;
}.
#[export] Instance RoomUser_settable : Settable RoomUser := λ u,
  mkRoomUser (ru_id u) (ru_userId u) (ru_roomId u) (ru_hasGuessed u) (ru_score u)
    (ru_guessedAt u).

(** The tables of the service, keyed by primary key. *)
Record RoomsDb := mkRoomsDb {
  rooms : gmap string Room;
  roomUsers : gmap string RoomUser;
  lyrics : gmap Z Lyrics;
}.
#[export] Instance RoomsDb_settable : Settable RoomsDb := λ d,
  mkRoomsDb (rooms d) (roomUsers d) (lyrics d).

Local Abbreviation Store := (Db RoomsDb).
Local Abbreviation M := (M Store).

(** ** Constants and views *)

Definition DEFAULT_MAX_PLAYERS : Z := 8.
Definition MAX_PLAYERS_LIMIT : Z := 50.
Definition ROOM_CODE_ALPHABET : string := "ABCDEFGHJKLMNPQRSTUVWXYZ23456789".
Definition ROOM_CODE_LENGTH : nat := 6.
Definition ROOM_CODE_MAX_ATTEMPTS : nat := 5.
(** Twenty-four hours. *)
Definition ROOM_TTL_MS : Z := 24 * 60 * 60 * 1000.

Record RoomLyricView := mkLyricView {
  lv_id : Z;
  lv_lyricSnippet : string;
  lv_category : option string;
  lv_genre : string;
  lv_decade : string;
  lv_artist : option string;
  lv_songTitle : option string;
}.

Record RoomPlayerView := mkPlayerView {
  pv_id : string;
  pv_username : option string;
  pv_hasGuessed : bool;
  pv_score : Z;
}.

Record RoomStatusView := mkStatusView {
  sv_room : Room;
  sv_lyric : RoomLyricView;
  sv_players : list RoomPlayerView;
}.

Record RoomGuessResult := mkGuessResult {
  rg_roomId : string;
  rg_guessType : GuessType;
  rg_guess : text;
  rg_isCorrect : bool;  (** the truth value of what [matchGuess] returned *)
  rg_score : Z;
  rg_correctAnswer : string;
  rg_lyric : RoomLyricView;
}.

Record RoomResultEntry := mkEntry {
  re_rank : nat;
  re_userId : string;
  re_username : option string;
  re_score : Z;
  re_hasGuessed : bool;
}.

Record CreateRoomDto := mkCreate {
  dto_name : option string;
  dto_lyricId : option Z;
  dto_maxPlayers : option Z;
}.

(** What the service draws from: the database's uuids, [crypto.randomInt(0, n)] and
    [Math.floor(Math.random() * n)], by the number of values drawn so far. *)
Class RoomRandom := {
  uuid : nat → string;
  randomInt : nat → Z → Z;
  random_floor : nat → Z → Z;
}.

Definition next_draw : M nat :=
  n ← gets nonce;
  modify (λ d, d <| nonce := S (nonce d) |>);;
  mret n.

Definition modify_tables (f : RoomsDb → RoomsDb) : M unit :=
  modify (λ d, d <| ext := f (ext d) |>).

(** ** Queries *)

Definition findRoom (id : string) : M (option Room) := gets (λ d, rooms (ext d) !! id).
(** [where: { code }]; codes are unique. *)
Definition findRoomByCode (code : string) : M (option Room) :=
  gets (λ d, List.find (λ r, rm_code r == code) (map_to_list (rooms (ext d))).*2).

Definition members (roomId : string) (d : RoomsDb) : list RoomUser :=
  List.filter (λ u, ru_roomId u == roomId) (map_to_list (roomUsers d)).*2.
Definition findRoomUser (roomId userId : string) : M (option RoomUser) :=
  gets (λ d, List.find (λ u, ru_userId u == userId) (members roomId (ext d))).

(** ** Creating a room *)

Section RoomsService.
Context `{RoomRandom}.

(** The ids of the active lyrics, lowest first. *)
Definition activeIds (d : RoomsDb) : list Z :=
  merge_sort Z.le (map_to_list (filter (λ row, ly_isActive row.2 = true) (lyrics d))).*1.
(** [WHERE isActive AND id >= randomId ORDER BY id ASC], the first row. *)
Definition firstActiveFrom (randomId : Z) (d : RoomsDb) : option Lyrics :=
  id ← List.find (λ id, randomId <=? id) (activeIds d); lyrics d !! id.

Fixpoint pickAttempts (attempts : nat) (lo hi : Z) : M (option Lyrics) :=
  match attempts with
  | O => gets (λ d, head (activeIds (ext d)) ≫= λ id, lyrics (ext d) !! id)
  | S attempts =>
      n ← next_draw;
      let randomId := lo + random_floor n (hi - lo + 1) in
      lyric ← gets (λ d, firstActiveFrom randomId (ext d));
      match lyric with
      | Some lyric => mret (Some lyric)
      | None => pickAttempts attempts lo hi
      end
  end.

Definition pickRandomLyric : M (option Lyrics) :=
  ids ← gets (λ d, activeIds (ext d));
  match head ids, last ids with
  | Some lo, Some hi => pickAttempts 5 lo hi
  | _, _ => mret None
  end.

Definition normalizeMaxPlayers (requested : option Z) : result Z :=
  match requested with
  | None => Ok DEFAULT_MAX_PLAYERS
  | Some n => if n <? 1 then Err (BadRequest "maxPlayers must be a positive integer")
              else Ok (Z.min n MAX_PLAYERS_LIMIT)
  end.

(** [ROOM_CODE_ALPHABET[i]] *)
Definition code_char (i : Z) : string :=
  match String.get (Z.to_nat i) ROOM_CODE_ALPHABET with
  | Some c => String c ""
  | None => "undefined"
  end.

Fixpoint generateCode (n : nat) (code : string) : M string :=
  match n with
  | O => mret code
  | S n => draw ← next_draw; generateCode n (code +:+ code_char (randomInt draw 32))
  end.
Definition generateRoomCode : M string := generateCode ROOM_CODE_LENGTH "".

(** A room as the loop creates it: only these properties are set. *)
Definition newRoom (dto : CreateRoomDto) (code id : string) (lyric : Lyrics) (time : Z) : Room :=
  mkRoom id (dto_name dto) code (ly_id lyric) None DEFAULT_MAX_PLAYERS LOBBY None 0 time
    (Some (time + ROOM_TTL_MS)) false.

(** The insert; [false] when it violates a unique constraint. *)
Definition insertRoom (room : Room) : M bool :=
  taken ← gets (λ d, bool_decide (is_Some (rooms (ext d) !! rm_id room)) ||
    existsb (λ r, rm_code r == rm_code room) (map_to_list (rooms (ext d))).*2);
  if taken : bool then mret false
  else modify_tables (λ d, d <| rooms := <[rm_id room := room]> (rooms d) |>);; mret true.

(** The retries; [None] when every code collided. *)
Fixpoint saveWithCode (attempts : nat) (dto : CreateRoomDto) (lyric : Lyrics) : M (option Room) :=
  match attempts with
  | O => mret None
  | S attempts =>
      code ← generateRoomCode;
      n ← next_draw;
      time ← gets now;
      let room := newRoom dto code (uuid n) lyric time in
      saved ← insertRoom room;
      if saved : bool then mret (Some room) else saveWithCode attempts dto lyric
  end.

(** The room built after the loop is never saved. *)
Definition create (dto : CreateRoomDto) (hostId : option string) : M Room :=
  lyric ← match dto_lyricId dto with
    | Some id =>
        if id =? 0 then
          lyric ← pickRandomLyric; require lyric (NotFound "No lyrics available")
        else
          lyric ← gets (λ d, lyrics (ext d) !! id);
          require (lyric ≫= λ l, if ly_isActive l then Some l else None) (NotFound "Lyric not found")
    | None => lyric ← pickRandomLyric; require lyric (NotFound "No lyrics available")
    end;
  saved ← saveWithCode ROOM_CODE_MAX_ATTEMPTS dto lyric;
  match saved with
  | Some room => mret room
  | None =>
      _ ← generateRoomCode;
      _ ← lift (normalizeMaxPlayers (dto_maxPlayers dto));
      throw (Conflict "Could not generate a unique room code")
  end.

(** ** Joining *)

Definition assertPlayable (room : Room) : M unit :=
  throw_if (rm_isClosed room) (BadRequest "Room is closed");;
  time ← gets now;
  throw_if (match rm_expiresAt room with Some e => e <=? time | None => false end)
    (BadRequest "Room has expired").

Definition uniqueViolation : exn := PlainError "23505" "duplicate key value violates unique constraint".

(** The transaction: the room's row is locked, so nothing comes between the count and
    the insert.  Two rows of one player in one room violate a unique constraint. *)
Definition addPlayer (roomId userId : string) : M RoomUser :=
  lockedRoom ← findRoom roomId;
  lockedRoom ← require lockedRoom (NotFound "Room not found");
  currentCount ← gets (λ d, Z.of_nat (length (members roomId (ext d))));
  throw_if (rm_maxPlayers lockedRoom <=? currentCount) (Conflict "Room is full");;
  n ← next_draw;
  let roomUser := mkRoomUser (uuid n) userId roomId false 0 None in
  taken ← gets (λ d, bool_decide (is_Some (roomUsers (ext d) !! ru_id roomUser)) ||
    existsb (λ u, ru_userId u == userId) (members roomId (ext d)));
  throw_if taken uniqueViolation;;
  modify_tables (λ d, d <| roomUsers := <[ru_id roomUser := roomUser]> (roomUsers d) |>);;
  mret roomUser.

(** What [join] and [joinByCode] check before they add the player. *)
Definition checkAdmission (room : option Room) (userId : string) : M Room :=
  room ← require room (NotFound "Room not found");
  assertPlayable room;;
  existing ← findRoomUser (rm_id room) userId;
  throw_if (bool_decide (is_Some existing)) (Conflict "User already joined this room");;
  mret room.

Definition join (roomId userId : string) : M RoomUser :=
  room ← findRoom roomId; room ← checkAdmission room userId; addPlayer (rm_id room) userId.

(** [toUpperCase], on ASCII letters. *)
Definition upper_char (c : Ascii.ascii) : Ascii.ascii :=
  let n := Ascii.nat_of_ascii c in
  if ((97 <=? n) && (n <=? 122))%nat then Ascii.ascii_of_nat (n - 32) else c.

Definition joinByCode (code userId : string) : M RoomUser :=
  room ← findRoomByCode (string_map upper_char (trim code));
  room ← checkAdmission room userId; addPlayer (rm_id room) userId.

(** ** Views *)

Definition toLyricView (lyric : Lyrics) (reveal : bool) : RoomLyricView :=
  mkLyricView (ly_id lyric) (ly_lyricSnippet lyric) (ly_category lyric) (ly_genre lyric)
    (ly_decade lyric) (if reveal then Some (ly_artist lyric) else None)
    (if reveal then Some (ly_songTitle lyric) else None).

Definition toPlayerView (d : Store) (u : RoomUser) : RoomPlayerView :=
  mkPlayerView (ru_userId u) (u_username <$> users d !! ru_userId u) (ru_hasGuessed u) (ru_score u).

(** The relation [lyric] of a room; a foreign key says that the row exists. *)
Definition room_lyric (room : Room) : M Lyrics :=
  lyric ← gets (λ d, lyrics (ext d) !! rm_lyricId room);
  require lyric (PlainError "TypeError" "Cannot read properties of undefined").

Definition toStatusView (room : Room) (userId : string) : M RoomStatusView :=
  roomUser ← findRoomUser (rm_id room) userId;
  lyric ← room_lyric room;
  players ← gets (λ d, toPlayerView d <$> members (rm_id room) (ext d));
  mret (mkStatusView room
    (toLyricView lyric (match roomUser with Some u => ru_hasGuessed u | None => false end)) players).

Definition getRoomStatus (roomId userId : string) : M RoomStatusView :=
  room ← findRoom roomId;
  room ← require room (NotFound "Room not found");
  roomUser ← findRoomUser roomId userId;
  throw_if (bool_decide (roomUser = None)) (NotFound "User has not joined this room");;
  toStatusView room userId.

Definition start (roomId userId : string) : M RoomStatusView :=
  room ← findRoom roomId;
  room ← require room (NotFound "Room not found");
  throw_if (negb (bool_decide (rm_hostId room = Some userId)))
    (Forbidden "Only the host can start this room");;
  throw_if (negb (bool_decide (rm_status room = LOBBY))) (Conflict "Room has already started");;
  assertPlayable room;;
  time ← gets now;
  let roundCount := if 0 <? rm_roundCount room then rm_roundCount room else 1 in
  let room := room <| rm_status := IN_PROGRESS |> <| rm_startedAt := Some time |>
    <| rm_roundCount := roundCount |> in
  modify_tables (λ d, d <| rooms := alter (λ r, r <| rm_status := IN_PROGRESS |>
    <| rm_startedAt := Some time |> <| rm_roundCount := roundCount |>) roomId (rooms d) |>);;
  toStatusView room userId.

(** [(a, b) => b.score - a.score] *)
Definition score_before (a b : RoomUser) : Prop := ru_score b ≤ ru_score a.
#[global] Instance score_before_dec : RelDecision score_before.
Proof. intros a b. unfold score_before. apply _. Defined.

Definition getResults (roomId : string) : M (list RoomResultEntry) :=
  room ← findRoom roomId;
  room ← require room (NotFound "Room not found");
  throw_if (negb (bool_decide (rm_status room = FINISHED))) (Conflict "Room is not finished yet");;
  gets (λ d, imap (λ index u, mkEntry (index + 1) (ru_userId u) (u_username <$> users d !! ru_userId u)
      (ru_score u) (ru_hasGuessed u))
    (merge_sort score_before (members roomId (ext d)))).

Definition newest_first (a b : Room) : Prop := rm_createdAt b ≤ rm_createdAt a.
#[global] Instance newest_first_dec : RelDecision newest_first.
Proof. intros a b. unfold newest_first. apply _. Defined.

Definition is_open (time : Z) (room : Room) : bool :=
  negb (rm_isClosed room) && match rm_expiresAt room with Some e => time <? e | None => true end.

(** The page, the number of open rooms, and whether there are more. *)
Definition findOpenRooms (limit offset : nat) : M (list Room * nat * bool) :=
  gets (λ d, let all := merge_sort newest_first
      (List.filter (is_open (now d)) (map_to_list (rooms (ext d))).*2) in
    let items := take limit (drop offset all) in
    (items, length all, (offset + length items <? length all)%nat)).
End RoomsService.

(** ** Guessing *)

Section guessing.
Context `{Unicode}.

(** [matchGuess(guess, lyric, guessType)]: the matcher is called with the lyric's row in
    the place of the answer and the guess type in that of the aliases.  A guess that
    normalises to nothing is answered before they are looked at; otherwise
    [normalizeAnswer] calls [normalize] on the row. *)
Definition matchLyric (guess : text) : result GuessMatch :=
  if bool_decide (normalizeAnswer (Some guess) = []) then Ok (mkGuess false false 0)
  else Err (PlainError "TypeError" "value.normalize is not a function").

Definition calculateScore (guessType : GuessType) : Z :=
  match guessType with SONG_TITLE => 100 | ARTIST => 50 end.

(** [UPDATE ... SET hasGuessed = true WHERE id = :id AND hasGuessed = false]: whether
    the row was changed. *)
Definition claimGuess (id : string) : M bool :=
  row ← gets (λ d, roomUsers (ext d) !! id);
  match row with
  | Some row =>
      if ru_hasGuessed row then mret false
      else
        time ← gets now;
        modify_tables (λ d, d <| roomUsers :=
          <[id := row <| ru_hasGuessed := true |> <| ru_guessedAt := Some time |>]> (roomUsers d) |>);;
        mret true
  | None => mret false
  end.

Definition saveScore (id : string) (score : Z) : M unit :=
  modify_tables (λ d, d <| roomUsers := alter (λ u, u <| ru_score := score |>) id (roomUsers d) |>).

(** [submitGuess] up to its claim, and after it. *)
Definition openGuess (roomId userId : string) : M (Room * RoomUser) :=
  room ← findRoom roomId;
  room ← require room (NotFound "Room not found");
  assertPlayable room;;
  roomUser ← findRoomUser roomId userId;
  roomUser ← require roomUser (NotFound "User has not joined this room");
  mret (room, roomUser).

(** [const isCorrect = matchGuess(...)] is an object, and every object is true. *)
Definition scoreGuess (room : Room) (id : string) (guessType : option GuessType) (guess : text) :
    M RoomGuessResult :=
  lyric ← room_lyric room;
  let guessType := default SONG_TITLE guessType in
  _ ← lift (matchLyric guess);
  let score := calculateScore guessType in
  saveScore id score;;
  mret (mkGuessResult (rm_id room) guessType guess true score
    (ly_artist lyric +:+ " - " +:+ ly_songTitle lyric) (toLyricView lyric true)).

Definition submitGuess (roomId userId : string) (guessType : option GuessType) (guess : text) :
    M RoomGuessResult :=
  '(room, roomUser) ← openGuess roomId userId;
  claim ← claimGuess (ru_id roomUser);
  throw_if (negb claim) (Conflict "You have already guessed in this room");;
  scoreGuess room (ru_id roomUser) guessType guess.
End guessing.

(** ** Closing expired rooms *)

Definition is_expired (time : Z) (room : Room) : bool :=
  negb (rm_isClosed room) && match rm_expiresAt room with Some e => e <=? time | None => false end.

(** [closeExpiredRooms], by whether the job lock was granted: the expired rooms are
    read, and closed by their ids. *)
Definition closeExpiredRooms (acquired : bool) : M unit :=
  if negb acquired then mret tt
  else
    time ← gets now;
    expired ← gets (λ d, rm_id <$> List.filter (is_expired time) (map_to_list (rooms (ext d))).*2);
    if bool_decide (expired = []) then mret tt
    else modify_tables (λ d, d <| rooms := map_imap (λ id room,
      Some (if bool_decide (id ∈ expired) then room <| rm_isClosed := true |> else room)) (rooms d) |>).

(** ** Interleaved calls

    A call of [join] or [submitGuess] is at one of its database accesses; [Refused] is a
    call that threw. *)

Inductive room_call :=
  | JoinAsked (roomId userId : string)
  | JoinFound (room : Room) (userId : string)
  | JoinAdmitted (roomId userId : string)
  | Joined (roomUser : RoomUser)
  | GuessAsked (roomId userId : string) (guessType : option GuessType) (guess : text)
  | GuessFound (room : Room) (userId : string) (guessType : option GuessType) (guess : text)
  | GuessOpened (room : Room) (id : string) (guessType : option GuessType) (guess : text)
  | GuessClaimed (room : Room) (id : string) (guessType : option GuessType) (guess : text)
  | GuessDone (id : string)
  | Refused.

Definition run_room `{RoomRandom, Unicode} (c : room_call) : M room_call :=
  match c with
  | JoinAsked roomId userId =>
      room ← findRoom roomId; room ← require room (NotFound "Room not found");
      assertPlayable room;; mret (JoinFound room userId)
  | JoinFound room userId =>
      existing ← findRoomUser (rm_id room) userId;
      throw_if (bool_decide (is_Some existing)) (Conflict "User already joined this room");;
      mret (JoinAdmitted (rm_id room) userId)
  | JoinAdmitted roomId userId => roomUser ← addPlayer roomId userId; mret (Joined roomUser)
  | GuessAsked roomId userId guessType guess =>
      room ← findRoom roomId; room ← require room (NotFound "Room not found");
      assertPlayable room;; mret (GuessFound room userId guessType guess)
  | GuessFound room userId guessType guess =>
      roomUser ← findRoomUser (rm_id room) userId;
      roomUser ← require roomUser (NotFound "User has not joined this room");
      mret (GuessOpened room (ru_id roomUser) guessType guess)
  | GuessOpened room id guessType guess =>
      claim ← claimGuess id;
      throw_if (negb claim) (Conflict "You have already guessed in this room");;
      mret (GuessClaimed room id guessType guess)
  | GuessClaimed room id guessType guess =>
      _ ← scoreGuess room id guessType guess; mret (GuessDone id)
  | Joined _ | GuessDone _ | Refused => mret c
  end.

(** The call after a step; a claimed guess stays claimed when its scoring throws. *)
Definition after (c : room_call) (r : result room_call) : room_call :=
  match r, c with
  | Ok c', _ => c'
  | Err _, GuessClaimed _ id _ _ => GuessDone id
  | Err _, _ => Refused
  end.

(** One call takes a step, a whole [create], [start] or [closeExpiredRooms] runs, or
    the rest of the system changes other tables or the time. *)
Inductive room_step `{RoomRandom, Unicode} : relation (Store * list room_call) :=
  | step_call d cs i c r d' : cs !! i = Some c → run_room c d = (r, d') →
      room_step (d, cs) (d', <[i := after c r]> cs)
  | step_create d cs dto hostId r d' : create dto hostId d = (r, d') → room_step (d, cs) (d', cs)
  | step_start d cs roomId userId r d' : start roomId userId d = (r, d') → room_step (d, cs) (d', cs)
  | step_close d cs acquired r d' : closeExpiredRooms acquired d = (r, d') → room_step (d, cs) (d', cs)
  | step_other d d' cs : rooms (ext d') = rooms (ext d) → roomUsers (ext d') = roomUsers (ext d) →
      room_step (d, cs) (d', cs).

(** ** Invariant *)

Definition in_alphabet (c : Ascii.ascii) : bool :=
  existsb (Ascii.eqb c) (String.list_ascii_of_string ROOM_CODE_ALPHABET).
#[local] Arguments in_alphabet : simpl never.
Definition code_ok (code : string) : Prop :=
  String.length code = 6%nat ∧ string_forallb in_alphabet code = true.

(** A room nobody can start: no host, still in the lobby, eight seats. *)
Record room_ok (id : string) (room : Room) : Prop := {
  rk_id : rm_id room = id;
  rk_host : rm_hostId room = None;
  rk_status : rm_status room = LOBBY;
  rk_seats : rm_maxPlayers room = 8;
  rk_code : code_ok (rm_code room);
}.

Record rooms_ok (d : RoomsDb) : Prop := {
  ok_room id room : rooms d !! id = Some room → room_ok id room;
  ok_codes id1 r1 id2 r2 : rooms d !! id1 = Some r1 → rooms d !! id2 = Some r2 →
    rm_code r1 = rm_code r2 → id1 = id2;
  ok_users id u : roomUsers d !! id = Some u → ru_id u = id;
  ok_members id1 u1 id2 u2 : roomUsers d !! id1 = Some u1 → roomUsers d !! id2 = Some u2 →
    ru_roomId u1 = ru_roomId u2 → ru_userId u1 = ru_userId u2 → id1 = id2;
  ok_seats roomId : (length (members roomId d) ≤ 8)%nat;
}.

(** *** Members of a room *)

Lemma elem_of_members roomId d u : u ∈ members roomId d ↔
  ru_roomId u = roomId ∧ ∃ id, roomUsers d !! id = Some u.
Proof.
  unfold members. rewrite list_elem_of_In, filter_In, <-list_elem_of_In, bool_decide_eq_true.
  rewrite list_elem_of_fmap. split.
  - intros [([id u'] & -> & Hin%elem_of_map_to_list) Hr]. eauto.
  - intros [Hr [id Hid]]. split; [|done]. exists (id, u). split; [done|]. by apply elem_of_map_to_list.
Qed.

Lemma members_insert roomId d id u : roomUsers d !! id = None →
  members roomId (d <| roomUsers := <[id := u]> (roomUsers d) |>)
  ≡ₚ (if ru_roomId u == roomId then [u] else []) ++ members roomId d.
Proof.
  intros Hid. unfold members. cbn [roomUsers set_field].
  etrans; [apply bfilter_Permutation; rewrite map_to_list_insert by done; done|].
  cbn. by case_bool_decide.
Qed.

(** Changing a row in place changes no count. *)
Lemma members_update roomId d id u u' : roomUsers d !! id = Some u → ru_roomId u' = ru_roomId u →
  length (members roomId (d <| roomUsers := <[id := u']> (roomUsers d) |>)) = length (members roomId d).
Proof.
  intros Hid Hr.
  set (d0 := d <| roomUsers := delete id (roomUsers d) |>).
  transitivity (length (members roomId (d0 <| roomUsers := <[id := u']> (roomUsers d0) |>))).
  { f_equal. unfold members. cbn. by rewrite insert_delete_eq. }
  transitivity (length (members roomId (d0 <| roomUsers := <[id := u]> (roomUsers d0) |>))).
  { rewrite !members_insert by apply lookup_delete_eq. rewrite Hr, !length_app. by case_bool_decide. }
  f_equal. unfold members. cbn. by rewrite insert_delete_id.
Qed.

Lemma members_NoDup roomId d : rooms_ok d → NoDup (ru_userId <$> members roomId d).
Proof.
  intros Hok. apply NoDup_fmap_2_strong.
  - intros u v [Hu [i Hi]]%elem_of_members [Hv [j Hj]]%elem_of_members He.
    assert (i = j) as -> by (eapply (ok_members _ Hok); [exact Hi|exact Hj|congruence|done]). congruence.
  - apply NoDup_ListNoDup, List.NoDup_filter, NoDup_ListNoDup. apply NoDup_fmap_2_strong; [|apply NoDup_map_to_list].
    intros [i u] [j v] Hi%elem_of_map_to_list Hj%elem_of_map_to_list He. cbn in He. subst v.
    f_equal. apply (ok_users _ Hok) in Hi, Hj. congruence.
Qed.

(** *** What the calls leave alone *)

(** Nothing changed that the invariant speaks of. *)
Definition same_tables : relation Store := λ d d',
  rooms (ext d') = rooms (ext d) ∧ roomUsers (ext d') = roomUsers (ext d).
#[local] Instance same_tables_refl : Reflexive same_tables.
Proof. by split. Qed.
#[local] Instance same_tables_trans : Transitive same_tables.
Proof. intros d1 d2 d3 [? ?] [? ?]. split; congruence. Qed.

Lemma rooms_ok_same (d d' : Store) : same_tables d d' → rooms_ok (ext d) → rooms_ok (ext d').
Proof.
  intros [Hr Hu] [H1 H2 H3 H4 H5]. split; rewrite ?Hr, ?Hu; try done.
  intros roomId. unfold members. rewrite Hu. apply H5.
Qed.

(** Decompose a handler that stays within the preorder [R]. *)
Ltac frame R :=
  repeat first
    [ apply (preserves_ret R) | apply (preserves_gets R)
    | apply (preserves_throw R) | apply (preserves_lift R)
    | apply (preserves_throw_if R) | apply (preserves_require R)
    | apply (preserves_modify R); by repeat split
    | assumption
    | apply (preserves_bind R); [|intros] | case_goal ].
Ltac frame_tables := frame same_tables.

Lemma next_draw_frame : preserves same_tables next_draw.
Proof. unfold next_draw. frame_tables. Qed.

Lemma assertPlayable_frame room : preserves same_tables (assertPlayable room).
Proof. unfold assertPlayable. frame_tables. Qed.

Section frames.
Context `{RoomRandom}.

Lemma pickAttempts_frame n lo hi : preserves same_tables (pickAttempts n lo hi).
Proof.
  induction n as [|n IH]; cbn [pickAttempts]; [frame_tables|].
  pose proof next_draw_frame. frame_tables.
Qed.

Lemma pickRandomLyric_frame : preserves same_tables pickRandomLyric.
Proof.
  unfold pickRandomLyric. apply (preserves_bind same_tables); [frame_tables|]. intros ids.
  destruct (head ids), (last ids); first [apply pickAttempts_frame | frame_tables].
Qed.

Lemma toStatusView_frame room userId : preserves same_tables (toStatusView room userId).
Proof. unfold toStatusView, findRoomUser, room_lyric. frame_tables. Qed.

(** *** Room codes *)

(** [crypto.randomInt(0, n)] is at least 0 and below [n]. *)
Class RandomIntLaw : Prop := randomInt_bound n k : 0 < k → 0 ≤ randomInt n k < k.
Context `{!RandomIntLaw}.

Lemma string_forallb_append p s t :
  string_forallb p (s +:+ t) = string_forallb p s && string_forallb p t.
Proof. induction s as [|c s IH]; [done|]. cbn. by rewrite IH, andb_assoc. Qed.

Lemma code_char_ok i : 0 ≤ i < 32 →
  ∃ c, code_char i = String c "" ∧ in_alphabet c = true.
Proof.
  intros Hi. rewrite <-(Z2Nat.id i) by lia. assert (Z.to_nat i < 32)%nat as Hn by lia.
  generalize dependent (Z.to_nat i). clear i Hi. intros n Hn. unfold code_char. rewrite Nat2Z.id.
  do 32 (destruct n as [|n]; [eexists; split; reflexivity|]). lia.
Qed.

Lemma generateCode_ok n code d r d' : generateCode n code d = (r, d') →
  same_tables d d' ∧ ∃ code', r = Ok code' ∧
    String.length code' = (String.length code + n)%nat ∧
    string_forallb in_alphabet code' = string_forallb in_alphabet code.
Proof.
  revert code d. induction n as [|n IH]; intros code d; cbn [generateCode].
  - intros [= <- <-]. split; [done|]. exists code. split; [done|]. split; [lia|done].
  - unfold next_draw. rewrite !bind_assoc, bind_gets, bind_assoc, bind_modify, bind_ret.
    intros (Hs & code' & -> & Hl & Ha)%IH.
    destruct (code_char_ok (randomInt (nonce d) 32)) as (c & Hc & Hin); [by apply randomInt_bound|].
    split; [done|]. exists code'. split; [done|]. rewrite Hl, Ha, Hc, string_forallb_append. cbn.
    rewrite Hin, !andb_true_r. split; [|done].
    assert (∀ s t, String.length (s +:+ t) = (String.length s + String.length t)%nat) as Happ
      by (intros s t; induction s; cbn; lia).
    rewrite Happ. cbn. lia.
Qed.

Lemma generateRoomCode_ok d r d' : generateRoomCode d = (r, d') →
  same_tables d d' ∧ ∃ code, r = Ok code ∧ code_ok code.
Proof.
  intros (Hs & code & -> & Hl & Ha)%generateCode_ok. split; [done|]. exists code. by repeat split.
Qed.

(** *** The handlers keep the invariant *)

Lemma insertRoom_ok room d r d' : insertRoom room d = (r, d') → rooms_ok (ext d) →
  room_ok (rm_id room) room → rooms_ok (ext d').
Proof.
  intros Hrun Hok Hroom. unfold insertRoom in Hrun. rewrite bind_gets in Hrun.
  destruct (_ || _) eqn:Htaken; [by injection Hrun as <- <-|].
  injection Hrun as <- <-. apply orb_false_iff in Htaken as [Hid Hcode].
  apply bool_decide_eq_false, eq_None_not_Some in Hid.
  assert (∀ id r', rooms (ext d) !! id = Some r' → rm_code r' ≠ rm_code room) as Hfresh.
  { intros id r' Hr' He. apply not_true_iff_false in Hcode. apply Hcode, existsb_exists.
    exists r'. split; [|by apply bool_decide_eq_true]. apply list_elem_of_In, list_elem_of_fmap.
    exists (id, r'). split; [done|]. by apply elem_of_map_to_list. }
  destruct Hok as [H1 H2 H3 H4 H5]. split; cbn; try done.
  - intros id r'. rewrite lookup_insert_Some. intros [[<- <-]|[_ ?]]; [done|by apply H1].
  - intros id1 r1 id2 r2. rewrite !lookup_insert_Some.
    intros [[<- <-]|[? Hr1]] [[<- <-]|[? Hr2]] He; [done| | |by eapply H2].
    + by destruct (Hfresh _ _ Hr2).
    + by destruct (Hfresh _ _ Hr1).
Qed.

Lemma saveWithCode_ok n dto lyric d r d' : saveWithCode n dto lyric d = (r, d') →
  rooms_ok (ext d) → rooms_ok (ext d').
Proof.
  revert d. induction n as [|n IH]; intros d; cbn [saveWithCode].
  - by intros [= <- <-].
  - destruct (generateRoomCode d) as [r1 d1] eqn:E1.
    apply generateRoomCode_ok in E1 as H1. destruct H1 as (Hs1 & code & -> & Hcode).
    rewrite (bind_run _ _ _ _ _ E1). unfold next_draw.
    rewrite !bind_assoc, bind_gets, bind_assoc, bind_modify, bind_ret, bind_gets. cbv zeta.
    intros Hrun Hok. revert Hrun. case_bind E2; intros Hrun;
      (apply insertRoom_ok in E2; [|by eapply rooms_ok_same; [|exact Hok]|by split]).
    + destruct a; [by injection Hrun as <- <-|by eapply IH].
    + by injection Hrun as <- <-.
Qed.

Lemma create_ok dto hostId d r d' : create dto hostId d = (r, d') →
  rooms_ok (ext d) → rooms_ok (ext d').
Proof.
  unfold create. intros Hrun Hok.
  set (choose := match dto_lyricId dto with Some _ => _ | None => _ end) in Hrun.
  assert (preserves same_tables choose) as Hf.
  { pose proof pickRandomLyric_frame. subst choose. destruct (dto_lyricId dto) as [id|]; [destruct (id =? 0)|];
      frame_tables. }
  revert Hrun. case_bind E1; intros Hrun; apply Hf, rooms_ok_same in E1; [|done|by injection Hrun as <- <-|done].
  revert Hrun. case_bind E2; intros Hrun; apply saveWithCode_ok in E2;
    [|done|by injection Hrun as <- <-|done].
  destruct a0; [by injection Hrun as <- <-|]. revert Hrun.
  case_bind E3; intros Hrun; apply generateRoomCode_ok in E3 as [Hs3 _];
    eapply rooms_ok_same; [|exact E2| |exact E2].
  - destruct (normalizeMaxPlayers _); injection Hrun as <- <-; done.
  - by injection Hrun as <- <-.
Qed.
End frames.

(** Without a host nobody can start a room. *)
Lemma start_refused roomId userId d : rooms_ok (ext d) →
  start roomId userId d = (Err (match rooms (ext d) !! roomId with
    | Some _ => Forbidden "Only the host can start this room"
    | None => NotFound "Room not found" end), d).
Proof.
  intros Hok. unfold start, findRoom. rewrite bind_gets, bind_require.
  destruct (rooms (ext d) !! roomId) as [room|] eqn:E; [|done].
  rewrite bind_throw_if, (rk_host _ _ (ok_room _ Hok _ _ E)). by rewrite bool_decide_false.
Qed.

Lemma close_ok acquired d r d' : closeExpiredRooms acquired d = (r, d') →
  rooms_ok (ext d) → rooms_ok (ext d').
Proof.
  unfold closeExpiredRooms. destruct acquired; [|by intros [= <- <-]]. cbn [negb].
  rewrite !bind_gets. set (expired := rm_id <$> _). case_bool_decide; [by intros [= <- <-]|].
  intros [= <- <-] [H1 H2 H3 H4 H5].
  assert (∀ id room, map_imap (λ id room, Some (if bool_decide (id ∈ expired)
      then room <| rm_isClosed := true |> else room)) (rooms (ext d)) !! id = Some room →
    ∃ room0, rooms (ext d) !! id = Some room0 ∧ rm_code room = rm_code room0 ∧
      (room_ok id room0 → room_ok id room)) as Hsrc.
  { intros id room. rewrite map_lookup_imap. intros (room0 & Hr & [= <-])%bind_Some.
    exists room0. case_bool_decide; [|done]. split_and!; [done..|]. by intros []. }
  split; cbn; [| |exact H3|exact H4|exact H5].
  - intros id room (room0 & Hr & _ & Hk)%Hsrc. by apply Hk, H1.
  - intros id1 r1 id2 r2 (r1' & Hr1 & Hc1 & _)%Hsrc (r2' & Hr2 & Hc2 & _)%Hsrc He.
    eapply H2; [exact Hr1|exact Hr2|congruence].
Qed.

(** The membership's guess is spent. *)
Definition guessed (id : string) (d : Store) : Prop :=
  ∃ u, roomUsers (ext d) !! id = Some u ∧ ru_hasGuessed u = true.
(** Spent guesses stay spent. *)
Definition guesses_kept : relation Store := λ d d', ∀ id, guessed id d → guessed id d'.
#[local] Instance guesses_kept_preorder : PreOrder guesses_kept.
Proof. split; [by intros d id|intros d1 d2 d3 H1 H2 id H; by apply H2, H1]. Qed.

Lemma same_guesses d d' : roomUsers (ext d') = roomUsers (ext d) → guesses_kept d d'.
Proof. intros He id [u Hu]. exists u. by rewrite He. Qed.

Lemma addPlayer_ok `{RoomRandom} roomId userId d r d' : addPlayer roomId userId d = (r, d') →
  rooms_ok (ext d) → rooms_ok (ext d') ∧ guesses_kept d d'.
Proof.
  intros Hrun Hok. unfold addPlayer, findRoom, next_draw in Hrun.
  rewrite bind_gets, bind_require in Hrun.
  destruct (rooms (ext d) !! roomId) as [room|] eqn:Hroom; [|injection Hrun as <- <-; split; [exact Hok|by apply same_guesses]].
  rewrite bind_gets, bind_throw_if in Hrun.
  destruct (Z.leb_spec (rm_maxPlayers room) (Z.of_nat (length (members roomId (ext d)))));
    [injection Hrun as <- <-; split; [exact Hok|by apply same_guesses]|].
  rewrite (rk_seats _ _ (ok_room _ Hok _ _ Hroom)) in *.
  rewrite !bind_assoc, bind_gets, bind_assoc, bind_modify, bind_ret, bind_gets, bind_throw_if in Hrun.
  destruct (_ || _) eqn:Htaken; [injection Hrun as <- <-; split; [exact Hok|by apply same_guesses]|].
  injection Hrun as <- <-. cbn in Htaken. apply orb_false_iff in Htaken as [Hid Hmem].
  apply bool_decide_eq_false, eq_None_not_Some in Hid.
  set (u := mkRoomUser _ _ _ _ _ _). change (roomUsers (ext d) !! ru_id u = None) in Hid.
  assert (∀ id u', roomUsers (ext d) !! id = Some u' → ru_roomId u' = roomId →
    ru_userId u' ≠ userId) as Hnew.
  { intros id u' Hu' Hr He. apply not_true_iff_false in Hmem. apply Hmem, existsb_exists.
    exists u'. split; [|by apply bool_decide_eq_true]. apply list_elem_of_In, elem_of_members. eauto. }
  split; [|intros id (u0 & Hu0 & Hg); exists u0; split; [|done]; apply lookup_insert_Some;
    right; split; [intros <-; cbn in Hid; congruence|done]].
  destruct Hok as [H1 H2 H3 H4 H5]. split; cbn; [exact H1|exact H2|..].
  - intros id u'. rewrite lookup_insert_Some. intros [[<- <-]|[_ ?]]; [done|by apply H3].
  - intros id1 u1 id2 u2. rewrite !lookup_insert_Some.
    intros [[<- <-]|[? Hu1]] [[<- <-]|[? Hu2]] Hr He; [done| | |by eapply H4].
    + by destruct (Hnew _ _ Hu2).
    + by destruct (Hnew _ _ Hu1).
  - intros roomId'. specialize (H5 roomId').
    change (length (members roomId' (ext d <| roomUsers := <[ru_id u := u]> (roomUsers (ext d)) |>)) ≤ 8)%nat.
    rewrite (members_insert roomId' (ext d) (ru_id u) u Hid), length_app.
    case_bool_decide as He; cbn in *; [subst roomId'; lia|done].
Qed.

(** Rewriting the row of a player, who stays in the room. *)
Lemma rooms_ok_update (d : RoomsDb) id u u' : roomUsers d !! id = Some u →
  ru_id u' = ru_id u → ru_roomId u' = ru_roomId u → ru_userId u' = ru_userId u →
  rooms_ok d → rooms_ok (d <| roomUsers := <[id := u']> (roomUsers d) |>).
Proof.
  intros Hid H1 H2 H3 [K1 K2 K3 K4 K5].
  assert (∀ id0 v, <[id := u']> (roomUsers d) !! id0 = Some v → ∃ v0, roomUsers d !! id0 = Some v0 ∧
    ru_id v = ru_id v0 ∧ ru_roomId v = ru_roomId v0 ∧ ru_userId v = ru_userId v0) as Hsrc.
  { intros id0 v. rewrite lookup_insert_Some. intros [[<- <-]|[_ ?]]; eauto 10. }
  split; cbn; [exact K1|exact K2|..].
  - intros id0 v (v0 & Hv & -> & _)%Hsrc. by apply K3.
  - intros i1 v1 i2 v2 (w1 & Hw1 & _ & Hr1 & Hu1)%Hsrc (w2 & Hw2 & _ & Hr2 & Hu2)%Hsrc Hr Hu.
    eapply K4; [exact Hw1|exact Hw2|congruence..].
  - intros roomId. specialize (K5 roomId).
    change (length (members roomId (d <| roomUsers := <[id := u']> (roomUsers d) |>)) ≤ 8)%nat.
    etrans; [apply Nat.eq_le_incl, (members_update roomId d id u u' Hid H2)|exact K5].
Qed.

(** The claim wins exactly when the membership's guess was not spent, and spends it. *)
Lemma claimGuess_run id d r d' : claimGuess id d = (r, d') → rooms_ok (ext d) →
  rooms_ok (ext d') ∧ guesses_kept d d' ∧
  ∃ won, r = Ok won ∧ (won = true → ¬ guessed id d ∧ guessed id d').
Proof.
  unfold claimGuess. rewrite bind_gets. intros Hrun Hok.
  destruct (roomUsers (ext d) !! id) as [u|] eqn:Hu;
    [|injection Hrun as <- <-; split_and!; [done..|by exists false]].
  destruct (ru_hasGuessed u) eqn:Hg; [injection Hrun as <- <-; split_and!; [done..|by exists false]|].
  rewrite bind_gets in Hrun. injection Hrun as <- <-.
  split; [by eapply (rooms_ok_update (ext d) id u)|]. split.
  - intros id' (u0 & Hu0 & Hg0). unfold guessed. cbn. exists u0. rewrite lookup_insert_ne; [done|congruence].
  - exists true. split; [done|]. intros _. split; [intros (u0 & Hu0 & Hg0); congruence|].
    eexists. cbn. by rewrite lookup_insert_eq.
Qed.

(** *** Reading *)

Lemma assertPlayable_open room d : is_open (now d) room = true → assertPlayable room d = (Ok tt, d).
Proof.
  unfold is_open, assertPlayable. intros [Hc He]%andb_true_iff. rewrite negb_true_iff in Hc.
  rewrite bind_throw_if, Hc, bind_gets. unfold throw_if.
  destruct (rm_expiresAt room) as [e|]; [|done]. apply Z.ltb_lt in He.
  by destruct (Z.leb_spec e (now d)); [lia|].
Qed.

Lemma find_member roomId userId d u : rooms_ok d → u ∈ members roomId d → ru_userId u = userId →
  List.find (λ u, ru_userId u == userId) (members roomId d) = Some u.
Proof.
  intros Hok Hu Hid. destruct (List.find _ _) as [v|] eqn:E.
  - apply find_some in E as [Hv%list_elem_of_In Hv2%bool_decide_eq_true]. f_equal.
    apply elem_of_members in Hu as [Hr [i Hi]], Hv as [Hr' [j Hj]].
    assert (i = j) as -> by (eapply (ok_members _ Hok); [exact Hi|exact Hj|congruence..]). congruence.
  - apply find_none with (x := u) in E; [|by apply list_elem_of_In].
    by apply bool_decide_eq_false in E.
Qed.

Lemma existsb_false {A} (f : A → bool) l : (∀ x, x ∈ l → f x = false) → existsb f l = false.
Proof.
  intros Hf. apply not_true_iff_false. intros (x & Hx%list_elem_of_In & Ht)%existsb_exists.
  apply Hf in Hx. congruence.
Qed.

Lemma find_false {A} (f : A → bool) l : (∀ x, x ∈ l → f x = false) → List.find f l = None.
Proof.
  intros Hf. destruct (List.find f l) as [x|] eqn:E; [|done].
  apply find_some in E as [Hx%list_elem_of_In Ht]. apply Hf in Hx. congruence.
Qed.

Lemma filter_once {A} (f : A → bool) l :
  (∀ i j x y, l !! i = Some x → l !! j = Some y → f x = true → f y = true → i = j) →
  (length (List.filter f l) ≤ 1)%nat.
Proof.
  induction l as [|x l IH]; intros Hf; cbn; [lia|]. destruct (f x) eqn:Ex.
  - destruct (List.filter f l) as [|y l'] eqn:El; [done|].
    assert (In y (List.filter f l)) as [Hy Ht]%filter_In by (rewrite El; by left).
    apply list_elem_of_In, list_elem_of_lookup in Hy as [i Hi].
    by discriminate (Hf 0%nat (S i) x y eq_refl Hi Ex Ht).
  - apply IH. intros i j y z Hi Hj Hy Hz. apply (Nat.succ_inj i j). by eapply (Hf (S i) (S j)).
Qed.

Section calls.
Context `{RoomRandom, Unicode, !RandomIntLaw}.

Lemma saveScore_ok id score d r d' : saveScore id score d = (r, d') → rooms_ok (ext d) →
  rooms_ok (ext d') ∧ guesses_kept d d'.
Proof.
  intros [= <- <-] Hok. destruct (roomUsers (ext d) !! id) as [u|] eqn:Hu.
  - assert (alter (λ u, u <| ru_score := score |>) id (roomUsers (ext d)) =
      <[id := u <| ru_score := score |>]> (roomUsers (ext d))) as He
      by (apply map_eq; intros i; rewrite lookup_alter, lookup_insert; by case_decide; subst; rewrite ?Hu).
    cbn. unfold guesses_kept, guessed. cbn. rewrite He.
    split; [by eapply (rooms_ok_update (ext d) id u)|].
    intros id' (u0 & Hu0 & Hg). rewrite lookup_insert. case_decide; subst; [|by eauto].
    eexists. split; [done|]. cbn. congruence.
  - cbn. unfold guesses_kept, guessed. cbn. rewrite alter_id by congruence.
    split; [by destruct Hok|done].
Qed.

Lemma scoreGuess_ok room id guessType guess d r d' :
  scoreGuess room id guessType guess d = (r, d') → rooms_ok (ext d) →
  rooms_ok (ext d') ∧ guesses_kept d d'.
Proof.
  unfold scoreGuess, room_lyric. intros Hrun Hok. rewrite bind_assoc, bind_gets, bind_require in Hrun.
  destruct (lyrics (ext d) !! _); [|by injection Hrun as <- <-]. cbv zeta in Hrun.
  destruct (matchLyric guess); [|by injection Hrun as <- <-].
  rewrite (bind_lift _ a) in Hrun by done.
  revert Hrun. case_bind E; intros Hrun; injection Hrun as <- <-; by eapply saveScore_ok.
Qed.

(** The membership whose guess the call has spent. *)
Definition claimed (c : room_call) : option string :=
  match c with GuessClaimed _ id _ _ | GuessDone id => Some id | _ => None end.

Lemma run_room_ok c d r d' : run_room c d = (r, d') → rooms_ok (ext d) →
  rooms_ok (ext d') ∧ guesses_kept d d' ∧
  ∀ id, claimed (after c r) = Some id → claimed c = Some id ∨ (¬ guessed id d ∧ guessed id d').
Proof.
  intros Hrun Hok.
  assert (preserves same_tables (run_room c) → rooms_ok (ext d') ∧ guesses_kept d d') as Hsame.
  { intros Hf. apply Hf in Hrun. split; [by eapply rooms_ok_same|apply same_guesses, Hrun]. }
  assert ((∃ id, claimed c = Some id) ∨ match c with GuessOpened _ _ _ _ => True | _ =>
    ∀ id, claimed (after c r) ≠ Some id end) as Hclaim.
  { destruct r as [c'|e]; destruct c; eauto; right; cbn [run_room after] in *; try done; ok_inv Hrun;
      by injection Hrun as <- <-. }
  pose proof assertPlayable_frame.
  destruct c; cbn [run_room] in *;
    try (destruct Hsame as [? ?]; [unfold findRoom, findRoomUser; by frame_tables|];
      split_and!; [done..|]; intros id' Hc; destruct Hclaim as [[? ?]|Hclaim];
      [done|by destruct (Hclaim id')]).
  - revert Hrun. case_bind E; intros Hrun; injection Hrun as <- <-; apply addPlayer_ok in E as [? ?]; by auto.
  - revert Hrun. case_bind E; intros Hrun; apply claimGuess_run in E as (? & ? & won & Hw & Hg); try done.
    injection Hw as <-. rewrite bind_throw_if in Hrun. 
    destruct a; injection Hrun as <- <-; [|done]. split_and!; [done..|].
    intros id' [= <-]. right. by apply Hg.
  - revert Hrun. case_bind E; intros Hrun; injection Hrun as <- <-; apply scoreGuess_ok in E as [? ?]; by auto.
  - injection Hrun as <- <-. split_and!; [done..|]. by left.
Qed.
(** Creating a room touches no membership. *)
Definition same_users : relation Store := λ d d', roomUsers (ext d') = roomUsers (ext d).
#[local] Instance same_users_refl : Reflexive same_users.
Proof. done. Qed.
#[local] Instance same_users_trans : Transitive same_users.
Proof. intros d1 d2 d3 H12 H23. unfold same_users in *. congruence. Qed.

Lemma saveWithCode_users n dto lyric : preserves same_users (saveWithCode n dto lyric).
Proof.
  induction n as [|n IH]; cbn [saveWithCode]; [frame same_users|].
  assert (preserves same_users generateRoomCode) by (by intros d r d' [[_ ?] _]%generateRoomCode_ok).
  assert (preserves same_users next_draw) by (by intros d r d' [_ ?]%next_draw_frame).
  unfold insertRoom. frame same_users.
Qed.

Lemma create_users dto hostId : preserves same_users (create dto hostId).
Proof.
  assert (preserves same_users generateRoomCode) by (by intros d r d' [[_ ?] _]%generateRoomCode_ok).
  assert (preserves same_users pickRandomLyric) by (by intros d r d' [_ ?]%pickRandomLyric_frame).
  pose proof saveWithCode_users. unfold create. frame same_users; auto.
Qed.

(** The invariant of the interleaved system. *)
Record sys_ok (s : Store * list room_call) : Prop := {
  so_rooms : rooms_ok (ext s.1);
  so_spent i c id : s.2 !! i = Some c → claimed c = Some id → guessed id s.1;
  so_once i j c1 c2 id : s.2 !! i = Some c1 → s.2 !! j = Some c2 →
    claimed c1 = Some id → claimed c2 = Some id → i = j;
}.

Lemma sys_ok_quiet d d' cs : rooms_ok (ext d') → guesses_kept d d' → sys_ok (d, cs) → sys_ok (d', cs).
Proof. intros Hr Hk [_ Hs Ho]. split; cbn in *; [done|by eauto|done]. Qed.

Lemma room_step_ok s s' : room_step s s' → sys_ok s → sys_ok s'.
Proof.
  intros Hstep Hok. destruct Hstep as [d cs i c r d' Hi Hrun|d cs dto h r d' Hrun|d cs roomId u r d' Hrun
    |d cs acq r d' Hrun|d d' cs Hr Hu].
  - destruct Hok as [Hr Hs Ho]. cbn in *. apply run_room_ok in Hrun as (Hr' & Hk & Hc); [|done].
    assert (∀ j c' id, <[i := after c r]> cs !! j = Some c' → claimed c' = Some id →
      (∃ c0, cs !! j = Some c0 ∧ claimed c0 = Some id) ∨ (i = j ∧ ¬ guessed id d ∧ guessed id d')) as Hsrc.
    { intros j c' id. rewrite list_lookup_insert_Some. intros [(<- & <- & _)|[_ Hj]] Hid; [|by eauto].
      destruct (Hc id Hid) as [?|?]; eauto. }
    split; cbn; [done| |].
    + intros j c' id Hj Hid. destruct (Hsrc _ _ _ Hj Hid) as [(c0 & Hc0 & Hid0)|(_ & _ & ?)]; [|done].
      by eapply Hk, Hs.
    + intros j1 j2 c1 c2 id Hj1 Hj2 Hid1 Hid2.
      destruct (Hsrc _ _ _ Hj1 Hid1) as [(e1 & He1 & K1)|(<- & Hn1 & _)],
        (Hsrc _ _ _ Hj2 Hid2) as [(e2 & He2 & K2)|(<- & Hn2 & _)]; [by eapply Ho| | |done].
      * by destruct Hn2; eapply Hs.
      * by destruct Hn1; eapply Hs.
  - eapply sys_ok_quiet; [eapply create_ok; [exact Hrun|apply Hok]| |done].
    eapply same_guesses, create_users, Hrun.
  - rewrite start_refused in Hrun by apply Hok. by injection Hrun as <- <-.
  - eapply sys_ok_quiet; [by eapply close_ok; [|apply Hok]| |done]. apply same_guesses.
    unfold closeExpiredRooms in Hrun. revert Hrun. unfold_m. repeat case_goal; by intros [= <- <-].
  - eapply sys_ok_quiet; [eapply rooms_ok_same; [|apply Hok]; by split|by apply same_guesses|done].
Qed.

Lemma room_steps_ok s s' : rtc room_step s s' → sys_ok s → sys_ok s'.
Proof. induction 1; eauto using room_step_ok. Qed.
End calls.

(** ** Properties *)

(** C21. However calls of join, submitGuess, create, start and the clean-up job interleave:
    a room never has more players than its eight seats, a player is never in a room twice, two
    rooms never have the same code, and every code is six characters of the alphabet. *)
Theorem rooms_invariant `{RoomRandom, Unicode, !RandomIntLaw} d cs d' cs' :
  rtc room_step (d, cs) (d', cs') → sys_ok (d, cs) →
  (∀ roomId, (length (members roomId (ext d')) ≤ 8)%nat ∧
     NoDup (ru_userId <$> members roomId (ext d'))) ∧
  (∀ id room, rooms (ext d') !! id = Some room → code_ok (rm_code room) ∧
     ∀ id' room', rooms (ext d') !! id' = Some room' → rm_code room' = rm_code room → id' = id).
Proof.
  intros Hsteps Hok. apply room_steps_ok in Hsteps as [Hrooms _ _]; [|done]. cbn in Hrooms. split.
  - intros roomId. split; [apply Hrooms|]. by apply members_NoDup.
  - intros id room Hroom. split; [apply (ok_room _ Hrooms _ _ Hroom)|].
    intros id' room' Hroom' Hc. by eapply ok_codes.
Qed.

(** C22. However calls interleave, the guess of a player in a room is spent by at most one
    submitGuess call: two calls never both get past the claim for the same membership. *)
Theorem guess_spent_once `{RoomRandom, Unicode, !RandomIntLaw} d cs d' cs' id :
  rtc room_step (d, cs) (d', cs') → sys_ok (d, cs) →
  (length (List.filter (λ c, bool_decide (claimed c = Some id)) cs') ≤ 1)%nat.
Proof.
  intros Hsteps Hok. apply room_steps_ok in Hsteps as [_ _ Honce]; [|done].
  apply filter_once. intros i j c1 c2 Hi Hj Hc1%bool_decide_eq_true Hc2%bool_decide_eq_true. by eapply Honce.
Qed.

(** No room is ever started or finished: whatever happened before, start answers that the caller
    is not the host (or that there is no such room), and getResults that the room is not
    finished; neither changes anything. *)
Theorem rooms_never_start `{RoomRandom, Unicode, !RandomIntLaw} d cs d' cs' roomId userId room :
  rtc room_step (d, cs) (d', cs') → sys_ok (d, cs) → rooms (ext d') !! roomId = Some room →
  start roomId userId d' = (Err (Forbidden "Only the host can start this room"), d') ∧
  getResults roomId d' = (Err (Conflict "Room is not finished yet"), d').
Proof.
  intros Hsteps Hok Hroom. apply room_steps_ok in Hsteps as [Hrooms _ _]; [|done]. cbn in Hrooms.
  split; [by rewrite start_refused, Hroom|].
  unfold getResults, findRoom. rewrite bind_gets, Hroom, bind_require, bind_throw_if.
  by rewrite (rk_status _ _ (ok_room _ Hrooms _ _ Hroom)).
Qed.

(** What [submitGuess] does once the guess is claimed. *)
Lemma submitGuess_open `{Unicode} roomId userId guessType guess d room u :
  rooms (ext d) !! roomId = Some room → rooms_ok (ext d) → is_open (now d) room = true →
  u ∈ members roomId (ext d) → ru_userId u = userId → ru_hasGuessed u = false →
  submitGuess roomId userId guessType guess d =
    scoreGuess room (ru_id u) guessType guess
      (d <| ext := ext d <| roomUsers := <[ru_id u :=
         u <| ru_hasGuessed := true |> <| ru_guessedAt := Some (now d) |>]> (roomUsers (ext d)) |> |>).
Proof.
  intros Hroom Hok Hopen Hu Hid Hg. unfold submitGuess, openGuess, findRoom, findRoomUser.
  rewrite !bind_assoc, bind_gets, Hroom, !bind_assoc, bind_require, bind_assoc.
  rewrite (bind_run (assertPlayable room) _ d tt d) by by apply assertPlayable_open.
  rewrite !bind_assoc, bind_gets, (find_member _ _ _ _ Hok Hu Hid), bind_assoc, bind_require, bind_ret.
  unfold claimGuess. rewrite bind_assoc, bind_gets.
  apply elem_of_members in Hu as [Hr [i Hi]]. rewrite (ok_users _ Hok _ _ Hi), Hi, Hg.
  by rewrite bind_assoc, bind_gets, bind_assoc.
Qed.

(** A player's first guess in an open room: a guess that normalises to something is spent
    and ends in a TypeError, whatever it says; a guess that normalises to nothing (an empty
    one, punctuation) gets the full points, is answered as correct and reveals the answer. *)
Theorem submitGuess_outcome `{Unicode} roomId userId guessType guess d room u lyric r d' :
  rooms (ext d) !! roomId = Some room → rooms_ok (ext d) → is_open (now d) room = true →
  u ∈ members roomId (ext d) → ru_userId u = userId → ru_hasGuessed u = false →
  lyrics (ext d) !! rm_lyricId room = Some lyric →
  submitGuess roomId userId guessType guess d = (r, d') →
  let points := calculateScore (default SONG_TITLE guessType) in
  ∃ u', roomUsers (ext d') !! ru_id u = Some u' ∧ ru_hasGuessed u' = true ∧
    if bool_decide (normalizeAnswer (Some guess) = [])
    then ru_score u' = points ∧ ∃ res, r = Ok res ∧ rg_isCorrect res = true ∧ rg_score res = points ∧
           lv_artist (rg_lyric res) = Some (ly_artist lyric)
    else ru_score u' = ru_score u ∧
           r = Err (PlainError "TypeError" "value.normalize is not a function").
Proof.
  intros Hroom Hok Hopen Hu Hid Hg Hl Hrun points. rewrite (submitGuess_open _ _ _ _ _ room u) in Hrun by done.
  unfold scoreGuess, room_lyric, matchLyric in Hrun. rewrite bind_assoc, bind_gets in Hrun. cbn in Hrun.
  rewrite Hl, bind_require in Hrun. cbv zeta in Hrun. case_bool_decide.
  - injection Hrun as <- <-. cbn. rewrite lookup_alter_eq, lookup_insert_eq.
    eexists. split; [reflexivity|]. split; [done|]. split; [done|]. eexists. by split_and!.
  - injection Hrun as <- <-. cbn. rewrite lookup_insert_eq. eexists. by split_and!.
Qed.

(** A player gets in: join of an open, unexpired room with a free seat that the player is not
    in yet succeeds, provided the uuid drawn is new, and from then on the player is a member with an
    unspent guess and another join answers that they have already joined. *)
Theorem join_succeeds `{RoomRandom} roomId userId d room :
  rooms (ext d) !! roomId = Some room → rooms_ok (ext d) → is_open (now d) room = true →
  (length (members roomId (ext d)) < 8)%nat →
  (∀ u, u ∈ members roomId (ext d) → ru_userId u ≠ userId) →
  roomUsers (ext d) !! uuid (nonce d) = None →
  ∃ u d', join roomId userId d = (Ok u, d') ∧ ru_userId u = userId ∧ ru_hasGuessed u = false ∧
    members roomId (ext d') ≡ₚ u :: members roomId (ext d) ∧
    join roomId userId d' = (Err (Conflict "User already joined this room"), d').
Proof.
  intros Hroom Hok Hopen Hfree Hnew Hfresh.
  pose proof (ok_room _ Hok _ _ Hroom) as Hk. assert (rm_id room = roomId) as Hrid by apply Hk.
  set (u := mkRoomUser (uuid (nonce d)) userId roomId false 0 None).
  set (d' := d <| nonce := S (nonce d) |> <| ext := ext d <| roomUsers := <[ru_id u := u]> (roomUsers (ext d)) |> |>).
  assert (members roomId (ext d') ≡ₚ u :: members roomId (ext d)) as Hm.
  { etrans; [apply (members_insert roomId (ext d) (ru_id u) u Hfresh)|]. cbn. by rewrite bool_decide_true. }
  assert (addPlayer roomId userId d = (Ok u, d')) as Hadd.
  { unfold addPlayer, findRoom, next_draw. rewrite bind_gets, Hroom, bind_require, bind_gets, bind_throw_if.
    rewrite (rk_seats _ _ Hk). destruct (Z.leb_spec 8 (Z.of_nat (length (members roomId (ext d))))); [lia|].
    rewrite !bind_assoc, bind_gets, bind_assoc, bind_modify, bind_ret, bind_gets, bind_throw_if. cbn.
    rewrite Hfresh, existsb_false; [done|]. intros v Hv. apply bool_decide_eq_false. by apply Hnew. }
  assert (rooms_ok (ext d')) as Hok' by by eapply addPlayer_ok.
  exists u, d'. split_and!; [|done..|exact Hm|].
  - unfold join, checkAdmission, findRoom, findRoomUser. rewrite bind_gets, Hroom, bind_assoc, bind_require, bind_assoc.
    rewrite (bind_run (assertPlayable room) _ d tt d) by by apply assertPlayable_open.
    rewrite bind_assoc, bind_gets, Hrid, find_false by
      (intros v Hv; apply bool_decide_eq_false; by apply Hnew).
    rewrite bind_assoc, bind_throw_if, bool_decide_false by (by intros []). by rewrite bind_ret, Hrid.
  - unfold join, checkAdmission, findRoom, findRoomUser. rewrite bind_gets.
    change (rooms (ext d') !! roomId) with (rooms (ext d) !! roomId). rewrite Hroom, bind_assoc, bind_require, bind_assoc.
    rewrite (bind_run (assertPlayable room) _ d' tt d') by by apply assertPlayable_open.
    rewrite bind_assoc, bind_gets, Hrid, (find_member roomId userId (ext d') u Hok'); [|by rewrite Hm; left|done].
    done.
Qed.

(** ** A run

    The calls take their steps in the order of a list of call numbers. *)

Section schedule.
Context `{RoomRandom, Unicode}.

Definition take_step (s : Store * list room_call) (i : nat) : Store * list room_call :=
  match s.2 !! i with
  | Some c => let '(r, d') := run_room c s.1 in (d', <[i := after c r]> s.2)
  | None => s
  end.

Lemma schedule_steps order s : rtc room_step s (foldl take_step s order).
Proof.
  revert s. induction order as [|i order IH]; intros [d cs]; [done|]. cbn [foldl].
  etrans; [|apply IH]. unfold take_step. cbn [fst snd].
  destruct (cs !! i) as [c|] eqn:Hi; [|done]. destruct (run_room c d) as [r d'] eqn:Hr.
  by apply rtc_once, (step_call d cs i c r d').
Qed.

(** The empty tables, with calls that have not claimed a guess. *)
Lemma sys_ok_empty (d : Store) cs : rooms (ext d) = ∅ → roomUsers (ext d) = ∅ →
  Forall (λ c, claimed c = None) cs → sys_ok (d, cs).
Proof.
  intros Hr Hu Hcs. rewrite Forall_lookup in Hcs. split; cbn.
  - split; rewrite ?Hr, ?Hu; intros *; rewrite ?lookup_empty; try done.
    unfold members. rewrite Hu, map_to_list_empty. cbn. lia.
  - intros i c id Hi Hc. apply Hcs in Hi. congruence.
  - intros i j c1 c2 id Hi _ Hc. apply Hcs in Hi. congruence.
Qed.
End schedule.

Module RoomsDemo.
#[export] Instance random : RoomRandom := {
  uuid n := String (Ascii.ascii_of_nat (97 + n)) "";
  randomInt n k := Z.of_nat n mod k;
  random_floor n k := Z.of_nat n mod k;
}.
#[export] Instance random_law : RandomIntLaw.
Proof. intros n k Hk. cbn. by apply Z.mod_pos_bound. Qed.
#[export] Instance unicode : Unicode := { nfkd := id; toLowerCase := id }.

Definition lyric : Lyrics :=
  mkLyrics 7 "artist" [] "snippet" "title" [] None "Pop" "1990" 1 true 0 "" 0 0.
Definition d0 : Store := mkDb ∅ ∅ 1000 0 (mkRoomsDb ∅ ∅ {[ 7 := lyric ]}).
(** A room is created; its id is the eighth value drawn. *)
Definition d1 : Store := (create (mkCreate None None None) (Some "host") d0).2.
Definition calls : list room_call :=
  [JoinAsked "h" "alice"; JoinAsked "h" "bob"; GuessAsked "h" "alice" None (ascii_text "!");
   GuessAsked "h" "alice" None (ascii_text "title")].
(** Two players join at once; then one of them guesses twice at once. *)
Definition order : list nat := [0; 1; 0; 1; 1; 0; 2; 3; 2; 3; 3; 2]%nat.
Definition after_run : Store * list room_call := foldl take_step (d1, calls) order.

Lemma run_steps : rtc room_step (d0, calls) (after_run.1, after_run.2).
Proof.
  eapply rtc_l; [|rewrite <-surjective_pairing; apply schedule_steps].
  eapply step_create. apply surjective_pairing.
Qed.

Lemma start_ok : sys_ok (d0, calls).
Proof. apply sys_ok_empty; [done..|]. by repeat constructor. Qed.
End RoomsDemo.

Import RoomsDemo.

Lemma rooms_invariant_witness :
  (length (members "h" (ext after_run.1)) ≤ 8)%nat ∧ NoDup (ru_userId <$> members "h" (ext after_run.1)).
Proof. apply (rooms_invariant d0 calls after_run.1 after_run.2 run_steps start_ok). Defined.

Lemma guess_spent_once_witness :
  (length (List.filter (λ c, bool_decide (claimed c = Some "j")) after_run.2) ≤ 1)%nat.
Proof. apply (guess_spent_once d0 calls after_run.1 after_run.2 "j" run_steps start_ok). Defined.

(** The room of the run. *)
Definition theRoom : Room :=
  mkRoom "h" None "BCDEFG" 7 None 8 LOBBY None 0 1000 (Some 86401000) false.

Lemma rooms_never_start_witness :
  start "h" "host" after_run.1 = (Err (Forbidden "Only the host can start this room"), after_run.1) ∧
  getResults "h" after_run.1 = (Err (Conflict "Room is not finished yet"), after_run.1).
Proof.
  apply (rooms_never_start d0 calls after_run.1 after_run.2 "h" "host" theRoom run_steps start_ok).
  vm_compute. reflexivity.
Defined.

Lemma run_rooms_ok : rooms_ok (ext after_run.1).
Proof. apply (so_rooms _ (room_steps_ok _ _ run_steps start_ok)). Qed.

(** Bob guesses, in a room where Alice has guessed. *)
Lemma submitGuess_outcome_witness :
  let '(r, d') := submitGuess "h" "bob" (Some ARTIST) (ascii_text "!") after_run.1 in
  ∃ u', roomUsers (ext d') !! "i" = Some u' ∧ ru_hasGuessed u' = true ∧ ru_score u' = 50.
Proof.
  destruct (submitGuess "h" "bob" (Some ARTIST) (ascii_text "!") after_run.1) as [r d'] eqn:E.
  destruct (submitGuess_outcome "h" "bob" (Some ARTIST) (ascii_text "!") after_run.1 theRoom
    (mkRoomUser "i" "bob" "h" false 0 None) lyric r d') as (u' & H1 & H2 & H3 & _);
    [vm_compute; reflexivity|apply run_rooms_ok|vm_compute; reflexivity| |reflexivity..|exact E|].
  - apply elem_of_members. split; [reflexivity|]. exists "i". vm_compute. reflexivity.
  - exists u'. split; [exact H1|]. split; [exact H2|exact H3].
Defined.

Lemma join_succeeds_witness : ∃ u d', join "h" "carol" after_run.1 = (Ok u, d') ∧ ru_userId u = "carol".
Proof.
  destruct (join_succeeds "h" "carol" after_run.1 theRoom) as (u & d' & H1 & H2 & _);
    [vm_compute; reflexivity|apply run_rooms_ok|vm_compute; reflexivity|vm_compute; lia| |
     vm_compute; reflexivity|].
  - apply Forall_forall. vm_compute. by repeat constructor.
  - exists u, d'. split; [exact H1|exact H2].
Defined.
