(* ===== verification/StellarRpc.v ===== *)
(** * The Soroban RPC wrapper (src/src/stellar/services/stellar-rpc.service.ts)

    [StellarRpcService]: fees, building and simulating contract calls, submitting a
    transaction with retries, and waiting for its confirmation.  The Stellar SDK and the
    RPC server are parameters.  Every request to the server and every pause is recorded
    in a trace.  Logging, metrics and tracing spans are left out. *)

From S2P Require Import Prelude Decimal Amount Number TokenService.
From Stdlib Require Import Ascii.
From stdpp Require Import list.

#[local] Open Scope Z_scope.

(** ** The SDK and the server *)

(** JavaScript values, as [scValToNative] makes them; its numbers are integers. *)
Inductive jsval :=
  | JUndefined
  | JNull
  | JBool (b : bool)
  | JNumber (n : Z)
  | JBigint (n : Z)
  | JString (s : string)
  | JArray (l : list jsval)
  | JObject (fields : list (string * jsval)).

(** What the service uses of @stellar/stellar-sdk.  [call_transaction] is a
    [TransactionBuilder] with one contract call on it (source account, fee, passphrase,
    contract, method, arguments, timeout). *)
Class StellarSdk := {
  Transaction : Type;
  Keypair : Type;
  ScVal : Type;
  Account : Type;
  Contract : Type;
  hashHex : Transaction → string;
  sign : Transaction → Keypair → Transaction;
  toXDR : Transaction → string;
  parseXdr : string → string → result Transaction;
  new_Contract : string → result Contract;
  call_transaction : Account → string → string → Contract → string → list ScVal → Z → result Transaction;
  buildFeeBumpTransaction : Keypair → string → Transaction → string → result Transaction;
  new_Account : string → string → result Account;
  scValToNative : ScVal → result jsval;
}.

(** Answers of the server; [JSON.stringify] of the error detail is kept as text. *)
Inductive SendStatus := PENDING | DUPLICATE | TRY_AGAIN_LATER | SEND_ERROR.
#[export] Instance SendStatus_eq_dec : EqDecision SendStatus.
Proof. solve_decision. Defined.

Record SendTransactionResponse := mkSent {
  sent_status : SendStatus;
  sent_hash : string;
  sent_errorResult : string;
}.

Inductive GetTransactionResponse {sdk : StellarSdk} :=
  | TxSuccess (ledger : Z) (returnValue : option ScVal)
  | TxFailed (ledger : Z) (resultXdr : string)
  | TxNotFound.

(** A simulation: an error, a success with or without a result, or neither. *)
Inductive SimulateResponse {sdk : StellarSdk} :=
  | SimulationError (error : string)
  | SimulationSuccess (retval : option ScVal)
  | SimulationOther.

(** [rpc.Server], over the state [Net] of the network behind it. *)
Class RpcServer (sdk : StellarSdk) (Net : Type) := {
  getAccount : string → M Net Account;
  prepareTransaction : Transaction → M Net Transaction;
  simulateTransaction : Transaction → M Net SimulateResponse;
  getFeeStats : M Net string;  (** [sorobanInclusionFee.p90] *)
  sendTransaction : Transaction → M Net SendTransactionResponse;
  getTransaction : string → M Net GetTransactionResponse;
}.

Inductive rpc_event `{sdk : StellarSdk} :=
  | Sent (transaction : Transaction) (answer : result SendTransactionResponse)
  | Polled (hash : string) (answer : result GetTransactionResponse)
  | Slept (ms : Z).

Record Rpc {sdk : StellarSdk} (Net : Type) := mkRpc { server : Net; trace : list rpc_event }.
Arguments mkRpc {_ _} _ _.
Arguments server {_ _} _.
Arguments trace {_ _} _.

(** ** Environment and configuration *)

(** [process.env] *)
Definition Env := string → option string.

Definition envInt (env : Env) (name : string) (fallback : Z) : Z :=
  match parseInt (default "" (env name)) with
  | Some parsed => if (parsed <? NUMBER_OVERFLOW) && (0 <=? parsed) then parsed else fallback
  | None => fallback
  end.

Definition DEFAULT_MAX_FEE : string := "1000000".
Definition TRANSACTION_TIMEOUT_SECONDS : Z := 180.

Definition maxFee (env : Env) : Z :=
  match env "STELLAR_MAX_FEE" with
  | Some raw => if digits1 raw && (0 <? dec raw) then dec raw else dec DEFAULT_MAX_FEE
  | None => dec DEFAULT_MAX_FEE
  end.

Record SubmitResult `{sdk : StellarSdk} := mkSubmit {
  sub_hash : string;
  sub_confirmed : bool;
  sub_ledger : option Z;
  sub_returnValue : option jsval;
  sub_error : option string;
}.

Arguments mkSubmit {_} _ _ _ _ _.

(** A loop that a number bounds, [for (let i = 0; i < n; i++)], as a natural number. *)
Definition times (n : Z) : nat := Z.to_nat n.

Section StellarRpcService.
Context {sdk : StellarSdk} {Net : Type} {srv : RpcServer sdk Net}.
Variables (env : Env) (networkPassphrase : string).

Local Abbreviation M := (M (Rpc Net)).

(** ** Requests *)

(** A request that leaves no trace. *)
Definition ask {A} (m : Prelude.M Net A) : M A := λ s,
  let '(r, srv') := m (server s) in (r, mkRpc srv' (trace s)).
(** A request and its answer, recorded. *)
Definition record {A} (m : Prelude.M Net A) (event : result A → rpc_event) : M A := λ s,
  let '(r, srv') := m (server s) in (r, mkRpc srv' (trace s ++ [event r])).
Definition sleep (ms : Z) : M unit := modify (λ s, mkRpc (server s) (trace s ++ [Slept ms])).

Definition send (transaction : Transaction) : M SendTransactionResponse :=
  record (sendTransaction transaction) (Sent transaction).
Definition poll (hash : string) : M GetTransactionResponse :=
  record (getTransaction hash) (Polled hash).

(** ** Building *)

Definition loadAccount (publicKey : string) : M Account :=
  try_catch (ask (getAccount publicKey)) (λ error, throw (ServiceUnavailable
    ("Could not load Stellar account " +:+ publicKey +:+ ": " +:+ exn_message error +:+
     ". On a test network the account may simply not be funded yet."))).

Definition resolveInclusionFee : M string :=
  let ceiling := maxFee env in
  try_catch
    (p90 ← ask getFeeStats;
     observed ← lift (parseBigInt p90);
     if observed <=? 0 then mret (show ceiling)
     else mret (show (if observed <? ceiling then observed else ceiling)))
    (λ _, mret (show ceiling)).

Definition buildInvocation (sourcePublicKey contractId method : string) (args : list ScVal)
    (timeoutSeconds : Z) : M Transaction :=
  source ← loadAccount sourcePublicKey;
  contract ← lift (new_Contract contractId);
  fee ← resolveInclusionFee;
  transaction ← lift (call_transaction source fee networkPassphrase contract method args timeoutSeconds);
  try_catch (ask (prepareTransaction transaction)) (λ error, throw (ServiceUnavailable
    ("Simulation of " +:+ method +:+ " on " +:+ contractId +:+ " failed: " +:+ exn_message error))).

Definition readContract (sourcePublicKey contractId method : string) (args : list ScVal) : M jsval :=
  source ← lift (new_Account sourcePublicKey "0");
  contract ← lift (new_Contract contractId);
  transaction ← lift (call_transaction source DEFAULT_MAX_FEE networkPassphrase contract method
    args TRANSACTION_TIMEOUT_SECONDS);
  simulation ← ask (simulateTransaction transaction);
  match simulation with
  | SimulationError error => throw (ServiceUnavailable
      ("Read of " +:+ method +:+ " on " +:+ contractId +:+ " failed: " +:+ error))
  | SimulationSuccess (Some retval) => lift (scValToNative retval)
  | SimulationSuccess None | SimulationOther => throw (ServiceUnavailable
      ("Read of " +:+ method +:+ " on " +:+ contractId +:+ " returned no value"))
  end.

Definition toUnsigned (transaction : Transaction) : UnsignedTransaction :=
  mkUnsigned (toXDR transaction) networkPassphrase (hashHex transaction).

Definition fromXdr (envelopeXdr : string) : result Transaction := parseXdr envelopeXdr networkPassphrase.

(** ** Waiting for confirmation *)

(** The polls that are left, of [maxPolls]. *)
Fixpoint pollLoop (more : nat) (maxPolls intervalMs : Z) (hash : string) : M SubmitResult :=
  match more with
  | O => mret (mkSubmit hash false None None
      (Some ("Transaction not confirmed after " +:+ show maxPolls +:+ " polls")))
  | S more =>
      sleep intervalMs;;
      status ← poll hash;
      match status with
      | TxSuccess ledger returnValue =>
          value ← match returnValue with
            | Some v => value ← lift (scValToNative v); mret (Some value)
            | None => mret None
            end;
          mret (mkSubmit hash true (Some ledger) value None)
      | TxFailed ledger resultXdr =>
          mret (mkSubmit hash false (Some ledger) None
            (Some ("Transaction failed on-chain: " +:+ resultXdr)))
      | TxNotFound => pollLoop more maxPolls intervalMs hash
      end
  end.

Definition waitForConfirmation (hash : string) : M SubmitResult :=
  let maxPolls := envInt env "STELLAR_CONFIRMATION_MAX_POLLS" 15 in
  let intervalMs := envInt env "STELLAR_CONFIRMATION_INTERVAL_MS" 1500 in
  pollLoop (times maxPolls) maxPolls intervalMs hash.

(** ** Submitting *)

(** The loop over [attempt], with the retries that are left; the value is the answer
    that ended it, or the failure to return. *)
Fixpoint sendLoop (more : nat) (attempt baseDelayMs : Z) (transaction : Transaction) :
    M (SendTransactionResponse + SubmitResult) :=
  let hash := hashHex transaction in
  sent ← try_catch (sent ← send transaction; mret (inl sent))
    (λ error, mret (inr (mkSubmit hash false None None
      (Some ("Submission failed: " +:+ exn_message error)))));
  match sent with
  | inr failure => mret (inr failure)
  | inl sent =>
      if negb (bool_decide (sent_status sent = TRY_AGAIN_LATER)) then mret (inl sent)
      else match more with
      | O => mret (inr (mkSubmit hash false None None (Some ("Network queue still full after "
          +:+ show (attempt + 1) +:+ " submissions (TRY_AGAIN_LATER)"))))
      | S more =>
          sleep (baseDelayMs * 2 ^ attempt);;
          sendLoop more (attempt + 1) baseDelayMs transaction
      end
  end.

Definition submit (transaction : Transaction) : M SubmitResult :=
  let hash := hashHex transaction in
  let maxRetries := envInt env "STELLAR_TRY_AGAIN_MAX_ATTEMPTS" 5 in
  let baseDelayMs := envInt env "STELLAR_TRY_AGAIN_BASE_DELAY_MS" 500 in
  sent ← sendLoop (times maxRetries) 0 baseDelayMs transaction;
  match sent with
  | inr failure => mret failure
  | inl sent =>
      if bool_decide (sent_status sent = SEND_ERROR) then
        mret (mkSubmit hash false None None
          (Some ("Network rejected transaction: " +:+ sent_errorResult sent)))
      else waitForConfirmation hash
  end.

(** What a caller passes as [signers]: an array, or a value that is not iterable. *)
Inductive signers_arg :=
  | SignerArray (signers : list Keypair)
  | NotIterable (signer : Keypair).

Definition signAndSubmit (transaction : Transaction) (signers : signers_arg) : M SubmitResult :=
  match signers with
  | SignerArray signers => submit (foldl sign transaction signers)
  | NotIterable _ => throw (PlainError "TypeError" "signers is not iterable")
  end.

Definition feeBump (inner : Transaction) (feeSource : Keypair) (newBaseFee : string) : M SubmitResult :=
  fee ← lift (parseBigInt newBaseFee);
  let capped := if maxFee env <? fee then maxFee env else fee in
  bump ← lift (buildFeeBumpTransaction feeSource (show capped) inner networkPassphrase);
  sent ← send (sign bump feeSource);
  if bool_decide (sent_status sent = SEND_ERROR) then
    mret (mkSubmit (sent_hash sent) false None None
      (Some ("Network rejected the fee bump: " +:+ sent_errorResult sent)))
  else waitForConfirmation (hashHex inner).

(** ** What a run leaves in the trace *)

Definition is_send (e : rpc_event) : bool := match e with Sent _ _ => true | _ => false end.
Definition is_poll (e : rpc_event) : bool := match e with Polled _ _ => true | _ => false end.
Definition count (p : rpc_event → bool) (evs : list rpc_event) : Z :=
  Z.of_nat (length (List.filter p evs)).
(** Milliseconds spent waiting. *)
Fixpoint waited (evs : list rpc_event) : Z :=
  match evs with
  | [] => 0
  | Slept ms :: evs => ms + waited evs
  | _ :: evs => waited evs
  end.
(** The network took the transaction in. *)
Definition accepted (resp : SendTransactionResponse) : Prop :=
  sent_status resp = PENDING ∨ sent_status resp = DUPLICATE.
(** The network says that the transaction is in a ledger and succeeded. *)
Definition success_event (hash : string) (e : rpc_event) : Prop :=
  ∃ ledger v, e = Polled hash (Ok (TxSuccess ledger v)).

Lemma count_app p l1 l2 : count p (l1 ++ l2) = count p l1 + count p l2.
Proof. unfold count. rewrite List.filter_app, length_app. lia. Qed.
Lemma waited_app l1 l2 : waited (l1 ++ l2) = waited l1 + waited l2.
Proof. induction l1 as [|[] l1 IH]; cbn; lia. Qed.

Lemma pollLoop_run n maxPolls interval hash s r s' : 0 ≤ interval →
  pollLoop n maxPolls interval hash s = (r, s') →
  ∃ evs, trace s' = trace s ++ evs ∧ count is_send evs = 0 ∧ count is_poll evs ≤ Z.of_nat n ∧
    waited evs ≤ Z.of_nat n * interval ∧
    ∀ res, r = Ok res → sub_hash res = hash ∧
      (sub_confirmed res = true ↔ ∃ e, last evs = Some e ∧ success_event hash e).
Proof.
  intros Hi. revert s. induction n as [|n IH]; intros s; cbn [pollLoop].
  - intros [= <- <-]. exists []. rewrite app_nil_r. split_and!; [done..|].
    intros res [= <-]. split; [done|]. split; [done|]. by intros (e & He & _).
  - unfold sleep. rewrite bind_modify. unfold poll at 1, record at 1. unfold mbind at 1, M_bind at 1. cbn.
    destruct (getTransaction hash (server s)) as [[[l v|l x|]|e] srv1].
    + intros Hrun. exists [Slept interval; Polled hash (Ok (TxSuccess l v))].
      destruct v as [v|]; [cbn in Hrun; unfold lift, mbind, M_bind in Hrun; destruct (scValToNative v) as [w|e]|];
        injection Hrun as <- <-; cbn; (split; [by rewrite <-app_assoc|]);
        (split_and!; [done|unfold count; cbn; lia|nia|]); intros res; [|done|];
        intros [= <-]; (split; [done|]); (split; [|done]); intros _; eexists; (split; [done|]); by eexists _, _.
    + intros [= <- <-]. exists [Slept interval; Polled hash (Ok (TxFailed l x))]. cbn.
      split; [by rewrite <-app_assoc|]. split_and!; [done|unfold count; cbn; lia|nia|].
      intros res [= <-]. split; [done|]. split; [done|]. by intros (e & [= <-] & ? & ? & [=]).
    + intros (evs & He & Hs & Hp & Hw & Hres)%IH.
      exists (Slept interval :: Polled hash (Ok TxNotFound) :: evs). rewrite He. cbn [trace].
      split; [by rewrite <-!app_assoc|]. unfold count in *. cbn [List.filter is_send is_poll waited length].
      split_and!; [done|lia|nia|]. intros res [Hh Hc]%Hres. split; [done|]. rewrite Hc.
      destruct evs as [|e evs]; [|done]. split; [by intros (? & ? & _)|].
      intros (e & [= <-] & ? & ? & [=]).
    + intros [= <- <-]. exists [Slept interval; Polled hash (Err e)]. cbn.
      split; [by rewrite <-app_assoc|]. split_and!; [done|unfold count; cbn; lia|nia|done].
Qed.

Lemma backoff_nonneg base a n : 0 ≤ base → 0 ≤ a → 0 ≤ base * (2 ^ (a + Z.of_nat n) - 2 ^ a).
Proof.
  intros Hb Ha. pose proof (Z.pow_le_mono_r 2 a (a + Z.of_nat n)). nia.
Qed.

Lemma sendLoop_run n attempt base tx s r s' : 0 ≤ base → 0 ≤ attempt →
  sendLoop n attempt base tx s = (r, s') →
  ∃ evs out, r = Ok out ∧ trace s' = trace s ++ evs ∧ count is_poll evs = 0 ∧
    count is_send evs ≤ Z.of_nat n + 1 ∧
    waited evs ≤ base * (2 ^ (attempt + Z.of_nat n) - 2 ^ attempt) ∧
    ∃ answer, last evs = Some (Sent tx answer) ∧
      match out with
      | inl sent => answer = Ok sent ∧ sent_status sent ≠ TRY_AGAIN_LATER
      | inr failure => sub_confirmed failure = false ∧ sub_hash failure = hashHex tx
      end.
Proof.
  intros Hb. revert attempt s. induction n as [|n IH]; intros attempt s Ha; cbn [sendLoop];
    unfold send, record, try_catch, mbind, M_bind; cbn.
  all: destruct (sendTransaction tx (server s)) as [[sent|e] srv1]; cbn;
    [|intros [= <- <-]; eexists [_], _; split_and!; [done..|unfold count; cbn; lia|by apply backoff_nonneg|eexists; by split_and!]].
  all: case_bool_decide as Hst; cbn; [|intros [= <- <-]; eexists [_], _; split_and!; [done..|unfold count; cbn; lia|by apply backoff_nonneg|eexists; by split_and!]].
  - intros [= <- <-]. eexists [_], _. split_and!; [done..|unfold count; cbn; lia|by apply backoff_nonneg|eexists; by split_and!].
  - assert (2 ^ (attempt + 1) = 2 * 2 ^ attempt) as Hpow by (rewrite Z.pow_add_r; lia).
    intros (evs & out & -> & He & Hp & Hs & Hw & answer & Hl & Ho)%IH; [|lia].
    exists (Sent tx (Ok sent) :: Slept (base * 2 ^ attempt) :: evs), out. rewrite He. cbn [trace].
    replace (attempt + 1 + Z.of_nat n) with (attempt + Z.of_nat (S n)) in Hw by lia.
    unfold count in *. cbn [List.filter is_send is_poll waited length].
    split_and!; [done|by rewrite <-!app_assoc|done|lia|nia|]. exists answer.
    split; [|done]. by destruct evs.
Qed.

Lemma envInt_nonneg name fallback : 0 ≤ fallback → 0 ≤ envInt env name fallback.
Proof.
  intros Hf. unfold envInt. destruct (parseInt _) as [v|]; [|done].
  destruct ((v <? _) && (0 <=? v)) eqn:E; [|done]. bool_prop. lia.
Qed.

Definition maxRetries : Z := envInt env "STELLAR_TRY_AGAIN_MAX_ATTEMPTS" 5.
Definition baseDelayMs : Z := envInt env "STELLAR_TRY_AGAIN_BASE_DELAY_MS" 500.
Definition maxPolls : Z := envInt env "STELLAR_CONFIRMATION_MAX_POLLS" 15.
Definition intervalMs : Z := envInt env "STELLAR_CONFIRMATION_INTERVAL_MS" 1500.

Lemma waitForConfirmation_run hash s r s' : waitForConfirmation hash s = (r, s') →
  ∃ evs, trace s' = trace s ++ evs ∧ count is_send evs = 0 ∧ count is_poll evs ≤ maxPolls ∧
    waited evs ≤ maxPolls * intervalMs ∧
    ∀ res, r = Ok res → sub_hash res = hash ∧
      (sub_confirmed res = true ↔ ∃ e, last evs = Some e ∧ success_event hash e).
Proof.
  assert (0 ≤ maxPolls) as Hm by (apply envInt_nonneg; lia).
  intros (evs & H1 & H2 & H3 & H4 & H5)%pollLoop_run; [|apply envInt_nonneg; lia].
  exists evs. unfold times in *. rewrite Z2Nat.id in * by done. done.
Qed.

(** The requests and pauses of one [submit], and what its answer rests on. *)
Lemma submit_run tx s r s' : submit tx s = (r, s') →
  ∃ sends polls, trace s' = trace s ++ sends ++ polls ∧
    count is_poll sends = 0 ∧ count is_send polls = 0 ∧
    1 ≤ count is_send sends ≤ maxRetries + 1 ∧ count is_poll polls ≤ maxPolls ∧
    waited (sends ++ polls) ≤ baseDelayMs * (2 ^ maxRetries - 1) + maxPolls * intervalMs ∧
    (polls ≠ [] → ∃ resp, last sends = Some (Sent tx (Ok resp)) ∧ accepted resp) ∧
    ∀ res, r = Ok res → sub_hash res = hashHex tx ∧
      (sub_confirmed res = true ↔ ∃ e, last (sends ++ polls) = Some e ∧ success_event (hashHex tx) e).
Proof.
  assert (0 ≤ maxPolls) as Hm by (apply envInt_nonneg; lia).
  assert (0 ≤ maxRetries) as Hr by (apply envInt_nonneg; lia).
  assert (0 ≤ baseDelayMs) as Hb by (apply envInt_nonneg; lia).
  assert (0 ≤ intervalMs) as Hi by (apply envInt_nonneg; lia).
  unfold submit. fold maxRetries baseDelayMs. cbv zeta.
  case_bind E1; apply sendLoop_run in E1 as (sends & out & Hout & Ht & Hp & Hs & Hw & answer & Hl & Ho);
    try done; injection Hout as ->.
  unfold times in Hs, Hw. rewrite Z2Nat.id in Hs, Hw by done. rewrite Z.add_0_l in Hw. change (2 ^ 0) with 1 in Hw.
  assert (1 ≤ count is_send sends) as H1.
  { apply last_Some in Hl as [l ->]. rewrite count_app. unfold count. cbn. lia. }
  assert (0 ≤ maxPolls * intervalMs) as Hmi by nia.
  destruct out as [sent|failure].
  - destruct Ho as [-> Hst]. case_bool_decide as Herr.
    + intros [= <- <-]. exists sends, []. rewrite app_nil_r. split_and!; [done..|lia|done|].
      intros res [= <-]. split; [done|]. split; [done|]. rewrite Hl. by intros (e & [= <-] & ? & ? & [=]).
    + intros (polls & Hpt & Hps & Hpc & Hpw & Hres)%waitForConfirmation_run.
      exists sends, polls. rewrite Hpt, Ht, app_assoc, waited_app. split_and!; [done..|lia| |].
      * intros _. exists sent. split; [done|]. unfold accepted. destruct (sent_status sent); naive_solver.
      * intros res Hok. apply Hres in Hok as [Hh Hc]. split; [done|]. rewrite Hc, last_app.
        destruct (last polls) eqn:El; [done|]. rewrite Hl. split; [by intros (? & ? & _)|].
        by intros (e & [= <-] & ? & ? & [=]).
  - intros [= <- <-]. exists sends, []. rewrite app_nil_r. split_and!; [done..|lia|done|].
    intros res [= <-]. destruct Ho as [Hc Hh]. split; [done|]. rewrite Hc. split; [done|].
    rewrite Hl. by intros (e & [= <-] & ? & ? & [=]).
Qed.

(** ** A network that answers in time *)

(** The network answers [TRY_AGAIN_LATER] [n] times and then takes the transaction in. *)
Fixpoint accepts_after (n : nat) (tx : Transaction) (net net' : Net) : Prop :=
  ∃ resp net1, sendTransaction tx net = (Ok resp, net1) ∧
    match n with
    | O => accepted resp ∧ net1 = net'
    | S n => sent_status resp = TRY_AGAIN_LATER ∧ accepts_after n tx net1 net'
    end.
(** The network does not know the transaction [n] times and then reports its success, with
    what the invocation returned, if anything. *)
Fixpoint included_after (n : nat) (hash : string) (ledger : Z) (returned : option ScVal) (net : Net) : Prop :=
  ∃ resp net1, getTransaction hash net = (Ok resp, net1) ∧
    match n with
    | O => resp = TxSuccess ledger returned
    | S n => resp = TxNotFound ∧ included_after n hash ledger returned net1
    end.

(** A returned value, if any, as the SDK's [scValToNative] reads it; it may throw. *)
Definition native_value (returned : option ScVal) : result (option jsval) :=
  match returned with
  | Some v => match scValToNative v with Ok value => Ok (Some value) | Err e => Err e end
  | None => Ok None
  end.

Lemma sendLoop_live n m attempt base tx s net' : (n ≤ m)%nat → accepts_after n tx (server s) net' →
  ∃ resp s', sendLoop m attempt base tx s = (Ok (inl resp), s') ∧ accepted resp ∧ server s' = net'.
Proof.
  revert m attempt s. induction n as [|n IH]; intros m attempt s Hm (resp & net1 & Hsend & Hrest);
    destruct m as [|m]; try lia; cbn [sendLoop];
    unfold send, record, try_catch, mbind, M_bind; cbn; rewrite Hsend; cbn.
  1,2: destruct Hrest as [Hacc <-]; rewrite bool_decide_false by (destruct Hacc; congruence);
    cbn; eauto 10.
  destruct Hrest as [Hst Hrest]. rewrite bool_decide_true by done. cbn. apply IH; [lia|done].
Qed.

Lemma pollLoop_live n m maxPolls interval hash ledger returned s : (n < m)%nat →
  included_after n hash ledger returned (server s) →
  ∃ s', pollLoop m maxPolls interval hash s =
    (match native_value returned with
     | Ok value => Ok (mkSubmit hash true (Some ledger) value None)
     | Err e => Err e
     end, s').
Proof.
  revert m s. induction n as [|n IH]; intros m s Hm (resp & net1 & Hget & Hrest);
    (destruct m as [|m]; [lia|]); cbn [pollLoop];
    unfold sleep; rewrite bind_modify; unfold poll at 1, record at 1; unfold mbind at 1, M_bind at 1; cbn; rewrite Hget; cbn.
  - subst resp. destruct returned as [v|]; [|by eauto]. cbn. unfold lift, mbind, M_bind.
    destruct (scValToNative v); cbn; eauto.
  - destruct Hrest as [-> Hrest]. apply IH; [lia|done].
Qed.

Lemma parse_fee_bound ceiling observed : 0 < ceiling → 
  let fee := if observed <=? 0 then ceiling else if observed <? ceiling then observed else ceiling in
  0 < fee ≤ ceiling.
Proof. intros Hc. cbv zeta. destruct (Z.leb_spec observed 0); [lia|]. destruct (Z.ltb_spec observed ceiling); lia. Qed.

Lemma maxFee_pos : 0 < maxFee env.
Proof.
  unfold maxFee. destruct (env _) as [raw|]; [|done].
  destruct (digits1 raw && (0 <? dec raw)) eqn:E; [|done]. bool_prop. lia.
Qed.

(** ** Properties *)

(** C8. Submitting always comes to an end: whatever the network answers, a submission is sent at most
    STELLAR_TRY_AGAIN_MAX_ATTEMPTS + 1 times and polled for at most
    STELLAR_CONFIRMATION_MAX_POLLS times, the time spent waiting is bounded by the back-off and the
    poll interval, and nothing is polled for before the network accepted it. *)
Theorem submit_bounded tx s :
  let '(_, s') := submit tx s in
  ∃ sends polls, trace s' = trace s ++ sends ++ polls ∧
    count is_poll sends = 0 ∧ 1 ≤ count is_send sends ≤ maxRetries + 1 ∧
    count is_send polls = 0 ∧ count is_poll polls ≤ maxPolls ∧
    waited (sends ++ polls) ≤ baseDelayMs * (2 ^ maxRetries - 1) + maxPolls * intervalMs ∧
    (polls ≠ [] → ∃ resp, last sends = Some (Sent tx (Ok resp)) ∧ accepted resp).
Proof.
  destruct (submit tx s) as [r s'] eqn:E.
  apply submit_run in E as (sends & polls & H1 & H2 & H3 & H4 & H5 & H6 & H7 & _). by exists sends, polls.
Qed.

(** C7. Submission is not settlement: submit reports a transaction as confirmed exactly when
    the last thing the network said is that the transaction with this hash is in a ledger and
    succeeded. *)
Theorem submit_confirmed tx s res s' : submit tx s = (Ok res, s') →
  sub_hash res = hashHex tx ∧
  (sub_confirmed res = true ↔ ∃ e, last (trace s') = Some e ∧ success_event (hashHex tx) e).
Proof.
  intros (sends & polls & Ht & _ & _ & [Hs _] & _ & _ & _ & Hres)%submit_run.
  destruct (Hres res eq_refl) as [Hh Hc]. split; [done|]. rewrite Hc, Ht, (last_app (trace s)).
  destruct (last (sends ++ polls)) eqn:El; [done|].
  apply last_None in El. by destruct sends.
Qed.

(** C9. A submission gets through: when the network takes the transaction in after at most
    STELLAR_TRY_AGAIN_MAX_ATTEMPTS refusals and reports its success within the polls, submit
    returns it as confirmed, in that ledger, with the value that the invocation returned, when it
    returned one. Only a returned value that the SDK cannot convert makes it throw instead. *)
Theorem submit_live tx s net' n m ledger returned :
  accepts_after n tx (server s) net' → Z.of_nat n ≤ maxRetries →
  included_after m (hashHex tx) ledger returned net' → Z.of_nat m < maxPolls →
  ∃ s', submit tx s =
    (match native_value returned with
     | Ok value => Ok (mkSubmit (hashHex tx) true (Some ledger) value None)
     | Err e => Err e
     end, s').
Proof.
  intros Hacc Hn Hinc Hm. unfold submit. fold maxRetries baseDelayMs. cbv zeta.
  destruct (sendLoop_live n (times maxRetries) 0 baseDelayMs tx s net') as (resp & s1 & Hrun & Hok & <-);
    [unfold times; lia|done|].
  rewrite (bind_run _ _ _ _ _ Hrun), bool_decide_false by (destruct Hok; congruence).
  unfold waitForConfirmation. fold maxPolls intervalMs. cbv zeta.
  eapply pollLoop_live; [|done]. unfold times. lia.
Qed.

(** The fee offered per operation is always positive and never above the configured ceiling, also
    when the fee statistics cannot be read or cannot be parsed. *)
Theorem resolveInclusionFee_bound s : ∃ fee s', resolveInclusionFee s = (Ok (show fee), s') ∧
  0 < fee ≤ maxFee env.
Proof.
  pose proof maxFee_pos as Hpos. unfold resolveInclusionFee, try_catch. cbv zeta.
  unfold ask, mbind, M_bind. destruct (getFeeStats (server s)) as [[p90|e] srv1]; cbn.
  - unfold lift. destruct (parseBigInt p90) as [observed|e]; cbn.
    + pose proof (parse_fee_bound (maxFee env) observed Hpos) as Hf. cbv zeta in Hf.
      destruct (observed <=? 0); eauto.
    + eexists _, _. split; [done|lia].
  - eexists _, _. split; [done|lia].
Qed.
End StellarRpcService.

(** ** A small network

    Transactions are texts; the network refuses two submissions, and includes the
    transaction at the third poll, with a value. *)

Module StellarDemo.
#[export] Instance sdk : StellarSdk := {
  Transaction := string; Keypair := string; ScVal := string;
  Account := string; Contract := string;
  hashHex tx := "#" +:+ tx;
  sign tx _ := tx;
  toXDR tx := tx;
  parseXdr xdr _ := Ok xdr;
  new_Contract id := Ok id;
  call_transaction source _ _ contract method args _ :=
    Ok (source +:+ ":" +:+ contract +:+ "." +:+ method +:+ String.concat "," args);
  buildFeeBumpTransaction _ _ inner _ := Ok inner;
  new_Account id _ := Ok id;
  scValToNative v := Ok (JString v);
}.

(** Submissions and polls so far. *)
#[export] Instance network : RpcServer sdk (nat * nat) := {
  getAccount id := mret id;
  prepareTransaction tx := mret tx;
  simulateTransaction _ := mret (SimulationSuccess (Some "42"));
  getFeeStats := mret "250";
  sendTransaction tx := λ '(sends, polls),
    (Ok (mkSent (if (sends <? 2)%nat then TRY_AGAIN_LATER else PENDING) ("#" +:+ tx) "{}"), (S sends, polls));
  getTransaction _ := λ '(sends, polls),
    (Ok (if (polls <? 2)%nat then TxNotFound else TxSuccess 77 (Some "7")), (sends, S polls));
}.

Definition no_env : Env := λ _, None.
Definition start : Rpc (nat * nat) := mkRpc (0, 0)%nat [].
Definition tx : Transaction := "tx".
End StellarDemo.
Import StellarDemo.

Lemma submit_confirmed_witness :
  let '(r, s') := submit no_env tx start in
  match r with
  | Ok res => sub_confirmed res = true ↔ ∃ e, last (trace s') = Some e ∧ success_event (hashHex tx) e
  | Err _ => False
  end.
Proof.
  destruct (submit no_env tx start) as [[res|e] s'] eqn:E; [|discriminate].
  apply (submit_confirmed no_env tx start res s' E).
Defined.

Lemma submit_live_witness : ∃ s',
  submit no_env tx start = (Ok (mkSubmit (hashHex tx) true (Some 77) (Some (JString "7")) None), s').
Proof.
  apply (submit_live no_env tx start (3, 0)%nat 2 2 77 (Some "7")).
  - do 2 (eexists _, _; split; [reflexivity|]; split; [reflexivity|]).
    eexists _, _. split; [reflexivity|]. split; [left; reflexivity|reflexivity].
  - vm_compute. discriminate.
  - do 2 (eexists _, _; split; [reflexivity|]; split; [reflexivity|]).
    eexists _, _. split; reflexivity.
  - vm_compute. reflexivity.
Defined.
