(* ===== verification/Escrow.v ===== *)
(** * The escrow contract's client (src/src/stellar/services/escrow-contract.service.ts)

    [EscrowContractService]: one method per contract function, and the check of an envelope
    that a wallet signed before it is submitted. *)

From S2P Require Import Prelude Decimal Amount TokenService StellarRpc.
From Stdlib Require Import Ascii.
From stdpp Require Import list.

#[local] Open Scope Z_scope.

#[local] Arguments String.append !_ _ /.

(** ** Values *)

Definition join_with (sep : string) (l : list string) : string := String.concat sep l.

(** [String(v)]; an array is its elements joined by commas, [null] and [undefined] empty. *)
Fixpoint js_String (v : jsval) : string :=
  match v with
  | JUndefined => "undefined"
  | JNull => "null"
  | JBool b => if b then "true" else "false"
  | JNumber n | JBigint n => show n
  | JString s => s
  | JArray l => join_with "," (map (λ v,
      match v with JUndefined | JNull => "" | _ => js_String v end) l)
  | JObject _ => "[object Object]"
  end.

(** [Boolean(v)] *)
Definition js_Boolean (v : jsval) : bool :=
  match v with
  | JUndefined | JNull => false
  | JBool b => b
  | JNumber n | JBigint n => negb (n =? 0)
  | JString s => nonempty s
  | JArray _ | JObject _ => true
  end.

(** [v.name] of a value that is not [undefined] or [null]. *)
Definition field (name : string) (v : jsval) : jsval :=
  match v with
  | JObject fields => default JUndefined (snd <$> List.find (λ kv, kv.1 == name) fields)
  | _ => JUndefined
  end.

(** [Number(v ?? 0)] of a contract's u32; [None] is [NaN]. *)
Definition js_Number (v : jsval) : option Z :=
  match v with
  | JUndefined | JNull => Some 0
  | JBool b => Some (if b then 1 else 0)
  | JNumber n | JBigint n => Some n
  | JString _ | JArray _ | JObject _ => None
  end.

Record OnChainPot := mkOnChainPot {
  oc_playerA : string;
  oc_playerB : string;
  oc_stake : Stroops;
  oc_fundedA : bool;
  oc_fundedB : bool;
  oc_status : string;
  oc_deadlineLedger : option Z;
}.

Definition decodeBalance (balance : jsval) : result Stroops :=
  match balance with
  | JBigint n | JNumber n => Ok (show n)
  | JString s => Ok s
  | _ => Err (ServiceUnavailable "Unexpected token balance response")
  end.

Definition toPot (raw : jsval) : option OnChainPot :=
  if negb (js_Boolean raw) then None
  else Some (mkOnChainPot (js_String (field "player_a" raw)) (js_String (field "player_b" raw))
    (js_String (field "stake" raw)) (js_Boolean (field "funded_a" raw))
    (js_Boolean (field "funded_b" raw)) (js_String (field "status" raw))
    (js_Number (field "deadline_ledger" raw))).

(** What the service uses of the SDK to make arguments and to look into an envelope.
    Reading a value of the wrong kind throws. *)
Class EnvelopeSdk (sdk : StellarSdk) := {
  Operation : Type;
  HostFunction : Type;
  Invocation : Type;
  ScValue : Type;
  stringScVal : string → result ScVal;
  addressScVal : string → result ScVal;
  i128ScVal : Z → result ScVal;
  publicKey : Keypair → string;
  operations : Transaction → list Operation;
  op_type : Operation → string;
  op_func : Operation → HostFunction;
  func_type : HostFunction → string;
  invokeContract : HostFunction → Invocation;
  contractAddress : Invocation → result string;
  functionName : Invocation → string;
  inv_args : Invocation → list ScVal;
  sc_value : ScVal → result ScValue;
  switch_name : ScValue → result string;
  value_str : ScValue → result string;
  value_address : ScValue → result string;
}.

Record StellarIds := mkIds {
  escrowContractId : string;
  tokenContractId : string;
  resolverPublicKey : string;
  stakeTxTimeoutSeconds : Z;
}.

Section EscrowContractService.
Context {sdk : StellarSdk} {Net : Type} {srv : RpcServer sdk Net} {esdk : EnvelopeSdk sdk}.
Variables (env : Env) (networkPassphrase : string) (config : StellarIds).

Local Abbreviation M := (M (Rpc Net)).
Local Abbreviation build := (buildInvocation env networkPassphrase).

Definition amountToScVal (amount : Stroops) : result ScVal := v ← toBigInt amount; i128ScVal v.

(** ** Calls the resolver signs: the signer is passed in the place of an array of signers *)

Definition openPot (resolver : Keypair) (sessionId playerAAddress playerBAddress : string)
    (stake : Stroops) : M SubmitResult :=
  session ← lift (stringScVal sessionId);
  playerA ← lift (addressScVal playerAAddress);
  playerB ← lift (addressScVal playerBAddress);
  amount ← lift (amountToScVal stake);
  transaction ← build (publicKey resolver) (escrowContractId config) "open_pot"
    [session; playerA; playerB; amount] TRANSACTION_TIMEOUT_SECONDS;
  signAndSubmit env transaction (NotIterable resolver).

Definition resolve (resolver : Keypair) (sessionId winnerAddress : string) : M SubmitResult :=
  session ← lift (stringScVal sessionId);
  winner ← lift (addressScVal winnerAddress);
  transaction ← build (publicKey resolver) (escrowContractId config) "resolve"
    [session; winner] TRANSACTION_TIMEOUT_SECONDS;
  signAndSubmit env transaction (NotIterable resolver).

Definition refund (resolver : Keypair) (sessionId : string) : M SubmitResult :=
  session ← lift (stringScVal sessionId);
  transaction ← build (publicKey resolver) (escrowContractId config) "refund"
    [session] TRANSACTION_TIMEOUT_SECONDS;
  signAndSubmit env transaction (NotIterable resolver).

(** ** Calls a player signs *)

Definition playerCall (method sourcePublicKey sessionId playerAddress : string) : M Transaction :=
  session ← lift (stringScVal sessionId);
  player ← lift (addressScVal playerAddress);
  build sourcePublicKey (escrowContractId config) method [session; player] (stakeTxTimeoutSeconds config).

Definition buildStake : string → string → string → M Transaction := playerCall "stake".
Definition buildClaimRefund : string → string → string → M Transaction := playerCall "claim_refund".

Definition buildUnsignedStake (sessionId playerAddress : string) : M UnsignedTransaction :=
  transaction ← buildStake playerAddress sessionId playerAddress;
  mret (toUnsigned networkPassphrase transaction).
Definition buildUnsignedClaimRefund (sessionId playerAddress : string) : M UnsignedTransaction :=
  transaction ← buildClaimRefund playerAddress sessionId playerAddress;
  mret (toUnsigned networkPassphrase transaction).

(** ** Checking and submitting an envelope *)

Definition reject {A} (reason : string) : result A :=
  Err (BadRequest ("Transaction is not the stake issued for this session: " +:+ reason)).
Definition reject_if (b : bool) (reason : string) : result unit := if b then reject reason else Ok tt.

Definition assertIsStake (transaction : Transaction) (sessionId playerAddress : string) : result unit :=
  match operations transaction with
  | [operation] =>
      reject_if (negb (op_type operation == "invokeHostFunction")) "it is not a contract invocation";;
      let func := op_func operation in
      reject_if (negb (func_type func == "hostFunctionTypeInvokeContract")) "it is not a contract invocation";;
      let invocation := invokeContract func in
      contractId ← contractAddress invocation;
      reject_if (negb (contractId == escrowContractId config)) "it calls the wrong contract";;
      reject_if (negb (functionName invocation == "stake")) "it does not call stake";;
      match inv_args invocation with
      | sessionArg :: playerArg :: _ =>
          sessionValue ← sc_value sessionArg;
          name ← switch_name sessionValue;
          reject_if (negb (name == "scvString")) "the session id is not a string";;
          session ← value_str sessionValue;
          reject_if (negb (session == sessionId)) "it is for a different session";;
          playerValue ← sc_value playerArg;
          name ← switch_name playerValue;
          reject_if (negb (name == "scvAddress")) "the player is not an address";;
          player ← value_address playerValue;
          reject_if (negb (player == playerAddress)) "it is for a different player"
      | _ => reject "it is missing arguments"
      end
  | _ => reject "it must contain exactly one operation"
  end.

Definition submitSignedStake (signedXdr sessionId playerAddress : string) : M SubmitResult :=
  transaction ← lift (match fromXdr networkPassphrase signedXdr with
    | Ok transaction => Ok transaction
    | Err _ => Err (BadRequest "Not a valid signed transaction envelope")
    end);
  lift (assertIsStake transaction sessionId playerAddress);;
  submit env transaction.

(** ** Reads *)

Definition getPot (sessionId : string) : M (option OnChainPot) :=
  try_catch
    (session ← lift (stringScVal sessionId);
     raw ← readContract networkPassphrase (resolverPublicKey config) (escrowContractId config)
       "get_pot" [session];
     mret (toPot raw))
    (λ _, mret None).

Definition getTokenBalance (address : string) : M Stroops :=
  arg ← lift (addressScVal address);
  balance ← readContract networkPassphrase address (tokenContractId config) "balance" [arg];
  lift (decodeBalance balance).

(** ** The envelopes that pass *)

(** Exactly one call of [stake] on the escrow contract, whose first two arguments are
    this session and this player. *)
Definition is_stake (tx : Transaction) (sessionId playerAddress : string) : Prop :=
  ∃ op sessionArg playerArg rest session player, operations tx = [op] ∧
    op_type op = "invokeHostFunction" ∧ func_type (op_func op) = "hostFunctionTypeInvokeContract" ∧
    contractAddress (invokeContract (op_func op)) = Ok (escrowContractId config) ∧
    functionName (invokeContract (op_func op)) = "stake" ∧
    inv_args (invokeContract (op_func op)) = sessionArg :: playerArg :: rest ∧
    sc_value sessionArg = Ok session ∧ switch_name session = Ok "scvString" ∧
    value_str session = Ok sessionId ∧
    sc_value playerArg = Ok player ∧ switch_name player = Ok "scvAddress" ∧
    value_address player = Ok playerAddress.

Lemma reject_if_ok (b : bool) reason : reject_if (negb b) reason = Ok tt ↔ b = true.
Proof. by destruct b. Qed.

Lemma reject_if_bind {A} (b : bool) reason (k : unit → result A) a :
  (reject_if (negb b) reason ≫= k) = Ok a ↔ b = true ∧ k tt = Ok a.
Proof. destruct b; cbn; naive_solver. Qed.

Lemma assertIsStake_ok tx sessionId playerAddress :
  assertIsStake tx sessionId playerAddress = Ok tt ↔ is_stake tx sessionId playerAddress.
Proof.
  unfold assertIsStake, is_stake. split.
  - destruct (operations tx) as [|op [|]]; try done. cbv zeta. intros H.
    apply reject_if_bind in H as [H1 H]. apply reject_if_bind in H as [H2 H].
    apply result_bind_Ok in H as (c & H3 & H). apply reject_if_bind in H as [H4 H].
    apply reject_if_bind in H as [H5 H]. destruct (inv_args _) as [|sArg [|pArg rest]] eqn:Ha; try done.
    apply result_bind_Ok in H as (sv & H6 & H). apply result_bind_Ok in H as (n & H7 & H).
    apply reject_if_bind in H as [H8 H]. apply result_bind_Ok in H as (se & H9 & H).
    apply reject_if_bind in H as [H10 H]. apply result_bind_Ok in H as (pv & H11 & H).
    apply result_bind_Ok in H as (n' & H12 & H). apply reject_if_bind in H as [H13 H].
    apply result_bind_Ok in H as (pl & H14 & H). apply reject_if_ok in H.
    apply bool_decide_eq_true in H1, H2, H4, H5, H8, H10, H13, H. subst.
    exists op, sArg, pArg, rest, sv, pv. by split_and!.
  - intros (op & sArg & pArg & rest & sv & pv & -> & H1 & H2 & H3 & H4 & H5 & H6 & H7 & H8 & H9 & H10 & H11).
    cbv zeta. rewrite H1, H2, H3, H4, H5. cbn.
    rewrite H6. cbn. rewrite H7. cbn. rewrite H8. cbn. rewrite !bool_decide_true by done. cbn.
    rewrite H9. cbn. rewrite H10. cbn. rewrite H11. cbn. by rewrite bool_decide_true.
Qed.

(** ** What reaches the network *)

(** Building a call submits nothing. *)
Definition quiet : relation (Rpc Net) := λ s s', trace s' = trace s.
#[local] Instance quiet_refl : Reflexive quiet.
Proof. done. Qed.
#[local] Instance quiet_trans : Transitive quiet.
Proof. intros s1 s2 s3 H12 H23. unfold quiet in *. congruence. Qed.

Lemma ask_quiet {A} (m : Prelude.M Net A) : preserves quiet (ask m).
Proof. intros s r s'. unfold ask. destruct (m (server s)). by intros [= <- <-]. Qed.

Lemma build_quiet source contract method args timeout :
  preserves quiet (build source contract method args timeout).
Proof.
  unfold buildInvocation, loadAccount, resolveInclusionFee.
  repeat first [ apply ask_quiet | apply (preserves_ret quiet) | apply (preserves_throw quiet)
    | apply (preserves_lift quiet) | apply (preserves_try_catch quiet); [|intros]
    | apply (preserves_bind quiet); [|intros] | case_goal ].
Qed.

(** Only [tx] was submitted. *)
Definition only_sent (tx : Transaction) : relation (Rpc Net) := λ s s',
  ∀ tx' answer, Sent tx' answer ∈ trace s' → Sent tx' answer ∈ trace s ∨ tx' = tx.
#[local] Instance only_sent_refl tx : Reflexive (only_sent tx).
Proof. intros s tx' a H. by left. Qed.
#[local] Instance only_sent_trans tx : Transitive (only_sent tx).
Proof. intros s1 s2 s3 H12 H23 tx' a [H|H]%H23; [by apply H12|by right]. Qed.

Lemma record_only {A} tx (m : Prelude.M Net A) event :
  (∀ r tx' answer, event r = Sent tx' answer → tx' = tx) → preserves (only_sent tx) (record m event).
Proof.
  intros He s r s'. unfold record. destruct (m (server s)) as [r' srv']. intros [= <- <-] tx' answer.
  cbn. rewrite elem_of_app, list_elem_of_singleton. intros [?|Hs]; [by left|]. right. by eapply He.
Qed.

Lemma sleep_only tx ms : preserves (only_sent tx) (sleep (Net := Net) ms).
Proof.
  apply (preserves_modify (only_sent tx)). intros s tx' answer. cbn.
  rewrite elem_of_app, list_elem_of_singleton. intros [?|[=]]. by left.
Qed.

Lemma submit_only tx : preserves (only_sent tx) (submit env tx).
Proof.
  assert (preserves (only_sent tx) (send tx)) as Hsend by (apply record_only; naive_solver).
  assert (∀ hash, preserves (only_sent tx) (poll hash)) as Hpoll by (intros; apply record_only; naive_solver).
  pose proof (sleep_only tx) as Hsleep. unfold submit, waitForConfirmation. cbv zeta.
  apply (preserves_bind (only_sent tx)).
  - generalize 0. induction (times _) as [|n IH]; intros attempt; cbn [sendLoop]; cbv zeta.
    all: repeat first [ apply (preserves_ret (only_sent tx)) | apply (preserves_try_catch (only_sent tx)); [|intros]
      | apply IH | apply Hsend | apply Hsleep | apply (preserves_bind (only_sent tx)); [|intros] | case_goal ].
  - intros [sent|failure]; [|apply (preserves_ret (only_sent tx))].
    case_bool_decide; [apply (preserves_ret (only_sent tx))|].
    generalize (envInt env "STELLAR_CONFIRMATION_MAX_POLLS" 15) at 2. intros maxPolls.
    induction (times _) as [|n IH]; cbn [pollLoop]; [apply (preserves_ret (only_sent tx))|].
    repeat first [ apply (preserves_ret (only_sent tx)) | apply (preserves_lift (only_sent tx))
      | apply IH | apply Hpoll | apply Hsleep | apply (preserves_bind (only_sent tx)); [|intros] | case_goal ].
Qed.

(** ** Properties *)

(** C10. An envelope a wallet hands back reaches the network only when it decodes to exactly one
    call of stake on the escrow contract, for this session and this player; every other
    envelope is refused with nothing submitted, and the right one is submitted. *)
Theorem submitSignedStake_checked signedXdr sessionId playerAddress s :
  let '(r, s') := submitSignedStake signedXdr sessionId playerAddress s in
  (∀ tx answer, Sent tx answer ∈ trace s' → Sent tx answer ∈ trace s ∨
     (fromXdr networkPassphrase signedXdr = Ok tx ∧ is_stake tx sessionId playerAddress)) ∧
  (∀ tx, fromXdr networkPassphrase signedXdr = Ok tx → is_stake tx sessionId playerAddress →
     (r, s') = submit env tx s) ∧
  ((∀ tx, fromXdr networkPassphrase signedXdr = Ok tx → ¬ is_stake tx sessionId playerAddress) →
     s' = s ∧ is_ok r = false).
Proof.
  unfold submitSignedStake. destruct (fromXdr networkPassphrase signedXdr) as [tx|e];
    [|by cbn; split_and!; [left|..]].
  rewrite (bind_lift _ tx) by done. destruct (assertIsStake tx sessionId playerAddress) as [[]|e] eqn:Ha.
  - pose proof (proj1 (assertIsStake_ok _ _ _) Ha) as Hs. rewrite (bind_lift _ tt) by done.
    destruct (submit env tx s) as [r s'] eqn:E. split_and!.
    + intros tx' answer [?| ->]%(submit_only tx _ _ _ E); [by left|by right].
    + by intros ? [= <-] _.
    + intros Hn. by destruct (Hn tx eq_refl).
  - rewrite (bind_lift_err _ e) by done. split_and!; [by left| |done].
    intros ? [= <-] Hs%assertIsStake_ok. congruence.
Qed.

Definition never_ok {A} (m : M A) : Prop := ∀ s a s', m s ≠ (Ok a, s').
Lemma never_ok_bind {A B} (m : M A) (f : A → M B) : (∀ a, never_ok (f a)) → never_ok (m ≫= f).
Proof. intros Hf s b s'. unfold mbind, M_bind. destruct (m s) as [[a|e] s1]; [apply Hf|done]. Qed.

(** Nothing the resolver has to sign ever reaches the network: opening a pot, releasing it to the
    winner and refunding it all throw, because the signer is passed where an array of signers
    is read, and nothing is submitted. *)
Theorem resolver_never_submits resolver sessionId playerA playerB winner stake s :
  let fails (m : M SubmitResult) := ∃ e s', m s = (Err e, s') ∧ trace s' = trace s in
  fails (openPot resolver sessionId playerA playerB stake) ∧
  fails (resolve resolver sessionId winner) ∧
  fails (refund resolver sessionId).
Proof.
  intros fails.
  assert (∀ m, preserves quiet m → never_ok m → fails m) as Hfails.
  { intros m Hq Hn. destruct (m s) as [[a|e] s'] eqn:E; [by destruct (Hn s a s')|].
    exists e, s'. split; [done|]. by apply Hq in E. }
  assert (∀ tx, never_ok (signAndSubmit env tx (NotIterable resolver))) as Hsign by done.
  unfold openPot, resolve, refund. split_and!; apply Hfails;
    repeat first [ apply build_quiet | apply (preserves_lift quiet) | apply (preserves_throw quiet)
      | apply (preserves_bind quiet); [|intros] | apply Hsign | apply never_ok_bind; intros ].
Qed.
End EscrowContractService.

(** ** Two envelopes

    An envelope is the text of the function it calls; its arguments are fixed. *)

Module EscrowDemo.
Import StellarDemo.
#[export] Instance envelopes : EnvelopeSdk sdk := {
  Operation := string; HostFunction := string; Invocation := string; ScValue := string;
  stringScVal s := Ok s;
  addressScVal s := Ok s;
  i128ScVal n := Ok (show n);
  publicKey k := k;
  operations tx := [tx];
  op_type _ := "invokeHostFunction";
  op_func op := op;
  func_type _ := "hostFunctionTypeInvokeContract";
  invokeContract f := f;
  contractAddress _ := Ok "ESCROW";
  functionName f := f;
  inv_args _ := ["session"; "player"];
  sc_value v := Ok v;
  switch_name v := Ok (if v == "session" then "scvString" else "scvAddress");
  value_str v := Ok v;
  value_address v := Ok v;
}.
Definition ids : StellarIds := mkIds "ESCROW" "TOKEN" "RESOLVER" 180.

Example stake_is_submitted :
  sub_confirmed <$> (submitSignedStake no_env "net" ids "stake" "session" "player" start).1 = Ok true.
Proof. reflexivity. Qed.
Example payment_is_refused :
  submitSignedStake no_env "net" ids "pay" "session" "player" start =
  (Err (BadRequest "Transaction is not the stake issued for this session: it does not call stake"), start).
Proof. reflexivity. Qed.
End EscrowDemo.
