(* ===== verification/StellarConfig.v ===== *)
(** * The Stellar settings and the key stores

    [loadStellarConfig] of src/src/stellar/stellar.config.ts, the key stores of
    src/src/stellar/services (env-key-store, kms-key-store), the choice between them in
    src/src/stellar/stellar.module.ts, and src/src/stellar/trustline.util.ts.  Keys and
    their encodings come from the SDK, signatures of remote keys from their services: both
    are parameters. *)

From S2P Require Import Prelude.
From Stdlib Require Import Ascii.

#[local] Arguments String.append !_ _ /.

(** What the settings use of the SDK and of node's crypto. *)
Class KeySdk := {
  Seedpair : Type;  (** a [Keypair] *)
  Networks_PUBLIC : string;
  Networks_TESTNET : string;
  Networks_FUTURENET : string;
  Networks_STANDALONE : string;
  isValidEd25519SecretSeed : string → bool;
  isValidContract : string → bool;
  fromSecret : string → result Seedpair;
  fromRawEd25519Seed : string → Seedpair;
  keyAddress : Seedpair → string;  (** [publicKey()] *)
  hmac_sha256 : string → string → string;
}.

(** [configService.get]; the one number has a lookup of its own. *)
Record ConfigService := mkConfigService {
  get : string → option string;
  get_number : string → option Z;
}.

(** ** Settings *)

Inductive SettlementMode := MOCK | STELLAR.
#[export] Instance SettlementMode_eq_dec : EqDecision SettlementMode.
Proof. solve_decision. Defined.
Inductive CustodyMode := CUSTODIAL | NON_CUSTODIAL.
#[export] Instance CustodyMode_eq_dec : EqDecision CustodyMode.
Proof. solve_decision. Defined.

(** A property that is not a string is [None]. *)
Record StellarConfig := mkStellarConfig {
  sc_settlementMode : SettlementMode;
  sc_custodyMode : CustodyMode;
  sc_networkPassphrase : option string;
  sc_network : string;
  sc_rpcUrl : option string;
  sc_horizonUrl : option string;
  sc_escrowContractId : string;
  sc_tokenContractId : string;
  sc_resolverPublicKey : string;
  sc_webAuthDomain : string;
  sc_isTestNetwork : bool;
  sc_stakeTxTimeoutSeconds : Z;
}.

(** [table[key]] of an object literal, by lower-case key: a property of its own, or one it
    inherits from [Object.prototype], which is not a string. *)
Definition object_get (table : list (string * string)) (key : string) : option (option string) :=
  match List.find (λ kv, kv.1 == key) table with
  | Some kv => Some (Some kv.2)
  | None => if (key == "constructor") || (key == "__proto__") then Some None else None
  end.

Section settings.
Context `{KeySdk}.

Definition NETWORK_PASSPHRASES : list (string * string) :=
  [("public", Networks_PUBLIC); ("testnet", Networks_TESTNET);
   ("futurenet", Networks_FUTURENET); ("standalone", Networks_STANDALONE)].
Definition DEFAULT_RPC_URLS : list (string * string) :=
  [("public", "https://mainnet.sorobanrpc.com"); ("testnet", "https://soroban-testnet.stellar.org");
   ("futurenet", "https://rpc-futurenet.stellar.org");
   ("standalone", "http://localhost:8000/soroban/rpc")].
Definition DEFAULT_HORIZON_URLS : list (string * string) :=
  [("public", "https://horizon.stellar.org"); ("testnet", "https://horizon-testnet.stellar.org");
   ("futurenet", "https://horizon-futurenet.stellar.org"); ("standalone", "http://localhost:8000")].

Definition error {A} (msg : string) : result A := Err (PlainError "Error" msg).

Definition assertNoSecretReuse (cs : ConfigService) : result unit :=
  if negb (default "development" (get cs "NODE_ENV") == "production") then Ok tt
  else
    let webAuthSecret := get cs "STELLAR_WEB_AUTH_SECRET" in
    let resolverSecret := get cs "STELLAR_RESOLVER_SECRET" in
    if truthy webAuthSecret && truthy resolverSecret && (webAuthSecret == resolverSecret) then
      error ("Refusing to start: STELLAR_WEB_AUTH_SECRET must not equal " +:+
        "STELLAR_RESOLVER_SECRET. Use a separate keypair for SEP-10 web " +:+
        "authentication so a leaked web-auth key cannot resolve wagers.")
    else Ok tt.

Definition resolveResolverPublicKey (cs : ConfigService) : result string :=
  let secret := get cs "STELLAR_RESOLVER_SECRET" in
  if negb (truthy secret) then Ok ""
  else if negb (isValidEd25519SecretSeed (default "" secret)) then
    error "STELLAR_RESOLVER_SECRET is not a valid Stellar secret seed (S...)"
  else keyAddress <$> fromSecret (default "" secret).

Definition assertContractId (value name : string) : result unit :=
  if negb (nonempty value) then error (name +:+ " is required when STELLAR_SETTLEMENT_MODE=stellar")
  else if negb (isValidContract value) then error (name +:+ " is not a valid Stellar contract ID (C...)")
  else Ok tt.

Definition parseSettlementMode (raw : string) : result SettlementMode :=
  if raw == "mock" then Ok MOCK else if raw == "stellar" then Ok STELLAR
  else error ("STELLAR_SETTLEMENT_MODE must be " +:+ dq +:+ "mock" +:+ dq +:+ " or " +:+ dq +:+
    "stellar" +:+ dq +:+ ", got " +:+ dq +:+ raw +:+ dq).

Definition parseCustodyMode (raw : string) : result CustodyMode :=
  if raw == "custodial" then Ok CUSTODIAL else if raw == "non-custodial" then Ok NON_CUSTODIAL
  else error ("STELLAR_CUSTODY_MODE must be " +:+ dq +:+ "custodial" +:+ dq +:+ " or " +:+ dq +:+
    "non-custodial" +:+ dq +:+ ", got " +:+ dq +:+ raw +:+ dq).

(** [configService.get(name) ?? table[network]] *)
Definition setting (cs : ConfigService) (name : string) (table : list (string * string))
    (network : string) : option string :=
  match get cs name with Some v => Some v | None => default None (object_get table network) end.

Definition loadStellarConfig (cs : ConfigService) : result StellarConfig :=
  settlementMode ← parseSettlementMode (lower (default "mock" (get cs "STELLAR_SETTLEMENT_MODE")));
  let network := lower (default "testnet" (get cs "STELLAR_NETWORK")) in
  (if bool_decide (object_get NETWORK_PASSPHRASES network = None) then
     error ("STELLAR_NETWORK must be one of public, testnet, futurenet, standalone, got " +:+
       dq +:+ network +:+ dq)
   else Ok tt);;
  custodyMode ← parseCustodyMode (lower (default "non-custodial" (get cs "STELLAR_CUSTODY_MODE")));
  resolverKey ← resolveResolverPublicKey cs;
  let config := mkStellarConfig settlementMode custodyMode
    (setting cs "STELLAR_NETWORK_PASSPHRASE" NETWORK_PASSPHRASES network) network
    (setting cs "STELLAR_RPC_URL" DEFAULT_RPC_URLS network)
    (setting cs "STELLAR_HORIZON_URL" DEFAULT_HORIZON_URLS network)
    (default "" (get cs "STELLAR_ESCROW_CONTRACT_ID")) (default "" (get cs "STELLAR_TOKEN_CONTRACT_ID"))
    resolverKey (default "localhost" (get cs "STELLAR_WEB_AUTH_DOMAIN")) (negb (network == "public"))
    (default 180 (get_number cs "STELLAR_STAKE_TX_TIMEOUT_SECONDS")) in
  assertNoSecretReuse cs;;
  (if bool_decide (settlementMode = STELLAR) then
     assertContractId (sc_escrowContractId config) "STELLAR_ESCROW_CONTRACT_ID";;
     assertContractId (sc_tokenContractId config) "STELLAR_TOKEN_CONTRACT_ID";;
     if negb (nonempty (sc_resolverPublicKey config)) then
       error "STELLAR_RESOLVER_SECRET is required when STELLAR_SETTLEMENT_MODE=stellar"
     else if (network == "public") && bool_decide (custodyMode = CUSTODIAL) then
       error ("Refusing to start: custodial mode on the public network would let the " +:+
         "backend spend player funds. Set STELLAR_CUSTODY_MODE=non-custodial.")
     else Ok tt
   else Ok tt);;
  Ok config.

(** ** Key stores *)

(** A remote signer, by what its service answers. *)
Record RemoteSigner := mkRemote {
  rs_id : string;
  rs_getPublicKey : result string;
  rs_sign : string → result string;
}.

(** The three stores; an [EnvKeyStore] knows whether it is custodial, and a
    [KmsKeyStore] has a public key once it is initialised. *)
Inductive IKeyStore :=
  | EnvKeyStore (custodial : bool) (resolverKeypair : option Seedpair) (custodialMasterSeed : option string)
  | NonCustodialKeyStore (resolverKeypair : option Seedpair)
  | KmsKeyStore (signer : RemoteSigner) (publicKey : option string).

Definition resolverPair (cs : ConfigService) : result (option Seedpair) :=
  let secret := get cs "STELLAR_RESOLVER_SECRET" in
  if truthy secret then Some <$> fromSecret (default "" secret) else Ok None.

Definition newEnvKeyStore (cs : ConfigService) (config : StellarConfig) : result IKeyStore :=
  kp ← resolverPair cs;
  let seed := get cs "STELLAR_CUSTODIAL_MASTER_SEED" in
  let custodial := bool_decide (sc_custodyMode config = CUSTODIAL) in
  if custodial && negb (truthy seed) then
    error "STELLAR_CUSTODIAL_MASTER_SEED is required when STELLAR_CUSTODY_MODE=custodial"
  else Ok (EnvKeyStore custodial kp seed).

Definition newNonCustodialKeyStore (cs : ConfigService) : result IKeyStore :=
  let secret := get cs "STELLAR_RESOLVER_SECRET" in
  if truthy secret && negb (isValidEd25519SecretSeed (default "" secret)) then
    error "STELLAR_RESOLVER_SECRET is not a valid secret seed"
  else NonCustodialKeyStore <$> resolverPair cs.

(** [new KmsKeyStore] and its [init]. *)
Definition newKmsKeyStore (cs : ConfigService) (signer : RemoteSigner) : result IKeyStore :=
  key ← match get cs "STELLAR_RESOLVER_PUBLIC_KEY" with
    | Some configured => Ok configured
    | None => rs_getPublicKey signer
    end;
  Ok (KmsKeyStore signer (Some key)).

(** The module's factory; [awsKms keyId region] and [vaultTransit addr token key] are the
    two remote signers. *)
Definition keyStoreFactory (awsKms : string → string → RemoteSigner)
    (vaultTransit : string → string → string → RemoteSigner)
    (cs : ConfigService) (config : StellarConfig) : result IKeyStore :=
  let keyStore := lower (default "env" (get cs "STELLAR_KEY_STORE")) in
  if keyStore == "kms" then
    let keyId := get cs "STELLAR_KMS_KEY_ID" in
    let region := get cs "STELLAR_KMS_REGION" in
    if negb (truthy keyId) || negb (truthy region) then
      error "STELLAR_KMS_KEY_ID and STELLAR_KMS_REGION are required when STELLAR_KEY_STORE=kms"
    else newKmsKeyStore cs (awsKms (default "" keyId) (default "" region))
  else if keyStore == "vault" then
    let addr := get cs "STELLAR_VAULT_ADDR" in
    let token := get cs "STELLAR_VAULT_TOKEN" in
    let key := get cs "STELLAR_VAULT_TRANSIT_KEY" in
    if negb (truthy addr) || negb (truthy token) || negb (truthy key) then
      error ("STELLAR_VAULT_ADDR, STELLAR_VAULT_TOKEN and STELLAR_VAULT_TRANSIT_KEY are required " +:+
        "when STELLAR_KEY_STORE=vault")
    else newKmsKeyStore cs (vaultTransit (default "" addr) (default "" token) (default "" key))
  else if bool_decide (sc_custodyMode config = CUSTODIAL) then newEnvKeyStore cs config
  else newNonCustodialKeyStore cs.

Definition deriveKeypair (custodialMasterSeed : option string) (userId : string) : result Seedpair :=
  if negb (truthy custodialMasterSeed) then error "Custodial master seed is not configured"
  else Ok (fromRawEd25519Seed
    (hmac_sha256 (default "" custodialMasterSeed) ("lyricsflip:player:" +:+ userId))).

Definition getResolverKeypair (store : IKeyStore) : result Seedpair :=
  match store with
  | EnvKeyStore _ (Some kp) _ => Ok kp
  | EnvKeyStore _ None _ => error ("No resolver key configured. Set STELLAR_RESOLVER_SECRET to the secret "
      +:+ "seed of the account registered as the escrow contract resolver.")
  | NonCustodialKeyStore (Some kp) => Ok kp
  | NonCustodialKeyStore None => error "No resolver key configured (STELLAR_RESOLVER_SECRET)"
  | KmsKeyStore signer _ => error ("remote:" +:+ rs_id signer +:+
      " does not expose a signing Keypair. Use getResolverSigner() " +:+
      "instead of getResolverKeypair() when STELLAR_KEY_STORE=kms|vault.")
  end.

Definition getPlayerSigner (store : IKeyStore) (userId : string) : result (option Seedpair) :=
  match store with
  | EnvKeyStore true _ seed => Some <$> deriveKeypair seed userId
  | _ => Ok None
  end.

Definition getPlayerAddress (store : IKeyStore) (userId : string) : result (option string) :=
  match store with
  | EnvKeyStore true _ seed => (Some ∘ keyAddress) <$> deriveKeypair seed userId
  | _ => Ok None
  end.

Definition getResolverPublicKey (name : string) (publicKey : option string) : result string :=
  if negb (truthy publicKey) then
    error (name +:+ " has not been initialised - call init() during bootstrap")
  else Ok (default "" publicKey).
End settings.

(** ** Trustlines *)

Record TrustlineLike := mkTrustline { asset_code : option string; asset_issuer : option string }.

Definition hasTrustline (balances : list TrustlineLike) (assetCode assetIssuer : string) : bool :=
  existsb (λ b, bool_decide (asset_code b = Some assetCode) &&
    bool_decide (asset_issuer b = Some assetIssuer)) balances.
Definition requiresTrustline (assetCode assetIssuer : option string) : bool :=
  truthy assetCode && truthy assetIssuer.
(** [None] is [{ ok: true }], and [Some reason] a refusal. *)
Definition canReceiveToken (balances : list TrustlineLike) (assetCode assetIssuer : option string) :
    option string :=
  if negb (requiresTrustline assetCode assetIssuer) then None
  else if hasTrustline balances (default "" assetCode) (default "" assetIssuer) then None
  else Some ("Account is missing a trustline for " +:+ default "" assetCode +:+ ":" +:+ default "" assetIssuer).

(** ** Properties *)

Section properties.
Context `{KeySdk}.

Lemma assertContractId_ok value name : assertContractId value name = Ok tt → isValidContract value = true.
Proof. unfold assertContractId. destruct (nonempty value), (isValidContract value); done. Qed.

Lemma resolveResolverPublicKey_ok cs key : resolveResolverPublicKey cs = Ok key → nonempty key = true →
  ∃ secret kp, get cs "STELLAR_RESOLVER_SECRET" = Some secret ∧
    isValidEd25519SecretSeed secret = true ∧ fromSecret secret = Ok kp ∧ key = keyAddress kp.
Proof.
  unfold resolveResolverPublicKey. intros Hr Hk.
  destruct (get cs "STELLAR_RESOLVER_SECRET") as [secret|]; [|by injection Hr as <-].
  cbn in Hr. destruct (nonempty secret); [|by injection Hr as <-]. cbn in Hr.
  destruct (isValidEd25519SecretSeed secret) eqn:Hv; [|done]. cbn in Hr.
  destruct (fromSecret secret) as [kp|e] eqn:Hf; [|done]. injection Hr as <-. eauto 10.
Qed.

(** The settings of each network: its passphrase, and the addresses of its RPC and Horizon
    servers. *)
Definition network_defaults (network : string) : option (string * string * string) :=
  if network == "public" then
    Some (Networks_PUBLIC, "https://mainnet.sorobanrpc.com", "https://horizon.stellar.org")
  else if network == "testnet" then
    Some (Networks_TESTNET, "https://soroban-testnet.stellar.org", "https://horizon-testnet.stellar.org")
  else if network == "futurenet" then
    Some (Networks_FUTURENET, "https://rpc-futurenet.stellar.org", "https://horizon-futurenet.stellar.org")
  else if network == "standalone" then
    Some (Networks_STANDALONE, "http://localhost:8000/soroban/rpc", "http://localhost:8000")
  else None.

(** The settings are those of their network, but for what is set by hand; or their network is a
    name that a plain object inherits. *)
Definition matches_network (cs : ConfigService) (c : StellarConfig) : Prop :=
  match network_defaults (sc_network c) with
  | Some (passphrase, rpcUrl, horizonUrl) =>
      sc_networkPassphrase c = Some (default passphrase (get cs "STELLAR_NETWORK_PASSPHRASE")) ∧
      sc_rpcUrl c = Some (default rpcUrl (get cs "STELLAR_RPC_URL")) ∧
      sc_horizonUrl c = Some (default horizonUrl (get cs "STELLAR_HORIZON_URL"))
  | None => sc_network c ∈ ["constructor"; "__proto__"]
  end.

Lemma setting_own cs name table network own : object_get table network = Some (Some own) →
  setting cs name table network = Some (default own (get cs name)).
Proof. unfold setting. intros ->. by destruct (get cs name). Qed.

Lemma loadStellarConfig_network cs c : loadStellarConfig cs = Ok c → matches_network cs c.
Proof.
  unfold loadStellarConfig. cbv zeta.
  set (network := lower (default "testnet" (get cs "STELLAR_NETWORK"))).
  intros (mode & _ & Hrest)%result_bind_Ok. apply result_bind_Ok in Hrest as ([] & Hnet & Hrest).
  do 4 (apply result_bind_Ok in Hrest as (? & _ & Hrest)). injection Hrest as <-.
  destruct (bool_decide (object_get _ network = None)) eqn:Hnetwork; [done|].
  apply bool_decide_eq_false in Hnetwork. unfold matches_network, network_defaults. cbn.
  revert Hnetwork. generalize network. clear. intros network Hn.
  repeat case_bool_decide; subst; try (split_and!; by apply setting_own).
  unfold object_get, NETWORK_PASSPHRASES in Hn. cbn in Hn.
  rewrite !bool_decide_false in Hn by congruence. cbn in Hn. case_bool_decide; [subst; left|].
  case_bool_decide; [subst; right; left|]. done.
Qed.

(** What a boot that got through [loadStellarConfig] has checked. *)
Lemma loadStellarConfig_ok cs c : loadStellarConfig cs = Ok c →
  assertNoSecretReuse cs = Ok tt ∧
  sc_network c = lower (default "testnet" (get cs "STELLAR_NETWORK")) ∧
  object_get NETWORK_PASSPHRASES (sc_network c) ≠ None ∧
  sc_isTestNetwork c = negb (sc_network c == "public") ∧
  resolveResolverPublicKey cs = Ok (sc_resolverPublicKey c) ∧
  (sc_settlementMode c = STELLAR →
     isValidContract (sc_escrowContractId c) = true ∧ isValidContract (sc_tokenContractId c) = true ∧
     nonempty (sc_resolverPublicKey c) = true ∧
     (sc_network c = "public" → sc_custodyMode c = NON_CUSTODIAL)).
Proof.
  unfold loadStellarConfig. cbv zeta.
  set (network := lower (default "testnet" (get cs "STELLAR_NETWORK"))).
  intros (mode & Hmode & Hrest)%result_bind_Ok. apply result_bind_Ok in Hrest as ([] & Hnet & Hrest).
  apply result_bind_Ok in Hrest as (custody & Hcustody & Hrest).
  apply result_bind_Ok in Hrest as (key & Hkey & Hrest).
  apply result_bind_Ok in Hrest as ([] & Hreuse & Hrest).
  apply result_bind_Ok in Hrest as ([] & Hchecks & Hc). injection Hc as <-. cbn in *.
  destruct (bool_decide (object_get _ network = None)) eqn:Hnetwork; [done|].
  apply bool_decide_eq_false in Hnetwork. split_and!; [done..|]. intros Hs.
  rewrite bool_decide_true in Hchecks by done.
  apply result_bind_Ok in Hchecks as ([] & He%assertContractId_ok & Hchecks).
  apply result_bind_Ok in Hchecks as ([] & Ht%assertContractId_ok & Hchecks).
  destruct (nonempty key); [|done]. split_and!; [done..|]. intros Hp. rewrite Hp in Hchecks. cbn in Hchecks.
  by destruct custody.
Qed.


(** On the public network, wagers that settle on Stellar are never signed for a player:
    whatever key store is configured, it holds no player's key. *)
Theorem public_never_signs awsKms vaultTransit cs c store userId :
  loadStellarConfig cs = Ok c → keyStoreFactory awsKms vaultTransit cs c = Ok store →
  sc_settlementMode c = STELLAR → sc_isTestNetwork c = false →
  getPlayerSigner store userId = Ok None ∧ getPlayerAddress store userId = Ok None.
Proof.
  intros (_ & _ & _ & Htest & _ & Hchecks)%loadStellarConfig_ok Hstore Hs Hpub.
  rewrite Htest in Hpub. apply negb_false_iff, bool_decide_eq_true in Hpub.
  apply Hchecks in Hs as (_ & _ & _ & Hcust). specialize (Hcust Hpub).
  assert (∀ signer, newKmsKeyStore cs signer = Ok store →
    getPlayerSigner store userId = Ok None ∧ getPlayerAddress store userId = Ok None) as Hkms
    by (by intros signer (key & _ & [= <-])%result_bind_Ok).
  unfold keyStoreFactory in Hstore. cbv zeta in Hstore.
  rewrite Hcust, (bool_decide_false (NON_CUSTODIAL = CUSTODIAL)) in Hstore by done.
  destruct (_ == "kms"); [by destruct (_ || _); [|eapply Hkms]|].
  destruct (_ == "vault"); [by destruct (_ || _); [|eapply Hkms]|].
  unfold newNonCustodialKeyStore in Hstore. destruct (_ && _); [done|].
  by destruct (resolverPair cs); [injection Hstore as <-|].
Qed.
End properties.

(** ** A deployment on the public network *)

Module ConfigDemo.
#[export] Instance sdk : KeySdk := {
  Seedpair := string;
  Networks_PUBLIC := "public passphrase"; Networks_TESTNET := "testnet passphrase";
  Networks_FUTURENET := "futurenet passphrase"; Networks_STANDALONE := "standalone passphrase";
  isValidEd25519SecretSeed s := String.prefix "S" s;
  isValidContract s := String.prefix "C" s;
  fromSecret s := Ok ("G" +:+ s);
  fromRawEd25519Seed s := s;
  keyAddress k := k;
  hmac_sha256 k m := k +:+ m;
}.
Definition settings : ConfigService := mkConfigService (λ name,
  snd <$> List.find (λ kv, kv.1 == name)
    [("NODE_ENV", "production"); ("STELLAR_SETTLEMENT_MODE", "Stellar"); ("STELLAR_NETWORK", "PUBLIC");
     ("STELLAR_ESCROW_CONTRACT_ID", "CESCROW"); ("STELLAR_TOKEN_CONTRACT_ID", "CTOKEN");
     ("STELLAR_RESOLVER_SECRET", "SRESOLVER"); ("STELLAR_WEB_AUTH_SECRET", "SWEB")]) (λ _, None).
Definition remote : RemoteSigner := mkRemote "kms" (Ok "GKMS") (λ h, Ok h).
End ConfigDemo.
Import ConfigDemo.

Definition publicConfig : StellarConfig :=
  mkStellarConfig STELLAR NON_CUSTODIAL (Some "public passphrase") "public"
    (Some "https://mainnet.sorobanrpc.com") (Some "https://horizon.stellar.org") "CESCROW" "CTOKEN"
    "GSRESOLVER" "localhost" false 180.

Lemma publicConfig_loads : loadStellarConfig settings = Ok publicConfig.
Proof. vm_compute. reflexivity. Qed.


Lemma public_never_signs_witness :
  let store := NonCustodialKeyStore (Some "GSRESOLVER") in
  getPlayerSigner store "alice" = Ok None ∧ getPlayerAddress store "alice" = Ok None.
Proof.
  apply (public_never_signs (λ _ _, remote) (λ _ _ _, remote) settings publicConfig _ "alice"
    publicConfig_loads); vm_compute; reflexivity.
Defined.
