(* ===== verification/GameHistory.v ===== *)
(** * Game history and its retention

    [GameHistoryService] of src/src/game-history/game-history.service.ts, with the
    aggregate query behind a player's statistics and the cache in front of it, and the
    [RetentionJob] of src/src/retention/retention.job.ts, which moves old rows to an
    archive table and clears old addresses from the audit log. *)

From S2P Require Import Prelude Entities Number.
From Stdlib Require Import SpecFloat.
From stdpp Require Import sorting.

#[local] Open Scope Z_scope.

(** ** Entities *)

Record GameHistory := mkHistory {
  gh_id : string;
  gh_playerId : string;
  gh_lyricId : Z;
  gh_gameSessionId : option string;
  gh_guessType : GuessType;
  gh_guessValue : string;
  gh_isCorrect : bool;
  gh_pointsAwarded : Z;
  gh_xpChange : Z;
  gh_wagerAmount : option Z;
  gh_createdAt : Z;
}.

(** The columns of an audit row that the retention job touches. *)
Record AuditIp := mkAuditIp { ai_timestamp : Z; ai_ip : option string }.

(** The columns of a session that a response shows. *)
Record SessionView := mkSessionView { ses_id : string; ses_mode : string; ses_category : option string }.

Record UserStats := mkStats {
  totalGames : Z;
  correctGuesses : Z;
  incorrectGuesses : Z;
  accuracy : spec_float;
  totalPointsEarned : Z;
  totalXpGained : Z;
  bestStreak : Z;
  averagePointsPerGame : spec_float;
}.

(** The tables, the statistics cache (each entry with the time it expires at), the
    clock, and the number of ids drawn so far. *)
Record HistoryDb := mkHistoryDb {
  history : gmap string GameHistory;
  archive : gmap string GameHistory;
  audit_logs : gmap string AuditIp;
  historyLyrics : gmap Z Lyrics;
  historySessions : gmap string SessionView;
  cache : gmap string (UserStats * Z);
  clock : Z;
  drawn : nat;
}.
#[export] Instance HistoryDb_settable : Settable HistoryDb := λ d,
  mkHistoryDb (history d) (archive d) (audit_logs d) (historyLyrics d) (historySessions d) (cache d)
    (clock d) (drawn d).

Local Abbreviation M := (M HistoryDb).

(** ** The statistics query *)

(** [ORDER BY "createdAt", "id"] *)
Definition in_order (a b : GameHistory) : Prop :=
  gh_createdAt a < gh_createdAt b ∨
  gh_createdAt a = gh_createdAt b ∧ String.leb (gh_id a) (gh_id b) = true.
#[export] Instance in_order_dec : RelDecision in_order.
Proof. intros a b. unfold in_order. apply _. Defined.

(** [WHERE "playerId" = $1], in order. *)
Definition guessesOf (playerId : string) (d : HistoryDb) : list GameHistory :=
  merge_sort in_order (List.filter (λ g, gh_playerId g == playerId) (map_to_list (history d)).*2).

(** [ROW_NUMBER()] of the row at [i], over all rows and within its [isCorrect] value. *)
Definition row_number (i : nat) : Z := Z.of_nat (S i).
Definition partition_row_number (rows : list GameHistory) (i : nat) (row : GameHistory) : Z :=
  Z.of_nat (length (List.filter (λ r, eqb (gh_isCorrect r) (gh_isCorrect row)) (take (S i) rows))).

(** [ordered]: each row with its [run]. *)
Definition ordered (rows : list GameHistory) : list (GameHistory * Z) :=
  imap (λ i row, (row, row_number i - partition_row_number rows i row)) rows.

(** The [run] of every correct guess; [COUNT] of one group, and [MAX] over the groups. *)
Definition correct_runs (rows : list GameHistory) : list Z :=
  (List.filter (λ x : GameHistory * Z, gh_isCorrect x.1) (ordered rows)).*2.
Definition group_size (runs : list Z) (run : Z) : nat := length (List.filter (Z.eqb run) runs).
Definition max_list (l : list nat) : nat := foldr Nat.max 0%nat l.
Definition best_streak (rows : list GameHistory) : Z :=
  let runs := correct_runs rows in Z.of_nat (max_list (group_size runs <$> runs)).

Definition sum_of (f : GameHistory → Z) (rows : list GameHistory) : Z := foldr Z.add 0 (f <$> rows).
Definition correct_count (rows : list GameHistory) : Z :=
  Z.of_nat (length (List.filter gh_isCorrect rows)).

(** ** Statistics *)

Definition computeStats (rows : list GameHistory) : UserStats :=
  let total := Z.of_nat (length rows) in
  let correct := correct_count rows in
  let points := sum_of gh_pointsAwarded rows in
  let ratio := if 0 <? total then f64_mul (f64_div (f64 correct) (f64 total)) (f64 100) else f64 0 in
  let average := if 0 <? total then f64_div (f64 points) (f64 total) else f64 0 in
  mkStats total correct (total - correct) (two_decimals ratio) points (sum_of gh_xpChange rows)
    (best_streak rows) (two_decimals average).

(** ** The service *)

Definition USER_STATS_CACHE_TTL_MS : Z := 30000.
Definition userStatsCacheKey (userId : string) : string := "game-history:stats:" +:+ userId.

Definition cacheGet (key : string) : M (option UserStats) :=
  gets (λ d, '(v, expires) ← cache d !! key; if clock d <? expires then Some v else None).
Definition cacheSet (key : string) (v : UserStats) (ttl : Z) : M unit :=
  modify (λ d, d <| cache := <[key := (v, clock d + ttl)]> (cache d) |>).
Definition cacheDel (key : string) : M unit := modify (λ d, d <| cache := delete key (cache d) |>).

Record CreateGameHistoryDto := mkCreateHistory {
  ch_playerId : string;
  ch_lyricId : Z;
  ch_gameSessionId : option string;
  ch_guessType : GuessType;
  ch_guessValue : string;
  ch_isCorrect : bool;
  ch_pointsAwarded : option Z;
  ch_xpChange : option Z;
  ch_wagerAmount : option Z;
}.

Definition create (uuid : nat → string) (dto : CreateGameHistoryDto) : M GameHistory :=
  n ← gets drawn;
  modify (λ d, d <| drawn := S (drawn d) |>);;
  time ← gets clock;
  let row := mkHistory (uuid n) (ch_playerId dto) (ch_lyricId dto) (ch_gameSessionId dto)
    (ch_guessType dto) (ch_guessValue dto) (ch_isCorrect dto) (default 0 (ch_pointsAwarded dto))
    (default 0 (ch_xpChange dto)) (ch_wagerAmount dto) time in
  taken ← gets (λ d, bool_decide (is_Some (history d !! gh_id row)));
  throw_if taken (PlainError "23505" "duplicate key value violates unique constraint");;
  modify (λ d, d <| history := <[gh_id row := row]> (history d) |>);;
  cacheDel (userStatsCacheKey (gh_playerId row));;
  mret row.

Definition getUserStats (userId : string) : M UserStats :=
  let cacheKey := userStatsCacheKey userId in
  cached ← cacheGet cacheKey;
  match cached with
  | Some stats => mret stats
  | None =>
      stats ← gets (λ d, computeStats (guessesOf userId d));
      cacheSet cacheKey stats USER_STATS_CACHE_TTL_MS;;
      mret stats
  end.

Record GameHistoryResponse := mkResponse {
  hr_history : GameHistory;
  hr_lyric : option (string * string * string);
  hr_gameSession : option SessionView;
}.

Definition toResponse (d : HistoryDb) (h : GameHistory) : GameHistoryResponse :=
  mkResponse h
    (l ← historyLyrics d !! gh_lyricId h; Some (ly_artist l, ly_songTitle l, ly_lyricSnippet l))
    (gh_gameSessionId h ≫= λ id, historySessions d !! id).

Definition findOne (id : string) (user : User) : M GameHistoryResponse :=
  h ← gets (λ d, history d !! id);
  h ← require h (NotFound ("Game history with ID " +:+ id +:+ " not found"));
  throw_if (negb (gh_playerId h == u_id user) && negb (bool_decide (u_role user = Admin)))
    (Forbidden "You can only view your own game history");;
  gets (λ d, toResponse d h).

(** The dates are as [new Date] reads them. *)
Record GameHistoryQueryDto := mkHistoryQuery {
  hq_page : option Z;
  hq_limit : option Z;
  hq_guessType : option GuessType;
  hq_isCorrect : option bool;
  hq_startDate : option Z;
  hq_endDate : option Z;
  hq_lyricId : option string;
}.

Definition MAX_PAGE_SIZE : Z := 100.

Definition where_history (userId : string) (q : GameHistoryQueryDto) (time : Z) (h : GameHistory) : bool :=
  (gh_playerId h == userId) &&
  match hq_guessType q with Some t => bool_decide (gh_guessType h = t) | None => true end &&
  match hq_isCorrect q with Some b => eqb (gh_isCorrect h) b | None => true end &&
  (if truthy (hq_lyricId q) then bool_decide (parseInt (default "" (hq_lyricId q)) = Some (gh_lyricId h)) else true) &&
  match hq_startDate q, hq_endDate q with
  | Some s, Some e => (s <=? gh_createdAt h) && (gh_createdAt h <=? e)
  | Some s, None => (s <=? gh_createdAt h) && (gh_createdAt h <=? time)
  | None, _ => true
  end.

Definition latest_first (a b : GameHistory) : Prop := gh_createdAt b ≤ gh_createdAt a.
#[export] Instance latest_first_dec : RelDecision latest_first.
Proof. intros a b. unfold latest_first. apply _. Defined.

Record HistoryPage := mkPage {
  hp_data : list GameHistoryResponse;
  hp_page : Z;
  hp_limit : Z;
  hp_total : Z;
  hp_totalPages : Z;
}.

(** [Math.ceil(total / limit)] *)
Definition page_count (total limit : Z) : Z := (total + limit - 1) / limit.

Definition matching (userId : string) (q : GameHistoryQueryDto) (d : HistoryDb) : list GameHistory :=
  merge_sort latest_first
    (List.filter (where_history userId q (clock d)) (map_to_list (history d)).*2).

Definition findByUserId (userId : string) (q : GameHistoryQueryDto) : M HistoryPage :=
  let page := default 1 (hq_page q) in
  let limit := Z.min (default 10 (hq_limit q)) MAX_PAGE_SIZE in
  let skip := (page - 1) * limit in
  gets (λ d, let rows := matching userId q d in
    let total := Z.of_nat (length rows) in
    mkPage (toResponse d <$> take (Z.to_nat limit) (drop (Z.to_nat skip) rows)) page limit total
      (page_count total limit)).

(** ** Retention *)

Definition ARCHIVE_BATCH_SIZE : nat := 5000.
Definition DAY_MS : Z := 24 * 60 * 60 * 1000.

(** A setting as [Number] reads it: [num / den] days, or [None] when it is not finite. *)
Definition cutoff (time : Z) (days : option (Z * positive)) (fallbackDays : Z) : Z :=
  let '(num, den) := match days with
    | Some (num, den) => if 0 <? num then (num, den) else (fallbackDays, 1%positive)
    | None => (fallbackDays, 1%positive)
    end in
  Z.quot (time * Z.pos den - num * DAY_MS) (Z.pos den).

Definition clearAuditIps (days : option (Z * positive)) : M Z :=
  limit ← gets (λ d, cutoff (clock d) days 90);
  let due (a : AuditIp) := bool_decide (is_Some (ai_ip a)) && (ai_timestamp a <? limit) in
  affected ← gets (λ d, Z.of_nat (length (List.filter due (map_to_list (audit_logs d)).*2)));
  modify (λ d, d <| audit_logs := (λ a, if due a then mkAuditIp (ai_timestamp a) None else a) <$> audit_logs d |>);;
  mret affected.

(** The rows before the cutoff; one statement moves up to [n] of them. *)
Definition old_rows (limit : Z) (d : HistoryDb) : gmap string GameHistory :=
  filter (λ row, gh_createdAt row.2 < limit) (history d).
Definition batch_of (n : nat) (limit : Z) (d : HistoryDb) : gmap string GameHistory :=
  list_to_map (take n (map_to_list (old_rows limit d))).

(** One statement: the rows leave the table and enter the archive; when one of them is
    archived already, the insert throws and nothing happens. *)
Definition moveBatch (n : nat) (limit : Z) : M nat :=
  batch ← gets (batch_of n limit);
  taken ← gets (λ d, negb (bool_decide (batch ##ₘ archive d)));
  throw_if taken (PlainError "23505" "duplicate key value violates unique constraint");;
  modify (λ d, d <| history := history d ∖ batch |> <| archive := batch ∪ archive d |>);;
  mret (size batch).

(** [for (;;)]; [None] when the rounds allowed run out. *)
Fixpoint archiveLoop (fuel : nat) (n : nat) (limit : Z) (total : nat) : M (option nat) :=
  match fuel with
  | O => mret None
  | S fuel =>
      moved ← moveBatch n limit;
      if (moved <? n)%nat then mret (Some (total + moved)%nat)
      else archiveLoop fuel n limit (total + moved)
  end.

Definition archiveGameHistory (fuel : nat) (days : option (Z * positive)) : M (option nat) :=
  limit ← gets (λ d, cutoff (clock d) days 730);
  archiveLoop fuel ARCHIVE_BATCH_SIZE limit 0.

(** The job, by whether the advisory lock was free. *)
Definition run_retention (locked : bool) (fuel : nat) (ipDays historyDays : option (Z * positive)) :
    M (option (Z * option nat)) :=
  if negb locked then mret None
  else
    ips ← clearAuditIps ipDays;
    archived ← archiveGameHistory fuel historyDays;
    mret (Some (ips, archived)).

(** ** Streaks *)

(** The numbers of wrong guesses before each right one, from [k]. *)
Fixpoint runs_from (k : Z) (l : list bool) : list Z :=
  match l with
  | [] => []
  | true :: l => k :: runs_from k l
  | false :: l => runs_from (k + 1) l
  end.
Definition wrong (l : list bool) : Z := Z.of_nat (length (List.filter negb l)).

Lemma runs_from_app k l1 l2 : runs_from k (l1 ++ l2) = runs_from k l1 ++ runs_from (k + wrong l1) l2.
Proof.
  revert k. induction l1 as [|[] l1 IH]; intros k; cbn.
  - f_equal. unfold wrong. cbn. lia.
  - f_equal. apply IH.
  - rewrite IH. do 2 f_equal. unfold wrong. cbn. lia.
Qed.

Lemma runs_from_ge k l j : j ∈ runs_from k l → k ≤ j.
Proof.
  revert k. induction l as [|[] l IH]; intros k; cbn; [by intros ?%not_elem_of_nil|..].
  - intros [->|H]%elem_of_cons; [lia|by apply IH].
  - intros H%IH. lia.
Qed.

Lemma wrong_snoc l b : wrong (l ++ [b]) = wrong l + (if b then 0 else 1).
Proof. unfold wrong. rewrite List.filter_app, length_app. destruct b; cbn; lia. Qed.
Lemma right_wrong rows :
  Z.of_nat (length (List.filter (λ r, eqb (gh_isCorrect r) true) rows)) + wrong (gh_isCorrect <$> rows)
  = Z.of_nat (length rows).
Proof. unfold wrong. induction rows as [|r rows IH]; [done|]. cbn. destruct (gh_isCorrect r); cbn in *; lia. Qed.
Lemma filter_none {A} (f : A → bool) l : (∀ x, x ∈ l → f x = false) → List.filter f l = [].
Proof.
  induction l as [|x l IH]; intros Hf; [done|]. cbn. rewrite (Hf x) by (by left).
  apply IH. intros y Hy. apply Hf. by right.
Qed.

(** The window functions number the runs by the wrong guesses before them. *)
Lemma correct_runs_from rows : correct_runs rows = runs_from 0 (gh_isCorrect <$> rows).
Proof.
  unfold correct_runs, ordered.
  assert (∀ l pre, (List.filter (λ x : GameHistory * Z, gh_isCorrect x.1)
      (imap (λ i row, (row, row_number (length pre + i) - partition_row_number (pre ++ l) (length pre + i) row)) l)).*2
    = runs_from (wrong (gh_isCorrect <$> pre)) (gh_isCorrect <$> l)) as Hgen.
  { intros l. induction l as [|row l IH]; intros pre; [done|]. rewrite imap_cons. cbn [List.filter].
    assert (take (S (length pre + 0)) (pre ++ row :: l) = pre ++ [row]) as Htake.
    { rewrite Nat.add_0_r, take_app, take_ge by lia. f_equal.
      by replace (S (length pre) - length pre)%nat with 1%nat by lia. }
    specialize (IH (pre ++ [row])). rewrite <-app_assoc in IH. cbn [app] in IH.
    rewrite length_app in IH. cbn [length] in IH.
    rewrite (imap_ext _ (λ i row0, (row0, row_number (length pre + 1 + i) -
        partition_row_number (pre ++ row :: l) (length pre + 1 + i) row0)) l)
      by (intros i x _; cbn; by replace (length pre + S i)%nat with (length pre + 1 + i)%nat by lia).
    rewrite fmap_app, list_fmap_singleton, wrong_snoc in IH. cbn [fst].
    replace ((gh_isCorrect <$> row :: l)) with (gh_isCorrect row :: (gh_isCorrect <$> l)) by done.
    destruct (gh_isCorrect row) eqn:Hr; [|exact IH].
    cbn [runs_from]. rewrite fmap_cons. cbn [snd]. rewrite Z.add_0_r in IH. f_equal; [|exact IH].
    unfold row_number, partition_row_number. rewrite Htake, Hr, List.filter_app, length_app. cbn.
    rewrite Hr. cbn. pose proof (right_wrong pre). unfold wrong in *. lia. }
  apply (Hgen rows []).
Qed.

Lemma count_here k l j : k ≤ j → ∃ pre post,
  l = pre ++ replicate (group_size (runs_from k l) j) true ++ post ∧ (j = k → pre = []).
Proof.
  revert k. induction l as [|[] l IH]; intros k Hj; cbn [runs_from].
  - by exists [], [].
  - unfold group_size. cbn [List.filter]. destruct (Z.eqb_spec j k) as [->|Hne].
    + destruct (IH k) as (pre & post & Hl & Hpre); [lia|]. rewrite (Hpre eq_refl) in Hl.
      exists [], post. split; [|done]. cbn. f_equal. exact Hl.
    + destruct (IH k Hj) as (pre & post & Hl & _). exists (true :: pre), post. split; [|done].
      cbn. f_equal. exact Hl.
  - destruct (Z.eqb_spec j k) as [->|Hne].
    + exists [], (false :: l). split; [|done]. unfold group_size. rewrite filter_none; [done|].
      intros x Hx%runs_from_ge. apply Z.eqb_neq. lia.
    + destruct (IH (k + 1)) as (pre & post & Hl & _); [lia|]. exists (false :: pre), post.
      split; [|done]. cbn. f_equal. exact Hl.
Qed.

Lemma max_list_elem l : l ≠ [] → max_list l ∈ l.
Proof.
  induction l as [|x l IH]; [done|]. intros _. destruct l as [|y l]; [cbn; rewrite Nat.max_0_r; by left|].
  change (max_list (x :: y :: l)) with (x `max` max_list (y :: l))%nat.
  destruct (Nat.max_spec x (max_list (y :: l))) as [[_ ->]|[_ ->]]; [right; by apply IH|by left].
Qed.
Lemma max_list_ge l x : x ∈ l → (x ≤ max_list l)%nat.
Proof.
  induction l as [|y l IH]; [by intros ?%not_elem_of_nil|].
  intros [->|H%IH]%elem_of_cons; cbn; [|unfold max_list in H]; lia.
Qed.

Lemma runs_from_replicate k m : runs_from k (replicate m true) = replicate m k.
Proof. induction m as [|m IH]; cbn; by rewrite ?IH. Qed.
Lemma filter_replicate {A} (f : A → bool) m x :
  List.filter f (replicate m x) = if f x then replicate m x else [].
Proof. induction m as [|m IH]; cbn; [by destruct (f x)|]. destruct (f x) eqn:E; [|done]. by rewrite IH. Qed.

(** ** Archiving *)

Lemma batch_of_sub n limit d : batch_of n limit d ⊆ old_rows limit d.
Proof.
  apply map_subseteq_spec. intros id row Hid. unfold batch_of in Hid.
  apply elem_of_list_to_map_2 in Hid. apply elem_of_map_to_list.
  rewrite <-(take_drop n (map_to_list (old_rows limit d))). apply elem_of_app. by left.
Qed.

Lemma batch_of_NoDup n limit d : NoDup (take n (map_to_list (old_rows limit d))).*1.
Proof.
  rewrite fmap_take. apply (sublist_NoDup _ (map_to_list (old_rows limit d)).*1);
    [apply NoDup_fst_map_to_list|apply sublist_take].
Qed.

Lemma size_batch_of n limit d : size (batch_of n limit d) = min n (size (old_rows limit d)).
Proof.
  unfold batch_of. rewrite <-length_map_to_list.
  rewrite (Permutation_length (map_to_list_to_map _ (batch_of_NoDup n limit d))).
  by rewrite length_take, length_map_to_list.
Qed.

Lemma batch_of_all n limit d : (size (batch_of n limit d) < n)%nat → batch_of n limit d = old_rows limit d.
Proof.
  rewrite size_batch_of. intros Hn. unfold batch_of.
  rewrite take_ge by (rewrite length_map_to_list; lia). apply list_to_map_to_list.
Qed.

(** What archiving leaves: the recent rows in the table, and the old ones added to the archive. *)
Definition archived (limit : Z) (d : HistoryDb) : HistoryDb :=
  d <| history := filter (λ row, ¬ gh_createdAt row.2 < limit) (history d) |>
    <| archive := old_rows limit d ∪ archive d |>.

Lemma moveBatch_run n limit d : history d ##ₘ archive d →
  let b := batch_of n limit d in
  let d' := d <| history := history d ∖ b |> <| archive := b ∪ archive d |> in
  moveBatch n limit d = (Ok (size b), d') ∧ history d' ##ₘ archive d' ∧ archived limit d' = archived limit d ∧
  (size b + size (old_rows limit d') = size (old_rows limit d))%nat.
Proof.
  intros Hdisj b d'. pose proof (batch_of_sub n limit d) as Hsub. fold b in Hsub.
  assert (b ⊆ history d) as Hbh by (etrans; [exact Hsub|apply map_filter_subseteq]).
  assert (old_rows limit d' = old_rows limit d ∖ b) as Hold.
  { apply map_eq. intros id. unfold old_rows. cbn. rewrite lookup_difference, !map_lookup_filter, lookup_difference.
    by destruct (b !! id); destruct (history d !! id). }
  split_and!.
  - unfold moveBatch. rewrite !bind_gets. fold b. rewrite bind_throw_if, bool_decide_true; [done|].
    by eapply map_disjoint_weaken_l.
  - cbn. apply map_disjoint_union_r. split; [apply map_disjoint_difference_l1; done|].
    by apply map_disjoint_difference_l2.
  - unfold archived. rewrite Hold. subst d'. unfold set_field. cbn. f_equal.
    + apply map_eq. intros id. rewrite !map_lookup_filter, lookup_difference.
      destruct (b !! id) as [row|] eqn:Hb; [|done]. cbn.
      rewrite map_subseteq_spec in Hsub. apply Hsub in Hb. unfold old_rows in Hb.
      apply map_lookup_filter_Some in Hb as [-> Hlt]. cbn in *. by case_guard.
    + rewrite map_union_assoc, (map_union_comm _ b) by (by apply map_disjoint_difference_l1).
      by rewrite map_difference_union.
  - rewrite Hold, <-map_size_disj_union by (by apply map_disjoint_difference_r1).
    by rewrite map_difference_union.
Qed.

Lemma archived_none limit d : old_rows limit d = ∅ → archived limit d = d.
Proof.
  intros Ho. unfold archived. rewrite Ho, map_empty_union. destruct d as [h a au l se c t n]. unfold set_field; cbn in *. f_equal.
  apply map_filter_id. intros id row Hrow Hlt. 
  apply map_empty_filter in Ho. by apply (Ho id row Hrow).
Qed.

Lemma archiveLoop_run fuel n limit total d : (0 < n)%nat → history d ##ₘ archive d →
  (size (old_rows limit d) < fuel * n)%nat →
  archiveLoop fuel n limit total d = (Ok (Some (total + size (old_rows limit d))%nat), archived limit d).
Proof.
  intros Hn. revert total d. induction fuel as [|fuel IH]; intros total d Hdisj Hfuel; [lia|].
  cbn [archiveLoop]. destruct (moveBatch_run n limit d Hdisj) as (Hrun & Hdisj' & Harch & Hsize).
  rewrite (bind_run _ _ _ _ _ Hrun). destruct (Nat.ltb_spec (size (batch_of n limit d)) n) as [Hlt|Hge].
  - assert (size (batch_of n limit d) = size (old_rows limit d)) as He by (by rewrite batch_of_all).
    rewrite He. unfold mret, M_ret. f_equal. rewrite <-Harch. symmetry. apply archived_none.
    apply map_size_empty_iff. lia.
  - rewrite IH; [|done|].
    + rewrite Harch. do 3 f_equal. lia.
    + rewrite size_batch_of in *. lia.
Qed.

(** ** Properties *)

(** The gaps-and-islands query finds the longest streak: the best streak it computes from a
    player's rows is the length of some run of consecutive correct guesses, and no run is
    longer. *)
Theorem best_streak_longest rows :
  let n := Z.to_nat (best_streak rows) in
  (∃ pre post, gh_isCorrect <$> rows = pre ++ replicate n true ++ post) ∧
  (∀ m pre post, gh_isCorrect <$> rows = pre ++ replicate m true ++ post → (m ≤ n)%nat).
Proof.
  cbv zeta. unfold best_streak. rewrite Nat2Z.id, correct_runs_from.
  set (l := gh_isCorrect <$> rows). split.
  - destruct (runs_from 0 l) as [|r runs] eqn:E; [by exists [], l|].
    assert (max_list (group_size (r :: runs) <$> r :: runs) ∈ group_size (r :: runs) <$> r :: runs) as Hin
      by by apply max_list_elem.
    apply list_elem_of_fmap in Hin as (j & -> & Hj). rewrite <-E in *.
    destruct (count_here 0 l j) as (pre & post & Hl & _); [by eapply runs_from_ge|]. by exists pre, post.
  - intros m pre post Hl. destruct m as [|m]; [lia|].
    set (runs := runs_from 0 l). assert (group_size runs (wrong pre) ∈ group_size runs <$> runs) as Hin.
    { apply list_elem_of_fmap. exists (wrong pre). split; [done|]. subst runs. rewrite Hl.
      rewrite runs_from_app. apply elem_of_app. right. cbn. by left. }
    apply max_list_ge in Hin. etrans; [|exact Hin]. subst runs. unfold group_size.
    rewrite Hl, !runs_from_app, !List.filter_app, !length_app.
    rewrite (runs_from_replicate (0 + wrong pre) (S m)), filter_replicate. rewrite Z.add_0_l, Z.eqb_refl, length_replicate. lia.
Qed.

(** The archive job always ends, moves exactly the rows older than the retention period, and keeps
    every row in exactly one of the two tables. *)
Theorem archive_moves days d : history d ##ₘ archive d →
  let limit := cutoff (clock d) days 730 in
  let '(r, d') := archiveGameHistory (S (size (history d))) days d in
  r = Ok (Some (size (old_rows limit d))) ∧
  history d' = filter (λ row, ¬ gh_createdAt row.2 < limit) (history d) ∧
  history d' ##ₘ archive d' ∧ history d' ∪ archive d' = history d ∪ archive d.
Proof.
  intros Hdisj limit. unfold archiveGameHistory. rewrite bind_gets. fold limit.
  assert (size (old_rows limit d) ≤ size (history d))%nat as Hsize
    by apply map_subseteq_size, map_filter_subseteq.
  rewrite archiveLoop_run; [|unfold ARCHIVE_BATCH_SIZE; lia|done|unfold ARCHIVE_BATCH_SIZE; lia].
  split_and!; [done|done| |].
  - cbn. apply map_disjoint_union_r. split; [symmetry; apply map_disjoint_filter_complement|].
    eapply map_disjoint_weaken_l; [exact Hdisj|apply map_filter_subseteq].
  - unfold archived, old_rows, set_field. cbn. rewrite map_union_assoc. f_equal.
    rewrite map_union_comm by (symmetry; apply map_disjoint_filter_complement).
    apply map_filter_union_complement.
Qed.

(** ** The statistics cache *)

Lemma leb_trans a b c : String.leb a b = true → String.leb b c = true → String.leb a c = true.
Proof.
  unfold String.leb. revert b c. induction a as [|x a IH]; intros [|y b] [|z c]; cbn; try done.
  unfold Ascii.compare. specialize (IH b c).
  destruct (N.compare_spec (Ascii.N_of_ascii x) (Ascii.N_of_ascii y)),
    (N.compare_spec (Ascii.N_of_ascii y) (Ascii.N_of_ascii z)),
    (N.compare_spec (Ascii.N_of_ascii x) (Ascii.N_of_ascii z)); try done; try lia.
Qed.

#[local] Instance in_order_trans : Transitive in_order.
Proof.
  intros a b c [H1|[H1 H1']] [H2|[H2 H2']]; unfold in_order; [left; lia..|]. right. split; [congruence|].
  by eapply leb_trans.
Qed.
#[local] Instance in_order_total : Total in_order.
Proof.
  intros a b. unfold in_order. destruct (Z.lt_trichotomy (gh_createdAt a) (gh_createdAt b)) as [?|[?|?]];
    [by left; left| |by right; left].
  destruct (String.leb_total (gh_id a) (gh_id b)); [left|right]; by right.
Qed.

(** The rows are kept under their ids. *)
Definition keyed (d : HistoryDb) : Prop := ∀ id h, history d !! id = Some h → gh_id h = id.

Lemma guessesOf_eq d d' playerId : keyed d → keyed d' →
  List.filter (λ g, gh_playerId g == playerId) (map_to_list (history d)).*2 ≡ₚ
  List.filter (λ g, gh_playerId g == playerId) (map_to_list (history d')).*2 →
  guessesOf playerId d = guessesOf playerId d'.
Proof.
  intros Hk Hk' Hp. apply StronglySorted_unique_strong with (R := in_order).
  - intros a b Ha Hb Hab Hba. unfold guessesOf in *. rewrite merge_sort_Permutation in Ha, Hb.
    rewrite <-Hp in Hb.
    assert (∀ g, g ∈ List.filter (λ g, gh_playerId g == playerId) (map_to_list (history d)).*2 →
      history d !! gh_id g = Some g) as Hin.
    { intros g [Hg _]%list_elem_of_In%filter_In. apply list_elem_of_In, list_elem_of_fmap in Hg as ([id h] & -> & Hg).
      apply elem_of_map_to_list in Hg. cbn. by rewrite (Hk _ _ Hg). }
    apply Hin in Ha, Hb. assert (gh_id a = gh_id b) as He; [|congruence].
    destruct Hab as [?|[? ?]], Hba as [?|[? ?]]; try lia. by apply String.leb_antisym.
  - apply StronglySorted_merge_sort; apply _.
  - apply StronglySorted_merge_sort; apply _.
  - unfold guessesOf. by rewrite !merge_sort_Permutation.
Qed.

(** Every entry that has not expired holds the statistics of the rows there are. *)
Record cache_ok (d : HistoryDb) : Prop := {
  co_keyed : keyed d;
  co_fresh userId v expires : cache d !! userStatsCacheKey userId = Some (v, expires) →
    clock d < expires → v = computeStats (guessesOf userId d);
}.

Lemma userStatsCacheKey_inj u v : userStatsCacheKey u = userStatsCacheKey v → u = v.
Proof. unfold userStatsCacheKey. cbn. by intros [=]. Qed.

Lemma create_cache_ok uuid dto d r d' : create uuid dto d = (r, d') → cache_ok d → cache_ok d'.
Proof.
  unfold create. rewrite bind_gets, bind_modify, bind_gets. cbv zeta. cbn [clock].
  set (row := mkHistory _ _ _ _ _ _ _ _ _ _ _). rewrite bind_gets, bind_throw_if. cbn [history].
  intros Hrun [Hk Hf]. destruct (bool_decide _) eqn:Htaken; [by injection Hrun as <- <-|].
  apply bool_decide_eq_false, eq_None_not_Some in Htaken. injection Hrun as <- <-.
  assert (∀ c n, keyed (d <| history := <[gh_id row := row]> (history d) |> <| cache := c |> <| drawn := n |>)) as Hk'.
  { intros c n id h. cbn. rewrite lookup_insert_Some. intros [[<- <-]|[_ ?]]; [done|by apply Hk]. }
  split; [apply (Hk' (cache d) 0%nat)|]. cbn. intros userId v expires Hv Ht.
  apply lookup_delete_Some in Hv as [Hne Hv]. rewrite (Hf _ _ _ Hv Ht). f_equal.
  apply guessesOf_eq; [done|apply (Hk' (cache d) 0%nat)|]. cbn.
  symmetry. etrans; [apply bfilter_Permutation; by rewrite map_to_list_insert|]. cbn.
  rewrite bool_decide_false; [done|]. intros He. apply Hne. by rewrite He.
Qed.

Lemma getUserStats_cache_ok userId d r d' : getUserStats userId d = (r, d') → cache_ok d →
  r = Ok (computeStats (guessesOf userId d)) ∧ cache_ok d' ∧ history d' = history d ∧ clock d' = clock d.
Proof.
  unfold getUserStats, cacheGet. cbv zeta. rewrite bind_gets. intros Hrun [Hk Hf].
  assert (∀ v expires, cache d !! userStatsCacheKey userId = Some (v, expires) → clock d < expires →
    v = computeStats (guessesOf userId d)) as Hu by by apply Hf.
  destruct (cache d !! userStatsCacheKey userId) as [[v expires]|] eqn:E; cbn in Hrun.
  - destruct (Z.ltb_spec (clock d) expires) as [Ht|Ht].
    + injection Hrun as <- <-. split_and!; [by rewrite (Hu v expires)|by split|done..].
    + injection Hrun as <- <-. split_and!; [done| |done..]. split; [done|]. cbn.
      intros u w e. rewrite lookup_insert_Some. intros [[Hkey [= <- <-]]|[_ Hw]] Hc; [|by eapply Hf].
      by apply userStatsCacheKey_inj in Hkey as <-.
  - injection Hrun as <- <-. split_and!; [done| |done..]. split; [done|]. cbn.
    intros u w e. rewrite lookup_insert_Some. intros [[Hkey [= <- <-]]|[_ Hw]] Hc; [|by eapply Hf].
    by apply userStatsCacheKey_inj in Hkey as <-.
Qed.

(** A run of the service: calls by anyone, and time passing. *)
Inductive history_op :=
  | RecordGuess (dto : CreateGameHistoryDto)
  | AskStats (userId : string)
  | Tick (ms : nat).

Definition run_op (uuid : nat → string) (d : HistoryDb) (op : history_op) : HistoryDb :=
  match op with
  | RecordGuess dto => (create uuid dto d).2
  | AskStats userId => (getUserStats userId d).2
  | Tick ms => d <| clock := clock d + Z.of_nat ms |>
  end.

Lemma run_op_cache_ok uuid ops d : cache_ok d → cache_ok (foldl (run_op uuid) d ops).
Proof.
  revert d. induction ops as [|op ops IH]; intros d Hok; [done|]. apply IH. destruct op as [dto|u|ms]; cbn.
  - by eapply create_cache_ok; [apply surjective_pairing|].
  - by eapply getUserStats_cache_ok; [apply surjective_pairing|].
  - destruct Hok as [Hk Hf]. split; [done|]. cbn. intros u v e Hv Ht. eapply Hf; [done|lia].
Qed.

(** The statistics are never stale: whatever guesses were recorded and statistics asked for, by
    whomever and whenever, getUserStats answers with the statistics of the rows the player has at
    that moment, cached or not. *)
Theorem getUserStats_fresh uuid ops d userId : cache_ok d →
  let d' := foldl (run_op uuid) d ops in
  (getUserStats userId d').1 = Ok (computeStats (guessesOf userId d')).
Proof.
  intros Hok d'. assert (cache_ok d') as Hok' by by apply run_op_cache_ok.
  destruct (getUserStats userId d') as [r d''] eqn:E. by apply getUserStats_cache_ok in E as [-> _].
Qed.

(** A record is shown to its player and to administrators, and to nobody else. *)
Theorem findOne_access id user d :
  is_ok (findOne id user d).1 = true ↔
  ∃ h, history d !! id = Some h ∧ (gh_playerId h = u_id user ∨ u_role user = Admin).
Proof.
  unfold findOne. rewrite bind_gets, bind_require. destruct (history d !! id) as [h|] eqn:E.
  - rewrite bind_throw_if. destruct (decide (gh_playerId h = u_id user)) as [He|Hne].
    + rewrite bool_decide_true by done. cbn. naive_solver.
    + rewrite bool_decide_false by done. case_bool_decide; cbn; naive_solver.
  - cbn. split; [done|]. by intros (h & [=] & _).
Qed.

(** *** Pages *)

(** The pages of a player's history, one after the other, are exactly the rows that match the
    query, latest first, without a row lost or repeated; no page has more than a hundred rows. *)
Theorem pages_cover userId q d : 1 ≤ default 10 (hq_limit q) →
  let page (i : nat) := hp_data <$> (findByUserId userId
    (mkHistoryQuery (Some (Z.of_nat i + 1)) (hq_limit q) (hq_guessType q) (hq_isCorrect q)
       (hq_startDate q) (hq_endDate q) (hq_lyricId q)) d).1 in
  let limit := Z.min (default 10 (hq_limit q)) MAX_PAGE_SIZE in
  let pages := Z.to_nat (page_count (Z.of_nat (length (matching userId q d))) limit) in
  ∃ rows : nat → list GameHistoryResponse,
    (∀ i, page i = Ok (rows i) ∧ (length (rows i) ≤ 100)%nat) ∧
    mjoin (rows <$> seq 0 pages) = toResponse d <$> matching userId q d.
Proof.
  intros Hl page limit pages. assert (1 ≤ limit ≤ 100) as Hlimit by (unfold limit, MAX_PAGE_SIZE; lia).
  exists (λ i, toResponse d <$> take (Z.to_nat limit) (drop (i * Z.to_nat limit) (matching userId q d))). split.
  - intros i. split; [|rewrite length_fmap, length_take; lia]. unfold page, findByUserId. cbn.
    fold limit. do 4 f_equal. lia.
  - transitivity (toResponse d <$> mjoin ((λ j, take (Z.to_nat limit)
      (drop (j * Z.to_nat limit) (matching userId q d))) <$> seq 0 pages)).
    + generalize (seq 0 pages). intros l. induction l as [|i l IH]; [done|].
      etrans; [|symmetry; apply (fmap_app (toResponse d))]. cbn. f_equal. exact IH.
    + f_equal. apply (chunks (Z.to_nat limit) pages 0). unfold pages, page_count. rewrite Nat.add_0_l.
      set (total := length (matching userId q d)).
      pose proof (Z.div_mod (Z.of_nat total + limit - 1) limit) as Hdiv.
      pose proof (Z.mod_pos_bound (Z.of_nat total + limit - 1) limit) as Hmod.
      assert (0 ≤ (Z.of_nat total + limit - 1) / limit) by (apply Z.div_pos; lia). nia.
Qed.

(** ** A history *)

Module HistoryDemo.
Definition row (id : string) (isCorrect : bool) (time : Z) : string * GameHistory :=
  (id, mkHistory id "alice" 1 None ARTIST "guess" isCorrect 10 5 None time).
(** Two rows are older than two years at the time of the clock. *)
Definition rows : gmap string GameHistory := list_to_map
  [row "a" true 1000; row "b" true 2000; row "c" false 63072000001; row "d" true 63072000002;
   row "e" true 63072000003; row "f" true 63072000004].
Definition d0 : HistoryDb := mkHistoryDb rows ∅ ∅ ∅ ∅ ∅ 63072002500 0.
Definition query : GameHistoryQueryDto := mkHistoryQuery None (Some 4) None (Some true) None None None.

Lemma d0_cache_ok : cache_ok d0.
Proof.
  split.
  - apply (bool_decide_eq_true_1 (map_Forall (λ id h, gh_id h = id) rows)). vm_compute. reflexivity.
  - intros userId v expires Hv. cbn in Hv. by rewrite lookup_empty in Hv.
Qed.

(** Archiving drops rows from the statistics, behind the cache's back. *)
Example archiving_leaves_stale_statistics :
  let d1 := (getUserStats "alice" d0).2 in
  let d2 := (archiveGameHistory 3 None d1).2 in
  bestStreak <$> (getUserStats "alice" d2).1 = Ok 3 ∧ totalGames <$> (getUserStats "alice" d2).1 = Ok 6 ∧
  totalGames (computeStats (guessesOf "alice" d2)) = 4.
Proof. vm_compute. done. Qed.
End HistoryDemo.
Import HistoryDemo.

Lemma archive_moves_witness :
  (archiveGameHistory 7 None d0).1 = Ok (Some 2%nat).
Proof.
  assert (history d0 ##ₘ archive d0) as H by (apply map_disjoint_empty_r).
  pose proof (archive_moves None d0 H) as Hm.
  destruct (archiveGameHistory (S (size (history d0))) None d0) as [r d'] eqn:E.
  destruct Hm as [Hr _]. transitivity r; [|rewrite Hr; vm_compute; reflexivity].
  change (S (size (history d0))) with 7%nat in E. rewrite E. reflexivity.
Defined.

Lemma getUserStats_fresh_witness :
  let d' := foldl (run_op (λ n, "new")) d0 [AskStats "alice"; RecordGuess
    (mkCreateHistory "alice" 1 None ARTIST "guess" false None None None); Tick 10] in
  (getUserStats "alice" d').1 = Ok (computeStats (guessesOf "alice" d')).
Proof. apply (getUserStats_fresh (λ n, "new") _ d0 "alice" d0_cache_ok). Defined.

Lemma pages_cover_witness : ∃ rows : nat → list GameHistoryResponse,
  mjoin (rows <$> seq 0 2) = toResponse d0 <$> matching "alice" query d0.
Proof.
  destruct (pages_cover "alice" query d0) as (rows & _ & H); [vm_compute; discriminate|].
  exists rows. exact H.
Defined.
