(* ===== verification/Users.v ===== *)
(** * Accounts (src/src/users/users.service.ts)

    [UsersService]: profiles, renaming, preferences, ranks, and the deactivation that takes
    the place of deletion, with the username rule of
    src/src/common/validators/username.validator.ts and the public view of
    src/src/users/dto/public-user.dto.ts.  [exportData] is in Export. *)

From S2P Require Import Prelude Amount Number Entities TokenService Auth.
From Stdlib Require Import SpecFloat Ascii.
From stdpp Require Import sorting.

#[local] Open Scope Z_scope.
#[local] Arguments String.append !_ _ /.

(** ** The username rule *)

Definition is_letter (c : ascii) : bool :=
  let n := Ascii.nat_of_ascii c in
  (((65 <=? n) && (n <=? 90)) || ((97 <=? n) && (n <=? 122)))%nat.
(** [[a-zA-Z0-9_]] *)
Definition is_word (c : ascii) : bool := is_letter c || is_digit c || Ascii.eqb c "_".

(** [USERNAME_RULE.pattern] *)
Definition username_pattern (s : string) : bool :=
  match s with
  | String c r => is_letter c && string_forallb is_word r
      && (2 <=? String.length r)%nat && (String.length r <=? 19)%nat
  | EmptyString => false
  end.
Definition USERNAME_RULE_description : string :=
  "Username must be 3-20 characters, start with a letter, and contain only letters, numbers and underscores".
Definition RESERVED_USERNAMES : list string :=
  ["admin"; "administrator"; "me"; "root"; "support"; "system"; "moderator"; "lyricsflip"].
Definition RESERVED_USERNAME_PREFIXES : list string := ["deleted_"].

Definition isReservedUsername (username : string) : bool :=
  let low := lower username in
  existsb (λ r, low == r) RESERVED_USERNAMES ||
  existsb (λ prefix, String.prefix prefix low) RESERVED_USERNAME_PREFIXES.

(** Of a string. *)
Definition usernameRuleViolation (username : string) : option string :=
  if negb (username_pattern username) then Some USERNAME_RULE_description
  else if isReservedUsername username then Some "This username is reserved"
  else None.

(** ** State *)

(** The columns of a user that no other part of the model needs. *)
Record UserExtra := mkExtra {
  ux_createdAt : Z;
  ux_preferredGenre : option string;
  ux_preferredDecade : option string;
}.
#[export] Instance UserExtra_settable : Settable UserExtra := λ x,
  mkExtra (ux_createdAt x) (ux_preferredGenre x) (ux_preferredDecade x).

(** The columns of a session that the head-to-head record counts. *)
Record SessionRow := mkSessionRow {
  sr_playerId : string;
  sr_playerTwoId : option string;
  sr_winnerId : option string;
  sr_completed : bool;
}.

Record AuditRow := mkAuditRow { au_actorId : option string; au_ip : option string }.

Record PublicUserDto := mkPublic {
  pu_username : string;
  pu_level : Z;
  pu_levelTitle : UserLevel;
  pu_xp : Z;
  pu_createdAt : Z;
  pu_wins : Z;
  pu_losses : Z;
  pu_winRate : spec_float;
  pu_achievements : list (string * string * string);
}.

(** The database and settlement backend of the wagers, and the other tables the service
    uses; notifications by the user they belong to.  A cache entry has the time it
    expires at. *)
Record UsersDb (X : Type) := mkUsersDb {
  core : Db X;
  extras : gmap string UserExtra;
  refreshTokens : gmap string RefreshToken;
  emailTokens : gmap string MailToken;
  resetTokens : gmap string MailToken;
  notificationOwners : gmap string string;
  auditLogs : gmap string AuditRow;
  sessions : gmap string SessionRow;
  profiles : gmap string (PublicUserDto * Z);
}.
Arguments mkUsersDb {_} _ _ _ _ _ _ _ _ _.
Arguments core {_} _.
Arguments extras {_} _.
Arguments refreshTokens {_} _.
Arguments emailTokens {_} _.
Arguments resetTokens {_} _.
Arguments notificationOwners {_} _.
Arguments auditLogs {_} _.
Arguments sessions {_} _.
Arguments profiles {_} _.
#[export] Instance UsersDb_settable {X} : Settable (UsersDb X) := λ d,
  mkUsersDb (core d) (extras d) (refreshTokens d) (emailTokens d) (resetTokens d)
    (notificationOwners d) (auditLogs d) (sessions d) (profiles d).

Record UpdateProfileDto := mkUpdate { up_username : option string; up_name : option string }.
(** An admin's update has three more properties. *)
Record AdminUpdateUserDto := mkAdminUpdate {
  ad_profile : UpdateProfileDto;
  ad_email : option string;
  ad_role : option Role;
  ad_isActive : option bool;
}.

Definition NON_TERMINAL_WAGER_STATUSES : list string :=
  [WagerStatus.PENDING; WagerStatus.AWAITING_STAKES; WagerStatus.STAKED; WagerStatus.SETTLING].
Definition PUBLIC_PROFILE_CACHE_TTL_MS : Z := 60000.
Definition TOKEN_SYMBOL : string := "LYRIC".

Record Balance := mkBalance { bal_stroops : Stroops; bal_display : string; bal_symbol : string }.
Record WagerStats := mkWagerStats {
  totalWins : Z;
  totalLosses : Z;
  totalRefunded : Z;
  totalWagers : Z;
  totalStakedStroops : Z;
}.
Record Profile := mkProfile {
  pr_user : User;
  pr_levelTitle : string;
  pr_wallet : option (string * bool);
  pr_balance : option Balance;
  pr_balanceUnavailableReason : option string;
  pr_stats : WagerStats;
}.

Section UsersService.
Context {X : Type} `{ITokenService X}.
(** [listForUser] of the achievements service, when it is wired up; and what the database
    layer throws, if anything, when a query selects a property the entity does not have. *)
Variables (listForUser : option (string → result (list (string * string * string))))
  (unknownProperty : option exn) (bcryptCompare : string → string → result bool)
  (decimals : nat).

Local Abbreviation St := (UsersDb X).
Local Abbreviation M := (M St).

Definition on_core {A} (m : Prelude.M (Db X) A) : M A := λ d,
  let '(r, c) := m (core d) in (r, d <| core := c |>).
Definition allUsers (d : St) : list User := (map_to_list (users (core d))).*2.

(** ** Reads *)

Definition older_first (d : St) (a b : User) : Prop :=
  default 0 (ux_createdAt <$> extras d !! u_id a) ≤ default 0 (ux_createdAt <$> extras d !! u_id b).
#[export] Instance older_first_dec d : RelDecision (older_first d).
Proof. intros a b. unfold older_first. apply _. Defined.

Definition findAll (limit offset : nat) : M (list User) :=
  gets (λ d, take limit (drop offset (merge_sort (older_first d) (allUsers d)))).

Definition count : M nat := gets (λ d, size (users (core d))).

Definition findOne (id : string) : M User :=
  user ← gets (λ d, users (core d) !! id);
  require user (NotFound ("User with ID " +:+ id +:+ " not found")).

Definition getHeadToHeadRecord (userId : string) : M (Z * Z) :=
  gets (λ d, let rows := List.filter (λ s, sr_completed s && bool_decide (is_Some (sr_playerTwoId s)) &&
      ((sr_playerId s == userId) || bool_decide (sr_playerTwoId s = Some userId)))
      (map_to_list (sessions d)).*2 in
    (Z.of_nat (length (List.filter (λ s, bool_decide (sr_winnerId s = Some userId)) rows)),
     Z.of_nat (length (List.filter (λ s,
       match sr_winnerId s with Some w => negb (w == userId) | None => false end) rows)))).

Definition getPublicAchievements (userId : string) : M (list (string * string * string)) :=
  match listForUser with Some f => lift (f userId) | None => mret [] end.

Definition PublicUserDto_from (d : St) (user : User) (record : Z * Z)
    (achievements : list (string * string * string)) : PublicUserDto :=
  let games := record.1 + record.2 in
  mkPublic (u_username user) (u_level user) (u_levelTitle user) (u_xp user)
    (default 0 (ux_createdAt <$> extras d !! u_id user)) record.1 record.2
    (if 0 <? games then f64_div (f64 record.1) (f64 games) else f64 0) achievements.

Definition findPublicProfile (username : string) : M PublicUserDto :=
  let cacheKey := "users:public:" +:+ lower username in
  cached ← gets (λ d, '(v, expires) ← profiles d !! cacheKey; if now (core d) <? expires then Some v else None);
  match cached with
  | Some profile => mret profile
  | None =>
      user ← gets (λ d, List.find (λ u, (lower (u_username u) == lower username) && u_isActive u &&
        negb (String.prefix "deleted_" (u_username u))) (allUsers d));
      user ← require user (NotFound ("User with username " +:+ username +:+ " not found"));
      record ← getHeadToHeadRecord (u_id user);
      achievements ← getPublicAchievements (u_id user);
      profile ← gets (λ d, PublicUserDto_from d user record achievements);
      modify (λ d, d <| profiles := <[cacheKey := (profile, now (core d) + PUBLIC_PROFILE_CACHE_TTL_MS)]> (profiles d) |>);;
      mret profile
  end.

Definition getTokenBalance (userId : string) : M (option Balance * option string) :=
  try_catch
    (stroops ← on_core (getUserBalance userId);
     display ← lift (fromStroops decimals stroops);
     mret (Some (mkBalance stroops display TOKEN_SYMBOL), None))
    (λ _, mret (None, Some "Token balance is temporarily unavailable")).

Definition getWagerStats (userId : string) : M WagerStats :=
  gets (λ d, let rows := List.filter (λ w, (w_playerAId w == userId) || (w_playerBId w == userId))
      (map_to_list (wagers (core d))).*2 in
    let n (p : Wager → bool) := Z.of_nat (length (List.filter p rows)) in
    mkWagerStats
      (n (λ w, (w_status w == WagerStatus.WON) && bool_decide (w_winnerId w = Some userId)))
      (n (λ w, (w_status w == WagerStatus.WON) &&
        match w_winnerId w with Some v => negb (v == userId) | None => false end))
      (n (λ w, w_status w == WagerStatus.REFUNDED)) (n (λ _, true))
      (foldr Z.add 0 ((λ w, BigInt (w_stakeStroops w)) <$>
        List.filter (λ w, w_status w == WagerStatus.WON) rows))).

Definition getLevelTitle (level : Z) : string :=
  if 50 <=? level then "Legend" else if 30 <=? level then "Master" else if 20 <=? level then "Expert"
  else if 10 <=? level then "Veteran" else if 5 <=? level then "Apprentice" else "Rookie".

Definition getProfile (userId : string) : M Profile :=
  user ← findOne userId;
  balance ← getTokenBalance userId;
  stats ← getWagerStats userId;
  mret (mkProfile user (getLevelTitle (u_level user))
    (match u_stellarAddress user with
     | Some a => if nonempty a then Some (a, bool_decide (is_Some (u_stellarAddressVerifiedAt user))) else None
     | None => None end)
    balance.1 balance.2 stats).

(** ** Updates *)

(** [save] of a user's row; usernames and emails have unique indexes on [LOWER()]. *)
Definition saveUser (user : User) : M unit :=
  taken ← gets (λ d, existsb (λ v, negb (u_id v == u_id user) &&
    ((lower (u_username v) == lower (u_username user)) || (lower (u_email v) == lower (u_email user)))) (allUsers d));
  throw_if taken (PlainError "23505" "duplicate key value violates unique constraint");;
  modify (λ d, d <| core := core d <| users := <[u_id user := user]> (users (core d)) |> |>).

(** Whether another account has the value in this column, whatever the case. *)
Definition assertUnused (column : User → string) (value ownId message : string) : M unit :=
  taken ← gets (λ d, existsb (λ v, (lower (column v) == lower value) && negb (u_id v == ownId)) (allUsers d));
  throw_if taken (Conflict message).

Definition assign {A B} (o : option A) (f : A → B → B) (b : B) : B :=
  match o with Some a => f a b | None => b end.

Definition assignProfile (dto : UpdateProfileDto) (user : User) : User :=
  assign (up_name dto) (λ v u, u <| u_name := Some v |>)
    (assign (up_username dto) (λ v u, u <| u_username := v |>) user).

Definition updateProfile (userId : string) (dto : UpdateProfileDto) : M Profile :=
  user ← findOne userId;
  match up_username dto with
  | Some username =>
      if nonempty username && negb (username == u_username user) then
        match usernameRuleViolation username with
        | Some violation => throw (BadRequest violation)
        | None => assertUnused u_username username userId "Username already exists"
        end
      else mret tt
  | None => mret tt
  end;;
  saveUser (assignProfile dto user);;
  getProfile userId.

Definition assignAdmin (dto : AdminUpdateUserDto) (user : User) : User :=
  assign (ad_isActive dto) (λ v u, u <| u_isActive := v |>)
    (assign (ad_role dto) (λ v u, u <| u_role := v |>)
      (assign (ad_email dto) (λ v u, u <| u_email := v |>) (assignProfile (ad_profile dto) user))).

(** A check that a value in an update is free, unless it is absent or the account's own. *)
Definition check_value (o : option string) (own : string) (check : string → M unit) : M unit :=
  match o with
  | Some v => if nonempty v && negb (v == own) then check v else mret tt
  | None => mret tt
  end.

(** A profile update is an admin update without the admin's properties. *)
Definition update (id : string) (dto : AdminUpdateUserDto) : M User :=
  user ← findOne id;
  check_value (up_username (ad_profile dto)) (u_username user)
    (λ v, assertUnused u_username v id "Username already exists");;
  check_value (ad_email dto) (u_email user) (λ v, assertUnused u_email v id "Email already exists");;
  let user := assignAdmin dto user in
  saveUser user;;
  mret user.

Definition updatePreferences (userId : string) (genre decade : option string) : M unit :=
  _ ← findOne userId;
  modify (λ d, d <| extras := alter (λ x,
    let x := match genre with Some g => x <| ux_preferredGenre := Some g |> | None => x end in
    match decade with Some v => x <| ux_preferredDecade := Some v |> | None => x end) userId (extras d) |>).

Definition getUserPreferences (userId : string) : M (option string * option string) :=
  _ ← findOne userId;
  gets (λ d, (extras d !! userId ≫= ux_preferredGenre, extras d !! userId ≫= ux_preferredDecade)).

(** ** Ranks *)

Definition more_xp (a b : User) : Prop := u_xp b ≤ u_xp a.
#[export] Instance more_xp_dec : RelDecision more_xp.
Proof. intros a b. unfold more_xp. apply _. Defined.

(** [RANK() OVER (ORDER BY xp DESC)]: the place of a row's first peer. *)
Definition rank_in (rows : list User) (user : User) : Z :=
  match list_find (λ v, u_xp v = u_xp user) rows with
  | Some (i, _) => Z.of_nat i + 1
  | None => Z.of_nat (length rows) + 1
  end.

Definition getMyRank (userId : string) : M Z :=
  row ← gets (λ d, user ← users (core d) !! userId;
    Some (rank_in (merge_sort more_xp (allUsers d)) user));
  require row (NotFound ("User with ID " +:+ userId +:+ " not found")).

(** The query names a column that the table does not have. *)
Definition getLeaderboard (limit offset : Z) : M (list User) :=
  throw (PlainError "42703" ("column " +:+ dq +:+ "level_title" +:+ dq +:+ " does not exist")).

(** ** Removal *)

Definition erasePersonalData (userId : string) : M unit :=
  modify (λ d, d
    <| refreshTokens := filter (λ row, rt_userId row.2 ≠ userId) (refreshTokens d) |>
    <| emailTokens := filter (λ row, mt_userId row.2 ≠ userId) (emailTokens d) |>
    <| resetTokens := filter (λ row, mt_userId row.2 ≠ userId) (resetTokens d) |>
    <| notificationOwners := filter (λ row, row.2 ≠ userId) (notificationOwners d) |>
    <| auditLogs := (λ a, if bool_decide (au_actorId a = Some userId) then mkAuditRow (au_actorId a) None else a)
         <$> auditLogs d |>).

Definition anonymised (user : User) : User :=
  user <| u_isActive := false |> <| u_email := "deleted-" +:+ u_id user +:+ "@deleted.lyricsflip.local" |>
    <| u_username := "deleted_" +:+ u_id user |> <| u_name := None |> <| u_stellarAddress := None |>
    <| u_stellarAddressVerifiedAt := None |>.

Definition is_active_wager (id : string) (w : Wager) : bool :=
  ((w_playerAId w == id) || (w_playerBId w == id)) &&
  bool_decide (w_status w ∈ NON_TERMINAL_WAGER_STATUSES).

Definition remove (id : string) : M string :=
  user ← findOne id;
  activeWager ← gets (λ d, existsb (is_active_wager id) (map_to_list (wagers (core d))).*2);
  throw_if activeWager (Conflict "User has an in-progress wager and cannot be deleted until it is resolved");;
  erasePersonalData id;;
  saveUser (anonymised user);;
  mret "User deactivated successfully".

(** The entity has no property [password]: the query throws, or selects the id alone. *)
Definition deleteAccount (userId password : string) : M string :=
  match unknownProperty with
  | Some e => throw e
  | None =>
      user ← gets (λ d, users (core d) !! userId);
      _ ← require user (NotFound ("User with ID " +:+ userId +:+ " not found"));
      let stored : option string := None in
      matches ← match stored with
        | Some hash => if nonempty hash then lift (bcryptCompare password hash) else mret false
        | None => mret false
        end;
      throw_if (negb matches) (Unauthorized "Invalid password");;
      remove userId
  end.

End UsersService.

(** ** Ranks are one more than the number of players ahead *)

Section accounts.
Context {X : Type}.
Local Abbreviation St := (UsersDb X).
Local Abbreviation M := (M St).


#[local] Instance more_xp_trans : Transitive more_xp.
Proof. intros a b c. unfold more_xp. lia. Qed.
#[local] Instance more_xp_total : Total more_xp.
Proof. intros a b. unfold more_xp. lia. Qed.

Definition ahead (user : User) (rows : list User) : nat :=
  length (List.filter (λ v, u_xp user <? u_xp v) rows).

Lemma list_find_ahead rows user : StronglySorted more_xp rows → user ∈ rows →
  ∃ v, list_find (λ v, u_xp v = u_xp user) rows = Some (ahead user rows, v).
Proof.
  induction 1 as [|r rows Hs IH Hr]; [by intros ?%not_elem_of_nil|]. intros Hin. cbn.
  unfold more_xp in Hr. rewrite Forall_forall in Hr. case_decide as Hx.
  - exists r. unfold ahead. cbn. destruct (Z.ltb_spec (u_xp user) (u_xp r)); [lia|].
    do 2 f_equal. symmetry. apply length_zero_iff_nil.
    destruct (List.filter _ rows) as [|v l] eqn:E; [done|].
    assert (In v (List.filter (λ v, u_xp user <? u_xp v) rows)) as [Hv%list_elem_of_In Hlt]%filter_In
      by (rewrite E; by left).
    apply Hr in Hv. bool_prop. lia.
  - apply elem_of_cons in Hin as [->|Hin]; [done|]. destruct (IH Hin) as [v ->]. exists v. cbn.
    unfold ahead. cbn. specialize (Hr user Hin). by destruct (Z.ltb_spec (u_xp user) (u_xp r)); [|lia].
Qed.

Lemma length_filter_perm {A} (f : A → bool) l1 l2 : l1 ≡ₚ l2 →
  length (List.filter f l1) = length (List.filter f l2).
Proof. intros Hp. by apply Permutation_length, bfilter_Permutation. Qed.

(** ** Names *)

(** Rows are kept under their ids, and no two accounts share a name or an address, whatever
    the case. *)
Record users_unique (d : St) : Prop := {
  uu_keyed id u : users (core d) !! id = Some u → u_id u = id;
  uu_username id1 u1 id2 u2 : users (core d) !! id1 = Some u1 → users (core d) !! id2 = Some u2 →
    lower (u_username u1) = lower (u_username u2) → id1 = id2;
  uu_email id1 u1 id2 u2 : users (core d) !! id1 = Some u1 → users (core d) !! id2 = Some u2 →
    lower (u_email u1) = lower (u_email u2) → id1 = id2;
}.

(** Another account has this value. *)
Definition taken_by_other (column : User → string) (value ownId : string) (d : St) : Prop :=
  ∃ id v, users (core d) !! id = Some v ∧ id ≠ ownId ∧ lower (column v) = lower value.

Lemma elem_of_allUsers (d : St) v : v ∈ allUsers d ↔ ∃ id, users (core d) !! id = Some v.
Proof.
  unfold allUsers. rewrite list_elem_of_fmap. split.
  - intros ([id u] & -> & Hin%elem_of_map_to_list). eauto.
  - intros [id Hid]. exists (id, v). split; [done|]. by apply elem_of_map_to_list.
Qed.

Lemma assertUnused_run column value ownId message (d : St) : users_unique d →
  assertUnused column value ownId message d = (Ok tt, d) ∧ ¬ taken_by_other column value ownId d ∨
  assertUnused column value ownId message d = (Err (Conflict message), d) ∧ taken_by_other column value ownId d.
Proof.
  intros Hu. unfold assertUnused. rewrite bind_gets. destruct (existsb _ _) eqn:E; [right|left]; (split; [done|]).
  - apply existsb_exists in E as (v & Hv%list_elem_of_In & Hb). apply elem_of_allUsers in Hv as [id Hid].
    bool_prop. exists id, v. split_and!; [done| |done]. by rewrite <-(uu_keyed _ Hu _ _ Hid).
  - intros (id & v & Hid & Hne & He). apply not_true_iff_false in E. apply E, existsb_exists.
    exists v. split; [apply list_elem_of_In, elem_of_allUsers; eauto|].
    rewrite bool_decide_true by done. rewrite bool_decide_false; [done|]. by rewrite (uu_keyed _ Hu _ _ Hid).
Qed.

Lemma saveUser_frame user (d : St) r d' : saveUser user d = (r, d') →
  d' = d ∨ d' = d <| core := core d <| users := <[u_id user := user]> (users (core d)) |> |>.
Proof.
  unfold saveUser. rewrite bind_gets, bind_throw_if. destruct (existsb _ _); intros [= <- <-]; [by left|by right].
Qed.

Lemma saveUser_run user (d : St) : users_unique d → is_Some (users (core d) !! u_id user) →
  ¬ taken_by_other u_username (u_username user) (u_id user) d →
  ¬ taken_by_other u_email (u_email user) (u_id user) d →
  ∃ d', saveUser user d = (Ok tt, d') ∧ users_unique d' ∧
    users (core d') = <[u_id user := user]> (users (core d)).
Proof.
  intros Hu _ Hn He. eexists. unfold saveUser. rewrite bind_gets, bind_throw_if.
  destruct (existsb _ _) eqn:E.
  - exfalso. apply existsb_exists in E as (v & Hv%list_elem_of_In & Hb). apply elem_of_allUsers in Hv as [id Hid].
    apply andb_true_iff in Hb as [Hne Hb]. apply negb_true_iff, bool_decide_eq_false in Hne.
    rewrite (uu_keyed _ Hu _ _ Hid) in Hne.
    apply orb_true_iff in Hb as [Hb%bool_decide_eq_true|Hb%bool_decide_eq_true]; [apply Hn|apply He]; by exists id, v.
  - split; [reflexivity|]. split; [|done].
    assert (∀ id u, <[u_id user := user]> (users (core d)) !! id = Some u →
      (id = u_id user ∧ u = user) ∨ (id ≠ u_id user ∧ users (core d) !! id = Some u)) as Hsrc.
    { intros id u. rewrite lookup_insert_Some. naive_solver. }
    split; cbn.
    + intros id u [[-> ->]|[_ ?]]%Hsrc; [done|by apply (uu_keyed _ Hu)].
    + intros id1 u1 id2 u2 [[-> ->]|[? H1]]%Hsrc [[-> ->]|[? H2]]%Hsrc Heq; [done| | |by eapply (uu_username _ Hu)];
        exfalso; apply Hn; [by exists id2, u2|by exists id1, u1].
    + intros id1 u1 id2 u2 [[-> ->]|[? H1]]%Hsrc [[-> ->]|[? H2]]%Hsrc Heq; [done| | |by eapply (uu_email _ Hu)];
        exfalso; apply He; [by exists id2, u2|by exists id1, u1].
Qed.

Lemma bind_Ok_tt {A} (m : M unit) (k : unit → M A) d :
  m d = (Ok tt, d) → (m ≫= k) d = k tt d.
Proof. intros Hm. by rewrite (bind_run m k d tt d Hm). Qed.

Lemma check_value_run o own column ownId user message (d : St) : users_unique d →
  users (core d) !! ownId = Some user → column user = own → (∀ v, o = Some v → nonempty v = true) →
  (column = u_username ∨ column = u_email) →
  let m := check_value o own (λ v, assertUnused column v ownId message) in
  (m d = (Ok tt, d) ∧ ¬ taken_by_other column (default own o) ownId d) ∨
  (m d = (Err (Conflict message), d) ∧ ∃ v, o = Some v ∧ taken_by_other column v ownId d).
Proof.
  intros Hu Hown Hcol Hne Hc m. assert (¬ taken_by_other column own ownId d) as Hfree.
  { intros (id & v & Hid & Hdiff & He). apply Hdiff. rewrite <-Hcol in He.
    destruct Hc as [-> | ->]; [by eapply (uu_username _ Hu)|by eapply (uu_email _ Hu)]. }
  subst m. unfold check_value. destruct o as [v|]; [|by left]. rewrite (Hne v) by done. cbn.
  destruct (decide (v = own)) as [->|Hv]; [rewrite bool_decide_true by done; by left|].
  rewrite bool_decide_false by done. cbn. destruct (assertUnused_run column v ownId message d Hu) as [[-> ?]|[-> ?]];
    [by left|right; eauto].
Qed.

(** Renaming never runs into the unique indexes: an update of an existing account either writes
    exactly the given properties, or answers 409 because another account has that username or
    address in some spelling, or (for an unknown id) 404; refused updates change nothing, and
    names and addresses stay unique whatever their case. *)
Theorem update_outcome id dto (d : St) : users_unique d →
  (∀ v, up_username (ad_profile dto) = Some v → nonempty v = true) →
  (∀ v, ad_email dto = Some v → nonempty v = true) →
  let '(r, d') := update id dto d in
  users_unique d' ∧
  match users (core d) !! id with
  | None => r = Err (NotFound ("User with ID " +:+ id +:+ " not found")) ∧ d' = d
  | Some user =>
      (r = Ok (assignAdmin dto user) ∧ users (core d') = <[id := assignAdmin dto user]> (users (core d))) ∨
      (d' = d ∧ ((r = Err (Conflict "Username already exists") ∧
          ∃ v, up_username (ad_profile dto) = Some v ∧ taken_by_other u_username v id d) ∨
        (r = Err (Conflict "Email already exists") ∧
          ∃ v, ad_email dto = Some v ∧ taken_by_other u_email v id d)))
  end.
Proof.
  intros Hu Hn He. destruct (update id dto d) as [r d'] eqn:Hrun. revert Hrun.
  unfold update, findOne. rewrite bind_assoc, bind_gets, bind_require.
  destruct (users (core d) !! id) as [user|] eqn:Hid; [|by intros [= <- <-]].
  pose proof (uu_keyed _ Hu _ _ Hid) as Hkey.
  destruct (check_value_run (up_username (ad_profile dto)) (u_username user) u_username id user
    "Username already exists" d) as [[Hc1 Hf1]|[Hc1 Ht1]]; [done..|by left| |].
  2: { rewrite (bind_run_err _ _ _ _ _ Hc1). intros [= <- <-]. split; [done|]. right. split; [done|]. by left. }
  destruct (check_value_run (ad_email dto) (u_email user) u_email id user
    "Email already exists" d) as [[Hc2 Hf2]|[Hc2 Ht2]]; [done..|by right| |].
  2: { rewrite (bind_Ok_tt _ _ _ Hc1), (bind_run_err _ _ _ _ _ Hc2). intros [= <- <-].
    split; [done|]. right. split; [done|]. by right. }
  rewrite (bind_Ok_tt _ _ _ Hc1), (bind_Ok_tt _ _ _ Hc2).
  assert (u_id (assignAdmin dto user) = id) as Hkey'.
  { rewrite <-Hkey. by destruct dto as [[[?|] [?|]] [?|] [?|] [?|]]. }
  assert (u_username (assignAdmin dto user) = default (u_username user) (up_username (ad_profile dto))) as Hname
    by (by destruct dto as [[[?|] [?|]] [?|] [?|] [?|]]).
  assert (u_email (assignAdmin dto user) = default (u_email user) (ad_email dto)) as Hmail
    by (by destruct dto as [[[?|] [?|]] [?|] [?|] [?|]]).
  destruct (saveUser_run (assignAdmin dto user) d Hu) as (d1 & Hs & Hu' & Hw).
  - rewrite Hkey'. eauto.
  - by rewrite Hname, Hkey'.
  - by rewrite Hmail, Hkey'.
  - rewrite (bind_run _ _ _ _ _ Hs). intros [= <- <-]. split; [done|]. left. by rewrite Hw, Hkey'.
Qed.

(** A player's rank is one more than the number of players with strictly more experience, so
    players with equal experience share a rank. *)
Theorem getMyRank_counts userId user (d : St) : users (core d) !! userId = Some user →
  getMyRank userId d = (Ok (Z.of_nat (ahead user (allUsers d)) + 1), d).
Proof.
  intros Hid. unfold getMyRank. rewrite bind_gets, Hid. cbn. unfold mret, M_ret. do 2 f_equal.
  unfold rank_in. destruct (list_find_ahead (merge_sort more_xp (allUsers d)) user) as [v ->].
  - apply StronglySorted_merge_sort; apply _.
  - rewrite merge_sort_Permutation. apply elem_of_allUsers. eauto.
  - unfold ahead. by rewrite (length_filter_perm _ _ _ (merge_sort_Permutation more_xp (allUsers d))).
Qed.

(** The account's personal data outside its row is gone, and nothing else. *)
Record erased (id : string) (d d' : St) : Prop := {
  er_wagers : wagers (core d') = wagers (core d);
  er_refresh k t : refreshTokens d' !! k = Some t ↔ refreshTokens d !! k = Some t ∧ rt_userId t ≠ id;
  er_email k t : emailTokens d' !! k = Some t ↔ emailTokens d !! k = Some t ∧ mt_userId t ≠ id;
  er_reset k t : resetTokens d' !! k = Some t ↔ resetTokens d !! k = Some t ∧ mt_userId t ≠ id;
  er_notifications k o : notificationOwners d' !! k = Some o ↔ notificationOwners d !! k = Some o ∧ o ≠ id;
  er_audit k a : auditLogs d' !! k = Some a → ∃ a0, auditLogs d !! k = Some a0 ∧
    au_actorId a = au_actorId a0 ∧ au_ip a = if bool_decide (au_actorId a0 = Some id) then None else au_ip a0;
}.

Lemma erasePersonalData_run id (d : St) : ∃ d', erasePersonalData id d = (Ok tt, d') ∧ erased id d d' ∧
  core d' = core d.
Proof.
  eexists. split; [reflexivity|]. split; [|done].
  split; cbn; [done|intros k t; apply map_lookup_filter_Some..|].
  intros k a. rewrite lookup_fmap. intros (a0 & Ha & ->)%fmap_Some. exists a0. split; [done|].
  by destruct (bool_decide (au_actorId a0 = Some id)).
Qed.

Lemma erased_save id user d d1 : erased id d d1 →
  erased id d (d1 <| core := core d1 <| users := <[u_id user := user]> (users (core d1)) |> |>).
Proof. by intros []. Qed.

(** An account can be deactivated only while none of its wagers is open; then its row stays, made
    inactive and anonymous, every session, mailed token and notification of it is gone, its
    addresses are cleared from the audit log, and no other account's rows and no wager change. *)
Theorem remove_outcome id user (d : St) : users_unique d → users (core d) !! id = Some user →
  let '(r, d') := remove id d in
  if existsb (is_active_wager id) (map_to_list (wagers (core d))).*2
  then d' = d ∧ r = Err (Conflict "User has an in-progress wager and cannot be deleted until it is resolved")
  else
    erased id d d' ∧
    (¬ taken_by_other u_username ("deleted_" +:+ id) id d →
     ¬ taken_by_other u_email ("deleted-" +:+ id +:+ "@deleted.lyricsflip.local") id d →
     is_ok r = true ∧ users (core d') = <[id := anonymised user]> (users (core d))).
Proof.
  intros Hu Hid. pose proof (uu_keyed _ Hu _ _ Hid) as Hkey.
  destruct (remove id d) as [r d'] eqn:Hrun. revert Hrun.
  unfold remove, findOne. rewrite bind_assoc, bind_gets, Hid, bind_require, bind_gets, bind_throw_if.
  destruct (existsb _ _); [by intros [= <- <-]|].
  destruct (erasePersonalData_run id d) as (d1 & He & Herased & Hcore). rewrite (bind_run _ _ _ _ _ He).
  assert (users_unique d1) as Hu1 by (destruct Hu; split; by rewrite Hcore).
  case_bind Hs; apply saveUser_frame in Hs as Hframe; intros [= <- <-].
  all: split; [destruct Hframe as [->| ->]; [done|by apply erased_save]|]; intros Hn Hm.
  all: destruct (saveUser_run (anonymised user) d1 Hu1) as (d2 & Hs' & _ & Husers);
    [cbn; rewrite Hcore, Hkey; eauto|cbn; rewrite Hkey; unfold taken_by_other in *; by rewrite Hcore..|].
  all: rewrite Hs in Hs'; simplify_eq. split; [done|]. by rewrite Husers, Hcore.
Qed.

(** Nobody can delete their own account: deleteAccount fails for every account and every password,
    right or wrong, and changes nothing. *)
Theorem deleteAccount_never unknown compare userId password (d : St) :
  let '(r, d') := deleteAccount unknown compare userId password d in is_ok r = false ∧ d' = d.
Proof.
  unfold deleteAccount. destruct unknown as [e|]; [done|]. rewrite bind_gets, bind_require.
  by destruct (users (core d) !! userId).
Qed.
End accounts.

(** ** Two accounts *)

Module UsersDemo.
Definition alice : User := new_user "a" "alice@x.y" "Alice" "hash".
Definition bob : User := new_user "b" "bob@x.y" "bob" "hash" <| u_xp := 10 |>.
Definition d0 : UsersDb unit :=
  mkUsersDb (mkDb {["a" := alice; "b" := bob]} ∅ 1000 0 tt) ∅ ∅ ∅ ∅ {["n1" := "a"; "n2" := "b"]} ∅ ∅ ∅.
(** Bob asks for the name ALICE. *)
Definition rename : AdminUpdateUserDto := mkAdminUpdate (mkUpdate (Some "ALICE") None) None None None.

Lemma d0_unique : users_unique d0.
Proof.
  assert (∀ column : User → string,
    bool_decide (map_Forall (λ id1 u1, map_Forall (λ id2 u2,
      lower (column u1) = lower (column u2) → id1 = id2) (users (core d0))) (users (core d0))) = true →
    ∀ id1 u1 id2 u2, users (core d0) !! id1 = Some u1 → users (core d0) !! id2 = Some u2 →
      lower (column u1) = lower (column u2) → id1 = id2) as Hcheck.
  { intros column H%bool_decide_eq_true id1 u1 id2 u2 H1 H2. exact (H id1 u1 H1 id2 u2 H2). }
  split.
  - apply (bool_decide_eq_true_1 (map_Forall (λ id u, u_id u = id) (users (core d0)))). vm_compute. reflexivity.
  - apply (Hcheck u_username). vm_compute. reflexivity.
  - apply (Hcheck u_email). vm_compute. reflexivity.
Qed.
End UsersDemo.
Import UsersDemo.

Lemma update_outcome_witness : (update "b" rename d0).1 = Err (Conflict "Username already exists").
Proof.
  pose proof (update_outcome "b" rename d0 d0_unique) as H.
  destruct (update "b" rename d0) as [r d'] eqn:E.
  destruct H as [_ H]; [intros v [= <-]; reflexivity|intros v; discriminate|].
  destruct H as [[_ H]|[_ [[H _]|[_ (v & H & _)]]]]; [|exact H|discriminate H].
  vm_compute in E. injection E as <- <-. reflexivity.
Defined.

Lemma getMyRank_counts_witness : getMyRank "a" d0 = (Ok 2, d0).
Proof. apply (getMyRank_counts "a" alice d0). reflexivity. Defined.

Lemma remove_outcome_witness :
  users (core (remove "a" d0).2) = <["a" := anonymised alice]> (users (core d0)).
Proof.
  pose proof (remove_outcome "a" alice d0 d0_unique eq_refl) as H.
  destruct (remove "a" d0) as [r d']. destruct H as [_ H].
  apply H; intros (id & v & Hid & Hne & He);
    (apply elem_of_map_to_list, list_elem_of_In in Hid; vm_compute in Hid);
    destruct Hid as [[= <- <-]|[[= <- <-]|[]]]; vm_compute in He; discriminate.
Defined.
