(* ===== verification/WalletAuth.v ===== *)
(** * Wallet login (src/src/auth/services/stellar-auth.service.ts)

    [StellarAuthService]: SEP-10 challenges, their single use, and linking a wallet to an
    account.  Building, reading and verifying challenge transactions is the SDK's; tokens
    are those of the file Auth. *)

From S2P Require Import Prelude Entities Auth.

#[local] Open Scope Z_scope.
#[local] Arguments String.append !_ _ /.

(** What [WebAuth.readChallengeTx] returns: the client's account, the value of the first
    operation when it has one, and the hash of the transaction. *)
Record Challenge := mkChallenge {
  clientAccountID : string;
  op_value : option string;
  tx_hash : string;
}.

(** The SDK's web authentication for this server's key, network and domain.  Reading checks
    the time bounds of the transaction against the clock. *)
Class WebAuth := {
  buildChallengeTx : string → string;
  readChallengeTx : string → Z → result Challenge;
  verifyChallengeTxSigners : string → Z → string → result unit;
}.

(** The keys of used challenges with the times they are forgotten at, in the shared cache
    when there is one and in the service itself. *)
Record WalletState := mkWalletState {
  cache : option (gmap string Z);
  usedNonces : gmap string Z;
}.
#[export] Instance WalletState_settable : Settable WalletState := λ s,
  mkWalletState (cache s) (usedNonces s).

Definition CHALLENGE_TIMEOUT_SECONDS : Z := 300.
Definition NONCE_TTL_MS : Z := (CHALLENGE_TIMEOUT_SECONDS + 60) * 1000.
Definition ACTIVE_WAGER_STATUSES : list string :=
  [WagerStatus.PENDING; WagerStatus.AWAITING_STAKES; WagerStatus.STAKED; WagerStatus.SETTLING].

Record StellarChallenge := mkStellarChallenge {
  transaction_xdr : string;
  network_passphrase : string;
}.

(** The key the constructor takes: the dedicated secret, else the resolver's; a fresh one in
    development only. *)
Definition serverKeypair {Key} (isValidSeed : string → bool) (fromSecret : string → Key) (random : Key)
    (webAuthSecret resolverSecret : option string) (production : bool) : result Key :=
  match (match webAuthSecret with Some s => Some s | None => resolverSecret end) with
  | Some secret =>
      if nonempty secret then
        if isValidSeed secret then Ok (fromSecret secret)
        else Err (PlainError "Error" "STELLAR_WEB_AUTH_SECRET is not a valid Stellar secret seed (expected an S... key).")
      else if production then Err (PlainError "Error" "STELLAR_WEB_AUTH_SECRET must be set") else Ok random
  | None => if production then Err (PlainError "Error" "STELLAR_WEB_AUTH_SECRET must be set") else Ok random
  end.

Section StellarAuthService.
Context `{WebAuth, Crypto}.

Local Abbreviation Store := (Db WalletState).
Local Abbreviation M := (M Store).

Definition buildChallenge (networkPassphrase account : string) : StellarChallenge :=
  mkStellarChallenge (buildChallengeTx account) networkPassphrase.

Definition verifyChallenge (signedTransaction : string) : M string :=
  time ← gets now;
  try_catch
    (challenge ← lift (readChallengeTx signedTransaction time);
     lift (verifyChallengeTxSigners signedTransaction time (clientAccountID challenge));;
     mret (clientAccountID challenge))
    (λ error, throw (Unauthorized ("Invalid Stellar challenge: " +:+ exn_message error))).

Definition nonce_key (challenge : Challenge) : string :=
  let nonce := match op_value challenge with
    | Some v => if nonempty v then v else tx_hash challenge
    | None => tx_hash challenge
    end in
  "sep10:nonce:" +:+ clientAccountID challenge +:+ ":" +:+ nonce.

(** [(await this.cache.get(key)) != null], before the entry's time is up. *)
Definition cache_get (key : string) (time : Z) (c : gmap string Z) : bool :=
  match c !! key with Some expires => time <? expires | None => false end.

Definition replay : exn := Unauthorized "Stellar challenge has already been used".

Definition consumeChallenge (signedTransaction : string) : M unit :=
  time ← gets now;
  challenge ← lift (readChallengeTx signedTransaction time);
  let key := nonce_key challenge in
  shared ← gets (λ d, cache (ext d));
  seen ← match shared with
    | Some c =>
        let seen := cache_get key time c in
        (if seen then mret tt
         else modify (λ d, d <| ext := ext d <| cache := (λ c, <[key := time + NONCE_TTL_MS]> c) <$> cache (ext d) |> |>));;
        mret seen
    | None =>
        modify (λ d, d <| ext := ext d <| usedNonces := filter (λ e, ¬ e.2 < time) (usedNonces (ext d)) |> |>);;
        seen ← gets (λ d, bool_decide (is_Some (usedNonces (ext d) !! key)));
        (if seen : bool then mret tt
         else modify (λ d, d <| ext := ext d <| usedNonces := <[key := time + NONCE_TTL_MS]> (usedNonces (ext d)) |> |>));;
        mret seen
    end;
  throw_if seen replay.

Definition is_active_wager (userId : string) (w : Wager) : bool :=
  ((w_playerAId w == userId) || (w_playerBId w == userId)) &&
  bool_decide (w_status w ∈ ACTIVE_WAGER_STATUSES).

Definition assertNoActiveWager (userId message : string) : M unit :=
  activeWager ← gets (λ d, List.find (is_active_wager userId) (map_to_list (wagers d)).*2);
  match activeWager with
  | Some w => throw (Conflict (message +:+ " (wager " +:+ w_id w +:+ " is " +:+ w_status w +:+ ")"))
  | None => mret tt
  end.

(** [where: { stellarAddress }]; the column is unique. *)
Definition findByAddress (address : string) : M (option User) :=
  gets (λ d, List.find (λ u, bool_decide (u_stellarAddress u = Some address)) (map_to_list (users d)).*2).

Definition linkWallet (userId signedTransaction : string) : M (string * Z) :=
  assertNoActiveWager userId "Cannot relink a Stellar wallet while you have an active wager";;
  address ← verifyChallenge signedTransaction;
  consumeChallenge signedTransaction;;
  existing ← findByAddress address;
  throw_if (match existing with Some u => negb (u_id u == userId) | None => false end)
    (Conflict "That Stellar address is already linked to another LyricsFlip account");;
  user ← find_user userId;
  user ← require user (BadRequest ("User with ID " +:+ userId +:+ " not found"));
  time ← gets now;
  save_user (user <| u_stellarAddress := Some address |> <| u_stellarAddressVerifiedAt := Some time |>);;
  mret (address, time).

Definition loginWithWallet (signedTransaction : string) : M AuthResult :=
  address ← verifyChallenge signedTransaction;
  consumeChallenge signedTransaction;;
  user ← findByAddress address;
  user ← require user (Unauthorized ("No LyricsFlip account is linked to " +:+ address +:+
    ". Sign in with your password once and link the wallet first."));
  throw_if (negb (u_isActive user)) (Unauthorized INACTIVE_USER_MESSAGE);;
  time ← gets now;
  let user := user <| u_lastLoginAt := Some time |> <| u_stellarAddressVerifiedAt := Some time |> in
  save_user user;;
  mret (issueToken user).

Definition unlinkWallet (userId : string) : M unit :=
  assertNoActiveWager userId "Cannot unlink your Stellar wallet while you have an active wager";;
  modify (λ d, d <| users := alter (λ u, u <| u_stellarAddress := None |>
    <| u_stellarAddressVerifiedAt := None |>) userId (users d) |>).

(** ** Requests *)

Inductive wallet_op :=
  | Link (userId signedTransaction : string)
  | Login (signedTransaction : string)
  | Unlink (userId : string)
  | Tick (ms : nat).

Definition run_op (d : Store) (op : wallet_op) : Store :=
  match op with
  | Link userId tx => (linkWallet userId tx d).2
  | Login tx => (loginWithWallet tx d).2
  | Unlink userId => (unlinkWallet userId d).2
  | Tick ms => d <| now := now d + Z.of_nat ms |>
  end.

(** Two calls at once on the shared cache: each reads, and then writes. *)
Inductive consume_call :=
  | Reading (signedTransaction : string)
  | Writing (key : string)
  | Consumed
  | Rejected.

Definition run_consume (c : consume_call) : M consume_call :=
  match c with
  | Reading tx =>
      time ← gets now;
      challenge ← lift (readChallengeTx tx time);
      shared ← gets (λ d, default ∅ (cache (ext d)));
      mret (if cache_get (nonce_key challenge) time shared then Rejected else Writing (nonce_key challenge))
  | Writing key =>
      time ← gets now;
      modify (λ d, d <| ext := ext d <| cache := (λ c, <[key := time + NONCE_TTL_MS]> c) <$> cache (ext d) |> |>);;
      mret Consumed
  | Consumed | Rejected => mret c
  end.

(** ** Single use *)

(** The challenge with this key, used at [used], is remembered for its time. *)
Definition remembered (key : string) (used : Z) (s : WalletState) : Prop :=
  ∃ expires, match cache s with Some c => c | None => usedNonces s end !! key = Some expires ∧
    used + NONCE_TTL_MS ≤ expires.

Definition memory (key : string) (used : Z) (d : Store) : Prop :=
  used ≤ now d ∧ (now d < used + NONCE_TTL_MS → remembered key used (ext d)).

(** What a request may do to the memory of another one. *)
Definition keeps (key : string) (used : Z) : relation Store := λ d d',
  now d' = now d ∧ (memory key used d → memory key used d').
#[local] Instance keeps_refl key used : Reflexive (keeps key used).
Proof. split; [done|auto]. Qed.
#[local] Instance keeps_trans key used : Transitive (keeps key used).
Proof. intros d1 d2 d3 [H1 H1'] [H2 H2']. split; [congruence|auto]. Qed.

(** Calls that touch neither the clock nor the memory. *)
Ltac frame_same R :=
  frame_with R; (intros; split; [reflexivity|first [reflexivity|exact id]]).

Lemma consumeChallenge_keeps key used tx : preserves (keeps key used) (consumeChallenge tx).
Proof.
  intros d r d'. unfold consumeChallenge. rewrite bind_gets. 
  destruct (readChallengeTx tx (now d)) as [ch|e]; [|by intros [= <- <-]].
  rewrite (bind_lift _ ch), bind_gets by done. destruct (cache (ext d)) as [c|] eqn:Ec.
  - destruct (cache_get (nonce_key ch) (now d) c).
    + by intros [= <- <-].
    + intros [= <- <-]. split; [done|]. intros [Hu Hm]. split; [done|]. cbn. intros Hlt.
      destruct (Hm Hlt) as (e & He & Hle). rewrite Ec in He. unfold remembered. cbn. rewrite Ec. cbn.
      destruct (decide (nonce_key ch = key)) as [<-|].
      * exists (now d + NONCE_TTL_MS). rewrite lookup_insert_eq. split; [done|lia].
      * exists e. by rewrite lookup_insert_ne.
  - rewrite bind_assoc, bind_modify, bind_assoc, bind_gets. cbn [ext usedNonces].
    set (used' := filter _ _). intros Hrun.
    assert (now d' = now d ∧ cache (ext d') = None ∧
      (usedNonces (ext d') = used' ∨ usedNonces (ext d') = <[nonce_key ch := now d + NONCE_TTL_MS]> used')) as (H1 & H2 & H3).
    { case_bool_decide; injection Hrun as <- <-; cbn; rewrite Ec; auto. }
    split; [done|]. intros [Hu Hm]. split; [lia|]. rewrite H1. intros Hlt.
    destruct (Hm Hlt) as (e & He & Hle). rewrite Ec in He. unfold remembered. rewrite H2.
    assert (used' !! key = Some e) as He'.
    { apply map_lookup_filter_Some. split; [done|]. cbn. lia. }
    destruct H3 as [-> | ->]; [by exists e|]. destruct (decide (nonce_key ch = key)) as [<-|].
    + exists (now d + NONCE_TTL_MS). rewrite lookup_insert_eq. split; [done|lia].
    + exists e. by rewrite lookup_insert_ne.
Qed.

Lemma verifyChallenge_keeps key used tx : preserves (keeps key used) (verifyChallenge tx).
Proof. unfold verifyChallenge. frame_same (keeps key used). Qed.

Lemma linkWallet_keeps key used userId tx : preserves (keeps key used) (linkWallet userId tx).
Proof.
  pose proof (consumeChallenge_keeps key used tx). pose proof (verifyChallenge_keeps key used tx).
  unfold linkWallet, assertNoActiveWager, findByAddress, find_user, save_user. frame_same (keeps key used).
Qed.

Lemma loginWithWallet_keeps key used tx : preserves (keeps key used) (loginWithWallet tx).
Proof.
  pose proof (consumeChallenge_keeps key used tx). pose proof (verifyChallenge_keeps key used tx).
  unfold loginWithWallet, findByAddress, save_user. frame_same (keeps key used).
Qed.

Lemma run_op_memory key used d op : memory key used d → memory key used (run_op d op).
Proof.
  intros Hm. destruct op as [u tx|tx|u|ms]; cbn.
  - by apply (linkWallet_keeps key used u tx d _ _ (surjective_pairing _)).
  - by apply (loginWithWallet_keeps key used tx d _ _ (surjective_pairing _)).
  - assert (preserves (keeps key used) (unlinkWallet u)) as Hf
      by (unfold unlinkWallet, assertNoActiveWager; frame_same (keeps key used)).
    by apply (Hf d _ _ (surjective_pairing _)).
  - destruct Hm as [Hu Hm]. split; cbn; [lia|]. intros Hlt. apply Hm. lia.
Qed.

Lemma run_ops_memory key used ops d : memory key used d → memory key used (foldl run_op d ops).
Proof. revert d. induction ops as [|op ops IH]; intros d Hm; [done|]. by apply IH, run_op_memory. Qed.

Lemma consumeChallenge_remembers tx d d' : consumeChallenge tx d = (Ok tt, d') →
  ∃ ch, readChallengeTx tx (now d) = Ok ch ∧ memory (nonce_key ch) (now d) d'.
Proof.
  unfold consumeChallenge. rewrite bind_gets.
  destruct (readChallengeTx tx (now d)) as [ch|e]; [|done]. rewrite (bind_lift _ ch), bind_gets by done.
  intros Hrun. exists ch. split; [done|]. destruct (cache (ext d)) as [c|] eqn:Ec.
  - destruct (cache_get (nonce_key ch) (now d) c); [done|]. injection Hrun as <-. split; cbn; [lia|].
    intros _. exists (now d + NONCE_TTL_MS). cbn. rewrite Ec. cbn. by rewrite lookup_insert_eq.
  - rewrite bind_assoc, bind_modify, bind_assoc, bind_gets in Hrun.
    case_bool_decide; [done|]. injection Hrun as <-. split; cbn; [lia|].
    intros _. exists (now d + NONCE_TTL_MS). cbn. rewrite Ec. by rewrite lookup_insert_eq.
Qed.

Lemma consumeChallenge_rejects tx ch used d : readChallengeTx tx (now d) = Ok ch →
  memory (nonce_key ch) used d → now d < used + NONCE_TTL_MS → (consumeChallenge tx d).1 = Err replay.
Proof.
  intros Hch [_ Hm] Hlt. destruct (Hm Hlt) as (e & He & Hle).
  unfold consumeChallenge. rewrite bind_gets, Hch, (bind_lift _ ch), bind_gets by done.
  destruct (cache (ext d)) as [c|].
  - assert (cache_get (nonce_key ch) (now d) c = true) as ->; [|done].
    unfold cache_get. rewrite He. apply Z.ltb_lt. lia.
  - rewrite bind_assoc, bind_modify, bind_assoc, bind_gets. rewrite bool_decide_true; [done|].
    exists e. cbn. apply map_lookup_filter_Some. split; [done|]. cbn. lia.
Qed.

(** The signed envelope of a request, and whether the request got through. *)
Definition envelope (op : wallet_op) : option string :=
  match op with Link _ tx | Login tx => Some tx | Unlink _ | Tick _ => None end.
Definition gets_through (op : wallet_op) (d : Store) : bool :=
  match op with
  | Link userId tx => is_ok (linkWallet userId tx d).1
  | Login tx => is_ok (loginWithWallet tx d).1
  | Unlink userId => is_ok (unlinkWallet userId d).1
  | Tick _ => true
  end.

Lemma verifyChallenge_same tx d r d' : verifyChallenge tx d = (r, d') → d' = d.
Proof.
  unfold verifyChallenge. rewrite bind_gets. unfold try_catch.
  destruct (readChallengeTx tx (now d)) as [ch|e]; [|by intros [= _ <-]]. rewrite (bind_lift _ ch) by done.
  by destruct (verifyChallengeTxSigners tx (now d) (clientAccountID ch)) as [[]|e]; intros [= _ <-].
Qed.

(** A request that got through has consumed its challenge, and remembers it. *)
Lemma gets_through_consumes op tx d : envelope op = Some tx → gets_through op d = true →
  ∃ d1, consumeChallenge tx d = (Ok tt, d1) ∧ ∀ key used, memory key used d1 → memory key used (run_op d op).
Proof.
  intros He. destruct op as [userId tx'|tx'|userId|ms]; [| |done..]; injection He as ->; cbn.
  - destruct (linkWallet userId tx d) as [[res|e] d'] eqn:E; [|done]. intros _. cbn. unfold linkWallet in E.
    apply bind_Ok_inv in E as ([] & s0 & Ha & E).
    assert (s0 = d) as ->.
    { revert Ha. unfold assertNoActiveWager. rewrite bind_gets. destruct (List.find _ _); [done|]. by intros [= <-]. }
    apply bind_Ok_inv in E as (address & s1 & ->%verifyChallenge_same & E).
    apply bind_Ok_inv in E as ([] & d1 & Hc & E). exists d1. split; [done|]. intros key used.
    cut (keeps key used d1 d'); [by intros [_ ?]|]. revert E.
    match goal with |- ?m d1 = _ → _ => assert (preserves (keeps key used) m) as Hf end.
    { unfold findByAddress, find_user, save_user. frame_same (keeps key used). }
    intros E. by eapply Hf.
  - destruct (loginWithWallet tx d) as [[res|e] d'] eqn:E; [|done]. intros _. cbn. unfold loginWithWallet in E.
    apply bind_Ok_inv in E as (address & s1 & ->%verifyChallenge_same & E).
    apply bind_Ok_inv in E as ([] & d1 & Hc & E). exists d1. split; [done|]. intros key used.
    cut (keeps key used d1 d'); [by intros [_ ?]|]. revert E.
    match goal with |- ?m d1 = _ → _ => assert (preserves (keeps key used) m) as Hf end.
    { unfold findByAddress, save_user. frame_same (keeps key used). }
    intros E. by eapply Hf.
Qed.

Lemma memory_refuses op tx ch used d : envelope op = Some tx → readChallengeTx tx (now d) = Ok ch →
  memory (nonce_key ch) used d → now d < used + NONCE_TTL_MS → gets_through op d = false.
Proof.
  intros He Hch Hm Hlt. apply not_true_iff_false. intros (d1 & Hc & _)%(gets_through_consumes _ tx); [|done].
  pose proof (consumeChallenge_rejects tx ch used d Hch Hm Hlt) as Hno. by rewrite Hc in Hno.
Qed.

(** ** Who holds an address *)

(** Rows are kept under their ids, and an address belongs to one account at most. *)
Record addresses_unique (d : Store) : Prop := {
  rows_by_id : ∀ i u, users d !! i = Some u → u_id u = i;
  address_of_one : ∀ i j u v, users d !! i = Some u → users d !! j = Some v →
    is_Some (u_stellarAddress u) → u_stellarAddress u = u_stellarAddress v → i = j;
}.

Definition wagering (userId : string) (d : Store) : Prop :=
  ∃ s w, wagers d !! s = Some w ∧ is_active_wager userId w = true.

(** What a request may do to the accounts: give at most one of them, which has no active wager,
    an address nobody else has, or none, or leave it as it is. *)
Definition account_step (d d' : Store) : Prop :=
  wagers d' = wagers d ∧
  (users d' = users d ∨ ∃ u u', users d !! u_id u = Some u ∧ users d' = <[u_id u := u']> (users d) ∧
    u_id u' = u_id u ∧ (u_stellarAddress u' = u_stellarAddress u ∨ ¬ wagering (u_id u) d ∧
      ∀ v, users d !! u_id v = Some v → is_Some (u_stellarAddress u') →
        u_stellarAddress v = u_stellarAddress u' → u_id v = u_id u)).

Definition same_rows : relation Store := λ d d', users d' = users d ∧ wagers d' = wagers d.
#[local] Instance same_rows_refl : Reflexive same_rows.
Proof. by split. Qed.
#[local] Instance same_rows_trans : Transitive same_rows.
Proof. intros d1 d2 d3 [H1 H1'] [H2 H2']. split; congruence. Qed.

Lemma consumeChallenge_rows tx : preserves same_rows (consumeChallenge tx).
Proof. unfold consumeChallenge. frame_same same_rows. Qed.
Lemma verifyChallenge_rows tx : preserves same_rows (verifyChallenge tx).
Proof. unfold verifyChallenge. frame_same same_rows. Qed.

Lemma assertNoActiveWager_run userId message d r d' : assertNoActiveWager userId message d = (r, d') →
  d' = d ∧ (is_ok r = true → ¬ wagering userId d).
Proof.
  unfold assertNoActiveWager. rewrite bind_gets. destruct (List.find _ _) eqn:E; intros [= <- <-]; [done|].
  split; [done|]. intros _ (s & w & Hw & Ha). apply (find_none _ _) with (x := w) in E; [congruence|].
  apply list_elem_of_In, list_elem_of_fmap. exists (s, w). split; [done|]. by apply elem_of_map_to_list.
Qed.

Lemma findByAddress_run address d : addresses_unique d → ∃ o, findByAddress address d = (Ok o, d) ∧
  (∀ u, o = Some u → users d !! u_id u = Some u) ∧
  ∀ v, users d !! u_id v = Some v → u_stellarAddress v = Some address → ∃ u, o = Some u ∧ u_id v = u_id u.
Proof.
  intros Hu. eexists. split; [done|]. split.
  - intros u [Hin _]%find_some. apply list_elem_of_In, list_elem_of_fmap in Hin as ([i u'] & -> & Hin%elem_of_map_to_list).
    cbn. by rewrite (rows_by_id _ Hu _ _ Hin).
  - intros v Hv Ha. destruct (List.find _ _) as [u|] eqn:E.
    + exists u. split; [done|]. apply find_some in E as [Hin Hb%bool_decide_eq_true].
      apply list_elem_of_In, list_elem_of_fmap in Hin as ([i u'] & -> & Hin%elem_of_map_to_list). cbn in *.
      rewrite (rows_by_id _ Hu _ _ Hin). eapply (address_of_one _ Hu); [done..| |]; [by rewrite Ha|congruence].
    + apply (find_none _ _) with (x := v) in E; [by rewrite bool_decide_true in E|].
      apply list_elem_of_In, list_elem_of_fmap. exists (u_id v, v). split; [done|]. by apply elem_of_map_to_list.
Qed.

Lemma account_step_same d d' : same_rows d d' → account_step d d'.
Proof. intros [H1 H2]. split; auto. Qed.

Lemma account_step_rows d d1 d' : same_rows d d1 → account_step d1 d' → account_step d d'.
Proof.
  intros [Hu Hw] [H1 H2]. split; [congruence|].
  destruct H2 as [H2|(u & u' & Hl & Hi & Hid & Ha)]; [left; congruence|].
  right. exists u, u'. unfold wagering in *. rewrite <-Hu, <-Hw. done.
Qed.

(** What runs before a change of rows leaves them alone. *)
Lemma after_rows {A B} (m : M A) (f : A → M B) d r d' : preserves same_rows m →
  (m ≫= f) d = (r, d') → (∀ a d1, m d = (Ok a, d1) → f a d1 = (r, d') → account_step d1 d') → account_step d d'.
Proof.
  intros Hm Hrun Hf. destruct (m d) as [[a|e] d1] eqn:E; pose proof (Hm _ _ _ E) as Hsame.
  - eapply account_step_rows; [done|]. eapply Hf; [done|]. by rewrite <-(bind_run _ _ _ _ _ E).
  - apply account_step_same. rewrite (bind_run_err _ _ _ _ _ E) in Hrun. by injection Hrun as _ <-.
Qed.

Lemma same_rows_unique d d' : same_rows d d' → addresses_unique d → addresses_unique d'.
Proof. intros [H1 H2] [Hi Ha]. split; rewrite H1; [exact Hi|exact Ha]. Qed.

Lemma linkWallet_step userId tx d : addresses_unique d → account_step d (linkWallet userId tx d).2.
Proof.
  intros Hu. destruct (linkWallet userId tx d) as [r d'] eqn:E. cbn. revert E. unfold linkWallet.
  intros E. eapply after_rows; [|exact E|].
  { unfold assertNoActiveWager. frame_same same_rows. }
  intros [] d0 [-> Hw]%assertNoActiveWager_run E1. specialize (Hw eq_refl).
  eapply after_rows; [apply verifyChallenge_rows|exact E1|]. intros address d1 Hv E2.
  pose proof (verifyChallenge_rows tx _ _ _ Hv) as Hr1.
  eapply after_rows; [apply consumeChallenge_rows|exact E2|]. intros [] d2 Hc E3.
  pose proof (transitivity Hr1 (consumeChallenge_rows tx _ _ _ Hc)) as Hr2.
  destruct (findByAddress_run address d2 (same_rows_unique _ _ Hr2 Hu)) as (o & Ho & _ & Hfree).
  rewrite (bind_run _ _ _ _ _ Ho), bind_throw_if in E3.
  assert (∀ v, (match o with Some u => negb (u_id u == userId) | None => false end) = false →
    users d2 !! u_id v = Some v → u_stellarAddress v = Some address → u_id v = userId) as Hfree'.
  { intros v Hno Hv' Ha. destruct (Hfree v Hv' Ha) as (u & -> & ->). by apply negb_false_iff, bool_decide_eq_true in Hno. }
  destruct (match o with Some u => _ | None => _ end); [by injection E3 as _ <-; apply account_step_same|].
  specialize (λ v, Hfree' v eq_refl). unfold find_user in E3. rewrite bind_gets, bind_require in E3.
  destruct (users d2 !! userId) as [u|] eqn:El; [|by injection E3 as _ <-; apply account_step_same].
  injection E3 as _ <-. pose proof (rows_by_id _ (same_rows_unique _ _ Hr2 Hu) _ _ El) as <-.
  split; [done|]. right. eexists u, _. split; [done|]. split; [done|]. split; [done|]. right. split.
  - unfold wagering in *. by rewrite (proj2 Hr2).
  - intros v Hv' _ Ha. by apply Hfree'.
Qed.

Lemma loginWithWallet_step tx d : addresses_unique d → account_step d (loginWithWallet tx d).2.
Proof.
  intros Hu. destruct (loginWithWallet tx d) as [r d'] eqn:E. cbn. revert E. unfold loginWithWallet.
  intros E. eapply after_rows; [apply verifyChallenge_rows|exact E|]. intros address d1 Hv E2.
  pose proof (verifyChallenge_rows tx _ _ _ Hv) as Hr1.
  eapply after_rows; [apply consumeChallenge_rows|exact E2|]. intros [] d2 Hc E3.
  pose proof (transitivity Hr1 (consumeChallenge_rows tx _ _ _ Hc)) as Hr2.
  destruct (findByAddress_run address d2 (same_rows_unique _ _ Hr2 Hu)) as (o & Ho & Hrow & _).
  rewrite (bind_run _ _ _ _ _ Ho), bind_require in E3.
  destruct o as [u|]; [|by injection E3 as _ <-; apply account_step_same]. rewrite bind_throw_if in E3.
  destruct (negb (u_isActive u)); [by injection E3 as _ <-; apply account_step_same|].
  injection E3 as _ <-. split; [done|]. right. eexists u, _. split; [by apply Hrow|]. split; [done|]. split; [done|]. by left.
Qed.

Lemma unlinkWallet_step userId d : addresses_unique d → account_step d (unlinkWallet userId d).2.
Proof.
  intros Hu. destruct (unlinkWallet userId d) as [r d'] eqn:E. cbn. revert E. unfold unlinkWallet.
  intros E. eapply after_rows; [|exact E|].
  { unfold assertNoActiveWager. frame_same same_rows. }
  intros [] d0 [-> Hw]%assertNoActiveWager_run E1. specialize (Hw eq_refl). injection E1 as _ <-.
  split; [done|]. cbn. destruct (users d !! userId) as [u|] eqn:El.
  - right. pose proof (rows_by_id _ Hu _ _ El) as <-. eexists u, _. split; [done|].
    split; [|split; [|right; split; [done|]]].
    + apply map_eq. intros i. destruct (decide (i = u_id u)) as [->|].
      * by rewrite lookup_alter_eq, lookup_insert_eq, El.
      * by rewrite lookup_alter_ne, lookup_insert_ne.
    + done.
    + intros v _ Hs. by destruct Hs as [? [=]].
  - left. apply map_eq. intros i. destruct (decide (i = userId)) as [->|].
    + by rewrite lookup_alter_eq, El.
    + by rewrite lookup_alter_ne.
Qed.

Lemma run_op_step d op : addresses_unique d → account_step d (run_op d op).
Proof.
  intros Hu. destruct op as [u tx|tx|u|ms]; cbn.
  - by apply linkWallet_step.
  - by apply loginWithWallet_step.
  - by apply unlinkWallet_step.
  - by apply account_step_same.
Qed.

(** Addresses stay unique, and that of a wagering user stays. *)
Lemma account_step_ok d d' : addresses_unique d → account_step d d' → addresses_unique d' ∧
  ∀ i, wagering i d → wagering i d' ∧ u_stellarAddress <$> users d' !! i = u_stellarAddress <$> users d !! i.
Proof.
  intros Hu [Hw Hs]. split.
  - destruct Hs as [Hs|(u & u' & Hl & Hi & Hid & Ha)]; [split; rewrite Hs; apply Hu|].
    assert (∀ i v, users d !! i = Some v → is_Some (u_stellarAddress u') → u_stellarAddress v = u_stellarAddress u' →
      i = u_id u) as Hsole.
    { intros i v Hv Hsome E. destruct Ha as [Ha|[_ Ha]].
      - eapply (address_of_one _ Hu); [done..| |congruence]. congruence.
      - pose proof (rows_by_id _ Hu _ _ Hv) as <-. by apply Ha. }
    split; rewrite Hi.
    + intros i v [[<- <-]|[Hne Hv]]%lookup_insert_Some; [done|]. by apply Hu.
    + intros i j v w [[<- <-]|[Hne Hv]]%lookup_insert_Some [[<- <-]|[Hne' Hw']]%lookup_insert_Some Hsome E.
      * done.
      * symmetry. by eapply Hsole.
      * eapply Hsole; [done|congruence|done].
      * by eapply (address_of_one _ Hu).
  - intros i Hi. split; [unfold wagering; by rewrite Hw|].
    destruct Hs as [->|(u & u' & Hl & -> & Hid & Ha)]; [done|].
    destruct (decide (u_id u = i)) as [<-|]; [|by rewrite lookup_insert_ne].
    rewrite lookup_insert_eq, Hl. cbn. destruct Ha as [->|[Ha _]]; [done|by destruct Ha].
Qed.

(** ** Properties *)

(** C15. A challenge is used once while it is remembered: after a login or a wallet link with it
    got through, and whatever requests and time follow, no login and no link gets through with
    any envelope of the same account and nonce before six minutes (NONCE_TTL_MS) have gone by
    since. *)
Theorem challenge_used_once op tx d ops : envelope op = Some tx → gets_through op d = true →
  let d2 := foldl run_op (run_op d op) ops in
  ∃ ch, readChallengeTx tx (now d) = Ok ch ∧
  ∀ op' tx' ch', envelope op' = Some tx' → readChallengeTx tx' (now d2) = Ok ch' →
    nonce_key ch' = nonce_key ch → now d2 < now d + NONCE_TTL_MS → gets_through op' d2 = false.
Proof.
  intros He (d1 & Hc & Hkeep)%(gets_through_consumes _ tx) d2; [|done].
  apply consumeChallenge_remembers in Hc as (ch & Hch & Hm). exists ch. split; [done|].
  intros op' tx' ch' He' Hch' Hkey Hlt. apply Hkeep, (run_ops_memory _ _ ops) in Hm.
  apply (memory_refuses op' tx' ch' (now d)); [done..| |done]. by rewrite Hkey.
Qed.

(** C6. Whatever wallets are linked, unlinked and logged in with, an address belongs to at most
    one account, and an account with an active wager keeps the address it staked from. *)
Theorem wallet_fixed_while_wagering ops d : addresses_unique d →
  let d' := foldl run_op d ops in
  addresses_unique d' ∧
  ∀ userId, wagering userId d → u_stellarAddress <$> users d' !! userId = u_stellarAddress <$> users d !! userId.
Proof.
  cbn zeta. revert d. induction ops as [|op ops IH]; intros d Hu; [done|]. cbn [foldl].
  destruct (account_step_ok d (run_op d op) Hu (run_op_step d op Hu)) as [Hu' Hkeep].
  destruct (IH _ Hu') as [H1 H2]. split; [done|]. intros i Hi.
  destruct (Hkeep i Hi) as [Hi' <-]. by apply H2.
Qed.
End StellarAuthService.

(** ** A server whose challenges read for five minutes from the epoch, and for five more of
    grace, as the SDK grants them *)
Module WalletDemo.
#[local] Instance demo_webauth : WebAuth := {|
  buildChallengeTx account := "c:" +:+ account;
  readChallengeTx tx time :=
    if bool_decide (0 ≤ time < 600000) then Ok (mkChallenge (String.substring 2 2 tx) None tx)
    else Err (PlainError "InvalidChallengeError" "The transaction has expired");
  verifyChallengeTxSigners tx _ account :=
    if String.prefix "s:" tx then Ok tt else Err (PlainError "InvalidChallengeError" "not signed");
|}.
#[local] Existing Instance ex_crypto.

Definition ada : User := new_user "a" "a@x" "ada" "$pw" <| u_stellarAddress := Some "GA" |>.
Definition bob : User := new_user "b" "b@x" "bob" "$pw" <| u_stellarAddress := Some "GB" |>.
Definition stake : Wager := new_wager "s1" <| w_playerAId := "b" |> <| w_status := WagerStatus.STAKED |>.
Definition d0 (shared : option (gmap string Z)) : Db WalletState :=
  mkDb {["a" := ada; "b" := bob]} {["s1" := stake]} 1000 0 (mkWalletState shared ∅).

Example login_links : is_ok (loginWithWallet "s:GA" (d0 None)).1 = true.
Proof. reflexivity. Qed.
Example relink : is_ok (linkWallet "a" "s:GC" (d0 (Some ∅))).1 = true ∧
  (linkWallet "a" "s:GB" (d0 (Some ∅))).1 =
    Err (Conflict "That Stellar address is already linked to another LyricsFlip account").
Proof. split; vm_compute; reflexivity. Qed.
Example unsigned : (loginWithWallet "c:GA" (d0 None)).1 = Err (Unauthorized "Invalid Stellar challenge: not signed").
Proof. reflexivity. Qed.

(** Two requests with one challenge on the shared cache, each read before either writes: both pass. *)
Example one_challenge_passes_twice :
  let d := d0 (Some ∅) in
  let '(r1, d1) := run_consume (Reading "s:GA") d in
  let '(r2, d2) := run_consume (Reading "s:GA") d1 in
  match r1, r2 with
  | Ok c1, Ok c2 =>
      let '(e1, d3) := run_consume c1 d2 in (e1, (run_consume c2 d3).1) = (Ok Consumed, Ok Consumed)
  | _, _ => False
  end.
Proof. reflexivity. Qed.

(** Once a used challenge is forgotten, after six minutes, the grace still lets it in. *)
Example replayed_after_six_minutes :
  let d := run_op (d0 None) (Login "s:GA") in
  gets_through (Login "s:GA") (run_op d (Tick 359999)) = false ∧
  gets_through (Login "s:GA") (run_op d (Tick 360001)) = true.
Proof. split; vm_compute; reflexivity. Qed.

Lemma challenge_used_once_witness :
  let ops := [Link "a" "s:GC"; Tick 60000; Unlink "a"; Login "s:GB"] in
  gets_through (Login "s:GA") (d0 None) = true ∧
  gets_through (Link "a" "s:GA") (foldl run_op (run_op (d0 None) (Login "s:GA")) ops) = false.
Proof.
  cbn zeta. assert (gets_through (Login "s:GA") (d0 None) = true) as Hok by (vm_compute; reflexivity).
  split; [exact Hok|].
  destruct (challenge_used_once (Login "s:GA") "s:GA" (d0 None)
    [Link "a" "s:GC"; Tick 60000; Unlink "a"; Login "s:GB"] eq_refl Hok) as (ch & Hch & Hno).
  vm_compute in Hch. injection Hch as <-.
  apply (Hno (Link "a" "s:GA") "s:GA" (mkChallenge "GA" None "s:GA")); vm_compute; reflexivity.
Defined.

Lemma demo_addresses_unique c : addresses_unique (d0 c).
Proof.
  split.
  - intros i u. cbn. intros [[<- <-]|[_ [<- <-]%lookup_singleton_Some]]%lookup_insert_Some; done.
  - intros i j u v. cbn. intros [[<- <-]|[_ [<- <-]%lookup_singleton_Some]]%lookup_insert_Some
      [[<- <-]|[_ [<- <-]%lookup_singleton_Some]]%lookup_insert_Some; done.
Qed.

Lemma wallet_fixed_while_wagering_witness :
  let ops := [Link "b" "s:GC"; Link "a" "s:GB"; Unlink "b"; Unlink "a"] in
  wagering "b" (d0 (Some ∅)) ∧
  u_stellarAddress <$> users (foldl run_op (d0 (Some ∅)) ops) !! "b" = Some (Some "GB").
Proof.
  cbn zeta. assert (wagering "b" (d0 (Some ∅))) as Hw by (exists "s1", stake; split; reflexivity).
  split; [exact Hw|].
  pose proof (wallet_fixed_while_wagering [Link "b" "s:GC"; Link "a" "s:GB"; Unlink "b"; Unlink "a"]
    (d0 (Some ∅)) (demo_addresses_unique _)) as H. cbn zeta in H. by rewrite (proj2 H "b" Hw).
Defined.
End WalletDemo.
