(* ===== verification/Rounds.v ===== *)
(** * Game rounds (src/src/game/game.service.ts, round-scoring.util.ts, progression.util.ts)

    [GameLogicService]: serving a lyric as a round, the one guess of a round, its score, and
    the retention of old rounds.  The source ends after [guessRound]: [checkGuess],
    [assertActiveParticipant] and [touchSession] are parameters, and calls of
    [emitRoundEnded] are recorded as they are made.  Scores are whole numbers (exact below
    2^53); what is fractional on the way is a binary64 number of the file Number. *)

From S2P Require Import Prelude Number Binary64.
From Stdlib Require Import SpecFloat.

#[local] Open Scope Z_scope.
#[local] Arguments String.append !_ _ /.

(** ** Scoring (round-scoring.util.ts) *)

Definition CORRECT_GUESS : Z := 100.
Definition PARTIAL_MATCH : Z := 50.
Definition STREAK_BONUS : Z := 25.
Definition MAX_SPEED_BONUS : Z := 50.
Definition HINT_PENALTY_PERCENT : Z := 25.
Definition ROUND_TIMEOUT_SECONDS : Z := 120.
Definition ROUND_ANSWER_WINDOW_SECONDS : Z := 20.

Record RoundScoreInput := mkScoreInput {
  basePoints : Z;
  in_isCorrect : bool;
  elapsedMs : Z;
  windowMs : Z;
  in_hintsUsed : Z;
  difficulty : option Z;
  streak : option Z;
}.

Record RoundScore := mkScore {
  points : Z;
  speedBonus : Z;
  streakBonus : Z;
  sc_difficultyMultiplier : spec_float;
  hintPenalty : Z;
  timedOut : bool;
}.

(** [Math.min(Math.max(1 - elapsedMs / windowMs, 0), 1)] *)
Definition remaining (elapsed window : Z) : spec_float :=
  f64_min (f64_max (f64_sub (f64 1) (f64_div (f64 elapsed) (f64 window))) (f64 0)) (f64 1).

Definition full_bonus (base : Z) : spec_float :=
  f64_mul (f64 MAX_SPEED_BONUS) (f64_div (f64 base) (f64 CORRECT_GUESS)).

Definition computeSpeedBonus (base elapsed window : Z) : Z :=
  if window <=? 0 then 0 else round_to_Z (f64_mul (full_bonus base) (remaining elapsed window)).

Definition hintMultiplier (hintsUsed : Z) : spec_float :=
  f64_div (f64 (Z.max (100 - hintsUsed * HINT_PENALTY_PERCENT) 0)) (f64 100).

Definition difficultyMultiplier (difficulty : Z) : spec_float :=
  if difficulty <=? 2 then f64 1
  else if difficulty =? 3 then f64_div (f64 3) (f64 2)
  else f64 2.

Definition maxRoundPoints (hintsUsed : Z) : Z :=
  round_to_Z (f64_mul (f64 (CORRECT_GUESS + MAX_SPEED_BONUS)) (hintMultiplier hintsUsed)).

Definition scoreRound (input : RoundScoreInput) : RoundScore :=
  let multiplier := difficultyMultiplier (default 3 (difficulty input)) in
  let streak := default 0 (streak input) in
  if windowMs input <? elapsedMs input then mkScore 0 0 0 multiplier 0 true
  else if negb (in_isCorrect input) then mkScore 0 0 0 multiplier 0 false
  else
    let bonus := computeSpeedBonus (basePoints input) (elapsedMs input) (windowMs input) in
    let streakBonus := if 0 <? streak then STREAK_BONUS * streak else 0 in
    let gross := round_to_Z (f64_mul (f64 (basePoints input + bonus)) multiplier) + streakBonus in
    let points := round_to_Z (f64_mul (f64 gross) (hintMultiplier (in_hintsUsed input))) in
    mkScore points bonus streakBonus multiplier (gross - points) false.

(** ** Awards (progression.util.ts), for whole difficulties and streaks *)

Definition calculateXpAward (correct : bool) (difficulty streak : Z) : Z :=
  if correct then (100 + Z.min streak 10 * 2) * Z.max difficulty 1 else 0.

Definition levelForXp (xp : Z) : Z := Z.max xp 0 / 1000 + 1.

(** ** Bounds of a score *)

(** A mantissa the operations produce. *)
Definition normal (x : spec_float) : Prop := ∀ s m e, x = S754_finite s m e → Z.pos m < 2 ^ 53.

Lemma round_aux_normal s m e l : 0 ≤ m → normal (binary_round_aux 53 1024 s m e l).
Proof.
  intros Hm. unfold binary_round_aux. destruct (shr_fexp_spec m e l Hm) as [Hm1 _].
  destruct (shr_fexp 53 1024 m e l) as [mrs1 e1]. cbn [fst] in Hm1.
  assert (0 ≤ shr_m mrs1) by (rewrite Hm1; apply Z.div_pos; [done|]; apply Z.pow_pos_nonneg; [done|apply shift_of_nonneg]).
  set (r := round_nearest_even _ _).
  assert (0 ≤ r) as Hr by (destruct (round_even_near (shr_m mrs1) (loc_of_shr_record mrs1)); lia).
  destruct (shr_fexp_spec r e1 loc_Exact Hr) as [Hm2 _]. pose proof (shr_fexp_53 r e1 Hr) as H53.
  destruct (shr_fexp 53 1024 r e1 loc_Exact) as [mrs2 e2]. cbn [fst] in Hm2. rewrite <-Hm2 in H53.
  intros s' m' e'. destruct (shr_m mrs2) as [|p|p]; [done| |done]. destruct (e2 <=? 1024 - 53); [|done]. by intros [= <- <- <-].
Qed.

Lemma f64_sub_normal m e y : Z.pos m < 2 ^ 53 → normal (f64_sub (S754_finite false m e) y).
Proof.
  intros Hm s m' e'. destruct y as [sy|sy| |sy my ey]; cbn -[Z.pow binary_normalize shl_align Z.min Z.sub];
    [by intros [= <- <- <-]|done|done|].
  set (z := Z.sub _ _). unfold binary_normalize. destruct z as [|p|p]; [done|..]; unfold binary_round;
    destruct (shl_align _ _ _); intros E; by eapply round_aux_normal; [|exact E].
Qed.

(** What is left of the window is zero, one, or in between (or not a number, for no window). *)
Lemma remaining_cases elapsed window :
  remaining elapsed window = f64 1 ∨
  (∀ a ea, round_to_Z (f64_mul (S754_finite false a ea) (remaining elapsed window)) = 0) ∨
  ∃ m e, remaining elapsed window = S754_finite false m e ∧ e < 0 ∧ Z.pos m < 2 ^ (- e).
Proof.
  unfold remaining. change (f64 1) with (S754_finite false 4503599627370496 (-52)). change (f64 0) with (S754_zero false).
  set (one := S754_finite false 4503599627370496 (-52)).
  assert (normal (f64_sub one (f64_div (f64 elapsed) (f64 window)))) as Hn by by apply f64_sub_normal.
  set (r := f64_sub one _) in *. clearbody r.
  assert ((∃ m e, r = S754_finite false m e) ∨ f64_min (f64_max r (S754_zero false)) one = one ∨
    ∀ a ea, round_to_Z (f64_mul (S754_finite false a ea) (f64_min (f64_max r (S754_zero false)) one)) = 0) as [(m & e & ->)|Hr].
  { destruct r as [[]|[]| |[] m e]; eauto; right; (by left) || (by right). }
  2: { destruct Hr; auto. }
  change (f64_max (S754_finite false m e) (S754_zero false)) with (S754_finite false m e). unfold f64_min.
  specialize (Hn _ _ _ eq_refl). destruct (SFltb one (S754_finite false m e)) eqn:E; [by left|].
  unfold one, SFltb, SFcompare in E. destruct (-52 ?= e) eqn:Ec; [|done|].
  - apply Z.compare_eq in Ec as <-. destruct (decide (m = 4503599627370496)%positive) as [->|Hm]; [by left|].
    right; right. exists m, (-52). split; [done|]. split; [done|]. change (Pos.compare_cont Eq 4503599627370496 m) with (4503599627370496 ?= m)%positive in E.
    destruct (Pos.compare_spec 4503599627370496 m) as [?|?|Hlt]; [congruence|done|]. exact Hlt.
  - apply Z.compare_gt_iff in Ec. right; right. exists m, e. split; [done|]. split; [lia|].
    eapply Z.lt_le_trans; [exact Hn|]. apply Z.pow_le_mono_r; lia.
Qed.

(** [computeSpeedBonus] on the points of a guess, from its two ends. *)
Lemma full_bonus_cases base : 0 ≤ base ≤ 100 →
  0 ≤ round_to_Z (f64_mul (full_bonus base) (f64 1)) ≤ 50 ∧
  (full_bonus base = S754_zero false ∨
   ∃ a ea, full_bonus base = S754_finite false a ea ∧ below (Z.pos a) ea 50 ∧ ea ≤ 0).
Proof.
  intros Hb. assert (((0 <=? round_to_Z (f64_mul (full_bonus base) (f64 1))) &&
    (round_to_Z (f64_mul (full_bonus base) (f64 1)) <=? 50) &&
    match full_bonus base with
    | S754_zero false => true
    | S754_finite false a ea => (ea <? 0) && (Z.pos a <=? 50 * 2 ^ (- ea))
    | _ => false
    end) = true).
  { check_all 101%nat base. vm_compute. reflexivity. }
  bool_prop. split; [lia|].
  destruct (full_bonus base) as [[]| | |[] a ea]; try done; [by left|]. right. exists a, ea. split; [done|].
  bool_prop. split; [|lia]. unfold below. by destruct (Z.leb_spec 0 ea); [lia|].
Qed.

Lemma computeSpeedBonus_bounds base elapsed window : 0 ≤ base ≤ 100 → 0 ≤ computeSpeedBonus base elapsed window ≤ 50.
Proof.
  intros Hb. unfold computeSpeedBonus. destruct (window <=? 0); [lia|].
  destruct (full_bonus_cases base Hb) as [H1 H2].
  destruct (remaining_cases elapsed window) as [-> |[H0|(m & e & Hr & He & Hm)]]; [done|..].
  - destruct H2 as [-> |(a & ea & -> & _)]; [|by rewrite H0].
    destruct (remaining elapsed window) as [[]|[]| |[]]; done.
  - rewrite Hr. destruct H2 as [-> |(a & ea & -> & Ha & Hea)]; [done|].
    apply round_to_Z_upto; [done|]. by apply f64_mul_upto.
Qed.

(** ** The speed bonus *)

(** What is left of the window, but for four parts in 2^52 of it. *)
Lemma remaining_close e w : 0 ≤ e ≤ w → 0 < w ≤ 2 ^ 40 →
  (canonical (remaining e w) ∧ 2 ^ 52 * Z.abs (sval (remaining e w) * w - (w - e) * unit_one) ≤ 4 * w * unit_one) ∨
  w = e ∧ remaining e w = S754_zero true.
Proof.
  intros He Hw. pose proof unit_pos as HU. pose proof scaled_tiny as [Ht0 Ht]. set (t := scaled 1 (-1074)) in *.
  unfold remaining. fold (clamp (f64_sub (f64 1) (f64_div (f64 e) (f64 w)))).
  destruct (decide (e = 0)) as [->|He0].
  { left. destruct (f64_exact w ltac:(lia)) as (b & -> & _). change (f64_div (f64 0) (S754_finite false b _)) with (S754_zero false).
    change (clamp (f64_sub (f64 1) (S754_zero false))) with one. rewrite sval_one. split; [|rewrite Z.sub_0_r; lia].
    right. do 2 eexists. split; [done|]. split; [lia|]. split; [done|by left]. }
  destruct (div_close e w ltac:(lia) ltac:(lia)) as [Hq Hqv]. rewrite scaled_whole in Hqv. fold t in Hqv.
  set (q := f64_div (f64 e) (f64 w)) in *. clearbody q. change (f64 1) with one.
  assert (2 ^ 52 * t * w ≤ unit_one) as Htw by nia.
  pose proof (canonical_nonneg q Hq) as Hq0.
  assert (2 ^ 52 * Z.abs (sval q * w - e * unit_one) ≤ (e + 1) * unit_one) as Hqc by lia. clear Hqv.
  destruct Hq as [->|(m & ex & -> & Hex & Hm & _)].
  { exfalso. cbn [sval] in Hqc. nia. }
  change (f64_sub one (S754_finite false m ex)) with
    (binary_normalize 53 1024 (Z.pos (shl_align 4503599627370496 (-52) (Z.min (-52) ex)).1 - Z.pos (shl_align m ex (Z.min (-52) ex)).1) (Z.min (-52) ex) false).
  set (ez := Z.min (-52) ex). assert (-1074 ≤ ez ≤ -52) as Hez by lia.
  pose proof (scaled_align 4503599627370496 (-52) ez ltac:(lia) ltac:(unfold unit_exp; lia)) as H1.
  pose proof (scaled_align m ex ez ltac:(lia) ltac:(unfold unit_exp; lia)) as H2.
  change (scaled 4503599627370496 (-52)) with (sval one) in H1. rewrite sval_one in H1.
  change (scaled (Z.pos m) ex) with (sval (S754_finite false m ex)) in H2. set (sq := sval (S754_finite false m ex)) in *. clearbody sq.
  set (z1 := Z.pos (shl_align 4503599627370496 (-52) ez).1) in *. set (z2 := Z.pos (shl_align m ex ez).1) in *.
  assert (scaled (z1 - z2) ez = unit_one - sq) as Hz by (unfold scaled in *; lia). clearbody z1 z2.
  assert (0 < 2 ^ (ez + unit_exp)) as HP by (apply Z.pow_pos_nonneg; unfold unit_exp; lia).
  destruct (z1 - z2) as [|p|p]; cbn [binary_normalize].
  - left. change (clamp (S754_zero false)) with (S754_zero false). split; [by left|]. cbn [sval]. unfold scaled in Hz. nia.
  - left. destruct (round_exact p ez) as [Hc Hv]; [lia|rewrite Hz; pose proof (scaled_huge 1 ltac:(lia)); lia|].
    rewrite Hz in Hv. fold t in Hv. set (r := binary_round 53 1024 false p ez) in *. clearbody r.
    assert (2 ^ 52 * Z.abs (sval r * w - (w - e) * unit_one) ≤ 4 * w * unit_one) as Hr.
    { assert (sval r * w - (w - e) * unit_one = (sval r - (unit_one - sq)) * w + (e * unit_one - sq * w)) as -> by lia.
      assert (2 ^ 52 * Z.abs ((sval r - (unit_one - sq)) * w) ≤ 2 * unit_one * w) as Hrw.
      { rewrite Z.abs_mul, (Z.abs_eq w) by lia. rewrite Z.mul_assoc. apply Z.mul_le_mono_nonneg_r; lia. }
      nia. }
    destruct (clamp_canonical r Hc) as [Hcc [->|[Hone Hge]]]; [done|]. split; [done|]. rewrite Hone, sval_one. nia.
  - unfold scaled in Hz. assert (unit_one < sq) as Hlt by nia. assert (w = e) as Hwe by nia.
    destruct (clamp_negative _ (negative_forms p ez)) as [-> | ->]; [by right|]. left. split; [by left|]. cbn [sval]. subst. rewrite Z.sub_diag. lia.
Qed.

(** The whole bonus is half the points, but for one part in 2^45. *)
Lemma full_bonus_close base : 0 < base ≤ 100 → ∃ a ea, full_bonus base = S754_finite false a ea ∧
  2 ^ 52 ≤ Z.pos a ∧ -60 ≤ ea ≤ 0 ∧ 2 ^ 45 * Z.abs (2 * scaled (Z.pos a) ea - base * unit_one) ≤ unit_one.
Proof.
  intros Hb. assert (match full_bonus base with
    | S754_finite false a ea => (2 ^ 52 <=? Z.pos a) && (-60 <=? ea) && (ea <=? 0) &&
        (2 ^ 45 * Z.abs (2 * Z.pos a - base * 2 ^ (- ea)) <=? 2 ^ (- ea))
    | _ => base =? 0
    end = true) as H.
  { assert (0 ≤ base < 101) as Hr by lia. clear Hb. check_all 101%nat base. vm_compute. reflexivity. }
  destruct (full_bonus base) as [| | |[] a ea]; try (apply Z.eqb_eq in H; lia).
  bool_prop. exists a, ea. split; [done|]. split; [lia|]. split; [lia|].
  assert (unit_one = 2 ^ (- ea) * 2 ^ (ea + unit_exp)) as ->.
  { unfold unit_one. rewrite <-Z.pow_add_r by (unfold unit_exp; lia). f_equal. lia. }
  unfold scaled. set (P := 2 ^ (ea + unit_exp)). assert (0 < P) by (apply Z.pow_pos_nonneg; unfold unit_exp; lia).
  replace (2 * (Z.pos a * P) - base * (2 ^ (- ea) * P)) with ((2 * Z.pos a - base * 2 ^ (- ea)) * P) by lia.
  rewrite Z.abs_mul, (Z.abs_eq P) by lia. rewrite Z.mul_assoc. apply Z.mul_le_mono_nonneg_r; lia.
Qed.

(** How the errors add up. *)
Lemma errors_add U F R w base left : 0 < U → 0 < w ≤ 2 ^ 40 → 0 ≤ left ≤ w → 0 ≤ base ≤ 100 →
  2 ^ 45 * Z.abs (2 * F - base * U) ≤ U → 2 ^ 52 * Z.abs (R * w - left * U) ≤ 4 * w * U →
  4 * Z.abs (2 * w * (F * R) - base * left * (U * U)) ≤ U * U.
Proof.
  intros HU Hw Hl Hb H1 H2. set (d1 := 2 * F - base * U) in *. set (d2 := R * w - left * U) in *.
  assert (2 * w * (F * R) - base * left * (U * U) = base * U * d2 + d1 * left * U + d1 * d2) as -> by (unfold d1, d2; ring).
  assert (Z.abs (base * U * d2) ≤ 100 * U * Z.abs d2) by (rewrite !Z.abs_mul, (Z.abs_eq base), (Z.abs_eq U) by lia; nia).
  assert (Z.abs (d1 * left * U) ≤ Z.abs d1 * 2 ^ 40 * U).
  { rewrite !Z.abs_mul, (Z.abs_eq left), (Z.abs_eq U) by lia. apply Z.mul_le_mono_nonneg_r; [lia|]. apply Z.mul_le_mono_nonneg_l; lia. }
  assert (Z.abs (d1 * d2) ≤ U * Z.abs d2) by (rewrite !Z.abs_mul; apply Z.mul_le_mono_nonneg_r; lia).
  assert (2 ^ 10 * Z.abs d2 ≤ U) as Hd2 by nia.
  assert (2 ^ 10 * (U * Z.abs d2) ≤ U * U) by nia.
  assert (2 ^ 5 * (Z.abs d1 * 2 ^ 40 * U) ≤ U * U) by nia.
  lia.
Qed.

Lemma errors_divide U num w base left : 0 < U → 0 < w → 0 ≤ left ≤ w → 0 ≤ base ≤ 100 → 0 ≤ num →
  4 * Z.abs (2 * w * (num * U) - base * left * (U * U)) ≤ U * U →
  4 * Z.abs (2 * w * num - base * left * U) ≤ U ∧ num ≤ 100 * U.
Proof.
  intros HU Hw Hl Hb Hn. replace (2 * w * (num * U) - base * left * (U * U)) with ((2 * w * num - base * left * U) * U) by ring.
  rewrite Z.abs_mul, (Z.abs_eq U), Z.mul_assoc by lia. intros H%Z.mul_le_mono_pos_r; [|done]. split; [done|].
  assert (base * left ≤ 100 * w) by (apply Z.mul_le_mono_nonneg; lia). nia.
Qed.

Lemma errors_round U num w base left B P t : 0 < U → 0 < w ≤ 2 ^ 40 → 0 ≤ num → num ≤ 100 * U → 0 ≤ t →
  2 ^ 200 * t ≤ U → 2 ^ 52 * Z.abs (P - num) ≤ num + 2 ^ 52 * t → 2 * Z.abs (B * U - P) ≤ U →
  4 * Z.abs (2 * w * num - base * left * U) ≤ U → Z.abs (2 * w * B - base * left) ≤ w.
Proof.
  intros HU Hw Hn0 Hn Ht0 Ht Hv Hround Herr. assert (2 ^ 44 * Z.abs (P - num) ≤ U) as Hxn by lia.
  apply Z.lt_succ_r. apply (Z.mul_lt_mono_pos_r U); [done|].
  rewrite <-(Z.abs_eq U) at 1 by lia. rewrite <-Z.abs_mul.
  replace ((2 * w * B - base * left) * U) with
    (w * (2 * (B * U - P)) + 2 * w * (P - num) + (2 * w * num - base * left * U)) by ring.
  assert (Z.abs (w * (2 * (B * U - P))) ≤ w * U).
  { rewrite Z.abs_mul, (Z.abs_eq w) by lia. apply Z.mul_le_mono_nonneg_l; lia. }
  assert (Z.abs (2 * w * (P - num)) ≤ 2 ^ 41 * Z.abs (P - num)).
  { rewrite Z.abs_mul, (Z.abs_eq (2 * w)) by lia. apply Z.mul_le_mono_nonneg_r; lia. }
  lia.
Qed.

(** The bonus is a whole number nearest to the share of half the points that the time left is of the
    window. *)
Lemma bonus_close base elapsed w : 0 ≤ base ≤ 100 → 0 ≤ elapsed ≤ w → 0 < w ≤ 2 ^ 40 →
  Z.abs (2 * w * computeSpeedBonus base elapsed w - base * (w - elapsed)) ≤ w.
Proof.
  intros Hb He Hw. unfold computeSpeedBonus. destruct (Z.leb_spec w 0); [lia|].
  destruct (decide (base = 0)) as [->|].
  { change (full_bonus 0) with (S754_zero false). replace (round_to_Z _) with 0; [lia|].
    by destruct (remaining elapsed w) as [[]|[]| |[]]. }
  destruct (full_bonus_close base ltac:(lia)) as (a & ea & -> & Ha & Hea & Hf).
  destruct (remaining_close elapsed w He Hw) as [[Hc Hr]|[-> ->]]; [|cbn; lia].
  destruct Hc as [Hz|(m & e & Hm & Hem & _)].
  { rewrite Hz in *. cbn [sval] in Hr. pose proof unit_pos.
    assert (elapsed = w) as -> by nia. cbn. lia. }
  rewrite Hm in *. clear Hm. set (num := scaled (Z.pos a * Z.pos m) (ea + e)).
  set (F := scaled (Z.pos a) ea) in *. cbn [sval] in Hr. set (R := scaled (Z.pos m) e) in *.
  pose proof unit_pos as HU. pose proof scaled_tiny as [Ht0 Ht].
  assert (num * unit_one = F * R) as Hnum.
  { unfold num, F, R, scaled, unit_one. rewrite <-!Z.mul_assoc. f_equal.
    rewrite (Z.mul_comm (2 ^ (ea + unit_exp))), <-!Z.mul_assoc. f_equal.
    rewrite <-!Z.pow_add_r by (unfold unit_exp; lia). f_equal. lia. }
  pose proof (errors_add unit_one F R w base (w - elapsed) HU Hw ltac:(lia) Hb Hf Hr) as Herr.
  assert (0 ≤ num) as Hn0 by (unfold num, scaled; apply Z.mul_nonneg_nonneg; [lia|apply Z.pow_nonneg; unfold unit_exp; lia]).
  rewrite <-Hnum in Herr. destruct (errors_divide unit_one num w base (w - elapsed) HU ltac:(lia) ltac:(lia) Hb Hn0 Herr) as [Herr' Hn].
  destruct (mul_close a ea m e Ha Hea Hem) as [Hx Hv]; [pose proof (scaled_huge 100 ltac:(lia)); fold num; lia|]. fold num in Hv.
  set (x := f64_mul _ _) in *. pose proof (round_half x Hx) as Hround.
  eapply errors_round; [exact HU|exact Hw|exact Hn0|exact Hn|exact Ht0|exact Ht|exact Hv|exact Hround|exact Herr'].
Qed.

(** ** Points *)

(** Whole points, and what hints leave of them. *)
Lemma half_up s : 0 ≤ s ≤ 150 → round_to_Z (f64_mul (f64 s) (difficultyMultiplier 3)) = (3 * s + 1) / 2.
Proof.
  intros Hs. apply Z.eqb_eq. check_all 151%nat s. vm_compute. reflexivity.
Qed.

Lemma hint_points g h : 0 ≤ g ≤ 225 → 0 ≤ h →
  round_to_Z (f64_mul (f64 g) (hintMultiplier h)) = (g * Z.max (100 - 25 * h) 0 + 50) / 100.
Proof.
  intros Hg Hh. unfold hintMultiplier, HINT_PENALTY_PERCENT.
  replace (Z.max (100 - h * 25) 0) with (25 * Z.max (4 - h) 0) by lia.
  replace (Z.max (100 - 25 * h) 0) with (25 * Z.max (4 - h) 0) by lia.
  assert (0 ≤ Z.max (4 - h) 0 < 5) as Hk by lia. revert Hk. generalize (Z.max (4 - h) 0). intros k Hk.
  apply Z.eqb_eq. check_all 5%nat k. check_all 226%nat g.
  vm_compute. reflexivity.
Qed.

(** ** Rounds *)

Record GameRound := mkRound {
  r_id : string;
  r_userId : string;
  r_lyricId : Z;
  r_issuedAt : Z;
  r_expiresAt : Z;
  r_answerWindowSeconds : Z;
  r_hintsUsed : Z;
  r_sessionId : option string;
  r_closedAt : option Z;
}.
#[export] Instance GameRound_settable : Settable GameRound := λ r,
  mkRound (r_id r) (r_userId r) (r_lyricId r) (r_issuedAt r) (r_expiresAt r)
    (r_answerWindowSeconds r) (r_hintsUsed r) (r_sessionId r) (r_closedAt r).

Record RoundGuessDto := mkGuessDto {
  dto_roundId : string;
  dto_guessType : string;
  dto_guessValue : string;
}.

Record GuessResult := mkGuess {
  isCorrect : bool;
  correctAnswer : string;
  explanation : option string;
  gr_points : option Z;
  gr_speedBonus : option Z;
  gr_timedOut : option bool;
  gr_hintsUsed : option Z;
}.
#[export] Instance GuessResult_settable : Settable GuessResult := λ g,
  mkGuess (isCorrect g) (correctAnswer g) (explanation g) (gr_points g) (gr_speedBonus g)
    (gr_timedOut g) (gr_hintsUsed g).

(** What [emitRoundEnded] is told about a round. *)
Record RoundOutcome := mkOutcome {
  o_isCorrect : bool;
  o_points : Z;
  o_speedBonus : Z;
  o_timedOut : bool;
}.

Inductive round_event :=
  | RoundStarted (roundId : string) (sessionId : option string) (userId : string)
      (issuedAt expiresAt answerWindowSeconds : Z)
  | RoundEnded (round : GameRound) (outcome : RoundOutcome).

(** A row of [game_history], as the retention job looks at it. *)
Record HistoryKey := mkHistoryKey {
  h_playerId : string;
  h_lyricId : Z;
  h_createdAt : Z;
}.

(** The tables the service works on, the events raised so far, and the server's clock.
    [retentionLock] is whether another instance holds the advisory lock; [archiveTable],
    whether the database has the table and the columns that the archiving statement names. *)
Record RoundsDb (Sess : Type) := mkRoundsDb {
  rounds : gmap string GameRound;
  archive : list GameRound;
  history : list HistoryKey;
  sessions : Sess;
  events : list round_event;
  retentionLock : bool;
  archiveTable : bool;
  time : Z;
  drawn : nat;
}.
Arguments mkRoundsDb {_} _ _ _ _ _ _ _ _ _.
Arguments rounds {_} _.
Arguments archive {_} _.
Arguments history {_} _.
Arguments sessions {_} _.
Arguments events {_} _.
Arguments retentionLock {_} _.
Arguments archiveTable {_} _.
Arguments time {_} _.
Arguments drawn {_} _.
#[export] Instance RoundsDb_settable {Sess} : Settable (RoundsDb Sess) := λ d,
  mkRoundsDb (rounds d) (archive d) (history d) (sessions d) (events d) (retentionLock d)
    (archiveTable d) (time d) (drawn d).

(** The rest of the service, its configuration, and the database's uuids. *)
Class RoundDeps (Sess : Type) := {
  checkGuess : Z → string → string → result GuessResult;
  assertActiveParticipant : string → string → Sess → result unit;
  touchSession : string → Sess → result Sess;
  config : string → option Z;
  uuid : nat → string;
}.

Definition DAY_MS : Z := 24 * 60 * 60 * 1000.

Section GameLogicService.
Context {Sess : Type} `{!RoundDeps Sess}.

Local Abbreviation Store := (RoundsDb Sess).
Local Abbreviation M := (M Store).

Definition answerWindowSeconds : Z :=
  default ROUND_ANSWER_WINDOW_SECONDS (config "ROUND_ANSWER_WINDOW_SECONDS").
(** The constants these two fall back to are not defined: unconfigured, they are undefined. *)
Definition seenWindowDays : option Z := config "GAME_SEEN_WINDOW_DAYS".
Definition roundRetentionDays : option Z := config "GAME_ROUND_RETENTION_DAYS".

Definition emit (e : round_event) : M unit := modify (λ d, d <| events := events d ++ [e] |>).
Definition emitRoundEnded (round : GameRound) (outcome : RoundOutcome) : M unit := emit (RoundEnded round outcome).

Definition touch (sessionId : string) : M unit :=
  s ← gets sessions;
  s' ← lift (touchSession sessionId s);
  modify (λ d, d <| sessions := s' |>).

Definition touch_session_of (sessionId : option string) : M unit :=
  match sessionId with Some s => if nonempty s then touch s else mret tt | None => mret tt end.

Definition issueRound (userId : string) (lyricId : Z) (sessionId : option string) : M GameRound :=
  match sessionId with
  | Some s => if nonempty s then sess ← gets sessions; lift (assertActiveParticipant userId s sess) else mret tt
  | None => mret tt
  end;;
  issuedAt ← gets time;
  n ← gets drawn;
  let round := mkRound (uuid n) userId lyricId issuedAt (issuedAt + ROUND_TIMEOUT_SECONDS * 1000)
    answerWindowSeconds 0 sessionId None in
  modify (λ d, d <| rounds := <[r_id round := round]> (rounds d) |> <| drawn := S n |>);;
  touch_session_of sessionId;;
  emit (RoundStarted (r_id round) (r_sessionId round) userId (r_issuedAt round) (r_expiresAt round)
    (r_answerWindowSeconds round));;
  mret round.

(** ** Retention *)

(** [LessThan(cutoff)] with the cutoff [days] ago; the database rejects an invalid date. *)
Definition cutoff_of (days : option Z) : M Z :=
  now ← gets time;
  match days with
  | Some n => mret (now - n * DAY_MS)
  | None => throw (PlainError "QueryFailedError" "invalid input syntax for type timestamp")
  end.

Definition stale_unguessed (cutoff : Z) (r : GameRound) : bool :=
  bool_decide (r_closedAt r = None) && (r_issuedAt r <? cutoff).
Definition stale_guessed (cutoff : Z) (r : GameRound) : bool :=
  match r_closedAt r with Some closed => (closed <? cutoff) && (r_issuedAt r <? cutoff) | None => false end.

Definition delete_rounds (p : GameRound → bool) : M unit :=
  modify (λ d, d <| rounds := filter (λ e, p e.2 = false) (rounds d) |>).

(** The rows of the statement's [moved]. *)
Definition unrecorded (rows : list HistoryKey) (cutoff : Z) (r : GameRound) : bool :=
  negb (bool_decide (r_closedAt r = None)) && (r_issuedAt r <? cutoff) &&
  negb (existsb (λ h, (h_playerId h == r_userId r) && (h_lyricId h =? r_lyricId r) && (r_issuedAt r <=? h_createdAt h)) rows).

Definition archiveGuessedRounds (cutoff : Z) : M unit :=
  ready ← gets archiveTable;
  throw_if (negb ready) (PlainError "QueryFailedError" "column gr.closed_at does not exist");;
  rows ← gets history;
  moved ← gets (λ d, List.filter (unrecorded rows cutoff) (map_to_list (rounds d)).*2);
  modify (λ d, d <| archive := archive d ++ moved |>);;
  delete_rounds (unrecorded rows cutoff).

(** The block the job tries. *)
Definition prune_once : M unit :=
  seenCutoff ← cutoff_of seenWindowDays;
  delete_rounds (stale_unguessed seenCutoff);;
  retentionCutoff ← cutoff_of roundRetentionDays;
  archiveGuessedRounds retentionCutoff;;
  delete_rounds (stale_guessed retentionCutoff).

Definition pruneGameRounds : M unit :=
  held ← gets retentionLock;
  if held : bool then mret tt
  else
    modify (λ d, d <| retentionLock := true |>);;
    try_catch prune_once (λ _, mret tt);;
    modify (λ d, d <| retentionLock := false |>).

(** ** Guesses *)

Definition find_round (id userId : string) : M (option GameRound) :=
  gets (λ d, r ← rounds d !! id; if r_userId r == userId then Some r else None).

(** [update({ id, closedAt: IsNull() }, { closedAt })], and whether it met a row. *)
Definition close_round (id : string) (now : Z) : M bool :=
  r ← gets (λ d, rounds d !! id);
  match r with
  | Some r => if bool_decide (is_Some (r_closedAt r)) then mret false
              else modify (λ d, d <| rounds := <[id := r <| r_closedAt := Some now |>]> (rounds d) |>);; mret true
  | None => mret false
  end.

Definition already_guessed : exn := Conflict "This round has already been guessed".
Definition expired : exn := Gone "This round has expired".

(** The score of a guess made at [now], and the result with it. *)
Definition score_of (round : GameRound) (now : Z) (result : GuessResult) : RoundScore :=
  scoreRound (mkScoreInput (default 0 (gr_points result)) (isCorrect result) (now - r_issuedAt round)
    (r_answerWindowSeconds round * 1000) (r_hintsUsed round) None None).

Definition scored_result (round : GameRound) (score : RoundScore) (result : GuessResult) : GuessResult :=
  let scored := result <| gr_points := Some (points score) |> <| gr_speedBonus := Some (speedBonus score) |>
    <| gr_timedOut := Some (timedOut score) |> <| gr_hintsUsed := Some (r_hintsUsed round) |> in
  if timedOut score
  then scored <| explanation := Some ("Too late, no points awarded. " +:+ default "undefined" (explanation result)) |>
  else scored.

(** What follows once the round is closed. *)
Definition evaluate (dto : RoundGuessDto) (round : GameRound) (now : Z) : M GuessResult :=
  result ← lift (checkGuess (r_lyricId round) (dto_guessType dto) (dto_guessValue dto));
  let score := score_of round now result in
  emitRoundEnded round (mkOutcome (isCorrect result && negb (timedOut score)) (points score) (speedBonus score) (timedOut score));;
  touch_session_of (r_sessionId round);;
  mret (scored_result round score result).

Definition guessRound (userId : string) (dto : RoundGuessDto) : M GuessResult :=
  round ← find_round (dto_roundId dto) userId;
  round ← require round (NotFound "Round not found");
  throw_if (bool_decide (is_Some (r_closedAt round))) already_guessed;;
  now ← gets time;
  if r_expiresAt round <=? now then
    close_round (r_id round) now;;
    emitRoundEnded round (mkOutcome false 0 0 true);;
    throw expired
  else
    closed ← close_round (r_id round) now;
    throw_if (negb closed) already_guessed;;
    evaluate dto round now.

(** ** Guesses at once

    A call stops at every statement it sends to the table of rounds; what follows the closing
    of the round does not read it. *)

Inductive guess_call :=
  | Start (userId : string) (dto : RoundGuessDto)
  | Expiring (round : GameRound) (now : Z)
  | Closing (dto : RoundGuessDto) (round : GameRound) (now : Z)
  | Scoring (dto : RoundGuessDto) (round : GameRound) (now : Z)
  | Done (roundId : string) (r : result GuessResult).

(** One step of a call; an exception ends it. *)
Definition guess_step (c : guess_call) (d : Store) : guess_call * Store :=
  match c with
  | Start userId dto =>
      match (r ← rounds d !! dto_roundId dto; if r_userId r == userId then Some r else None) with
      | None => (Done (dto_roundId dto) (Err (NotFound "Round not found")), d)
      | Some round =>
          if bool_decide (is_Some (r_closedAt round)) then (Done (dto_roundId dto) (Err already_guessed), d)
          else if r_expiresAt round <=? time d then (Expiring round (time d), d)
          else (Closing dto round (time d), d)
      end
  | Expiring round now =>
      let '(_, d') := (close_round (r_id round) now;; emitRoundEnded round (mkOutcome false 0 0 true)) d in
      (Done (r_id round) (Err expired), d')
  | Closing dto round now =>
      match close_round (r_id round) now d with
      | (Ok true, d') => (Scoring dto round now, d')
      | (_, d') => (Done (r_id round) (Err already_guessed), d')
      end
  | Scoring dto round now => let '(r, d') := evaluate dto round now d in (Done (r_id round) r, d')
  | Done _ _ => (c, d)
  end.

(** Calls at once, and the order in which they take their steps; time passes in between. *)
Definition pool_step (s : list guess_call * Store) (i : nat * nat) : list guess_call * Store :=
  match s.1 !! i.1 with
  | Some c => let '(c', d') := guess_step c s.2 in (<[i.1 := c']> s.1, d' <| time := time d' + Z.of_nat i.2 |>)
  | None => s
  end.
End GameLogicService.

(** ** One guess per round *)

Section one_guess.
Context {Sess : Type} `{!RoundDeps Sess}.
Local Abbreviation Store := (RoundsDb Sess).

(** The call has the round [id] to itself: it is being scored, or was. *)
Definition claims (id : string) (c : guess_call) : bool :=
  match c with
  | Scoring _ round _ => r_id round == id
  | Done id' (Ok _) => id' == id
  | _ => false
  end.
Definition claims_on (id : string) (cs : list guess_call) : nat := length (List.filter (claims id) cs).

Definition is_closed (id : string) (d : Store) : bool :=
  match rounds d !! id with Some r => bool_decide (is_Some (r_closedAt r)) | None => false end.

Definition one_claim (s : list guess_call * Store) : Prop :=
  ∀ id, (claims_on id s.1 ≤ if is_closed id s.2 then 1 else 0)%nat.

Lemma claims_on_insert id cs i c c' : cs !! i = Some c →
  (claims_on id (<[i := c']> cs) + (if claims id c then 1 else 0) = claims_on id cs + (if claims id c' then 1 else 0))%nat.
Proof.
  unfold claims_on. revert i. induction cs as [|x cs IH]; intros [|i] Hi; try done.
  - injection Hi as ->. cbn. destruct (claims id c), (claims id c'); cbn; lia.
  - change (<[S i := c']> (x :: cs)) with (x :: <[i := c']> cs). cbn [List.filter]. specialize (IH i Hi).
    destruct (claims id x); cbn [length]; lia.
Qed.

Lemma close_round_run id now (d : Store) : ∃ b d', close_round id now d = (Ok b, d') ∧
  (∀ i, i ≠ id → rounds d' !! i = rounds d !! i) ∧
  (if b then is_closed id d = false ∧ is_closed id d' = true else rounds d' = rounds d).
Proof.
  unfold close_round. rewrite bind_gets. unfold is_closed. destruct (rounds d !! id) as [r|] eqn:E; [|eauto 10].
  case_bool_decide as Hc; [eauto 10|]. exists true. eexists. split; [done|]. cbn.
  split; [intros i Hi; by rewrite lookup_insert_ne|]. rewrite lookup_insert_eq. done.
Qed.

Lemma evaluate_rounds dto round now (d : Store) : rounds (evaluate dto round now d).2 = rounds d.
Proof.
  unfold evaluate. case_bind E; [|by injection E as <- <-]. injection E as _ <-.
  unfold emitRoundEnded, emit. rewrite bind_modify. unfold touch_session_of, touch. destruct (r_sessionId round) as [s|]; [|done].
  destruct (nonempty s); [|done]. rewrite bind_assoc, bind_gets, bind_assoc. by destruct (touchSession s _).
Qed.

(** What a step of a call does to the rounds and to its claim: claiming takes an open round. *)
Lemma guess_step_claim c (d : Store) id : let '(c', d') := guess_step c d in
  (is_closed id d = true → is_closed id d' = true) ∧
  (claims id c' = true → claims id c = true ∨ is_closed id d = false ∧ is_closed id d' = true).
Proof.
  assert (∀ i now (d d' : Store) b, close_round i now d = (Ok b, d') → is_closed id d = true → is_closed id d' = true) as Hkeep.
  { intros i now d1 d1' b Hrun. destruct (close_round_run i now d1) as (b' & d2 & E & Hother & Hb).
    rewrite Hrun in E. injection E as <- <-. destruct b.
    - destruct (decide (id = i)) as [->|Hne]; [by destruct Hb as [-> ->]|]. unfold is_closed. by rewrite Hother.
    - unfold is_closed. by rewrite Hb. }
  destruct c as [userId dto|round now|dto round now|dto round now|id' r]; cbn [guess_step].
  - destruct (r ← rounds d !! dto_roundId dto; _) as [round|]; [|by split].
    case_bool_decide; [by split|]. by destruct (r_expiresAt round <=? time d).
  - destruct (close_round_run (r_id round) now d) as (b & d' & E & _).
    rewrite (bind_run _ _ _ _ _ E). cbn. split; [exact (Hkeep _ _ _ _ _ E)|done].
  - destruct (close_round_run (r_id round) now d) as (b & d' & E & _ & Hb). rewrite E.
    destruct b; cbn; (split; [exact (Hkeep _ _ _ _ _ E)|]); [|done]. intros <-%bool_decide_eq_true. by right.
  - pose proof (evaluate_rounds dto round now d) as E. destruct (evaluate dto round now d) as [r d']. cbn in *.
    unfold is_closed. rewrite E. split; [done|]. destruct r; [|done]. by left.
  - by split; [|left].
Qed.

Lemma one_claim_step s i : one_claim s → one_claim (pool_step s i).
Proof.
  intros Hinv id. unfold pool_step. destruct (s.1 !! i.1) as [c|] eqn:Hc; [|apply Hinv].
  pose proof (guess_step_claim c s.2 id) as Hstep. destruct (guess_step c s.2) as [c' d'] eqn:E. cbn [fst snd].
  destruct Hstep as [Hmono Hclaim]. specialize (Hinv id).
  pose proof (claims_on_insert id s.1 i.1 c c' Hc) as Hcount.
  change (is_closed id (d' <| time := _ |>)) with (is_closed id d').
  revert Hinv Hcount Hmono Hclaim. generalize (claims_on id (<[i.1 := c']> s.1)) (claims_on id s.1). intros n m.
  destruct (claims id c'), (claims id c), (is_closed id s.2), (is_closed id d'); intros Hinv Hcount Hmono Hclaim;
    cbv iota in Hinv, Hcount |- *; try lia;
    solve [by specialize (Hmono eq_refl)|by destruct (Hclaim eq_refl) as [|[]]].
Qed.
End one_guess.

(** ** Properties *)

Section rounds_properties.
Context {Sess : Type} `{!RoundDeps Sess}.
Local Abbreviation Store := (RoundsDb Sess).

(** C16. However the guesses made at once on a round are interleaved, at most one of them is scored
    and told the answer, and none while the round is open. *)
Theorem round_guessed_once (calls : list (string * RoundGuessDto)) (d : Store) (schedule : list (nat * nat)) id :
  let s := foldl pool_step ((λ c, Start c.1 c.2) <$> calls, d) schedule in
  (claims_on id s.1 ≤ if is_closed id s.2 then 1 else 0)%nat.
Proof.
  cbn zeta. assert (one_claim (foldl pool_step ((λ c, Start c.1 c.2) <$> calls, d) schedule)) as Hinv.
  { assert (one_claim ((λ c, Start c.1 c.2) <$> calls, d)) as H0.
    { intros i. cbn [fst snd].
      assert (claims_on i ((λ c, Start c.1 c.2) <$> calls) = 0%nat) as -> by (unfold claims_on; by induction calls). lia. }
    revert H0. generalize ((λ c : string * RoundGuessDto, Start c.1 c.2) <$> calls, d).
    induction schedule as [|i schedule IH]; intros s Hs; [done|]. by apply IH, one_claim_step. }
  exact (Hinv id).
Qed.

(** Taken alone, the steps of a call are [guessRound]: they end within three, with its result and
    its effect. *)
Theorem guess_steps_guessRound userId dto (d : Store) :
  let '(c, d') := (λ s, guess_step s.1 s.2) ((λ s, guess_step s.1 s.2) (guess_step (Start userId dto) d)) in
  ∃ id, c = Done id (guessRound userId dto d).1 ∧ d' = (guessRound userId dto d).2.
Proof.
  unfold guessRound, find_round. rewrite bind_gets. cbn [guess_step]. rewrite bind_require.
  destruct (r ← rounds d !! dto_roundId dto; _) as [round|]; [|cbn; eauto].
  rewrite bind_throw_if. case_bool_decide; [cbn; eauto|]. rewrite bind_gets.
  destruct (r_expiresAt round <=? time d) eqn:Ee; cbn [guess_step fst snd].
  - destruct (close_round_run (r_id round) (time d) d) as (b & d1 & E & _).
    rewrite !(bind_run _ _ _ _ _ E). cbn. eauto.
  - destruct (close_round_run (r_id round) (time d) d) as (b & d1 & E & _). rewrite (bind_run _ _ _ _ _ E), E.
    destruct b; cbn [guess_step fst snd]; [|cbn; eauto]. rewrite bind_throw_if. cbn [negb].
    destruct (evaluate dto round (time d) d1) as [r d2]. eauto.
Qed.

(** C20. What [guessRound] scores, which names no difficulty or streak, for a matched answer worth up
    to 100 points: nothing when the window is
    over or the answer is wrong; else the points and a speed bonus, times one and a half rounded
    up, less a quarter for each hint rounded half up.  The bonus falls evenly from half the points
    to nothing over the window: it is a whole number nearest to that share, for every window of up
    to 2^40 milliseconds (where two are as near, it is one of them), and at most 50 whatever the
    window and the time taken. *)
Theorem scoreRound_exact base correct elapsed window hints : 0 ≤ base ≤ 100 → 0 ≤ hints →
  let s := scoreRound (mkScoreInput base correct elapsed window hints None None) in
  let gross := (3 * (base + speedBonus s) + 1) / 2 in
  timedOut s = bool_decide (window < elapsed) ∧ 0 ≤ speedBonus s ≤ 50 ∧
  (correct = true → 0 ≤ elapsed ≤ window → 0 < window ≤ 2 ^ 40 →
     Z.abs (2 * window * speedBonus s - base * (window - elapsed)) ≤ window) ∧
  0 ≤ points s ≤ 225 ∧ 0 ≤ hintPenalty s ∧
  if timedOut s || negb correct then points s = 0 ∧ speedBonus s = 0
  else points s = (gross * Z.max (100 - 25 * hints) 0 + 50) / 100 ∧ hintPenalty s = gross - points s.
Proof.
  intros Hb Hh. cbn zeta. unfold scoreRound. cbn [difficulty streak windowMs elapsedMs in_isCorrect basePoints in_hintsUsed default].
  destruct (Z.ltb_spec window elapsed) as [Hw|Hw]; cbn [timedOut speedBonus points hintPenalty orb].
  { rewrite bool_decide_true by done. lia. }
  rewrite bool_decide_false by lia. destruct correct; cbn [negb timedOut speedBonus points hintPenalty orb]; [|lia].
  pose proof (computeSpeedBonus_bounds base elapsed window Hb) as Hbonus.
  pose proof (λ He Hw40, bonus_close base elapsed window Hb He Hw40) as Hclose. set (bonus := computeSpeedBonus _ _ _) in *.
  rewrite half_up by lia. rewrite Z.add_0_r. set (gross := (3 * (base + bonus) + 1) / 2).
  assert (0 ≤ gross ≤ 225) as Hg.
  { split; [apply Z.div_pos; lia|]. apply Z.lt_succ_r, Z.div_lt_upper_bound; lia. }
  rewrite hint_points by done. set (k := Z.max (100 - 25 * hints) 0). assert (0 ≤ k ≤ 100) as Hk by lia.
  assert (0 ≤ (gross * k + 50) / 100 ≤ gross) as Hp.
  { split; [apply Z.div_pos; nia|]. apply Z.lt_succ_r, Z.div_lt_upper_bound; nia. }
  lia.
Qed.

(** The round with the new row, once it is closed. *)
Definition closed_now (round : GameRound) (d : Store) : gmap string GameRound :=
  <[r_id round := round <| r_closedAt := Some (time d) |>]> (rounds d).

Lemma close_open round (d : Store) : rounds d !! r_id round = Some round → r_closedAt round = None →
  ∃ d', close_round (r_id round) (time d) d = (Ok true, d') ∧ rounds d' = closed_now round d ∧
    events d' = events d ∧ sessions d' = sessions d.
Proof.
  intros Hr Ho. unfold close_round. rewrite bind_gets, Hr, bool_decide_false by by rewrite Ho; intros []. eauto 10.
Qed.

(** A guess is refused as if the round did not exist when it is not the player's own, as spent when
    the round is closed, and without a change; past its expiry, it closes the round.  Otherwise it
    closes the round whatever comes of it, and a result carries the score of the matched answer at
    that moment and the answer itself. *)
Theorem guessRound_outcome userId dto (d : Store) : (∀ i r, rounds d !! i = Some r → r_id r = i) →
  let '(res, d') := guessRound userId dto d in
  match rounds d !! dto_roundId dto with
  | None => res = Err (NotFound "Round not found") ∧ d' = d
  | Some round =>
      if negb (r_userId round == userId) then res = Err (NotFound "Round not found") ∧ d' = d
      else if bool_decide (is_Some (r_closedAt round)) then res = Err already_guessed ∧ d' = d
      else rounds d' = closed_now round d ∧
        if r_expiresAt round <=? time d
        then res = Err expired ∧ events d' = events d ++ [RoundEnded round (mkOutcome false 0 0 true)]
        else match checkGuess (r_lyricId round) (dto_guessType dto) (dto_guessValue dto) with
          | Err e => res = Err e ∧ events d' = events d
          | Ok result =>
              let score := score_of round (time d) result in
              events d' = events d ++ [RoundEnded round (mkOutcome (isCorrect result && negb (timedOut score))
                (points score) (speedBonus score) (timedOut score))] ∧
              (res = Ok (scored_result round score result) ∨
               ∃ s e, r_sessionId round = Some s ∧ touchSession s (sessions d) = Err e ∧ res = Err e)
          end
  end.
Proof.
  intros Hkey. destruct (guessRound userId dto d) as [res d'] eqn:Hrun. revert Hrun. unfold guessRound, find_round.
  rewrite bind_gets, bind_require. destruct (rounds d !! dto_roundId dto) as [round|] eqn:Er; [|by intros [= <- <-]].
  cbn [mbind option_bind]. destruct (r_userId round == userId); cbn [negb]; [|by intros [= <- <-]].
  rewrite bind_throw_if. case_bool_decide as Hc; [by intros [= <- <-]|]. rewrite bind_gets.
  assert (r_closedAt round = None) as Ho by (destruct (r_closedAt round); [by destruct Hc|done]).
  pose proof (Hkey _ _ Er) as Hid. rewrite <-Hid in Er.
  destruct (close_open round d Er Ho) as (d1 & E & Hr1 & He1 & Hs1).
  destruct (r_expiresAt round <=? time d).
  - rewrite (bind_run _ _ _ _ _ E). intros [= <- <-]. cbn. by rewrite Hr1, He1.
  - rewrite (bind_run _ _ _ _ _ E), bind_throw_if. cbn [negb]. unfold evaluate.
    destruct (checkGuess _ _ _) as [result|e]; [|intros [= <- <-]; by rewrite Hr1, He1].
    rewrite (bind_lift _ result) by done. unfold emitRoundEnded, emit. rewrite bind_modify.
    unfold touch_session_of. set (ev := RoundEnded _ _). destruct (r_sessionId round) as [s|] eqn:Es.
    + destruct (nonempty s).
      * unfold touch. rewrite bind_assoc, bind_gets, bind_assoc. cbn [sessions]. rewrite <-Hs1.
        change (sessions (d1 <| events := _ |>)) with (sessions d1).
        destruct (touchSession s (sessions d1)) as [s'|e] eqn:Et; intros [= <- <-]; cbn; rewrite Hr1, He1; [by auto|].
        split; [done|]. split; [done|]. right. eauto.
      * intros [= <- <-]. cbn. rewrite Hr1, He1. auto.
    + intros [= <- <-]. cbn. rewrite Hr1, He1. auto.
Qed.

(** A guess of the round is in the history. *)
Definition recorded (rows : list HistoryKey) (r : GameRound) : Prop :=
  ∃ h, h ∈ rows ∧ h_playerId h = r_userId r ∧ h_lyricId h = r_lyricId r ∧ r_issuedAt r ≤ h_createdAt h.

Lemma not_unrecorded rows cutoff r : r_closedAt r ≠ None → r_issuedAt r < cutoff →
  unrecorded rows cutoff r = false → recorded rows r.
Proof.
  intros Hc Hi Hu. unfold unrecorded in Hu. rewrite bool_decide_false in Hu by done.
  rewrite (proj2 (Z.ltb_lt _ _) Hi) in Hu. cbn in Hu. apply negb_false_iff, existsb_exists in Hu as (h & Hin & Hh).
  exists h. apply list_elem_of_In in Hin. bool_prop. auto.
Qed.

(** What a pass may do to a round of [d]: keep it, or delete it when nothing is lost. *)
Definition pruned (d d' : Store) : Prop := ∀ i r, rounds d !! i = Some r →
  rounds d' !! i = Some r ∨
  rounds d' !! i = None ∧
    match r_closedAt r with
    | Some _ => r ∈ archive d' ∨ recorded (history d) r
    | None => ∃ days, seenWindowDays = Some days ∧ r_issuedAt r < time d - days * DAY_MS
    end.

Lemma deleted p (m : gmap string GameRound) i r : m !! i = Some r →
  filter (λ e, p e.2 = false) m !! i = if p r then None else Some r.
Proof.
  intros Hi. destruct (p r) eqn:E.
  - apply map_lookup_filter_None. right. intros r' Hr'. cbn. simplify_eq. congruence.
  - by apply map_lookup_filter_Some.
Qed.

Lemma prune_once_pruned (d : Store) : pruned d (prune_once d).2.
Proof.
  unfold prune_once, cutoff_of. rewrite bind_assoc, bind_gets. destruct seenWindowDays as [seen|] eqn:Es; [|by left].
  rewrite bind_ret. unfold delete_rounds. rewrite bind_modify, bind_assoc, bind_gets.
  set (d1 := _ <| rounds := filter _ _ |>).
  assert (pruned d d1) as H1.
  { intros i r Hr. cbn. rewrite (deleted _ _ _ _ Hr). destruct (stale_unguessed _ r) eqn:Eu; [right|by left].
    split; [done|]. unfold stale_unguessed in Eu. apply andb_true_iff in Eu as [Eo%bool_decide_eq_true Ei%Z.ltb_lt].
    rewrite Eo. eauto. }
  destruct roundRetentionDays as [days|]; [|done]. rewrite bind_ret. unfold archiveGuessedRounds, delete_rounds.
  rewrite bind_assoc, bind_gets. destruct (archiveTable d1); [|done].
  unfold throw_if. cbn [negb]. rewrite bind_assoc, bind_ret, bind_assoc, bind_gets, bind_assoc, bind_gets, bind_assoc, bind_modify, bind_modify.
  set (cutoff := _ - _). intros i r Hr. cbn.
  destruct (H1 i r Hr) as [Hr1|[Hn Hn']]; cbn [rounds] in *.
  - pose proof (deleted (unrecorded (history d1) cutoff) _ _ _ Hr1) as Hr2.
    destruct (unrecorded (history d1) cutoff r) eqn:Eu.
    + right. split; [by apply map_lookup_filter_None; left|].
      destruct (r_closedAt r) eqn:Ec; [|unfold unrecorded in Eu; by rewrite bool_decide_true in Eu].
      left. cbn. apply elem_of_app. right. apply list_elem_of_In, filter_In. split; [|done].
      apply list_elem_of_In, list_elem_of_fmap. exists (i, r). split; [done|]. by apply elem_of_map_to_list.
    + pose proof (deleted (stale_guessed cutoff) _ _ _ Hr2) as Hr3.
      destruct (stale_guessed cutoff r) eqn:Eg; [right|left; exact Hr3]. split; [exact Hr3|]. unfold stale_guessed in Eg.
      destruct (r_closedAt r) eqn:Ec; [|done]. right. apply andb_true_iff in Eg as [_ Hi%Z.ltb_lt].
      eapply (not_unrecorded (history d1) cutoff); [by rewrite Ec|done..].
  - right. split; [by apply map_lookup_filter_None; left; apply map_lookup_filter_None; left|].
    destruct (r_closedAt r); [|done]. destruct Hn'; [left|by right]. cbn. apply elem_of_app. by left.
Qed.

(** The retention job never fails and gives its lock back, and whatever is configured and whether or not
    archiving works, it deletes an unguessed round only when it is out of the seen window, and a guessed
    one only when it is in the archive by then or in the history. *)
Theorem prune_loses_nothing (d : Store) : let '(res, d') := pruneGameRounds d in
  res = Ok tt ∧ retentionLock d' = retentionLock d ∧ pruned d d'.
Proof.
  unfold pruneGameRounds. rewrite bind_gets. destruct (retentionLock d) eqn:El; [cbn; rewrite El; split_and!; [done..|by left]|].
  rewrite bind_modify. set (d0 := d <| retentionLock := true |>). pose proof (prune_once_pruned d0) as Hp.
  rewrite (bind_run _ _ d0 tt (prune_once d0).2) by (unfold try_catch; by destruct (prune_once d0) as [[[]|] ?]).
  split_and!; [done|by cbn|]. intros i r Hr. exact (Hp i r Hr).
Qed.
End rounds_properties.

(** ** A server with one player's rounds *)
Module RoundsDemo.
#[local] Instance demo_deps : RoundDeps (list string) := {|
  checkGuess id _ value := if id =? 404 then Err (NotFound "Lyric not found")
    else Ok (mkGuess (value == "Queen") "Queen" (Some "ok") (Some (if value == "Queen" then 100 else 0)) None None None);
  assertActiveParticipant user session sess := if existsb (λ s, s == session) sess then Ok tt else Err (Forbidden "no");
  touchSession s sess := Ok (s :: sess);
  config k := if k == "GAME_SEEN_WINDOW_DAYS" then Some 7 else if k == "GAME_ROUND_RETENTION_DAYS" then Some 30 else None;
  uuid n := String (Ascii.ascii_of_nat (97 + n)) "";
|}.

Definition empty (archiving : bool) : RoundsDb (list string) :=
  mkRoundsDb ∅ [] [] ["s1"] [] false archiving 0 0.
Definition served : RoundsDb (list string) := (issueRound "ada" 1 (Some "s1") (empty true)).2.
Definition after (ms : Z) : RoundsDb (list string) := served <| time := ms |>.
Definition queen : RoundGuessDto := mkGuessDto "a" "artist" "Queen".

Example issued : rounds served !! "a" = Some (mkRound "a" "ada" 1 0 120000 20 0 (Some "s1") None) ∧ sessions served = ["s1"; "s1"].
Proof. by split. Qed.
Example in_time : gr_points <$> (guessRound "ada" queen (after 10000)).1 = Ok (Some 188).
Proof. vm_compute. reflexivity. Qed.
Example late : (λ r, (gr_points r, explanation r)) <$> (guessRound "ada" queen (after 20001)).1
  = Ok (Some 0, Some "Too late, no points awarded. ok").
Proof. vm_compute. reflexivity. Qed.
Example too_late : (guessRound "ada" queen (after 120000)).1 = Err expired ∧
  (guessRound "bob" queen (after 0)).1 = Err (NotFound "Round not found").
Proof. vm_compute. split; reflexivity. Qed.

(** What a round is said to score at most, and what an instant answer scores. *)
Example over_the_maximum :
  points (score_of (mkRound "a" "ada" 1 0 120000 20 0 None None) 0 (mkGuess true "Queen" None (Some 100) None None None)) = 225 ∧
  maxRoundPoints 0 = 150.
Proof. vm_compute. split; reflexivity. Qed.

(** Two calls that both read an expired round before either closes it both announce its end. *)
Example ended_twice :
  length (events (foldl pool_step ([Start "ada" queen; Start "ada" queen], after 120000)
    [(0, 0); (1, 0); (0, 0); (1, 0)]%nat).2) = 3%nat.
Proof. vm_compute. reflexivity. Qed.

(** Without the table and columns the archiving statement names, guessed rounds stay for ever. *)
Example guessed_rounds_stay :
  let old := (guessRound "ada" queen (after 0)).2 <| time := 1000 * DAY_MS |> <| archiveTable := false |> in
  rounds (pruneGameRounds old).2 = rounds old ∧
  rounds (pruneGameRounds (old <| archiveTable := true |>)).2 = ∅.
Proof. vm_compute. split; reflexivity. Qed.

Lemma scoreRound_exact_witness : let s := scoreRound (mkScoreInput 50 true 1234 20000 1 None None) in
  speedBonus s = 23 ∧ points s = 83 ∧ Z.abs (2 * 20000 * speedBonus s - 50 * (20000 - 1234)) ≤ 20000.
Proof.
  split; [vm_compute; reflexivity|]. split; [vm_compute; reflexivity|].
  pose proof (scoreRound_exact 50 true 1234 20000 1 ltac:(lia) ltac:(lia)) as (_ & _ & H & _). apply H; [reflexivity|lia|lia].
Defined.

Lemma guessRound_outcome_witness : let '(res, d') := guessRound "ada" queen (after 10000) in
  rounds d' !! "a" = Some (mkRound "a" "ada" 1 0 120000 20 0 (Some "s1") (Some 10000)).
Proof.
  assert (∀ i r, rounds (after 10000) !! i = Some r → r_id r = i) as Hkey.
  { intros i r. change (rounds (after 10000)) with ({["a" := mkRound "a" "ada" 1 0 120000 20 0 (Some "s1") None]} : gmap string GameRound).
    by intros [<- <-]%lookup_singleton_Some. }
  pose proof (guessRound_outcome "ada" queen (after 10000) Hkey) as H.
  destruct (guessRound "ada" queen (after 10000)) as [res d']. cbn in H. destruct H as [-> _]. reflexivity.
Defined.
End RoundsDemo.
