(* ===== verification/EntityEvents.v ===== *)
(** * Realtime events of rows (src/src/realtime/entity-events.subscriber.ts, realtime.events.ts)

    [EntityEventsSubscriber]: what the saving of a session, a wager or a member of a room
    announces, and the queue that holds what is raised inside a transaction until it
    commits.  A query runner is a number; its transactions do not nest here.  A value set
    that [update] writes without loading the row has no id and announces nothing. *)

From S2P Require Import Prelude Entities GameSessions Rooms.
From stdpp Require Import gmap.

#[local] Open Scope Z_scope.

(** ** Payloads (realtime.events.ts) *)

Inductive PlayerJoinedPayload :=
  | JoinedSession (sessionId userId : string)
  | JoinedRoom (roomId userId : string).

Record SessionCompletedPayload := mkSessionCompleted {
  sc_sessionId : string;
  sc_playerId : option string;
  sc_playerTwoId : option string;
  sc_winnerId : option string;
  sc_score : Z;
  sc_playerTwoScore : Z;
}.

Record WagerStakedPayload := mkWagerStaked {
  ws_wagerId : string;
  ws_sessionId : string;
  ws_playerAId : string;
  ws_playerBId : string;
  ws_stakeStroops : string;
  ws_totalPotStroops : string;
}.

Record WagerSettledPayload := mkWagerSettled {
  wt_wagerId : string;
  wt_sessionId : string;
  wt_playerAId : string;
  wt_playerBId : string;
  wt_outcome : string;
  wt_winnerId : option string;
  wt_totalPotStroops : string;
}.

Inductive realtime_event :=
  | PLAYER_JOINED (p : PlayerJoinedPayload)
  | SESSION_COMPLETED (p : SessionCompletedPayload)
  | WAGER_STAKED (p : WagerStakedPayload)
  | WAGER_SETTLED (p : WagerSettledPayload).

(** ** What a change of a row announces *)

Inductive change :=
  | SessionInserted (session : GameSession)
  | RoomUserInserted (member : RoomUser)
  | OtherInserted
  | SessionUpdated (session : GameSession) (before : option GameSession)
  | WagerUpdated (wager : Wager) (before : option Wager)
  | OtherUpdated.

Definition onSessionUpdate (session : GameSession) (before : option GameSession) : list realtime_event :=
  (if bool_decide (g_status session = GameSessionStatus.IN_PROGRESS)
      && bool_decide (g_status <$> before = Some GameSessionStatus.WAITING_FOR_PLAYER)
   then match present (g_playerTwoId session) with
     | Some userId => [PLAYER_JOINED (JoinedSession (g_id session) userId)]
     | None => []
     end
   else []) ++
  (if bool_decide (g_status session = GameSessionStatus.COMPLETED)
      && negb (bool_decide (g_status <$> before = Some (g_status session)))
   then [SESSION_COMPLETED (mkSessionCompleted (g_id session)
     (match g_playerId session with Some p => Some p | None => before ≫= g_playerId end)
     (g_playerTwoId session) (g_winnerId session) (g_score session) (g_playerTwoScore session))]
   else []).

Definition onWagerUpdate (wager : Wager) (before : option Wager) : list realtime_event :=
  if negb (nonempty (w_status wager)) || bool_decide (w_status <$> before = Some (w_status wager)) then []
  else if w_status wager == WagerStatus.STAKED then
    [WAGER_STAKED (mkWagerStaked (w_id wager) (w_sessionId wager) (w_playerAId wager) (w_playerBId wager)
      (w_stakeStroops wager) (w_totalPotStroops wager))]
  else if (w_status wager == WagerStatus.WON) || (w_status wager == WagerStatus.REFUNDED) then
    [WAGER_SETTLED (mkWagerSettled (w_id wager) (w_sessionId wager) (w_playerAId wager) (w_playerBId wager)
      (if w_status wager == WagerStatus.WON then "won" else "refunded") (w_winnerId wager) (w_totalPotStroops wager))]
  else [].

(** [afterInsert] and [afterUpdate] *)
Definition announces (c : change) : list realtime_event :=
  match c with
  | SessionInserted session =>
      match present (g_playerId session) with
      | Some userId => [PLAYER_JOINED (JoinedSession (g_id session) userId)]
      | None => []
      end
  | RoomUserInserted member => [PLAYER_JOINED (JoinedRoom (ru_roomId member) (ru_userId member))]
  | SessionUpdated session before => if nonempty (g_id session) then onSessionUpdate session before else []
  | WagerUpdated wager before => if nonempty (w_id wager) then onWagerUpdate wager before else []
  | OtherInserted | OtherUpdated => []
  end.

(** ** The queue *)

(** The runners in a transaction, what they hold back, and what was emitted. *)
Record Outbox := mkOutbox {
  isTransactionActive : gset nat;
  pending : gmap nat (list realtime_event);
  emitted : list realtime_event;
}.
#[export] Instance Outbox_settable : Settable Outbox := λ o,
  mkOutbox (isTransactionActive o) (pending o) (emitted o).

Definition raise (queryRunner : option nat) (o : Outbox) (e : realtime_event) : Outbox :=
  match queryRunner with
  | Some q =>
      if bool_decide (q ∈ isTransactionActive o)
      then o <| pending := <[q := default [] (pending o !! q) ++ [e]]> (pending o) |>
      else o <| emitted := emitted o ++ [e] |>
  | None => o <| emitted := emitted o ++ [e] |>
  end.

Definition afterTransactionCommit (q : nat) (o : Outbox) : Outbox :=
  let queued := default [] (pending o !! q) in
  o <| pending := delete q (pending o) |> <| emitted := emitted o ++ queued |>.

Definition afterTransactionRollback (q : nat) (o : Outbox) : Outbox :=
  o <| pending := delete q (pending o) |>.

(** What the database driver reports, in order. *)
Inductive db_step :=
  | Begin (q : nat)
  | Row (queryRunner : option nat) (c : change)
  | Commit (q : nat)
  | Rollback (q : nat).

Definition outbox_step (o : Outbox) (s : db_step) : Outbox :=
  match s with
  | Begin q => o <| isTransactionActive := {[q]} ∪ isTransactionActive o |>
  | Row q c => foldl (raise q) o (announces c)
  | Commit q => afterTransactionCommit q (o <| isTransactionActive := isTransactionActive o ∖ {[q]} |>)
  | Rollback q => afterTransactionRollback q (o <| isTransactionActive := isTransactionActive o ∖ {[q]} |>)
  end.

(** ** Transactions *)

(** The steps of runner [q]. *)
Definition of_runner (q : nat) (s : db_step) : bool :=
  match s with
  | Begin q' | Commit q' | Rollback q' | Row (Some q') _ => bool_decide (q' = q)
  | Row None _ => false
  end.
Definition is_row (s : db_step) : bool := match s with Row _ _ => true | _ => false end.

(** What the rows that [q] changes in [block] announce. *)
Definition announced_by (q : nat) (block : list db_step) : list realtime_event :=
  flat_map (λ s, match s with Row (Some q') c => if bool_decide (q' = q) then announces c else [] | _ => [] end) block.

(** [o] is [others] with the transaction of [q] open and holding [held] back. *)
Record holding (q : nat) (held : list realtime_event) (o others : Outbox) : Prop := {
  hold_active : isTransactionActive o = {[q]} ∪ isTransactionActive others;
  hold_apart : q ∉ isTransactionActive others;
  hold_pending : default [] (pending o !! q) = held;
  hold_none : pending others !! q = None;
  hold_others : ∀ r, r ≠ q → pending o !! r = pending others !! r;
  hold_emitted : emitted o = emitted others;
}.

Lemma raise_other q held o others r e : r ≠ Some q → holding q held o others →
  holding q held (raise r o e) (raise r others e).
Proof.
  intros Hr [H1 H2 H3 H4 H5 H6]. destruct r as [r|]; [|split; cbn; try done; by rewrite H6]. assert (r ≠ q) as Hne by congruence.
  unfold raise. rewrite H1. destruct (decide (r ∈ isTransactionActive others)).
  - rewrite !bool_decide_true by set_solver. split; cbn; rewrite ?lookup_insert_ne by done; try done.
    intros r' Hr'. rewrite H5 by done. destruct (decide (r' = r)) as [->|].
    + by rewrite !lookup_insert_eq.
    + rewrite !lookup_insert_ne by done. by apply H5.
  - rewrite !bool_decide_false by set_solver. split; cbn; try done. by rewrite H6.
Qed.

Lemma raise_own q held o others e : holding q held o others → holding q (held ++ [e]) (raise (Some q) o e) others.
Proof.
  intros [H1 H2 H3 H4 H5 H6]. unfold raise. rewrite bool_decide_true by set_solver. split; cbn; try done.
  - by rewrite lookup_insert_eq, H3.
  - intros r Hr. rewrite lookup_insert_ne by done. by apply H5.
Qed.

Lemma raises_other q held r es o others : r ≠ Some q → holding q held o others →
  holding q held (foldl (raise r) o es) (foldl (raise r) others es).
Proof. intros Hr. revert o others. induction es as [|e es IH]; intros o others Ho; [done|]. by apply IH, raise_other. Qed.

Lemma raises_own q es held o others : holding q held o others →
  holding q (held ++ es) (foldl (raise (Some q)) o es) others.
Proof.
  revert held o. induction es as [|e es IH]; intros held o Ho; [by rewrite app_nil_r|].
  replace (held ++ e :: es) with ((held ++ [e]) ++ es) by by rewrite <-app_assoc. by apply IH, raise_own.
Qed.

(** A step of another runner. *)
Lemma step_other q held s o others : of_runner q s = false → holding q held o others →
  holding q held (outbox_step o s) (outbox_step others s).
Proof.
  intros Hs Ho. destruct s as [r|r c|r|r]; cbn in Hs |- *; try apply bool_decide_eq_false in Hs.
  - destruct Ho as [H1 H2 H3 H4 H5 H6]. split; cbn; try done; set_solver.
  - apply raises_other; [|done]. intros ->. by apply bool_decide_eq_false in Hs.
  - destruct Ho as [H1 H2 H3 H4 H5 H6]. split; cbn; rewrite ?lookup_delete_ne by done; try done; [set_solver..| |].
    + intros r' Hr'. destruct (decide (r' = r)) as [->|]; [by rewrite !lookup_delete_eq|]. rewrite !lookup_delete_ne by done. by apply H5.
    + rewrite H6, H5; [done|done].
  - destruct Ho as [H1 H2 H3 H4 H5 H6]. split; cbn; rewrite ?lookup_delete_ne by done; try done; [set_solver..|].
    intros r' Hr'. destruct (decide (r' = r)) as [->|]; [by rewrite !lookup_delete_eq|]. rewrite !lookup_delete_ne by done. by apply H5.
Qed.

Lemma block_holding q block held o others : Forall (λ s, of_runner q s = true → is_row s = true) block →
  holding q held o others →
  holding q (held ++ announced_by q block) (foldl outbox_step o block)
    (foldl outbox_step others (List.filter (λ s, negb (of_runner q s)) block)).
Proof.
  intros Hblock. revert held o others. induction Hblock as [|s block Hs Hblock IH]; intros held o others Ho; cbn [foldl List.filter].
  { by rewrite app_nil_r. }
  destruct (of_runner q s) eqn:E; cbn [negb].
  - destruct s as [|[r|] c| |]; cbn in E; try done; [by specialize (Hs eq_refl)| |by specialize (Hs eq_refl)..].
    apply bool_decide_eq_true in E as ->. cbn [announced_by flat_map]. rewrite bool_decide_true by done.
    rewrite app_assoc. apply IH. by apply raises_own.
  - cbn [announced_by flat_map]. replace (match s with Row (Some q') c => _ | _ => _ end) with (@nil realtime_event).
    { apply IH. by apply step_other. }
    destruct s as [|[r|] c| |]; try done. cbn in E. by rewrite E.
Qed.

(** ** Properties *)

(** A client hears of a row only after the change is committed: what a transaction's rows announce
    is held back while it runs, whatever other transactions do meanwhile, is emitted at its commit
    all at once, complete and in order, and is dropped when it rolls back; nothing is left behind. *)
Theorem announced_after_commit q block (o : Outbox) :
  q ∉ isTransactionActive o → pending o !! q = None →
  Forall (λ s, of_runner q s = true → is_row s = true) block →
  let running := foldl outbox_step o (Begin q :: block) in
  let others := foldl outbox_step o (List.filter (λ s, negb (of_runner q s)) block) in
  emitted running = emitted others ∧
  emitted (outbox_step running (Commit q)) = emitted others ++ announced_by q block ∧
  emitted (outbox_step running (Rollback q)) = emitted others ∧
  pending (outbox_step running (Commit q)) !! q = None ∧ pending (outbox_step running (Rollback q)) !! q = None.
Proof.
  intros Hq Hp Hblock. cbn zeta. cbn [foldl].
  assert (holding q [] (outbox_step o (Begin q)) o) as H0 by (split; cbn; [done|done|by rewrite Hp|done|done|done]).
  destruct (block_holding q block [] _ _ Hblock H0) as [H1 H2 H3 H4 H5 H6].
  set (running := foldl outbox_step _ block) in *. cbn. rewrite lookup_delete_eq, H6, H3. done.
Qed.

(** Saving a wager announces it exactly when its status has changed: to staked, with the stake and the pot;
    to won or refunded, with the outcome and the winner; to anything else, not at all. *)
Theorem onWagerUpdate_spec wager before e : e ∈ onWagerUpdate wager before ↔
  w_status <$> before ≠ Some (w_status wager) ∧
  match e with
  | WAGER_STAKED p => w_status wager = WagerStatus.STAKED ∧ p = mkWagerStaked (w_id wager) (w_sessionId wager)
      (w_playerAId wager) (w_playerBId wager) (w_stakeStroops wager) (w_totalPotStroops wager)
  | WAGER_SETTLED p => ∃ outcome,
      (w_status wager = WagerStatus.WON ∧ outcome = "won" ∨ w_status wager = WagerStatus.REFUNDED ∧ outcome = "refunded") ∧
      p = mkWagerSettled (w_id wager) (w_sessionId wager) (w_playerAId wager) (w_playerBId wager) outcome
        (w_winnerId wager) (w_totalPotStroops wager)
  | _ => False
  end.
Proof.
  unfold onWagerUpdate. destruct (nonempty (w_status wager)) eqn:En; cbn [negb orb].
  2: { assert (w_status wager = "") as -> by by destruct (w_status wager). split; [by intros ?%elem_of_nil|].
       intros [_ H]. destruct e; try done; [by destruct H as [? _]|by destruct H as (? & [[? _]|[? _]] & _)]. }
  destruct (bool_decide (w_status <$> before = Some (w_status wager))) eqn:Eb; bool_prop.
  { split; [by intros ?%elem_of_nil|]. by intros []. }
  repeat case_bool_decide; cbn [orb].
  all: unfold WagerStatus.STAKED, WagerStatus.WON, WagerStatus.REFUNDED in *.
  all: rewrite ?list_elem_of_singleton, ?elem_of_nil; destruct e; naive_solver congruence.
Qed.

(** ** A wager staked and refunded in two transactions at once *)
Module EventsDemo.
Definition row (status : string) : Wager :=
  new_wager "s1" <| w_id := "w1" |> <| w_status := status |> <| w_stakeStroops := "10" |>.
Definition o0 : Outbox := mkOutbox ∅ ∅ [].
Definition staked : list db_step :=
  [Row (Some 1%nat) (WagerUpdated (row WagerStatus.STAKED) (Some (row WagerStatus.AWAITING_STAKES)));
   Row (Some 2%nat) (RoomUserInserted (mkRoomUser "m" "ada" "r" false 0 None));
   Row (Some 1%nat) (WagerUpdated (row WagerStatus.STAKED) (Some (row WagerStatus.STAKED)));
   Row None (WagerUpdated (row WagerStatus.SETTLING) (Some (row WagerStatus.STAKED)))].

Lemma announced_after_commit_witness :
  length (emitted (foldl outbox_step o0 (Begin 1 :: staked ++ [Commit 1%nat]))) = 2%nat ∧
  emitted (outbox_step (foldl outbox_step o0 (Begin 1 :: staked)) (Rollback 1)) =
    [PLAYER_JOINED (JoinedRoom "r" "ada")].
Proof.
  split; [vm_compute; reflexivity|].
  assert (Forall (λ s, of_runner 1 s = true → is_row s = true) staked) as Hrows by (repeat constructor).
  assert (1%nat ∉ isTransactionActive o0) as Hq by by apply not_elem_of_empty.
  pose proof (announced_after_commit 1 staked o0 Hq eq_refl Hrows) as H. cbn zeta in H.
  rewrite (proj1 (proj2 (proj2 H))). vm_compute. reflexivity.
Defined.
End EventsDemo.
