(* ===== verification/Achievements.v ===== *)
(** * Achievements (src/src/achievements/achievements.service.ts)

    [AchievementsService] over any [AchievementsRepository]: the interface and the contract its
    documentation states are classes here.  Payloads of the event bus are JavaScript objects,
    read property by property. *)

From S2P Require Import Prelude Entities Rounds EntityEvents.
From stdpp Require Import gmap.

#[local] Open Scope Z_scope.

Inductive AchievementCode := first_win | perfect_guess | streak_5 | streak_10 | speed_demon.
#[export] Instance AchievementCode_eq_dec : EqDecision AchievementCode.
Proof. solve_decision. Defined.

Record AchievementDefinition := mkDefinition {
  code : AchievementCode;
  name : string;
  description : string;
}.

Definition ACHIEVEMENT_DEFINITIONS : list AchievementDefinition :=
  [mkDefinition first_win "First Win" "Win your first wager.";
   mkDefinition perfect_guess "Perfect Guess" "Answer your first question correctly.";
   mkDefinition streak_5 "On Fire" "Reach a streak of 5 correct answers.";
   mkDefinition streak_10 "Unstoppable" "Reach a streak of 10 correct answers.";
   mkDefinition speed_demon "Speed Demon" "Answer correctly in under 3 seconds."].

Definition SPEED_DEMON_THRESHOLD_MS : Z := 3000.
Definition STREAK_MILESTONES : list (Z * AchievementCode) := [(5, streak_5); (10, streak_10)].

(** The persistence the service is given. *)
Class AchievementsRepository (R : Type) := {
  upsertDefinition : AchievementDefinition → R → R;
  findUnlockedCodes : string → R → list AchievementCode;
  insertUnlock : string → AchievementCode → R → bool * R;
}.

(** Its contract: an unlock is inserted once, and [insertUnlock] says whether it was now. *)
Class RepositoryLaws (R : Type) `{!AchievementsRepository R} : Prop := {
  insertUnlock_new userId c (r : R) : (insertUnlock userId c r).1 = bool_decide (c ∉ findUnlockedCodes userId r);
  insertUnlock_codes userId c (r : R) userId' c' :
    c' ∈ findUnlockedCodes userId' (insertUnlock userId c r).2 ↔ (userId' = userId ∧ c' = c) ∨ c' ∈ findUnlockedCodes userId' r;
}.

Record AchievementUnlockedEvent := mkUnlocked {
  au_userId : string;
  au_code : AchievementCode;
  au_name : string;
  au_description : string;
  au_unlockedAt : Z;
}.

(** [undefined] is [None]. *)
Record GameplayEvent := mkGameplay {
  ge_userId : option string;
  correctAnswer : option bool;
  streak : option Z;
  wagerWon : option bool;
  answerTimeMs : option Z;
}.

Record RoundEndedEvent := mkRoundEnded {
  re_userId : option string;
  re_correctAnswer : option bool;
  re_streak : option Z;
  re_answerTimeMs : option Z;
}.

Record WagerSettledEvent := mkSettledEvent {
  we_userId : option string;
  we_won : option bool;
}.

(** The repository, what the service emitted, and the clock. *)
Record AchState (R : Type) := mkAchState {
  repository : R;
  unlockedEvents : list AchievementUnlockedEvent;
  clock : Z;
}.
Arguments mkAchState {_} _ _ _.
Arguments repository {_} _.
Arguments unlockedEvents {_} _.
Arguments clock {_} _.
#[export] Instance AchState_settable {R} : Settable (AchState R) := λ s,
  mkAchState (repository s) (unlockedEvents s) (clock s).

Definition is_true_value (b : option bool) : bool := bool_decide (b = Some true).

Definition resolveCodes (event : GameplayEvent) : list AchievementCode :=
  (if is_true_value (correctAnswer event) then [perfect_guess] else []) ++
  match streak event with
  | Some n => (List.filter (λ m, m.1 <=? n) STREAK_MILESTONES).*2
  | None => []
  end ++
  (if is_true_value (wagerWon event) then [first_win] else []) ++
  match answerTimeMs event with
  | Some ms => if is_true_value (correctAnswer event) && (ms <=? SPEED_DEMON_THRESHOLD_MS) then [speed_demon] else []
  | None => []
  end.

Section AchievementsService.
Context {R : Type} `{!AchievementsRepository R}.
Local Abbreviation St := (AchState R).

Definition seedDefinitions (s : St) : St :=
  s <| repository := foldl (λ r d, upsertDefinition d r) (repository s) ACHIEVEMENT_DEFINITIONS |>.

Definition listForUser (userId : string) (s : St) : list AchievementDefinition :=
  List.filter (λ d, bool_decide (code d ∈ findUnlockedCodes userId (repository s))) ACHIEVEMENT_DEFINITIONS.

Definition emitUnlocked (userId : string) (c : AchievementCode) (s : St) : St :=
  match List.find (λ d, bool_decide (code d = c)) ACHIEVEMENT_DEFINITIONS with
  | Some d => s <| unlockedEvents := unlockedEvents s ++ [mkUnlocked userId c (name d) (description d) (clock s)] |>
  | None => s
  end.

(** One turn of the loop over the codes. *)
Definition award (userId : string) (s : list AchievementCode * St) (c : AchievementCode) : list AchievementCode * St :=
  let '(isNew, r) := insertUnlock userId c (repository s.2) in
  let s' := s.2 <| repository := r |> in
  if isNew : bool then (s.1 ++ [c], emitUnlocked userId c s') else (s.1, s').

(** An [undefined] user only comes with no code to award. *)
Definition handleGameplayEvent (event : GameplayEvent) (s : St) : list AchievementCode * St :=
  foldl (award (default "undefined" (ge_userId event))) ([], s) (resolveCodes event).

Definition onRoundEnded (event : RoundEndedEvent) (s : St) : St :=
  (handleGameplayEvent (mkGameplay (re_userId event) (re_correctAnswer event) (re_streak event) None
    (re_answerTimeMs event)) s).2.

Definition onWagerSettled (event : WagerSettledEvent) (s : St) : St :=
  (handleGameplayEvent (mkGameplay (we_userId event) None None (we_won event) None) s).2.
End AchievementsService.

(** ** What arrives on the bus

    The handlers listen to the realtime events of rounds and wagers.  A payload is an object:
    its properties by name. *)

Inductive js_value := JString (s : string) | JNumber (n : Z) | JBool (b : bool) | JNull.
Definition js_object : Type := gmap string js_value.

Definition as_string (v : option js_value) : option string := match v with Some (JString s) => Some s | _ => None end.
Definition as_number (v : option js_value) : option Z := match v with Some (JNumber n) => Some n | _ => None end.
Definition as_bool (v : option js_value) : option bool := match v with Some (JBool b) => Some b | _ => None end.
Definition js_nullable (s : option string) : js_value := match s with Some s => JString s | None => JNull end.

(** [RoundEndedPayload] and [WagerSettledPayload] of realtime.events.ts. *)
Definition RoundEndedPayload (round : GameRound) (o : RoundOutcome) : js_object :=
  {["roundId" := JString (r_id round); "sessionId" := js_nullable (r_sessionId round);
    "userId" := JString (r_userId round); "isCorrect" := JBool (o_isCorrect o);
    "points" := JNumber (o_points o); "speedBonus" := JNumber (o_speedBonus o);
    "timedOut" := JBool (o_timedOut o); "hintsUsed" := JNumber (r_hintsUsed round)]}.

Definition WagerSettledPayload_object (p : WagerSettledPayload) : js_object :=
  {["wagerId" := JString (wt_wagerId p); "sessionId" := JString (wt_sessionId p);
    "playerAId" := JString (wt_playerAId p); "playerBId" := JString (wt_playerBId p);
    "outcome" := JString (wt_outcome p); "winnerId" := js_nullable (wt_winnerId p);
    "totalPotStroops" := JString (wt_totalPotStroops p)]}.

(** What the handlers read of an object they take for theirs. *)
Definition read_RoundEndedEvent (p : js_object) : RoundEndedEvent :=
  mkRoundEnded (as_string (p !! "userId")) (as_bool (p !! "correctAnswer")) (as_number (p !! "streak"))
    (as_number (p !! "answerTimeMs")).
Definition read_WagerSettledEvent (p : js_object) : WagerSettledEvent :=
  mkSettledEvent (as_string (p !! "userId")) (as_bool (p !! "won")).

(** ** Awards *)

Section awards.
Context {R : Type} `{!AchievementsRepository R, !RepositoryLaws R}.
Local Abbreviation St := (AchState R).

Definition unlocked (userId : string) (s : St) : list AchievementCode := findUnlockedCodes userId (repository s).

(** How often an achievement of a player was announced. *)
Definition announcements (userId : string) (c : AchievementCode) (s : St) : nat :=
  length (List.filter (λ e, bool_decide (au_userId e = userId ∧ au_code e = c)) (unlockedEvents s)).

Lemma definition_of c : ∃ d, List.find (λ d, bool_decide (code d = c)) ACHIEVEMENT_DEFINITIONS = Some d ∧ code d = c.
Proof. destruct c; eexists; split; reflexivity. Qed.

Lemma announcements_emit userId c (s : St) userId' c' :
  announcements userId' c' (emitUnlocked userId c s) =
  (announcements userId' c' s + if bool_decide (userId = userId' ∧ c = c') then 1 else 0)%nat.
Proof.
  unfold emitUnlocked. destruct (definition_of c) as (d & -> & _). unfold announcements. cbn.
  rewrite List.filter_app, length_app. cbn. by case_bool_decide.
Qed.

(** The announcements of a player's achievement make up for whether it is unlocked. *)
Definition balanced (s s' : St) : Prop := ∀ userId c,
  (announcements userId c s' + (if bool_decide (c ∈ unlocked userId s) then 1 else 0) =
   announcements userId c s + (if bool_decide (c ∈ unlocked userId s') then 1 else 0))%nat ∧
  (c ∈ unlocked userId s → c ∈ unlocked userId s').

#[local] Instance balanced_refl : Reflexive balanced.
Proof. by intros s userId c. Qed.
#[local] Instance balanced_trans : Transitive balanced.
Proof. intros s1 s2 s3 H1 H2 userId c. destruct (H1 userId c), (H2 userId c). split; [lia|auto]. Qed.

Lemma award_balanced userId (s : list AchievementCode * St) c : let s' := award userId s c in
  balanced s.2 s'.2 ∧ c ∈ unlocked userId s'.2 ∧
  (∀ u c', c' ∈ unlocked u s'.2 → (u = userId ∧ c' = c) ∨ c' ∈ unlocked u s.2) ∧
  s'.1 = s.1 ++ (if bool_decide (c ∈ unlocked userId s.2) then [] else [c]).
Proof.
  cbn zeta. unfold award. pose proof (insertUnlock_new userId c (repository s.2)) as Hnew.
  pose proof (insertUnlock_codes userId c (repository s.2)) as Hcodes.
  destruct (insertUnlock userId c (repository s.2)) as [isNew r]. cbn in Hnew, Hcodes. subst isNew.
  set (s' := s.2 <| repository := r |>).
  assert (∀ u c', c' ∈ unlocked u s' ↔ (u = userId ∧ c' = c) ∨ c' ∈ unlocked u s.2) as Hu by exact Hcodes.
  assert (∀ u, unlocked u (emitUnlocked userId c s') = unlocked u s') as He.
  { intros u. unfold emitUnlocked. by destruct (definition_of c) as (d & -> & _). }
  change (findUnlockedCodes userId (repository s.2)) with (unlocked userId s.2).
  destruct (decide (c ∈ unlocked userId s.2)) as [Hin|Hin].
  - rewrite bool_decide_false, bool_decide_true by (try done; by intros []). cbn [fst snd]. split_and!.
    + intros u c'. change (announcements u c' s') with (announcements u c' s.2).
      assert (c' ∈ unlocked u s' ↔ c' ∈ unlocked u s.2) as E by (rewrite Hu; naive_solver).
      split; [|by rewrite E]. by rewrite (bool_decide_ext _ _ E).
    + rewrite Hu. by left.
    + intros u c' H. by apply Hu.
    + by rewrite app_nil_r.
  - rewrite bool_decide_true, bool_decide_false by done. cbn [fst snd]. split_and!.
    + intros u c'. rewrite announcements_emit, He. change (announcements u c' s') with (announcements u c' s.2).
      split; [|rewrite Hu; auto]. destruct (decide (userId = u ∧ c = c')) as [[<- <-]|Hne].
      * rewrite (bool_decide_true (userId = userId ∧ c = c)) by done.
        rewrite (bool_decide_false (c ∈ _)) by done. rewrite bool_decide_true by (apply Hu; by left). lia.
      * rewrite (bool_decide_false (userId = u ∧ c = c')) by done.
        assert (c' ∈ unlocked u s' ↔ c' ∈ unlocked u s.2) as E by (rewrite Hu; naive_solver).
        rewrite (bool_decide_ext _ _ E). lia.
    + rewrite He, Hu. by left.
    + intros u c'. rewrite He. apply Hu.
    + done.
Qed.

Lemma awards_spec userId cs (s : list AchievementCode * St) : NoDup cs → let s' := foldl (award userId) s cs in
  balanced s.2 s'.2 ∧
  (∀ u c, c ∈ unlocked u s'.2 ↔ (u = userId ∧ c ∈ cs) ∨ c ∈ unlocked u s.2) ∧
  s'.1 = s.1 ++ List.filter (λ c, negb (bool_decide (c ∈ unlocked userId s.2))) cs.
Proof.
  cbn zeta. intros Hcs. revert s. induction Hcs as [|c cs Hc Hcs IH]; intros s; cbn [foldl List.filter].
  { split; [done|]. split; [|by rewrite app_nil_r]. intros u c. split; [auto|]. by intros [[_ ?%elem_of_nil]|]. }
  destruct (award_balanced userId s c) as (Hb & Hin & Honly & Hlist).
  destruct (IH (award userId s c)) as (Hb' & Hu & Hl). split; [by etrans|]. split.
  - intros u c'. rewrite Hu, elem_of_cons. split.
    + intros [[-> H]|H]; [auto|]. apply Honly in H. naive_solver.
    + intros [[-> [->|H]]|H]; [by right|by left; auto|]. right. by apply Hb.
  - rewrite Hl, Hlist, <-app_assoc. f_equal.
    assert (List.filter (λ c0, negb (bool_decide (c0 ∈ unlocked userId (award userId s c).2))) cs =
      List.filter (λ c0, negb (bool_decide (c0 ∈ unlocked userId s.2))) cs) as ->.
    { apply filter_ext_in. intros c' Hc'%list_elem_of_In. f_equal. apply bool_decide_ext. split; [|apply Hb].
      intros H. apply Honly in H as [[_ ->]|H]; [by destruct Hc|done]. }
    by destruct (bool_decide (c ∈ unlocked userId s.2)).
Qed.

Lemma resolveCodes_nodup event : NoDup (resolveCodes event).
Proof.
  apply (bool_decide_eq_true (NoDup (resolveCodes event))). unfold resolveCodes. destruct (is_true_value (correctAnswer event)), (is_true_value (wagerWon event)),
    (streak event) as [n|], (answerTimeMs event) as [ms|]; cbn [List.filter STREAK_MILESTONES fst snd];
    repeat match goal with |- context [?a <=? ?b] => destruct (a <=? b) end; vm_compute; reflexivity.
Qed.

(** ** Properties *)

(** C38. An achievement is awarded once: over any sequence of gameplay events, a player ends with what was
    unlocked before and what some event of theirs earned, and each achievement is announced to them
    once if it was unlocked on the way, and never again, for every repository that keeps its contract. *)
Theorem achievements_once events (s : St) userId c :
  let s' := foldl (λ s e, (handleGameplayEvent e s).2) s events in
  (c ∈ unlocked userId s' ↔ c ∈ unlocked userId s ∨
    ∃ e, e ∈ events ∧ default "undefined" (ge_userId e) = userId ∧ c ∈ resolveCodes e) ∧
  announcements userId c s' = (announcements userId c s +
    if bool_decide (c ∈ unlocked userId s' ∧ c ∉ unlocked userId s) then 1 else 0)%nat.
Proof.
  cbn zeta. assert (balanced s (foldl (λ s e, (handleGameplayEvent e s).2) s events) ∧
    (c ∈ unlocked userId (foldl (λ s e, (handleGameplayEvent e s).2) s events) ↔ c ∈ unlocked userId s ∨
      ∃ e, e ∈ events ∧ default "undefined" (ge_userId e) = userId ∧ c ∈ resolveCodes e)) as [Hb Hu].
  { revert s. induction events as [|e events IH]; intros s; cbn [foldl].
    { split; [done|]. split; [auto|]. intros [|(e & ?%elem_of_nil & _)]; done. }
    destruct (awards_spec (default "undefined" (ge_userId e)) (resolveCodes e) ([], s) (resolveCodes_nodup e)) as (Hb1 & Hu1 & _).
    destruct (IH (handleGameplayEvent e s).2) as [Hb2 Hu2]. split; [etrans; [exact Hb1|exact Hb2]|].
    rewrite Hu2. unfold handleGameplayEvent at 1. rewrite Hu1. setoid_rewrite elem_of_cons. naive_solver. }
  split; [exact Hu|]. set (s' := foldl _ s events) in *. destruct (Hb userId c) as [Heq Hmono].
  destruct (decide (c ∈ unlocked userId s)) as [H|H].
  - rewrite (bool_decide_true _ H), (bool_decide_true _ (Hmono H)) in Heq. rewrite bool_decide_false by naive_solver. lia.
  - rewrite (bool_decide_false _ H) in Heq. destruct (decide (c ∈ unlocked userId s')) as [H'|H'].
    + rewrite (bool_decide_true _ H') in Heq. rewrite bool_decide_true by done. lia.
    + rewrite (bool_decide_false _ H') in Heq. rewrite bool_decide_false by naive_solver. lia.
Qed.

(** The events the game does emit award nothing: the end of a round carries no property [correctAnswer],
    [streak] or [answerTimeMs], and a settled wager none of [userId] and [won], so a handler that reads
    them finds them undefined, whoever answered right or won, and changes nothing. *)
Theorem realtime_events_award_nothing round outcome settled (s : St) :
  onRoundEnded (read_RoundEndedEvent (RoundEndedPayload round outcome)) s = s ∧
  onWagerSettled (read_WagerSettledEvent (WagerSettledPayload_object settled)) s = s.
Proof. split; reflexivity. Qed.
End awards.

(** ** A repository in memory *)
Module AchievementsDemo.
#[local] Instance memory : AchievementsRepository (list (string * AchievementCode)) := {|
  upsertDefinition _ r := r;
  findUnlockedCodes userId r := (List.filter (λ e, bool_decide (e.1 = userId)) r).*2;
  insertUnlock userId c r := if bool_decide ((userId, c) ∈ r) then (false, r) else (true, (userId, c) :: r);
|}.

Lemma memory_codes userId c r : c ∈ findUnlockedCodes userId r ↔ (userId, c) ∈ r.
Proof.
  cbn. rewrite list_elem_of_fmap. split.
  - intros ([u c'] & -> & [Hin Hu%bool_decide_eq_true]%list_elem_of_In%filter_In). cbn in *. subst. by apply list_elem_of_In.
  - intros Hin. exists (userId, c). split; [done|]. apply list_elem_of_In, filter_In. split; [by apply list_elem_of_In|].
    by apply bool_decide_eq_true.
Qed.

#[local] Instance memory_laws : RepositoryLaws (list (string * AchievementCode)).
Proof.
  split.
  - intros u c r. rewrite (bool_decide_ext _ _ (not_iff_compat (memory_codes u c r))). unfold insertUnlock. cbn.
    case_bool_decide as H; cbn; symmetry; [by apply bool_decide_eq_false_2; auto|by apply bool_decide_eq_true_2].
  - intros u c r u' c'. rewrite !memory_codes. unfold insertUnlock. cbn. case_bool_decide; cbn; [naive_solver|].
    rewrite elem_of_cons. naive_solver.
Qed.

Definition fast : GameplayEvent := mkGameplay (Some "ada") (Some true) (Some 10) None (Some 3000).
Definition s0 : AchState (list (string * AchievementCode)) := mkAchState [] [] 0.

Example fast_codes : (handleGameplayEvent fast s0).1 = [perfect_guess; streak_5; streak_10; speed_demon].
Proof. reflexivity. Qed.

Lemma achievements_once_witness :
  announcements "ada" streak_5 (foldl (λ s e, (handleGameplayEvent e s).2) s0 [fast; fast; fast]) = 1%nat.
Proof.
  rewrite (proj2 (achievements_once [fast; fast; fast] s0 "ada" streak_5)). vm_compute. reflexivity.
Defined.
End AchievementsDemo.
