(* ===== verification/Redact.v ===== *)
(** * What is kept out of logs (src/src/common/utils/redact.util.ts)

    [redact] walks objects that may share parts and contain cycles, so arrays and objects live
    in a heap and are referred to by address; what it returns is new and has the shape of a
    tree.  Properties are listed in the order of [Object.entries]; getters are not modelled. *)

From S2P Require Import Prelude.
From stdpp Require Import gmap list.
From Stdlib Require Import Ascii.

#[local] Open Scope Z_scope.

Inductive prim := PBool (b : bool) | PNumber (n : Z) | PString (s : string).
#[export] Instance prim_eq_dec : EqDecision prim.
Proof. solve_decision. Defined.

Inductive value :=
  | VUndefined
  | VNull
  | VPrim (p : prim)
  | VDate (t : Z)
  | VRef (address : nat).

Inductive object :=
  | OArray (items : list value)
  | OObject (entries : list (string * value)).

Definition heap : Type := gmap nat object.

(** A value without sharing. *)
Inductive json :=
  | JUndefined
  | JNull
  | JPrim (p : prim)
  | JDate (t : Z)
  | JArray (items : list json)
  | JObject (entries : list (string * json)).

(** Some suffix of [s] starts with [w]. *)
Fixpoint includes (w s : string) : bool :=
  String.prefix w s || match s with String _ s' => includes w s' | EmptyString => false end.

Definition SENSITIVE_KEY_PATTERN (key : string) : bool :=
  existsb (λ w, includes w (lower key)) ["pass"; "token"; "secret"; "key"; "authorization"; "transaction"; "seed"].

#[global] Arguments SENSITIVE_KEY_PATTERN : simpl never.

Definition REDACTED : string := "***REDACTED***".

(** [map] over items that thread the set of objects seen. *)
Fixpoint map_seen {A B} (f : gset nat → A → option (B * gset nat)) (seen : gset nat) (l : list A) :
    option (list B * gset nat) :=
  match l with
  | [] => Some ([], seen)
  | x :: l' =>
      '(y, seen1) ← f seen x;
      '(ys, seen2) ← map_seen f seen1 l';
      Some (y :: ys, seen2)
  end.

(** One property of the result. *)
Definition redact_entry (f : gset nat → value → option (json * gset nat)) (seen : gset nat) (e : string * value) :
    option ((string * json) * gset nat) :=
  if SENSITIVE_KEY_PATTERN e.1 then Some ((e.1, JPrim (PString REDACTED)), seen)
  else '(y, seen') ← f seen e.2; Some ((e.1, y), seen').

(** [None] when the fuel runs out. *)
Fixpoint redact (fuel : nat) (h : heap) (seen : gset nat) (v : value) {struct fuel} : option (json * gset nat) :=
  match v with
  | VUndefined => Some (JUndefined, seen)
  | VNull => Some (JNull, seen)
  | VPrim p => Some (JPrim p, seen)
  | VDate t => Some (JDate t, seen)
  | VRef a =>
      if bool_decide (a ∈ seen) then Some (JPrim (PString "[Circular]"), seen)
      else match fuel with
        | O => None
        | S fuel' =>
            let seen := {[a]} ∪ seen in
            match h !! a with
            | Some (OArray items) =>
                '(items, seen) ← map_seen (redact fuel' h) seen items; Some (JArray items, seen)
            | Some (OObject entries) =>
                '(entries, seen) ← map_seen (redact_entry (redact fuel' h)) seen entries; Some (JObject entries, seen)
            | None => Some (JObject [], seen)
            end
        end
  end.

(** The call of a logger: as many levels as there are objects are enough. *)
Definition redact_value (h : heap) (v : value) : option json := fst <$> redact (S (size h)) h ∅ v.

(** ** What is looked for in a result *)

(** Every property with a sensitive name, at any depth, is replaced. *)
Fixpoint clean (j : json) : bool :=
  match j with
  | JArray items => forallb clean items
  | JObject entries =>
      forallb (λ e, if SENSITIVE_KEY_PATTERN e.1
        then match e.2 with JPrim (PString s) => bool_decide (s = REDACTED) | _ => false end
        else clean e.2) entries
  | _ => true
  end.

(** What holds of every item and grows with every item. *)
Lemma map_seen_spec {A B} (f : gset nat → A → option (B * gset nat)) (P : B → bool) l seen ys seen' :
  (∀ seen x y seen', f seen x = Some (y, seen') → P y = true ∧ seen ⊆ seen') →
  map_seen f seen l = Some (ys, seen') → forallb P ys = true ∧ seen ⊆ seen' ∧ length ys = length l.
Proof.
  intros Hf. revert seen ys. induction l as [|x l IH]; intros seen ys; cbn.
  - by intros [= <- <-].
  - destruct (f seen x) as [[y seen1]|] eqn:E; [|done]. cbn. destruct (map_seen f seen1 l) as [[ys' seen2]|] eqn:E'; [|done].
    intros [= <- <-]. destruct (Hf _ _ _ _ E) as [Hy H1]. destruct (IH _ _ E') as (Hys & H2 & Hlen). cbn. rewrite Hy, Hys, Hlen.
    split; [done|]. split; [set_solver|done].
Qed.

Lemma redact_spec fuel h seen v j seen' : redact fuel h seen v = Some (j, seen') → clean j = true ∧ seen ⊆ seen'.
Proof.
  revert seen v j seen'. induction fuel as [|fuel IH]; intros seen v j seen'; destruct v as [| |p|t|a]; cbn;
    try (by intros [= <- <-]); case_bool_decide; try (by intros [= <- <-]); try done.
  destruct (h !! a) as [[items|entries]|]; cbn.
  - destruct (map_seen _ _ _) as [[items' s]|] eqn:E; [|done]. intros [= <- <-].
    destruct (map_seen_spec _ clean _ _ _ _ IH E) as (Hc & Hs & _). split; [done|set_solver].
  - destruct (map_seen _ _ _) as [[entries' s]|] eqn:E; [|done]. intros [= <- <-].
    assert (∀ seen x y seen', redact_entry (redact fuel h) seen x = Some (y, seen') → clean (JObject [y]) = true ∧ seen ⊆ seen') as Hf.
    { clear -IH. intros seen [k x] [k' y] seen'. unfold redact_entry. cbn.
      destruct (SENSITIVE_KEY_PATTERN k) eqn:Ek; [intros ?; simplify_eq; by rewrite Ek|].
      destruct (redact fuel h seen x) as [[y' s']|] eqn:E; [|done]. cbn. intros ?; simplify_eq.
      rewrite Ek, andb_true_r. by eapply IH. }
    destruct (map_seen_spec _ (λ e, clean (JObject [e])) _ _ _ _ Hf E) as (Hc & Hs & _). split; [|set_solver].
    clear -Hc. cbn in *. induction entries' as [|e l IHl]; [done|]. cbn in *. rewrite andb_true_r in Hc.
    apply andb_true_iff in Hc as [-> Hc]. by apply IHl.
  - intros [= <- <-]. split; [done|set_solver].
Qed.

Lemma map_seen_total {A B} (f : gset nat → A → option (B * gset nat)) s l :
  (∀ seen x, s ⊆ seen → ∃ y seen', f seen x = Some (y, seen') ∧ seen ⊆ seen') → is_Some (map_seen f s l).
Proof.
  intros Hf. assert (∀ seen, s ⊆ seen → is_Some (map_seen f seen l)) as H; [|by apply H].
  induction l as [|x l IH]; intros seen Hs; cbn; [eauto|].
  destruct (Hf seen x Hs) as (y & seen1 & -> & H1). cbn.
  destruct (IH seen1) as [[ys seen2] ->]; [set_solver|]. cbn. eauto.
Qed.

Lemma redact_total fuel h seen v : (size (dom h ∖ seen) < fuel)%nat → is_Some (redact fuel h seen v).
Proof.
  revert seen v. induction fuel as [|fuel IH]; intros seen v Hsize; [lia|].
  destruct v as [| |p|t|a]; cbn; eauto. case_bool_decide as Ha; [eauto|].
  destruct (h !! a) as [o|] eqn:Eo; [|eauto].
  assert (∀ seen' x, {[a]} ∪ seen ⊆ seen' → ∃ y seen'', redact fuel h seen' x = Some (y, seen'') ∧ seen' ⊆ seen'') as Hrec.
  { intros seen' x Hs. destruct (IH seen' x) as [[y seen''] E].
    - assert (dom h ∖ seen' ⊂ dom h ∖ seen) as Hsub; [|apply subset_size in Hsub; lia].
      assert (a ∈ dom h) by by apply elem_of_dom. split; [set_solver|]. set_solver.
    - exists y, seen''. split; [done|]. by eapply redact_spec. }
  destruct o as [items|entries]; cbn.
  - destruct (map_seen_total _ _ items Hrec) as [[? ?] ->]. cbn. eauto.
  - destruct (map_seen_total (redact_entry (redact fuel h)) ({[a]} ∪ seen) entries) as [[? ?] ->]; [|cbn; eauto].
    intros seen' [k x] Hs. unfold redact_entry. cbn. destruct (SENSITIVE_KEY_PATTERN k); [eauto|].
    destruct (Hrec seen' x Hs) as (y & seen'' & -> & H). cbn. eauto.
Qed.

(** ** Properties *)

(** C39. The walk ends on every value, cycles included, and in what it returns every property whose name
    looks like a secret's is replaced, at any depth. *)
Theorem redact_value_clean h v : ∃ j, redact_value h v = Some j ∧ clean j = true.
Proof.
  unfold redact_value. destruct (redact_total (S (size h)) h ∅ v) as [[j seen] E].
  - assert (size (dom h ∖ ∅) = size h) as ->; [|lia]. rewrite difference_empty_L. apply size_dom.
  - rewrite E. exists j. split; [done|]. by eapply redact_spec.
Qed.

(** Secrets are found below arrays and in objects met before. *)
Example secrets_at_depth :
  let h := {[0 := OObject [("user", VRef 1); ("Items", VRef 2)];
             1 := OObject [("newPassword", VPrim (PString "hunter2")); ("id", VPrim (PNumber 7)); ("self", VRef 1)];
             2 := OArray [VRef 3; VNull]; 3 := OObject [("apiKey", VRef 1)]]}%nat : heap in
  redact_value h (VRef 0) =
    Some (JObject [("user", JObject [("newPassword", JPrim (PString REDACTED)); ("id", JPrim (PNumber 7));
                      ("self", JPrim (PString "[Circular]"))]);
                   ("Items", JArray [JObject [("apiKey", JPrim (PString REDACTED))]; JNull])]).
Proof. vm_compute. reflexivity. Qed.

(** An object that is only used twice is taken for a cycle. *)
Example shared_is_not_circular :
  let h := {[0 := OObject [("home", VRef 1); ("work", VRef 1)]; 1 := OObject [("city", VPrim (PString "Lagos"))]]}%nat : heap in
  redact_value h (VRef 0) =
    Some (JObject [("home", JObject [("city", JPrim (PString "Lagos"))]); ("work", JPrim (PString "[Circular]"))]).
Proof. vm_compute. reflexivity. Qed.
