(* ===== verification/Auditing.v ===== *)
(** * The audit log (src/src/audit/)

    [AuditService], [AuditInterceptor] and the CSV export of [AuditController].  Rows of one
    instant are taken in the order of the table; the actor's name is looked up in [users]. *)

From S2P Require Import Prelude Decimal Redact.
From stdpp Require Import gmap list sorting.
From Stdlib Require Import Ascii.

#[local] Open Scope Z_scope.
#[local] Arguments String.append !_ _ /.

(** ** Rows (audit/entities/audit-log.entity.ts, audit.service.ts) *)

Record AuditLog := mkAuditLog {
  al_id : string;
  al_actorId : string;
  al_action : string;
  al_targetType : option string;
  al_targetId : option string;
  al_payload : option json;
  al_ip : option string;
  al_timestamp : Z;
}.

Record RecordAuditEntryInput := mkEntry {
  en_actorId : string;
  en_action : string;
  en_targetType : option string;
  en_targetId : option string;
  en_payload : option json;
  en_ip : option string;
}.

Record AuditLogFilters := mkFilters {
  f_actorId : option string;
  f_action : option string;
  f_targetType : option string;
  f_targetId : option string;
  f_from : option Z;
  f_to : option Z;
  f_limit : option nat;
  f_offset : option nat;
}.

(** An audit row plus the actor's username. *)
Record AuditLogView := mkView {
  av_log : AuditLog;
  av_actorUsername : option string;
}.

(** The table, whether it can be written, the names of users, the clock and the uuids drawn. *)
Record AuditDb := mkAuditDb {
  logs : list AuditLog;
  writable : bool;
  usernames : gmap string string;
  clock : Z;
  drawn : nat;
}.
#[export] Instance AuditDb_settable : Settable AuditDb := λ d,
  mkAuditDb (logs d) (writable d) (usernames d) (clock d) (drawn d).

Local Abbreviation M := (M AuditDb).

Definition record (uuid : nat → string) (entry : RecordAuditEntryInput) : M AuditLog :=
  ok ← gets writable;
  throw_if (negb ok) (PlainError "QueryFailedError" "audit_logs is not available");;
  now ← gets clock;
  n ← gets drawn;
  let row := mkAuditLog (uuid n) (en_actorId entry) (en_action entry) (en_targetType entry)
    (en_targetId entry) (en_payload entry) (en_ip entry) now in
  modify (λ d, d <| logs := logs d ++ [row] |> <| drawn := S n |>);;
  mret row.

(** [if (value) qb.andWhere('column = :value')] *)
Definition where_equal (value : option string) (column : option string) : bool :=
  match value with Some v => negb (nonempty v) || bool_decide (column = Some v) | None => true end.

Definition selected (filters : AuditLogFilters) (log : AuditLog) : bool :=
  where_equal (f_actorId filters) (Some (al_actorId log)) &&
  where_equal (f_action filters) (Some (al_action log)) &&
  where_equal (f_targetType filters) (al_targetType log) &&
  where_equal (f_targetId filters) (al_targetId log) &&
  match f_from filters with Some t => t <=? al_timestamp log | None => true end &&
  match f_to filters with Some t => al_timestamp log <=? t | None => true end.

(** [ORDER BY timestamp DESC] *)
Definition newest_first (a b : AuditLog) : Prop := al_timestamp b ≤ al_timestamp a.
#[export] Instance newest_first_dec a b : Decision (newest_first a b) := Z_le_dec _ _.
#[export] Instance newest_first_total : Total newest_first.
Proof. intros a b. unfold newest_first. lia. Qed.
#[export] Instance newest_first_trans : Transitive newest_first.
Proof. intros a b c. unfold newest_first. lia. Qed.

Definition withActor (names : gmap string string) (log : AuditLog) : AuditLogView :=
  mkView log (names !! al_actorId log).

Definition buildQuery (filters : AuditLogFilters) (d : AuditDb) : list AuditLogView :=
  withActor (usernames d) <$> merge_sort newest_first (List.filter (selected filters) (logs d)).

(** [.limit(limit).offset(offset)] *)
Definition page {A} (limit offset : nat) (rows : list A) : list A := take limit (drop offset rows).

Record PaginatedResponseDto (A : Type) := mkPaginated {
  data : list A;
  total : nat;
  limit : nat;
  offset : nat;
  hasNext : bool;
}.
Arguments mkPaginated {_} _ _ _ _ _.
Arguments data {_} _.
Arguments total {_} _.
Arguments hasNext {_} _.

Definition toPaginated {A} (data : list A) (total limit offset : nat) : PaginatedResponseDto A :=
  mkPaginated data total limit offset (bool_decide (offset + length data < total)%nat).

Definition find (filters : AuditLogFilters) (d : AuditDb) : PaginatedResponseDto AuditLogView :=
  let limit := default 50%nat (f_limit filters) in
  let offset := default 0%nat (f_offset filters) in
  toPaginated (page limit offset (buildQuery filters d)) (length (buildQuery filters d)) limit offset.

(** The batches of [iterate], each read from the database as it is by then: [db k] is its state
    at the [k]th query.  [None] when the fuel runs out. *)
Fixpoint iterate_from (fuel : nat) (filters : AuditLogFilters) (batchSize : nat) (db : nat → AuditDb) (k : nat) :
    option (list AuditLogView) :=
  match fuel with
  | O => None
  | S fuel' =>
      let entities := page batchSize (k * batchSize) (buildQuery filters (db k)) in
      if (length entities <? batchSize)%nat then Some entities
      else rest ← iterate_from fuel' filters batchSize db (S k); Some (entities ++ rest)
  end.

Definition iterate (fuel : nat) (filters : AuditLogFilters) (batchSize : nat) (db : nat → AuditDb) : option (list AuditLogView) :=
  iterate_from fuel filters batchSize db 0.

(** ** The interceptor (audit.interceptor.ts) *)

Definition SENSITIVE_FIELDS : list string := ["password"; "token"; "secret"; "transaction"; "authorization"].

Record AuditedOptions := mkOptions {
  op_action : string;
  op_targetType : option string;
  op_targetParam : option string;
}.

(** The parts of a call the audit row records. *)
Record AuditSource := mkSource {
  s_user : option string;
  s_params : list (string * string);
  s_query : json;
  s_body : json;
  s_ip : option string;
}.

Inductive execution_context :=
  | Http (request : AuditSource)
  | Ws (user address : option string) (message : json)
  | Rpc.

Definition auditSource (context : execution_context) : option AuditSource :=
  match context with
  | Http request => Some request
  | Ws user address message => Some (mkSource user [] (JObject []) message address)
  | Rpc => None
  end.

Definition lookup_entry {A} (key : string) (entries : list (string * A)) : option A :=
  snd <$> List.find (λ e, e.1 == key) entries.

(** A whole number as [String] prints it. *)
Definition extractIdFromResult (result : json) : option string :=
  match result with
  | JObject entries =>
      match lookup_entry "id" entries with
      | Some (JPrim (PString s)) => Some s
      | Some (JPrim (PNumber n)) => Some (show n)
      | _ => None
      end
  | _ => None
  end.

(** Spreading an array gives an object with its indices as keys. *)
Fixpoint indexed (i : Z) (items : list json) : list (string * json) :=
  match items with [] => [] | x :: l => (show i, x) :: indexed (i + 1) l end.

Definition sanitize_entry (e : string * json) : string * json :=
  if bool_decide (e.1 ∈ SENSITIVE_FIELDS) then (e.1, JPrim (PString REDACTED)) else e.

Definition sanitize (body : json) : json :=
  match body with
  | JObject entries => JObject (sanitize_entry <$> entries)
  | JArray items => JObject (sanitize_entry <$> indexed 0 items)
  | JDate _ => JObject []
  | _ => body
  end.

Definition entry_of (options : AuditedOptions) (request : AuditSource) (result : json) : RecordAuditEntryInput :=
  mkEntry (default "system" (s_user request)) (op_action options) (op_targetType options)
    (match lookup_entry (default "id" (op_targetParam options)) (s_params request) with
     | Some id => Some id
     | None => extractIdFromResult result
     end)
    (Some (JObject [("params", JObject (prod_map id (λ v, JPrim (PString v)) <$> s_params request));
      ("query", s_query request); ("body", sanitize (s_body request))]))
    (s_ip request).

(** [next.handle()] and what is tapped from it. *)
Definition intercept (uuid : nat → string) (options : option AuditedOptions) (context : execution_context) (handler : M json) : M json :=
  match options, auditSource context with
  | Some options, Some source =>
      result ← handler;
      try_catch (record uuid (entry_of options source result);; mret tt) (λ _, mret tt);;
      mret result
  | _, _ => handler
  end.

(** ** The export (audit.controller.ts) *)

Definition DQ : ascii := ascii_of_nat 34.
Definition CR : ascii := ascii_of_nat 13.
Definition LF : ascii := ascii_of_nat 10.
Definition TAB : ascii := ascii_of_nat 9.

Fixpoint has (p : ascii → bool) (s : string) : bool :=
  match s with EmptyString => false | String c s' => p c || has p s' end.

(** Every double quote, twice. *)
Fixpoint double_quotes (s : string) : string :=
  match s with
  | EmptyString => EmptyString
  | String c s' => if Ascii.eqb c DQ then String DQ (String DQ (double_quotes s')) else String c (double_quotes s')
  end.

Definition starts_formula (c : ascii) : bool :=
  Ascii.eqb c "=" || Ascii.eqb c "+" || Ascii.eqb c "-" || Ascii.eqb c "@" || Ascii.eqb c TAB || Ascii.eqb c CR.
Definition neutralised (text : string) : string :=
  match text with String c _ => if starts_formula c then String "'" text else text | EmptyString => text end.
Definition special (c : ascii) : bool :=
  Ascii.eqb c DQ || Ascii.eqb c "," || Ascii.eqb c LF || Ascii.eqb c CR.

Definition csvCell (value : option string) : string :=
  let text := neutralised (default "" value) in
  if has special text then String DQ (double_quotes text +:+ String DQ "") else text.

Fixpoint join_cells (cells : list string) : string :=
  match cells with
  | [] => ""
  | [c] => c
  | c :: cs => c +:+ String "," (join_cells cs)
  end.

Definition CSV_COLUMNS : list string :=
  ["id"; "timestamp"; "actorId"; "actorUsername"; "action"; "targetType"; "targetId"; "ip"; "payload"].

(** The cells of a row; dates and payloads are printed by the runtime. *)
Definition row_cells (toISOString : Z → string) (stringify : json → string) (row : AuditLogView) : list (option string) :=
  let log := av_log row in
  [Some (al_id log); Some (toISOString (al_timestamp log)); Some (al_actorId log); av_actorUsername row;
   Some (al_action log); al_targetType log; al_targetId log; al_ip log;
   Some (match al_payload log with Some p => stringify p | None => "" end)].

Definition csv_line (cells : list (option string)) : string := join_cells (csvCell <$> cells).

Definition export (toISOString : Z → string) (stringify : json → string) (rows : list AuditLogView) : list string :=
  (join_cells CSV_COLUMNS +:+ String LF "") ::
  ((λ row, csv_line (row_cells toISOString stringify row) +:+ String LF "") <$> rows).

(** A reader of one record: the fields of a line, quoted or not. *)
Fixpoint read_fields (quoted : bool) (field : string) (s : string) : list string :=
  match s with
  | EmptyString => [field]
  | String c s' =>
      if quoted then
        if Ascii.eqb c DQ then
          match s' with
          | String c' s'' => if Ascii.eqb c' DQ then read_fields true (field +:+ String DQ "") s'' else read_fields false field s'
          | EmptyString => [field]
          end
        else read_fields true (field +:+ String c "") s'
      else if Ascii.eqb c DQ then read_fields true field s'
      else if Ascii.eqb c "," then field :: read_fields false "" s'
      else read_fields false (field +:+ String c "") s'
  end.
Definition read_line (s : string) : list string := read_fields false "" s.

(** ** What a spreadsheet reads *)

(** A line goes on after a field. *)
Definition field_end (s : string) : Prop := s = "" ∨ ∃ s', s = String "," s'.

Lemma read_unquoted field c s : read_fields false field (String c s) =
  if Ascii.eqb c DQ then read_fields true field s
  else if Ascii.eqb c "," then field :: read_fields false "" s
  else read_fields false (field +:+ String c "") s.
Proof. reflexivity. Qed.

Lemma read_in_quotes field c s : read_fields true field (String c s) =
  if Ascii.eqb c DQ then
    match s with
    | String c' s' => if Ascii.eqb c' DQ then read_fields true (field +:+ String DQ "") s' else read_fields false field s
    | EmptyString => [field]
    end
  else read_fields true (field +:+ String c "") s.
Proof. by destruct s. Qed.

Lemma read_plain field t rest : has special t = false →
  read_fields false field (t +:+ rest) = read_fields false (field +:+ t) rest.
Proof.
  revert field. induction t as [|c t IH]; intros field; [by rewrite append_nil_r|]. cbn [has String.append].
  intros [Hc Ht]%orb_false_iff. unfold special in Hc. rewrite !orb_false_iff in Hc. destruct Hc as [[[H1 H2] _] _].
  rewrite read_unquoted, H1, H2, IH by done. by rewrite <-append_assoc.
Qed.

Lemma read_quoted field t rest : field_end rest →
  read_fields true field (double_quotes t +:+ String DQ rest) = read_fields false (field +:+ t) rest.
Proof.
  intros Hrest. revert field. induction t as [|c t IH]; intros field; cbn [double_quotes].
  - rewrite append_nil_r. cbn [String.append]. rewrite read_in_quotes, Ascii.eqb_refl.
    by destruct Hrest as [-> |(s' & ->)].
  - destruct (Ascii.eqb_spec c DQ) as [->|Hne]; cbn [String.append].
    + rewrite read_in_quotes, !Ascii.eqb_refl, IH. by rewrite <-append_assoc.
    + rewrite read_in_quotes, (proj2 (Ascii.eqb_neq _ _) Hne), IH. by rewrite <-append_assoc.
Qed.

Lemma read_cell value rest : field_end rest →
  read_fields false "" (csvCell value +:+ rest) = read_fields false (neutralised (default "" value)) rest.
Proof.
  intros Hrest. unfold csvCell. set (text := neutralised _). destruct (has special text) eqn:E.
  - cbn [String.append]. rewrite read_unquoted, Ascii.eqb_refl, <-append_assoc. cbn [String.append]. by rewrite read_quoted.
  - by rewrite read_plain.
Qed.

(** ** Batches *)

Lemma iterate_from_spec filters batchSize d k fuel : (0 < batchSize)%nat → fuel ≠ 0%nat →
  (length (buildQuery filters d) < (fuel + k) * batchSize)%nat →
  iterate_from fuel filters batchSize (λ _, d) k = Some (drop (k * batchSize) (buildQuery filters d)).
Proof.
  intros Hb. set (rows := buildQuery filters d). revert k. induction fuel as [|fuel IH]; intros k Hf Hlen; [done|].
  cbn [iterate_from]. fold rows. unfold page. rewrite length_take, length_drop.
  destruct (Nat.ltb_spec (batchSize `min` (length rows - k * batchSize)) batchSize) as [Hlt|Hge].
  - by rewrite take_ge by (rewrite length_drop; lia).
  - rewrite IH by lia. cbn. f_equal.
    replace (batchSize + k * batchSize)%nat with (k * batchSize + batchSize)%nat by lia.
    by rewrite <-drop_drop, take_drop.
Qed.

Lemma record_run uuid entry (d : AuditDb) : ∃ r d', record uuid entry d = (r, d') ∧
  logs d' = if writable d then logs d ++ [mkAuditLog (uuid (drawn d)) (en_actorId entry) (en_action entry)
    (en_targetType entry) (en_targetId entry) (en_payload entry) (en_ip entry) (clock d)] else logs d.
Proof.
  unfold record. rewrite bind_gets, bind_throw_if. destruct (writable d); cbn [negb]; eauto.
Qed.

Lemma sanitize_sensitive k v : k ∈ SENSITIVE_FIELDS → sanitize_entry (k, v) = (k, JPrim (PString REDACTED)).
Proof. intros H. unfold sanitize_entry. by rewrite bool_decide_true. Qed.
Lemma sanitize_other k v : k ∉ SENSITIVE_FIELDS → sanitize_entry (k, v) = (k, v).
Proof. intros H. unfold sanitize_entry. by rewrite bool_decide_false. Qed.

(** ** Properties *)

(** An export streams the whole selection, newest first: over a log nobody writes to meanwhile, the batches
    end and put together they are the one query, for every batch size. *)
Theorem iterate_complete filters batchSize d fuel : (0 < batchSize)%nat → (length (logs d) < fuel)%nat →
  iterate fuel filters batchSize (λ _, d) = Some (buildQuery filters d).
Proof.
  intros Hb Hf. unfold iterate.
  assert (length (buildQuery filters d) ≤ length (logs d))%nat as Hlen.
  { unfold buildQuery. rewrite length_fmap, merge_sort_Permutation. apply List.filter_length_le. }
  rewrite iterate_from_spec by nia. by rewrite drop_0.
Qed.

(** A spreadsheet reads back the cells of a line as they were, whatever quotes, commas and line ends
    they hold, except that no cell starts a formula: those get an apostrophe in front. *)
Theorem csv_line_read_back cells : cells ≠ [] →
  read_line (csv_line cells) = (λ c, neutralised (default "" c)) <$> cells ∧
  Forall (λ f, match f with String c _ => starts_formula c = false | EmptyString => True end) (read_line (csv_line cells)).
Proof.
  intros Hne. assert (read_line (csv_line cells) = (λ c, neutralised (default "" c)) <$> cells) as ->.
  { unfold read_line, csv_line. induction cells as [|c cells IH]; [done|]. destruct cells as [|c' cells].
    - cbn [fmap list_fmap join_cells]. rewrite <-(append_nil_r (csvCell c)), read_cell by by left. done.
    - cbn [fmap list_fmap join_cells] in *. rewrite read_cell by (right; eauto). rewrite read_unquoted. cbn [Ascii.eqb].
      change (Ascii.eqb "," DQ) with false. change (Ascii.eqb "," ",") with true. cbv iota. f_equal. by apply IH. }
  split; [done|]. apply Forall_fmap, Forall_true. intros c. cbn. unfold neutralised.
  destruct (default "" c) as [|a t]; [done|]. by destruct (starts_formula a) eqn:E.
Qed.

(** An audited call always answers what its handler answers, even when the log cannot be written, and leaves
    exactly one row when the handler succeeded and the log can be written, none otherwise; the row names
    the actor and the action. *)
Theorem intercept_outcome uuid options context handler (d : AuditDb) :
  (∀ d, logs (handler d).2 = logs d ∧ writable (handler d).2 = writable d) →
  let '(r, d') := intercept uuid options context handler d in
  r = (handler d).1 ∧
  match options, auditSource context, (handler d).1 with
  | Some options, Some source, Ok result =>
      if writable d
      then ∃ row, logs d' = logs d ++ [row] ∧ al_actorId row = default "system" (s_user source) ∧
        al_action row = op_action options ∧ al_ip row = s_ip source ∧
        al_payload row = en_payload (entry_of options source result)
      else logs d' = logs d
  | _, _, _ => logs d' = logs d
  end.
Proof.
  intros Hh. specialize (Hh d) as [Hl Hw]. unfold intercept.
  destruct options as [options|]; [|destruct (handler d) as [r d1]; by destruct r].
  destruct (auditSource context) as [source|]; [|destruct (handler d) as [r d1]; by destruct r].
  destruct (handler d) as [[result|e] d1] eqn:E; cbn in Hl, Hw; [|by rewrite (bind_run_err _ _ _ _ _ E)].
  rewrite (bind_run _ _ _ _ _ E), <-Hw. destruct (record_run uuid (entry_of options source result) d1) as (r & d2 & Er & Hr).
  rewrite (bind_run (try_catch _ _) _ d1 tt d2).
  - cbn. split; [done|]. destruct (writable d1); rewrite Hr, ?Hl; [|done]. eexists. split; [done|]. done.
  - unfold try_catch. destruct r as [row|e]; [by rewrite (bind_run _ _ _ _ _ Er)|by rewrite (bind_run_err _ _ _ _ _ Er)].
Qed.

(** What an audit row keeps of a body: the same fields in the same order, those with exactly a sensitive
    name replaced and all others untouched, whatever is inside them; doing it twice changes nothing. *)
Theorem sanitize_fields entries : ∃ entries', sanitize (JObject entries) = JObject entries' ∧
  (entries'.*1) = (entries.*1) ∧
  (∀ k v, (k, v) ∈ entries' ↔
    (k ∈ SENSITIVE_FIELDS ∧ k ∈ (entries.*1) ∧ v = JPrim (PString REDACTED)) ∨ (k ∉ SENSITIVE_FIELDS ∧ (k, v) ∈ entries)) ∧
  sanitize (JObject entries') = JObject entries'.
Proof.
  exists (sanitize_entry <$> entries). split; [done|]. split_and!.
  - rewrite <-list_fmap_compose. apply list_fmap_ext. intros _ [k v] _. cbn. unfold sanitize_entry. by case_bool_decide.
  - intros k v. rewrite list_elem_of_fmap. split.
    + intros ([k' v'] & He & Hin). unfold sanitize_entry in He. cbn in He. case_bool_decide; simplify_eq.
      * left. split; [done|]. split; [|done]. apply list_elem_of_fmap. by exists (k', v').
      * by right.
    + intros [(Hs & Hin & ->)|(Hs & Hin)].
      * apply list_elem_of_fmap in Hin as ([k' v'] & -> & Hin). exists (k', v'). by rewrite sanitize_sensitive.
      * exists (k, v). by rewrite sanitize_other.
  - cbn. f_equal. rewrite <-list_fmap_compose. apply list_fmap_ext. intros _ [k v] _. unfold compose.
    destruct (decide (k ∈ SENSITIVE_FIELDS)) as [H|H]; [by rewrite !sanitize_sensitive|by rewrite !sanitize_other].
Qed.

(** ** A log of three rows *)
Module AuditDemo.
Definition row (id actor : string) (time : Z) : AuditLog := mkAuditLog id actor "admin.user.delete" (Some "user") None None None time.
Definition d0 : AuditDb := mkAuditDb [row "1" "a" 10; row "2" "b" 20; row "3" "a" 30] true {["a" := "ada"]} 40 0.
Definition all : AuditLogFilters := mkFilters None None None None None None None None.
Definition uuid (n : nat) : string := show (100 + Z.of_nat n).

Definition ids (rows : list AuditLogView) : list string := (λ v, al_id (av_log v)) <$> rows.

Lemma iterate_complete_witness : ids <$> iterate 4 all 2 (λ _, d0) = Some ["3"; "2"; "1"].
Proof. rewrite (iterate_complete all 2 d0 4); [vm_compute; reflexivity|lia|cbn; lia]. Defined.

(** A row written between two batches moves the others: one of them comes twice. *)
Example written_meanwhile :
  let d1 := d0 <| logs := logs d0 ++ [row "4" "b" 40] |> in
  ids <$> iterate 4 all 2 (λ k, if bool_decide (k = 0%nat) then d0 else d1)
    = Some ["3"; "2"; "2"; "1"].
Proof. vm_compute. reflexivity. Qed.

Definition quote : string := String DQ "".
Lemma csv_line_read_back_witness : let cells := [Some "=1+1"; None; Some ("a" +:+ quote +:+ ",b"); Some "plain"] in
  read_line (csv_line cells) = ["'=1+1"; ""; "a" +:+ quote +:+ ",b"; "plain"].
Proof.
  cbn zeta. rewrite (proj1 (csv_line_read_back [Some "=1+1"; None; Some ("a" +:+ quote +:+ ",b"); Some "plain"] ltac:(discriminate))).
  vm_compute. reflexivity.
Defined.

Definition body : json := JObject [("password", JPrim (PString "x")); ("newPassword", JPrim (PString "y"));
  ("auth", JObject [("token", JPrim (PString "z"))])].
Definition request : AuditSource := mkSource (Some "a") [("id", "7")] JUndefined body (Some "::1").
Definition ok : M json := mret (JObject [("id", JPrim (PNumber 7))]).

(** The name must match exactly and at the top: the pattern of the logger would have caught both. *)
Example kept_secrets : sanitize body = JObject [("password", JPrim (PString REDACTED)); ("newPassword", JPrim (PString "y"));
  ("auth", JObject [("token", JPrim (PString "z"))])] ∧ clean (sanitize body) = false.
Proof. split; vm_compute; reflexivity. Qed.

Lemma intercept_outcome_witness :
  let '(r, d') := intercept uuid (Some (mkOptions "admin.user.delete" (Some "user") None)) (Http request) ok d0 in
  r = (ok d0).1 ∧ ∃ row, logs d' = logs d0 ++ [row] ∧ al_actorId row = "a".
Proof.
  pose proof (intercept_outcome uuid (Some (mkOptions "admin.user.delete" (Some "user") None)) (Http request) ok d0
    (λ d, conj eq_refl eq_refl)) as H.
  destruct (intercept _ _ _ _ d0) as [r d']. destruct H as [Hr (w & Hl & Ha & _)]. split; [exact Hr|].
  exists w. split; [exact Hl|exact Ha].
Defined.
End AuditDemo.
