(* ===== verification/Gateway.v ===== *)
(** * Delivery of realtime events (src/src/realtime/realtime.gateway.ts)

    [RealtimeGateway]: who may connect and subscribe, and which sockets an event reaches.
    Rows of sessions and rooms are only added here; sockets keep the rooms of those deleted.
    Verifying tokens is the JWT library's, and the two limiters are not in the repository:
    both are parameters.  Sockets are rows by their id, with the rooms they have joined. *)

From S2P Require Import Prelude Entities Rounds EntityEvents.
From stdpp Require Import gmap.
From Stdlib Require Import Ascii.

#[local] Open Scope Z_scope.
#[local] Arguments String.append !_ _ /.

(** ** Rooms (realtime.events.ts) *)

Definition user_room (userId : string) : string := "user:" +:+ userId.
Definition session_room (sessionId : string) : string := "session:" +:+ sessionId.
Definition room_room (roomId : string) : string := "room:" +:+ roomId.

(** What arrives on the bus. *)
Inductive bus_event :=
  | RowEvent (e : realtime_event)
  | RoundEvent (e : round_event).

Inductive message :=
  | ErrorMessage (text : string)
  | ConnectedMessage (userId : string)
  | Delivered (e : bus_event).

Record SubscribeRequest := mkRequest {
  rq_type : string;
  rq_id : string;
}.

Inductive SubscribeAck := Joined (room : string) | Refused (error : string).

Record Handshake := mkHandshake {
  hs_authToken : option string;
  hs_authorization : option string;
}.

Record Socket := mkSocket {
  so_userId : option string;
  so_rooms : gset string;
  so_received : list message;
}.
#[export] Instance Socket_settable : Settable Socket := λ s,
  mkSocket (so_userId s) (so_rooms s) (so_received s).

(** The sockets, the limiters, the players of sessions and the members of rooms. *)
Record GwState (L : Type) := mkGw {
  sockets : gmap string Socket;
  limiter : L;
  sessionPlayers : gmap string (option string * option string);
  roomMembers : gset (string * string);
}.
Arguments mkGw {_} _ _ _ _.
Arguments sockets {_} _.
Arguments limiter {_} _.
Arguments sessionPlayers {_} _.
Arguments roomMembers {_} _.
#[export] Instance GwState_settable {L} : Settable (GwState L) := λ g,
  mkGw (sockets g) (limiter g) (sessionPlayers g) (roomMembers g).

Class GatewayDeps (L : Type) := {
  verifyToken : string → option string;
  isUUID : string → bool;
  consume : string → string → L → bool * L;
  clear : string → L → L;
  acquire : string → string → L → bool * L;
  release : option string → string → L → L;
}.

(** [/^Bearer\s+/i]: what follows it. *)
Definition bearer (s : string) : option string :=
  if lower (String.substring 0 6 s) == "bearer" then
    let rest := String.substring 6 (String.length s - 6) s in
    match rest with String c _ => if is_space c then Some (trim_start rest) else None | EmptyString => None end
  else None.

Definition extractToken (h : Handshake) : option string :=
  match present (hs_authToken h) with
  | Some authToken => Some (default authToken (bearer authToken))
  | None => hs_authorization h ≫= bearer
  end.

Section RealtimeGateway.
Context {L : Type} `{!GatewayDeps L}.
Local Abbreviation St := (GwState L).

Definition send (clientId : string) (m : message) (g : St) : St :=
  g <| sockets := alter (λ s, s <| so_received := so_received s ++ [m] |>) clientId (sockets g) |>.

Definition join (clientId room : string) (g : St) : St :=
  g <| sockets := alter (λ s, s <| so_rooms := {[room]} ∪ so_rooms s |>) clientId (sockets g) |>.
Definition leave (clientId room : string) (g : St) : St :=
  g <| sockets := alter (λ s, s <| so_rooms := so_rooms s ∖ {[room]} |>) clientId (sockets g) |>.

(** The socket closes, after the handler has run. *)
Definition handleDisconnect (clientId : string) (g : St) : St :=
  g <| limiter := release (sockets g !! clientId ≫= so_userId) clientId (clear clientId (limiter g)) |>
    <| sockets := delete clientId (sockets g) |>.

Definition reject (clientId text : string) (g : St) : St :=
  handleDisconnect clientId (send clientId (ErrorMessage text) g).

Definition handleConnection (clientId : string) (h : Handshake) (g : St) : St :=
  let opened userId := g <| sockets := <[clientId := mkSocket userId ∅ []]> (sockets g) |> in
  match present (extractToken h) ≫= verifyToken with
  | None => reject clientId "Unauthorized" (opened None)
  | Some userId =>
      let '(ok, l) := acquire userId clientId (limiter g) in
      let g := opened (Some userId) <| limiter := l |> in
      if ok : bool
      then send clientId (ConnectedMessage userId) (join clientId (user_room userId) g)
      else reject clientId "Too many concurrent connections" g
  end.

Definition isSessionPlayer (g : St) (userId sessionId : string) : bool :=
  match sessionPlayers g !! sessionId with
  | Some (player, playerTwo) => bool_decide (player = Some userId) || bool_decide (playerTwo = Some userId)
  | None => false
  end.

Definition isRoomMember (g : St) (userId roomId : string) : bool := bool_decide ((roomId, userId) ∈ roomMembers g).

Definition valid_request (body : SubscribeRequest) : bool :=
  bool_decide (rq_type body ∈ ["session"; "room"]) && isUUID (rq_id body).
Definition room_of (body : SubscribeRequest) : string :=
  if rq_type body == "session" then session_room (rq_id body) else room_room (rq_id body).

Definition handleSubscribe (clientId : string) (body : SubscribeRequest) (g : St) : SubscribeAck * St :=
  let '(ok, l) := consume clientId "subscribe" (limiter g) in
  let g := g <| limiter := l |> in
  if negb ok then (Refused "Rate limited", g)
  else match present (sockets g !! clientId ≫= so_userId) with
  | None => (Refused "Invalid subscription", g)
  | Some userId =>
      if negb (valid_request body) then (Refused "Invalid subscription", g)
      else
        let allowed := if rq_type body == "session" then isSessionPlayer g userId (rq_id body)
          else isRoomMember g userId (rq_id body) in
        if negb allowed then (Refused "Not found", g)
        else (Joined (room_of body), join clientId (room_of body) g)
  end.

Definition handleUnsubscribe (clientId : string) (body : SubscribeRequest) (g : St) : SubscribeAck * St :=
  let '(ok, l) := consume clientId "unsubscribe" (limiter g) in
  let g := g <| limiter := l |> in
  if negb ok then (Refused "Rate limited", g)
  else if negb (valid_request body) then (Refused "Invalid subscription", g)
  else (Joined (room_of body), leave clientId (room_of body) g).

(** ** Who is told *)

Definition session_rooms (sessionId : option string) : list string :=
  match present sessionId with Some s => [session_room s] | None => [] end.

(** The payload of a wager has no property [userId]: it prints as "undefined". *)
Definition wagerRooms (sessionId : string) : list string :=
  user_room "undefined" :: session_rooms (Some sessionId).

Definition roundRooms (userId : string) (sessionId : option string) : list string :=
  user_room userId :: session_rooms sessionId.

Definition rooms_of (e : bus_event) : list string :=
  match e with
  | RowEvent (PLAYER_JOINED (JoinedRoom roomId userId)) =>
      (if nonempty roomId then [room_room roomId] else []) ++ [user_room userId]
  | RowEvent (PLAYER_JOINED (JoinedSession sessionId userId)) => session_rooms (Some sessionId) ++ [user_room userId]
  | RowEvent (SESSION_COMPLETED p) =>
      session_room (sc_sessionId p) :: (user_room <$> omap present [sc_playerId p; sc_playerTwoId p])
  | RowEvent (WAGER_STAKED p) => wagerRooms (ws_sessionId p)
  | RowEvent (WAGER_SETTLED p) => wagerRooms (wt_sessionId p)
  | RoundEvent (RoundStarted _ sessionId userId _ _ _) => roundRooms userId sessionId
  | RoundEvent (RoundEnded round _) => roundRooms (r_userId round) (r_sessionId round)
  end.

(** [server.to(rooms).emit(...)]: once per socket that is in one of the rooms. *)
Definition hears (e : bus_event) (s : Socket) : bool := existsb (λ room, bool_decide (room ∈ so_rooms s)) (rooms_of e).
Definition deliver (e : bus_event) (g : St) : St :=
  g <| sockets := (λ s, if hears e s then s <| so_received := so_received s ++ [Delivered e] |> else s) <$> sockets g |>.

(** ** What happens to a gateway *)

Inductive gw_step :=
  | Connect (clientId : string) (h : Handshake)
  | Disconnect (clientId : string)
  | Subscribe (clientId : string) (body : SubscribeRequest)
  | Unsubscribe (clientId : string) (body : SubscribeRequest)
  | Emit (e : bus_event)
  | SessionCreated (sessionId playerId : string) (playerTwoId : option string)
  | RoomJoined (roomId userId : string).

Definition gw_run (g : St) (s : gw_step) : St :=
  match s with
  | Connect clientId h => if sockets g !! clientId is Some _ then g else handleConnection clientId h g
  | Disconnect clientId => handleDisconnect clientId g
  | Subscribe clientId body => (handleSubscribe clientId body g).2
  | Unsubscribe clientId body => (handleUnsubscribe clientId body g).2
  | Emit e => deliver e g
  | SessionCreated sessionId playerId playerTwoId =>
      if sessionPlayers g !! sessionId is Some _ then g
      else g <| sessionPlayers := <[sessionId := (Some playerId, playerTwoId)]> (sessionPlayers g) |>
  | RoomJoined roomId userId => g <| roomMembers := {[(roomId, userId)]} ∪ roomMembers g |>
  end.

(** ** Membership *)

(** The user [u] belongs in the room called [name]. *)
Definition belongs (g : St) (u name : string) : Prop :=
  name = user_room u ∨
  (∃ s, name = session_room s ∧ isSessionPlayer g u s = true) ∨
  (∃ r, name = room_room r ∧ isRoomMember g u r = true).

Definition rooms_kept (g : St) : Prop := ∀ c s room, sockets g !! c = Some s → room ∈ so_rooms s →
  ∃ u, so_userId s = Some u ∧ belongs g u room.

(** Users and rooms of sockets are as before, and those who belonged still do. *)
Lemma rooms_kept_mono g g' : (∀ u room, belongs g u room → belongs g' u room) →
  (∀ c s', sockets g' !! c = Some s' → ∃ s, sockets g !! c = Some s ∧ so_userId s' = so_userId s ∧ so_rooms s' ⊆ so_rooms s) →
  rooms_kept g → rooms_kept g'.
Proof.
  intros Hb Hs Hk c s' room Hc Hr. destruct (Hs c s' Hc) as (s & Hcs & Hu & Hsub).
  destruct (Hk c s room Hcs (Hsub _ Hr)) as (u & Hus & Hbel). exists u. split; [congruence|auto].
Qed.

Lemma altered (f : Socket → Socket) i (m : gmap string Socket) c s' : alter f i m !! c = Some s' →
  ∃ s, m !! c = Some s ∧ s' = if decide (i = c) then f s else s.
Proof.
  destruct (decide (i = c)) as [<-|Hne].
  - rewrite lookup_alter_eq. intros (s & -> & Hs)%fmap_Some. eauto.
  - rewrite lookup_alter_ne by done. eauto.
Qed.

Lemma send_kept c m g : rooms_kept g → rooms_kept (send c m g).
Proof.
  apply rooms_kept_mono; [done|]. intros c' s' (s & Hs & ->)%altered. exists s. split; [done|]. by destruct (decide _).
Qed.

Lemma leave_kept c room g : rooms_kept g → rooms_kept (leave c room g).
Proof.
  apply rooms_kept_mono; [done|]. intros c' s' (s & Hs & ->)%altered. exists s. split; [done|].
  destruct (decide _); cbn; split; try done. set_solver.
Qed.

Lemma join_kept c room u g : rooms_kept g → (sockets g !! c ≫= so_userId) = Some u → belongs g u room → rooms_kept (join c room g).
Proof.
  intros Hk Hu Hb c' s' room' (s & Hs & ->)%altered Hr. destruct (decide (c = c')) as [<-|]; [|by eapply Hk].
  rewrite Hs in Hu. cbn in *. apply elem_of_union in Hr as [->%elem_of_singleton|Hr]; [by exists u|by eapply Hk].
Qed.

Lemma handleDisconnect_kept c g : rooms_kept g → rooms_kept (handleDisconnect c g).
Proof.
  apply rooms_kept_mono; [done|]. intros c' s' H. cbn in H. apply lookup_delete_Some in H as [_ H]. eauto.
Qed.

Lemma opened_kept c userId g : rooms_kept g → rooms_kept (g <| sockets := <[c := mkSocket userId ∅ []]> (sockets g) |>).
Proof.
  intros Hk c' s room H Hr. cbn in H. apply lookup_insert_Some in H as [[<- <-]|[_ H]]; [by apply elem_of_empty in Hr|]. by eapply Hk.
Qed.

Lemma handleConnection_kept c h g : rooms_kept g → rooms_kept (handleConnection c h g).
Proof.
  intros Hk. unfold handleConnection, reject. destruct (present (extractToken h) ≫= verifyToken) as [u|].
  - pose proof (opened_kept c (Some u) g Hk) as Ho. destruct (acquire u c (limiter g)) as [[] l].
    + apply send_kept. apply (join_kept _ _ u); [exact Ho| |by left]. cbn. by rewrite lookup_insert_eq.
    + apply handleDisconnect_kept, send_kept. exact Ho.
  - apply handleDisconnect_kept, send_kept. by apply opened_kept.
Qed.

Lemma handleSubscribe_kept c body g : rooms_kept g → rooms_kept (handleSubscribe c body g).2.
Proof.
  intros Hk. unfold handleSubscribe. destruct (consume _ _ _) as [[] l]; cbn [negb]; [|exact Hk].
  set (g1 := g <| limiter := l |>). assert (rooms_kept g1) as Hk1 by exact Hk.
  destruct (present (sockets g1 !! c ≫= so_userId)) as [u|] eqn:Eu; [|exact Hk].
  assert ((sockets g1 !! c ≫= so_userId) = Some u) as Hu.
  { destruct (sockets g1 !! c ≫= so_userId) as [v|]; [|done]. cbn in Eu. by destruct (nonempty v). }
  destruct (valid_request body) eqn:Ev; cbn [negb]; [|exact Hk].
  destruct (if rq_type body == "session" then _ else _) eqn:Ea; cbn [negb]; [|exact Hk]. cbn [snd].
  apply (join_kept _ _ u); [done..|]. unfold room_of. case_bool_decide; [right; left|right; right]; eauto.
Qed.

Lemma gw_run_kept g s : rooms_kept g → rooms_kept (gw_run g s).
Proof.
  intros Hk. destruct s as [c h|c|c body|c body|e|sid p p2|r u]; cbn [gw_run].
  - destruct (sockets g !! c); [done|]. by apply handleConnection_kept.
  - by apply handleDisconnect_kept.
  - by apply handleSubscribe_kept.
  - unfold handleUnsubscribe. destruct (consume _ _ _) as [[] l]; cbn [negb]; [|exact Hk].
    destruct (valid_request body); cbn [negb snd]; [|exact Hk]. apply leave_kept. exact Hk.
  - revert Hk. apply rooms_kept_mono; [done|]. intros c s'. cbn. rewrite lookup_fmap. intros (s & Hs & ->)%fmap_Some.
    exists s. split; [done|]. by destruct (hears e s).
  - destruct (sessionPlayers g !! sid) eqn:E; [done|]. revert Hk. apply rooms_kept_mono; [|eauto].
    intros u room [H|[(s & -> & H)|H]]; [by left|right; left; exists s|by right; right]. split; [done|].
    unfold isSessionPlayer in *. cbn. destruct (decide (s = sid)) as [->|]; [by rewrite E in H|]. by rewrite lookup_insert_ne.
  - revert Hk. apply rooms_kept_mono; [|eauto].
    intros v room [H|[H|(s & -> & H)]]; [by left|by right; left|right; right; exists s]. split; [done|].
    unfold isRoomMember in *. apply bool_decide_eq_true in H. apply bool_decide_eq_true. cbn. set_solver.
Qed.

Lemma run_kept steps g : rooms_kept g → rooms_kept (foldl gw_run g steps).
Proof. revert g. induction steps as [|s steps IH]; intros g Hk; [done|]. by apply IH, gw_run_kept. Qed.
End RealtimeGateway.

(** ** Properties *)

Section gateway_properties.
Context {L : Type} `{!GatewayDeps L}.
Local Abbreviation St := (GwState L).

(** Those an event is about: the player it names, and the players of its session or the members of its room. *)
Definition concerns (g : St) (e : bus_event) (u : string) : Prop :=
  match e with
  | RowEvent (PLAYER_JOINED (JoinedRoom roomId userId)) => u = userId ∨ isRoomMember g u roomId = true
  | RowEvent (PLAYER_JOINED (JoinedSession sessionId userId)) => u = userId ∨ isSessionPlayer g u sessionId = true
  | RowEvent (SESSION_COMPLETED p) =>
      sc_playerId p = Some u ∨ sc_playerTwoId p = Some u ∨ isSessionPlayer g u (sc_sessionId p) = true
  | RowEvent (WAGER_STAKED p) => u = "undefined" ∨ isSessionPlayer g u (ws_sessionId p) = true
  | RowEvent (WAGER_SETTLED p) => u = "undefined" ∨ isSessionPlayer g u (wt_sessionId p) = true
  | RoundEvent (RoundStarted _ sessionId userId _ _ _) => u = userId ∨ ∃ s, sessionId = Some s ∧ isSessionPlayer g u s = true
  | RoundEvent (RoundEnded round _) => u = r_userId round ∨ ∃ s, r_sessionId round = Some s ∧ isSessionPlayer g u s = true
  end.

Lemma belongs_user (g : St) u v : belongs g u (user_room v) → u = v.
Proof. intros [[= ->]|[(s & [=] & _)|(r & [=] & _)]]; done. Qed.
Lemma belongs_session (g : St) u s : belongs g u (session_room s) → isSessionPlayer g u s = true.
Proof. intros [[=]|[(s' & [= ->] & H)|(r & [=] & _)]]; done. Qed.
Lemma belongs_room (g : St) u r : belongs g u (room_room r) → isRoomMember g u r = true.
Proof. intros [[=]|[(s' & [=] & _)|(r' & [= ->] & H)]]; done. Qed.

Lemma belongs_session_rooms (g : St) u o room : room ∈ session_rooms o → belongs g u room →
  ∃ s, o = Some s ∧ isSessionPlayer g u s = true.
Proof.
  unfold session_rooms. destruct (present o) as [s|] eqn:E; [|by intros ?%elem_of_nil].
  intros ->%list_elem_of_singleton Hb. exists s. split; [by apply present_Some|by apply belongs_session].
Qed.

(** C34. Whatever connects, subscribes, joins and is announced, only those an event concerns hear it: every socket it
    reaches is authenticated as the player the event names, as a player of its session or as a member
    of its room; what they hear is the event, once. *)
Theorem heard_by_concerned steps (e : bus_event) (l : L) c s :
  let g := foldl gw_run (mkGw ∅ l ∅ ∅) steps in
  sockets (deliver e g) !! c = Some s →
  ∃ s0, sockets g !! c = Some s0 ∧
    if hears e s0 then so_received s = so_received s0 ++ [Delivered e] ∧ ∃ u, so_userId s0 = Some u ∧ concerns g e u
    else s = s0.
Proof.
  cbn zeta. set (g := foldl _ _ _). assert (rooms_kept g) as Hk.
  { apply run_kept. intros c' s' room H. cbn in H. by rewrite lookup_empty in H. }
  unfold deliver. cbn. rewrite lookup_fmap. intros (s0 & Hs0 & ->)%fmap_Some. exists s0. split; [done|].
  destruct (hears e s0) eqn:Eh; [|done]. split; [done|].
  apply existsb_exists in Eh as (room & Hin%list_elem_of_In & Hroom%bool_decide_eq_true).
  destruct (Hk c s0 room Hs0 Hroom) as (u & Hu & Hb). exists u. split; [done|].
  destruct e as [[[sid v|rid v]|p|p|p]|[id sid v ? ? ?|round o]]; cbn [rooms_of concerns] in *.
  - apply elem_of_app in Hin as [Hin| ->%list_elem_of_singleton]; [right|left; by apply belongs_user in Hb].
    by destruct (belongs_session_rooms g u _ _ Hin Hb) as (s & [= ->] & ?).
  - apply elem_of_app in Hin as [Hin| ->%list_elem_of_singleton]; [right|left; by apply belongs_user in Hb].
    destruct (nonempty rid); [|by apply elem_of_nil in Hin]. apply list_elem_of_singleton in Hin as ->. by apply belongs_room.
  - apply elem_of_cons in Hin as [->|Hin]; [right; right; by apply belongs_session|].
    apply list_elem_of_fmap in Hin as (v & -> & (o & Ho & Hv%present_Some)%list_elem_of_omap). apply belongs_user in Hb as ->.
    apply elem_of_cons in Ho as [->|Ho%list_elem_of_singleton]; [by left|right; left; congruence].
  - apply elem_of_cons in Hin as [->|Hin]; [left; by apply belongs_user in Hb|right].
    by destruct (belongs_session_rooms g u _ _ Hin Hb) as (s & [= ->] & ?).
  - apply elem_of_cons in Hin as [->|Hin]; [left; by apply belongs_user in Hb|right].
    by destruct (belongs_session_rooms g u _ _ Hin Hb) as (s & [= ->] & ?).
  - apply elem_of_cons in Hin as [->|Hin]; [left; by apply belongs_user in Hb|right]. by eapply belongs_session_rooms.
  - apply elem_of_cons in Hin as [->|Hin]; [left; by apply belongs_user in Hb|right]. by eapply belongs_session_rooms.
Qed.
End gateway_properties.

(** ** A run *)

Module GatewayDemo.

(** Tokens name their user; three sockets at most. *)
#[export] Instance demo_deps : GatewayDeps nat := {|
  verifyToken := λ t, if t == "forged" then None else Some t;
  isUUID := nonempty;
  consume := λ _ _ n, (true, n);
  clear := λ _ n, n;
  acquire := λ _ _ n, ((n <? 3)%nat, S n);
  release := λ _ _ n, pred n;
|}.

Definition hello (token : string) : Handshake := mkHandshake None (Some ("bearer  " +:+ token)).
Definition demo_steps : list gw_step :=
  [ SessionCreated "s1" "ann" (Some "bob"); RoomJoined "r1" "cat";
    Connect "c1" (hello "ann"); Connect "c2" (hello "bob"); Connect "c3" (hello "cat"); Connect "c4" (hello "forged");
    Subscribe "c1" (mkRequest "session" "s1"); Subscribe "c3" (mkRequest "session" "s1");
    Subscribe "c3" (mkRequest "room" "r1") ].
Definition demo : GwState nat := foldl gw_run (mkGw ∅ 0%nat ∅ ∅) demo_steps.
Definition heard (e : bus_event) (c : string) : option (list message) := so_received <$> (sockets (deliver e demo) !! c).

Definition settled : bus_event := RowEvent (WAGER_SETTLED (mkWagerSettled "w" "s1" "ann" "bob" "won" (Some "bob") "20")).

(** [bob] has won, and is connected, but hears of the settlement only through the session he has not subscribed to. *)
Example settled_heard_by : heard settled "c1" = Some [ConnectedMessage "ann"; Delivered settled] ∧
  heard settled "c2" = Some [ConnectedMessage "bob"] ∧ heard settled "c3" = Some [ConnectedMessage "cat"] ∧
  heard settled "c4" = None.
Proof. repeat split; vm_compute; reflexivity. Qed.

(** [cat] is told her session has no such player, and is in the room she belongs to. *)
Example subscriptions : elements ∘ so_rooms <$> sockets demo !! "c3" = Some [user_room "cat"; room_room "r1"] ∧
  (handleSubscribe "c3" (mkRequest "session" "s1") demo).1 = Refused "Not found" ∧
  (handleSubscribe "c2" (mkRequest "session" "s1") demo).1 = Joined (session_room "s1").
Proof. repeat split; vm_compute; reflexivity. Qed.

Lemma heard_by_concerned_witness : ∃ s, sockets (deliver settled demo) !! "c1" = Some s ∧
  ∃ s0, sockets demo !! "c1" = Some s0 ∧
    if hears settled s0 then so_received s = so_received s0 ++ [Delivered settled] ∧
      ∃ u, so_userId s0 = Some u ∧ concerns demo settled u
    else s = s0.
Proof.
  eexists. split; [vm_compute; reflexivity|]. apply (heard_by_concerned demo_steps settled 0%nat "c1"). vm_compute. reflexivity.
Defined.
End GatewayDemo.
