(* ===== verification/Errors.v ===== *)
(** * What clients are told of failures

    RequestIdMiddleware (common/request-id.middleware.ts), AllExceptionsFilter
    (common/filters/all-exceptions.filter.ts) and WsExceptionFilter
    (common/filters/ws-exception.filter.ts).  What a filter does is the list of its effects in order. *)

From S2P Require Import Prelude Decimal Redact.
From stdpp Require Import gmap.
From Stdlib Require Import Ascii.

#[local] Open Scope Z_scope.

(** ** What is thrown *)

(** What [HttpException.getResponse()] is made of. *)
Inductive http_body :=
  | TextBody (text : string)
  | ObjectBody (fields : list (string * json)).

Inductive thrown :=
  | HttpException (name : string) (status : Z) (body : http_body) (message : string)
  | QueryFailedError (code driverCode : option string) (message : string)
  | WsException (error : json) (message : string)
  | OtherError (name message : string)
  | NotAnError (shown : string).

Definition error_name (e : thrown) : string :=
  match e with
  | HttpException name _ _ _ | OtherError name _ => name
  | QueryFailedError _ _ _ => "QueryFailedError"
  | WsException _ _ => "WsException"
  | NotAnError _ => "UnknownError"
  end.

(** [exception.message], or [String(exception)]. *)
Definition error_message (e : thrown) : string :=
  match e with
  | HttpException _ _ _ m | QueryFailedError _ _ m | WsException _ m | OtherError _ m => m
  | NotAnError shown => shown
  end.

Definition is_error (e : thrown) : bool := if e is NotAnError _ then false else true.

(** ** Properties of objects *)

Definition text (s : string) : json := JPrim (PString s).
Definition number (n : Z) : json := JPrim (PNumber n).

Fixpoint property (name : string) (fields : list (string * json)) : option json :=
  match fields with
  | [] => None
  | (n, v) :: fields => if n == name then (if v is JUndefined then None else Some v) else property name fields
  end.

(** [a ?? b] for a property: neither undefined nor null. *)
Definition nullish (v : option json) : option json := if v is Some JNull then None else v.

(** [Array.prototype.join] of values, with [String] of each; null and undefined are empty. *)
Section join.
Context (dateString : Z → string).
Fixpoint join (sep : string) (f : json → string) (items : list json) : string :=
  match items with
  | [] => ""
  | [x] => f x
  | x :: items => f x +:+ sep +:+ join sep f items
  end.
Fixpoint js_string (v : json) : string :=
  match v with
  | JUndefined | JNull => ""
  | JPrim (PString s) => s
  | JPrim (PNumber n) => show n
  | JPrim (PBool b) => if b then "true" else "false"
  | JDate t => dateString t
  | JArray items => join "," js_string items
  | JObject _ => "[object Object]"
  end.
End join.

(** ** Statuses *)

(** [http.STATUS_CODES] *)
Definition STATUS_CODES : list (Z * string) :=
  [ (100, "Continue"); (101, "Switching Protocols"); (102, "Processing"); (103, "Early Hints"); (200, "OK");
    (201, "Created"); (202, "Accepted"); (203, "Non-Authoritative Information"); (204, "No Content");
    (205, "Reset Content"); (206, "Partial Content"); (207, "Multi-Status"); (208, "Already Reported");
    (226, "IM Used"); (300, "Multiple Choices"); (301, "Moved Permanently"); (302, "Found"); (303, "See Other");
    (304, "Not Modified"); (305, "Use Proxy"); (307, "Temporary Redirect"); (308, "Permanent Redirect");
    (400, "Bad Request"); (401, "Unauthorized"); (402, "Payment Required"); (403, "Forbidden"); (404, "Not Found");
    (405, "Method Not Allowed"); (406, "Not Acceptable"); (407, "Proxy Authentication Required");
    (408, "Request Timeout"); (409, "Conflict"); (410, "Gone"); (411, "Length Required");
    (412, "Precondition Failed"); (413, "Payload Too Large"); (414, "URI Too Long");
    (415, "Unsupported Media Type"); (416, "Range Not Satisfiable"); (417, "Expectation Failed");
    (418, "I'm a Teapot"); (421, "Misdirected Request"); (422, "Unprocessable Entity"); (423, "Locked");
    (424, "Failed Dependency"); (425, "Too Early"); (426, "Upgrade Required"); (428, "Precondition Required");
    (429, "Too Many Requests"); (431, "Request Header Fields Too Large"); (451, "Unavailable For Legal Reasons");
    (500, "Internal Server Error"); (501, "Not Implemented"); (502, "Bad Gateway"); (503, "Service Unavailable");
    (504, "Gateway Timeout"); (505, "HTTP Version Not Supported"); (506, "Variant Also Negotiates");
    (507, "Insufficient Storage"); (508, "Loop Detected"); (509, "Bandwidth Limit Exceeded"); (510, "Not Extended");
    (511, "Network Authentication Required") ].

Definition getErrorName (statusCode : Z) : string :=
  default "Error" (snd <$> List.find (λ c, c.1 =? statusCode) STATUS_CODES).

(** ** Requests and responses *)

Inductive header := OneValue (v : string) | ManyValues (vs : list string).

Record Request := mkRequest {
  rq_method : string;
  rq_url : string;
  rq_ip : string;
  rq_userAgent : option string;
  rq_requestId : option header;
}.

Record Response := mkResponse {
  rs_requestId : option header;
  rs_headersSent : bool;
}.

Record ErrorResponse := mkError {
  er_statusCode : Z;
  er_message : json;
  er_error : string;
  er_timestamp : string;
  er_path : string;
  er_method : string;
  er_requestId : string;
}.

Record WsErrorPayload := mkWsError {
  we_code : Z;
  we_message : string;
  we_details : option json;
}.

(** How the socket's message may carry the client's callback. *)
Inductive ws_data := DataIsAck | DataHasAck | PlainData.

Inductive host :=
  | HttpHost (request : Request) (response : Response)
  | WsHost (client : option string) (event : option string) (data : ws_data)
  | OtherHost (type : string).

Inductive effect :=
  | Logged (message : string) (requestId : option string) (withStack : bool)
  | SetHeader (requestId : string)
  | Responded (status : Z) (body : ErrorResponse)
  | Throws (code : string)
  | Acked (payload : WsErrorPayload)
  | Emitted (payload : WsErrorPayload).

(** ** RequestIdMiddleware *)

Definition first_value (h : header) : option string :=
  match h with OneValue v => Some v | ManyValues vs => head vs end.

(** The request, the response and the context the rest of the request runs in. *)
Definition use (randomUUID : string) (req : Request) (res : Response) : Request * Response * string :=
  let requestId := default randomUUID (present (rq_requestId req ≫= first_value)) in
  (mkRequest (rq_method req) (rq_url req) (rq_ip req) (rq_userAgent req) (Some (OneValue requestId)),
   mkResponse (Some (OneValue requestId)) (rs_headersSent res), requestId).

(** ** WsExceptionFilter *)

Section WsExceptionFilter.
Context (dateString : Z → string).

Definition details_of (fields : list (string * json)) (whole : json) : json :=
  default whole (nullish (property "details" fields)).

(** An array is an object with none of the properties read here. *)
Definition fields_of (v : json) : option (list (string * json)) :=
  match v with JObject fields => Some fields | JArray _ | JDate _ => Some [] | _ => None end.

Definition toPayload (exception : thrown) : WsErrorPayload :=
  match exception with
  | WsException (JPrim (PString error)) _ => mkWsError 400 error None
  | WsException error _ =>
      match fields_of error with
      | Some obj =>
          mkWsError (match property "code" obj with Some (JPrim (PNumber code)) => code | _ => 400 end)
            (match property "message" obj with Some (JPrim (PString m)) => m | _ => "WebSocket error" end)
            (Some (details_of obj error))
      | None => mkWsError 400 "WebSocket error" None
      end
  | HttpException _ status (TextBody response) _ => mkWsError status response None
  | HttpException _ status (ObjectBody obj) message =>
      mkWsError status
        (match property "message" obj with
         | Some (JArray items) => join ", " (js_string dateString) items
         | Some (JPrim (PString m)) => m
         | _ => message
         end) (Some (JObject obj))
  | QueryFailedError _ _ _ | OtherError _ _ | NotAnError _ => mkWsError 500 "Internal server error" None
  end.

Definition extractAck (data : ws_data) : bool :=
  match data with DataIsAck | DataHasAck => true | PlainData => false end.

Definition ws_catch (exception : thrown) (client : option string) (data : ws_data) : list effect :=
  let payload := toPayload exception in
  (if 500 <=? we_code payload then [Logged ("WebSocket error: " +:+ we_message payload) None (is_error exception)] else []) ++
  (if extractAck data then [Acked payload] else if client is Some _ then [Emitted payload] else []).
End WsExceptionFilter.

(** ** AllExceptionsFilter *)

Section AllExceptionsFilter.
Context (isProduction : bool) (dateString : Z → string).

(** The identifier of the async context, the headers', or a new one. *)
Definition fromHeader (h : option header) : option string := present (h ≫= first_value).

Definition resolveRequestId (context : option string) (randomUUID : string) (request : Request) (response : Response) : string * list effect :=
  let requestId := default randomUUID (union (present context) (union (fromHeader (rs_requestId response)) (fromHeader (rq_requestId request)))) in
  (requestId, if rs_headersSent response then [] else [SetHeader requestId]).

(** The SQL states that are reported as something other than a failure of the server. *)
Definition database_error (code : option string) : Z * string :=
  match code with
  | Some code =>
      if code == "23505" then (409, "Resource already exists")
      else if code == "23503" then (400, "Referenced resource does not exist")
      else if code == "23502" then (400, "Required field is missing")
      else if code == "22P02" then (400, "Invalid input syntax")
      else if code == "22001" then (400, "Value is too long")
      else if code == "23514" then (400, "Value violates a constraint")
      else if code == "40001" then (409, "Request conflicted with a concurrent change; please retry")
      else if code == "40P01" then (503, "Temporary database contention; please retry")
      else (500, "Database error occurred")
  | None => (500, "Database error occurred")
  end.

Definition handleDatabaseError (code driverCode : option string) (raw timestamp path method requestId : string) : ErrorResponse :=
  let '(statusCode, message) := database_error (union code driverCode) in
  mkError statusCode (text (if isProduction then message else raw)) (getErrorName statusCode) timestamp path method requestId.

Definition formatError (exception : thrown) (request : Request) (timestamp requestId : string) : ErrorResponse :=
  let path := rq_url request in
  let method := rq_method request in
  match exception with
  | HttpException _ statusCode body message =>
      let message := match body with
        | TextBody s => text s
        | ObjectBody fields => default (text message) (nullish (property "message" fields))
        end in
      mkError statusCode message (getErrorName statusCode) timestamp path method requestId
  | QueryFailedError code driverCode raw => handleDatabaseError code driverCode raw timestamp path method requestId
  | _ =>
      let message := if is_error exception then error_message exception else "Internal server error" in
      mkError 500 (text (if isProduction then "Internal server error" else message)) "Internal Server Error" timestamp path method requestId
  end.

(** A stack is logged outside production. *)
Definition logged (what : string) (exception : thrown) (requestId : option string) : effect :=
  Logged (what +:+ ": " +:+ error_name exception +:+ " - " +:+ error_message exception) requestId
    (negb isProduction && is_error exception).

Definition catchWs (exception : thrown) (client : option string) (data : ws_data) : list effect :=
  logged "WS error occurred" exception None :: ws_catch dateString exception client data.

Definition logNonHttp (exception : thrown) (type : string) : list effect :=
  [Logged ("Error occurred (" +:+ type +:+ "): " +:+ error_name exception +:+ " - " +:+ error_message exception) None false].

(** [response.status(...).json(...)]: once the headers are out, express cannot set those of the body, and throws. *)
Definition respond (response : Response) (body : ErrorResponse) : effect :=
  if rs_headersSent response then Throws "ERR_HTTP_HEADERS_SENT" else Responded (er_statusCode body) body.

(** What the filter does: [context] is the async context's identifier, if there is one. *)
Definition catch (context : option string) (randomUUID timestamp : string) (exception : thrown) (h : host) : list effect :=
  match h with
  | HttpHost request response =>
      let '(requestId, echoed) := resolveRequestId context randomUUID request response in
      let errorResponse := formatError exception request timestamp requestId in
      echoed ++ [logged "Error occurred" exception (Some requestId); respond response errorResponse]
  | WsHost client event data => catchWs exception client data
  | OtherHost type => logNonHttp exception type
  end.
End AllExceptionsFilter.

(** ** Properties *)

(** What leaves the server. *)
Definition sent (x : effect) : bool := match x with Logged _ _ _ | Throws _ => false | _ => true end.
Definition reaches_client (effects : list effect) : list effect := List.filter sent effects.

(** The part of a failure a client may know of: what was thrown for it, or the class of SQL state. *)
Inductive public_part := Deliberate (e : thrown) | Database (answer : Z * string) | Internal.
Definition reported (e : thrown) : public_part :=
  match e with
  | HttpException _ _ _ _ | WsException _ _ => Deliberate e
  | QueryFailedError code driverCode _ => Database (database_error (union code driverCode))
  | OtherError _ _ | NotAnError _ => Internal
  end.

(** The identifiers in what a filter does. *)
Definition ids (x : effect) : list string :=
  match x with
  | Logged _ requestId _ => option_list requestId
  | SetHeader requestId => [requestId]
  | Responded _ body => [er_requestId body]
  | Throws _ | Acked _ | Emitted _ => []
  end.

Lemma present_idem o v : present o = Some v → present (Some v) = Some v.
Proof. destruct o as [w|]; [|done]. cbn. destruct (nonempty w) eqn:E; [|done]. intros [= <-]. by rewrite E. Qed.

Lemma filter_sent_ws dateString e client data :
  reaches_client (ws_catch dateString e client data) =
  if extractAck data then [Acked (toPayload dateString e)] else if client is Some _ then [Emitted (toPayload dateString e)] else [].
Proof.
  unfold ws_catch, reaches_client. rewrite List.filter_app.
  by destruct (500 <=? _), data, client.
Qed.

Lemma hidden_format dateString e1 e2 request timestamp requestId : reported e1 = reported e2 →
  formatError true e1 request timestamp requestId = formatError true e2 request timestamp requestId ∧
  toPayload dateString e1 = toPayload dateString e2.
Proof.
  destruct e1, e2; cbn; try done; try (intros [= -> ->]; done).
  - by intros [= -> -> -> ->].
  - intros [= H]. unfold handleDatabaseError. by rewrite H.
Qed.

Lemma database_error_status code : (database_error code).1 ∈ [400; 409; 500; 503].
Proof. destruct code as [code|]; cbn; repeat case_bool_decide; set_solver. Qed.

Lemma handleDatabaseError_status p code driverCode raw ts path method id :
  er_statusCode (handleDatabaseError p code driverCode raw ts path method id) = (database_error (union code driverCode)).1.
Proof. unfold handleDatabaseError. by destruct (database_error _). Qed.

Lemma formatError_id p e request ts id : er_requestId (formatError p e request ts id) = id.
Proof. destruct e; cbn; try done. unfold handleDatabaseError. by destruct (database_error _). Qed.

(** In production, what reaches a client of any failure that was not thrown for it is the same whatever went wrong: it
    depends on the class of a SQL state alone, never on the messages, names and values inside the
    exception.  This holds of HTTP responses, of socket errors and callbacks, and in every other context. *)
Theorem internals_hidden dateString context uuid timestamp (h : host) e1 e2 : reported e1 = reported e2 →
  reaches_client (catch true dateString context uuid timestamp e1 h) =
  reaches_client (catch true dateString context uuid timestamp e2 h).
Proof.
  intros Hr. destruct h as [request response|client event data|type]; [| |done].
  - unfold catch. destruct (resolveRequestId _ _ _ _) as [id echoed].
    destruct (hidden_format dateString _ _ request timestamp id Hr) as [-> _].
    unfold reaches_client. by rewrite !List.filter_app.
  - destruct (hidden_format dateString _ _ (mkRequest "" "" "" None None) "" "" Hr) as [_ Hp].
    change (reaches_client (ws_catch dateString e1 client data) = reaches_client (ws_catch dateString e2 client data)).
    by rewrite !filter_sent_ws, Hp.
Qed.

(** C26. A failed request whose response has not begun is answered once, last, with the status its body states under
    its standard name; a failure that is no HTTP exception is a 400, 409, 500 or 503, never a success.  Once the headers
    are out, as while the audit log is streamed, no answer reaches the client: the filter throws in its turn. *)
Theorem failure_answered production dateString context uuid timestamp request response e :
  ∃ before body, catch production dateString context uuid timestamp e (HttpHost request response) =
      before ++ [if rs_headersSent response then Throws "ERR_HTTP_HEADERS_SENT" else Responded (er_statusCode body) body] ∧
    (∀ x, x ∈ before → match x with Responded _ _ | Throws _ => False | _ => True end) ∧
    (rs_headersSent response = true →
      reaches_client (catch production dateString context uuid timestamp e (HttpHost request response)) = []) ∧
    er_error body = getErrorName (er_statusCode body) ∧ er_path body = rq_url request ∧ er_method body = rq_method request ∧
    match e with
    | HttpException _ status _ _ => er_statusCode body = status
    | QueryFailedError _ _ _ => er_statusCode body ∈ [400; 409; 500; 503]
    | _ => er_statusCode body = 500
    end.
Proof.
  unfold catch, resolveRequestId, respond.
  set (id := default uuid _). set (body := formatError production e request timestamp id). cbn zeta iota.
  exists ((if rs_headersSent response then [] else [SetHeader id]) ++ [logged production "Error occurred" e (Some id)]), body.
  split; [by rewrite <-app_assoc|]. split.
  { intros x [Hx| ->%list_elem_of_singleton]%elem_of_app; [|done].
    destruct (rs_headersSent response); [by apply elem_of_nil in Hx|]. by apply list_elem_of_singleton in Hx as ->. }
  split; [by intros ->|].
  subst body. destruct e as [name status b m|code driverCode m|? ?|? ?|?]; cbn [formatError]; try done.
  unfold handleDatabaseError. pose proof (database_error_status (union code driverCode)). by destruct (database_error _).
Qed.

(** Behind the middleware, a request has one identifier: the one its client sent, or the new one.  Its headers carry
    it, and of whatever fails later, so do every line logged, the response's header and its body. *)
Theorem error_id_correlates production dateString uuid uuid2 timestamp req res e :
  let '(req', res', id) := use uuid req res in
  rq_requestId req' = Some (OneValue id) ∧ rs_requestId res' = Some (OneValue id) ∧
  (∀ v, present (rq_requestId req ≫= first_value) = Some v → id = v) ∧
  (present (Some uuid) = Some uuid → ∀ context x i, context = Some id ∨ context = None →
     x ∈ catch production dateString context uuid2 timestamp e (HttpHost req' res') → i ∈ ids x → i = id).
Proof.
  unfold use. set (id := default uuid _). cbn zeta iota. split; [done|]. split; [done|]. split.
  { intros v Hv. subst id. by rewrite Hv. }
  intros Huuid context x i Hc Hx Hi.
  assert (present (Some id) = Some id) as Hid.
  { subst id. destruct (present (rq_requestId req ≫= first_value)) as [v|] eqn:E; [|done]. cbn [default]. by eapply present_idem. }
  unfold catch, resolveRequestId in Hx. cbn [rq_requestId rs_requestId rs_headersSent] in Hx.
  assert (default uuid2 (union (present context) (union (fromHeader (Some (OneValue id))) (fromHeader (Some (OneValue id))))) = id) as Hr.
  { unfold fromHeader. cbn [mbind option_bind first_value]. rewrite Hid. destruct Hc as [-> | ->]; [|done]. by rewrite Hid. }
  rewrite Hr in Hx. apply elem_of_app in Hx as [Hx|Hx].
  - destruct (rs_headersSent res); [by apply elem_of_nil in Hx|]. apply list_elem_of_singleton in Hx as ->.
    by apply list_elem_of_singleton in Hi.
  - apply elem_of_cons in Hx as [->|Hx]; [by apply list_elem_of_singleton in Hi|]. apply list_elem_of_singleton in Hx as ->.
    unfold respond in Hi. destruct (rs_headersSent _); [by apply elem_of_nil in Hi|].
    cbn in Hi. rewrite formatError_id in Hi. by apply list_elem_of_singleton in Hi.
Qed.

(** The client of a failed message is told once: through the callback it gave, or else by an event. *)
Theorem ws_told_once production dateString context uuid timestamp client event data e :
  reaches_client (catch production dateString context uuid timestamp e (WsHost client event data)) =
  if extractAck data then [Acked (toPayload dateString e)]
  else if client is Some _ then [Emitted (toPayload dateString e)] else [].
Proof. cbn [catch]. apply filter_sent_ws. Qed.

(** ** Concrete failures *)

Module ErrorsDemo.

Definition req : Request := mkRequest "POST" "/wagers" "10.0.0.1" None (Some (ManyValues ["trace-7"; "x"])).
Definition res : Response := mkResponse None false.
Definition duplicate : thrown := QueryFailedError None (Some "23505") "duplicate key value violates unique constraint uq_wager_session".
Definition duplicate2 : thrown := QueryFailedError (Some "23505") None "duplicate key value violates unique constraint uq_user_email".

(** Production says there is a conflict; elsewhere the driver's message is shown. *)
Example duplicate_reported :
  er_message (formatError true duplicate req "" "trace-7") = text "Resource already exists" ∧
  er_statusCode (formatError true duplicate req "" "trace-7") = 409 ∧
  er_message (formatError false duplicate req "" "trace-7") = text "duplicate key value violates unique constraint uq_wager_session".
Proof. by vm_compute. Qed.

(** The game's gateway reports an invalid message under a code that is not a number; the socket is told 400. *)
Definition invalid : thrown :=
  WsException (JObject [("code", text "VALIDATION_ERROR"); ("message", text "Validation failed");
    ("details", JArray [JObject [("field", text "guessValue"); ("messages", JArray [text "must be a string"])]])]) "Validation failed".
Example invalid_reported : toPayload (λ _, "") invalid =
  mkWsError 400 "Validation failed" (Some (JArray [JObject [("field", text "guessValue"); ("messages", JArray [text "must be a string"])]])).
Proof. by vm_compute. Qed.

(** A rejected body reaches a socket as one line, and whole as its details. *)
Example joined_messages :
  we_message (toPayload (λ _, "") (HttpException "BadRequestException" 400 (ObjectBody [("message", JArray [text "a"; JPrim (PNumber (-3)); JNull])]) "Bad Request")) = "a, -3, ".
Proof. by vm_compute. Qed.

(** The export of the audit log fails after its first line was written: nothing more reaches the client. *)
Example export_breaks_off :
  catch true (λ _, "") (Some "trace-7") "u" "now" (OtherError "Error" "connection lost") (HttpHost req (mkResponse None true)) =
  [Logged "Error occurred: Error - connection lost" (Some "trace-7") false; Throws "ERR_HTTP_HEADERS_SENT"].
Proof. reflexivity. Qed.

Lemma internals_hidden_witness :
  reported duplicate = reported duplicate2 ∧
  reaches_client (catch true (λ _, "") (Some "trace-7") "u" "now" duplicate (HttpHost req res)) =
  reaches_client (catch true (λ _, "") (Some "trace-7") "u" "now" duplicate2 (HttpHost req res)).
Proof. split; [reflexivity|]. apply (internals_hidden (λ _, "") (Some "trace-7") "u" "now" (HttpHost req res) duplicate duplicate2). reflexivity. Defined.

Lemma error_id_correlates_witness : ∀ i x,
  x ∈ catch true (λ _, "") None "u2" "now" duplicate (HttpHost (use "u1" req res).1.1 (use "u1" req res).1.2) → i ∈ ids x → i = "trace-7".
Proof.
  pose proof (error_id_correlates true (λ _, "") "u1" "u2" "now" req res duplicate) as H.
  destruct H as (_ & _ & _ & H). intros i x Hx Hi. apply (H eq_refl None x i); [by right|exact Hx|exact Hi].
Defined.

Lemma failure_answered_witness : ∃ before body,
  catch true (λ _, "") None "u" "now" (NotAnError "boom") (HttpHost req res) = before ++ [Responded 500 body].
Proof.
  destruct (failure_answered true (λ _, "") None "u" "now" req res (NotAnError "boom")) as (before & body & H & _ & _ & _ & _ & _ & Hs).
  exists before, body. rewrite <-Hs. exact H.
Defined.
End ErrorsDemo.
