(* ===== verification/GameGateway.v ===== *)
(** * The game over sockets (src/src/game/game.gateway.ts)

    [GameGateway]: the lyric, the guess and the hint a socket asks for.  Its calls of the game
    service go through the class [GameLogic], as the gateway makes them.  Handlers wait for these
    calls, and other messages are handled meanwhile: a run is a list of steps over the calls
    under way.  The session of a socket is an object that handlers under way keep hold of. *)

From S2P Require Import Prelude Decimal Amount Entities Rounds EntityEvents Gateway.
From stdpp Require Import gmap.

#[local] Open Scope Z_scope.

(** A round as the gateway reads it. *)
Record IssuedRound := mkIssued {
  ir_roundId : string;
  ir_issuedAt : Z;
  ir_answerWindowSeconds : Z;
  ir_lyric : Lyrics;
}.

Record SocketGuess := mkSocketGuess {
  sg_guessType : string;
  sg_guessValue : string;
}.

(** What the gateway asks of the game service: [W] is its state, [Opt] the options of a request
    but for the excluded lyrics, [Hint] a hint. *)
Class GameLogic (W Opt Hint : Type) := {
  issueRound : string → Opt → list Z → W → result IssuedRound * W;
  guessRound : string → string → SocketGuess → W → result GuessResult * W;
  useHint : string → string → W → result Hint * W;
  validateGuess : string → option string;
}.

Record GameSession := mkGameSession {
  playerId : string;
  currentRoundId : option string;
  seenLyricIds : list Z;
}.
#[export] Instance GameSession_settable : Settable GameSession := λ s,
  mkGameSession (playerId s) (currentRoundId s) (seenLyricIds s).

Inductive game_message (Hint : Type) :=
  | GameError (message : string)
  | GameConnected (sessionId : string)
  | NewLyric (roundId : string) (issuedAt answerWindowSeconds id : Z) (lyricSnippet : string) (category : option string)
      (decade genre : string)
  | GuessResultMessage (r : GuessResult)
  | HintResult (h : Hint)
  | SessionInfo (playerId : string) (currentRoundId : option string).
Arguments GameError {_} _.
Arguments GameConnected {_} _.
Arguments NewLyric {_} _ _ _ _ _ _ _ _.
Arguments GuessResultMessage {_} _.
Arguments HintResult {_} _.
Arguments SessionInfo {_} _ _.

(** A handler under way: about to call the service, or about to go on with its answer.  It
    remembers its socket, the address of the socket's session, and its player, which sessions keep. *)
Inductive call (Opt Hint : Type) :=
  | Issuing (client : string) (session : nat) (player : string) (options : Opt) (excludeIds : list Z)
  | Issued (client : string) (session : nat) (player : string) (options : Opt) (excludeIds : list Z) (r : result IssuedRound)
  | Guessing (client player roundId : string) (guess : SocketGuess)
  | Guessed (client : string) (r : result GuessResult)
  | Hinting (client player roundId : string)
  | Hinted (client : string) (r : result Hint)
  | Finished.
Arguments Issuing {_ _} _ _ _ _ _.
Arguments Issued {_ _} _ _ _ _ _ _.
Arguments Guessing {_ _} _ _ _ _.
Arguments Guessed {_ _} _ _.
Arguments Hinting {_ _} _ _ _.
Arguments Hinted {_ _} _ _.
Arguments Finished {_ _}.

(** [asked] are the guesses the service was asked to score, as player and round. *)
Record GameGw (L W Opt Hint : Type) := mkGameGw {
  gg_users : gmap string string;
  gg_sessions : gmap string nat;
  gg_heap : list GameSession;
  gg_limiter : L;
  gg_world : W;
  gg_calls : list (call Opt Hint);
  gg_out : list (string * game_message Hint);
  asked : list (string * string);
}.
Arguments mkGameGw {_ _ _ _} _ _ _ _ _ _ _ _.
Arguments gg_users {_ _ _ _} _.
Arguments gg_sessions {_ _ _ _} _.
Arguments gg_heap {_ _ _ _} _.
Arguments gg_limiter {_ _ _ _} _.
Arguments gg_world {_ _ _ _} _.
Arguments gg_calls {_ _ _ _} _.
Arguments gg_out {_ _ _ _} _.
Arguments asked {_ _ _ _} _.
#[export] Instance GameGw_settable {L W Opt Hint} : Settable (GameGw L W Opt Hint) := λ g,
  mkGameGw (gg_users g) (gg_sessions g) (gg_heap g) (gg_limiter g) (gg_world g) (gg_calls g) (gg_out g) (asked g).

Section GameGateway.
Context {L W Opt Hint : Type} `{!GatewayDeps L} `{!GameLogic W Opt Hint}.
Local Abbreviation St := (GameGw L W Opt Hint).

Definition tell (client : string) (m : game_message Hint) (g : St) : St := g <| gg_out := gg_out g ++ [(client, m)] |>.
Definition begin (c : call Opt Hint) (g : St) : St := g <| gg_calls := gg_calls g ++ [c] |>.

Definition session_of (client : string) (g : St) : option (nat * GameSession) :=
  a ← gg_sessions g !! client; s ← gg_heap g !! a; Some (a, s).

(** ** Connections *)

Definition handleDisconnect (client : string) (g : St) : St :=
  g <| gg_sessions := delete client (gg_sessions g) |>
    <| gg_limiter := release (gg_users g !! client) client (clear client (gg_limiter g)) |>
    <| gg_users := delete client (gg_users g) |>.

Definition handleConnection (client : string) (h : Handshake) (g : St) : St :=
  match present (extractToken h) ≫= verifyToken with
  | None => handleDisconnect client (tell client (GameError "Unauthorized") g)
  | Some userId =>
      let '(ok, l) := acquire userId client (gg_limiter g) in
      let g := g <| gg_limiter := l |> in
      if ok : bool then
        tell client (GameConnected client)
          (g <| gg_users := <[client := userId]> (gg_users g) |>
             <| gg_sessions := <[client := length (gg_heap g)]> (gg_sessions g) |>
             <| gg_heap := gg_heap g ++ [mkGameSession userId None []] |>)
      else handleDisconnect client (tell client (GameError "Too many concurrent connections") g)
  end.

(** ** Messages: what happens before the handler first waits *)

(** [if (!this.allow(client, event)) return;] *)
Definition allowed (client event : string) (k : St → St) (g : St) : St :=
  let '(ok, l) := consume client event (gg_limiter g) in
  let g := g <| gg_limiter := l |> in
  if ok : bool then k g else g.

Definition with_session (client : string) (k : nat → GameSession → St → St) (g : St) : St :=
  match session_of client g with
  | Some (a, session) => k a session g
  | None => tell client (GameError "Session not found") g
  end.

Definition handleRequestLyric (client : string) (options : Opt) : St → St :=
  allowed client "requestLyric" (with_session client (λ a session,
    begin (Issuing client a (playerId session) options (seenLyricIds session)))).

Definition handleSubmitGuess (client : string) (guess : SocketGuess) : St → St :=
  allowed client "submitGuess" (with_session client (λ a session g,
    match validateGuess (sg_guessValue guess) with
    | Some reason => tell client (GameError reason) g
    | None =>
        match present (currentRoundId session) with
        | None => tell client (GameError "Request a lyric before guessing") g
        | Some roundId =>
            begin (Guessing client (playerId session) roundId guess)
              (g <| gg_heap := <[a := session <| currentRoundId := None |>]> (gg_heap g) |>)
        end
    end)).

Definition handleRequestHint (client : string) : St → St :=
  allowed client "requestHint" (with_session client (λ _ session g,
    match present (currentRoundId session) with
    | None => tell client (GameError "Request a lyric before a hint") g
    | Some roundId => begin (Hinting client (playerId session) roundId) g
    end)).

Definition handleGetSession (client : string) : St → St :=
  allowed client "getSession" (with_session client (λ _ session,
    tell client (SessionInfo (playerId session) (currentRoundId session)))).

(** ** The rest of the handlers *)

Definition is_not_found (e : exn) : bool := if e is NotFound _ then true else false.

Definition newLyric (round : IssuedRound) : game_message Hint :=
  let lyric := ir_lyric round in
  NewLyric (ir_roundId round) (ir_issuedAt round) (ir_answerWindowSeconds round) (ly_id lyric) (ly_lyricSnippet lyric)
    (ly_category lyric) (ly_decade lyric) (ly_genre lyric).

(** [Set.prototype.add] *)
Definition seen_add (id : Z) (seen : list Z) : list Z := if bool_decide (id ∈ seen) then seen else seen ++ [id].

(** One step of the handler [i]: the service's call, or what follows it. *)
Definition resume (i : nat) (g : St) : St :=
  let become c g := g <| gg_calls := <[i := c]> (gg_calls g) |> in
  match gg_calls g !! i with
  | Some (Issuing client a player options excludeIds) =>
      let '(r, w) := issueRound player options excludeIds (gg_world g) in
      become (Issued client a player options excludeIds r) (g <| gg_world := w |>)
  | Some (Issued client a player options excludeIds (Ok round)) =>
      tell client (newLyric round)
        (become Finished
          (g <| gg_heap := alter (λ session, session <| currentRoundId := Some (ir_roundId round) |>
              <| seenLyricIds := seen_add (ly_id (ir_lyric round)) (seenLyricIds session) |>) a (gg_heap g) |>))
  | Some (Issued client a player options excludeIds (Err e)) =>
      if is_not_found e && negb (bool_decide (excludeIds = [])) then
        become (Issuing client a player options [])
          (g <| gg_heap := alter (λ session, session <| seenLyricIds := [] |>) a (gg_heap g) |>)
      else tell client (GameError (if is_not_found e then "No lyrics available" else "Failed to fetch lyric")) (become Finished g)
  | Some (Guessing client player roundId guess) =>
      let '(r, w) := guessRound player roundId guess (gg_world g) in
      become (Guessed client r) (g <| gg_world := w |> <| asked := asked g ++ [(player, roundId)] |>)
  | Some (Guessed client r) =>
      tell client (match r with Ok result => GuessResultMessage result | Err _ => GameError "Failed to process guess" end)
        (become Finished g)
  | Some (Hinting client player roundId) =>
      let '(r, w) := useHint player roundId (gg_world g) in
      become (Hinted client r) (g <| gg_world := w |>)
  | Some (Hinted client r) =>
      tell client (match r with Ok hint => HintResult hint | Err _ => GameError "Failed to fetch hint" end) (become Finished g)
  | Some Finished | None => g
  end.

Inductive game_step :=
  | Connects (client : string) (h : Handshake)
  | Disconnects (client : string)
  | RequestLyric (client : string) (options : Opt)
  | SubmitGuess (client : string) (guess : SocketGuess)
  | RequestHint (client : string)
  | GetSession (client : string)
  | Resume (i : nat).

Definition game_run (g : St) (s : game_step) : St :=
  match s with
  | Connects client h => handleConnection client h g
  | Disconnects client => handleDisconnect client g
  | RequestLyric client options => handleRequestLyric client options g
  | SubmitGuess client guess => handleSubmitGuess client guess g
  | RequestHint client => handleRequestHint client g
  | GetSession client => handleGetSession client g
  | Resume i => resume i g
  end.

Definition started (l : L) (w : W) : St := mkGameGw ∅ ∅ [] l w [] [] [].
End GameGateway.
Arguments game_step : clear implicits.

(** ** Claims on rounds

    Where the identifier of a round is kept by the gateway: with the player it belongs to there. *)

(** The game service gives every round to one player, under an identifier of its own. *)
Class FreshRounds {W Opt Hint} `{!GameLogic W Opt Hint} (issuedTo : W → string → string → Prop) := {
  issue_fresh : ∀ player options excludeIds w round w', issueRound player options excludeIds w = (Ok round, w') →
    issuedTo w' player (ir_roundId round) ∧ ∀ p, ¬ issuedTo w p (ir_roundId round);
  issue_keeps : ∀ player options excludeIds w p id, issuedTo w p id → issuedTo (issueRound player options excludeIds w).2 p id;
  guess_keeps : ∀ player roundId guess w p id, issuedTo w p id → issuedTo (guessRound player roundId guess w).2 p id;
  hint_keeps : ∀ player roundId w p id, issuedTo w p id → issuedTo (useHint player roundId w).2 p id;
}.

Section claims.
Context {L W Opt Hint : Type} `{!GatewayDeps L} `{!GameLogic W Opt Hint}.
Local Abbreviation St := (GameGw L W Opt Hint).

Definition session_claims (s : GameSession) : list (string * string) := option_list (pair (playerId s) <$> currentRoundId s).
Definition call_claims (c : call Opt Hint) : list (string * string) :=
  match c with
  | Issued _ _ player _ _ (Ok round) => [(player, ir_roundId round)]
  | Guessing _ player roundId _ => [(player, roundId)]
  | _ => []
  end.
Definition claims (g : St) : list (string * string) :=
  asked g ++ (gg_calls g ≫= call_claims) ++ (gg_heap g ≫= session_claims).

(** The session a handler keeps hold of is its player's. *)
Definition call_linked (heap : list GameSession) (c : call Opt Hint) : Prop :=
  match c with
  | Issuing _ a player _ _ | Issued _ a player _ _ _ => playerId <$> heap !! a = Some player
  | _ => True
  end.
Definition linked (g : St) : Prop := Forall (call_linked (gg_heap g)) (gg_calls g).

Context (issuedTo : W → string → string → Prop) `{!FreshRounds issuedTo}.

Definition rounds_ok (g : St) : Prop :=
  NoDup (snd <$> claims g) ∧ (∀ p id, (p, id) ∈ claims g → issuedTo (gg_world g) p id) ∧ linked g.

Lemma bind_insert {A B} (f : A → list B) l i x y : l !! i = Some x →
  (l ≫= f) ≡ₚ f x ++ (delete i l ≫= f) ∧ (<[i := y]> l ≫= f) ≡ₚ f y ++ (delete i l ≫= f).
Proof.
  intros Hx. split; [by rewrite (delete_Permutation l i x) at 1|].
  assert (i < length l)%nat as Hi by by eapply lookup_lt_Some.
  rewrite (delete_Permutation (<[i:=y]> l) i y) by by apply list_lookup_insert_eq.
  cbn. f_equiv. by rewrite !delete_take_drop, take_insert_ge, drop_insert_lt by lia.
Qed.

Lemma NoDup_part {A} (l k : list A) : l ⊆+ k → NoDup k → NoDup l.
Proof. intros [k' ->]%submseteq_Permutation. by intros (? & _)%NoDup_app. Qed.

Lemma rounds_ok_mono g g' : claims g' ⊆+ claims g → (∀ p id, issuedTo (gg_world g) p id → issuedTo (gg_world g') p id) →
  linked g' → rounds_ok g → rounds_ok g'.
Proof.
  intros Hc Hw Hl (Hn & Hi & _). split; [|split; [|done]].
  - eapply NoDup_part; [by apply fmap_submseteq|done].
  - intros p id Hp. apply Hw, Hi. by eapply elem_of_submseteq.
Qed.

Lemma linked_heap heap heap' calls : (∀ a, playerId <$> heap !! a = playerId <$> heap' !! a ∨ heap !! a = None) →
  Forall (call_linked heap) calls → Forall (call_linked heap') calls.
Proof.
  intros Hh H. eapply Forall_impl; [exact H|]. intros [? a ? ? ?|? a ? ? ? ?| | | | |]; cbn; try done; by destruct (Hh a) as [-> | ->].
Qed.

Lemma heap_same (f : GameSession → GameSession) a (heap : list GameSession) a' : (∀ s, playerId (f s) = playerId s) →
  playerId <$> heap !! a' = playerId <$> alter f a heap !! a' ∨ heap !! a' = None.
Proof.
  intros Hf. left. destruct (decide (a = a')) as [<-|Hne]; [|by rewrite list_lookup_alter_ne].
  rewrite list_lookup_alter_eq. destruct (heap !! a); cbn; [by rewrite Hf|done].
Qed.

(** What the limiter, the outbox and the tables of sockets hold does not matter. *)
Lemma rounds_ok_same g g' : gg_calls g' = gg_calls g → gg_heap g' = gg_heap g → asked g' = asked g → gg_world g' = gg_world g →
  rounds_ok g → rounds_ok g'.
Proof. intros Hc Hh Ha Hw. unfold rounds_ok, claims, linked. by rewrite Hc, Hh, Ha, Hw. Qed.

Lemma tell_ok client m g : rounds_ok g → rounds_ok (tell client m g).
Proof. by apply rounds_ok_same. Qed.

Lemma allowed_ok client event k (g : St) : (∀ g, rounds_ok g → rounds_ok (k g)) → rounds_ok g → rounds_ok (allowed client event k g).
Proof.
  intros Hk Hg. unfold allowed. destruct (consume _ _ _) as [[] l]; [apply Hk|]; by apply (rounds_ok_same g).
Qed.

Lemma with_session_ok client k (g : St) :
  (∀ a s, gg_heap g !! a = Some s → rounds_ok g → rounds_ok (k a s g)) → rounds_ok g → rounds_ok (with_session client k g).
Proof.
  intros Hk Hg. unfold with_session, session_of. destruct (gg_sessions g !! client) as [a|]; [|by apply tell_ok]. cbn.
  destruct (gg_heap g !! a) as [s|] eqn:E; [by apply Hk|by apply tell_ok].
Qed.

(** A new handler that claims what the sessions gave up. *)
Lemma begin_ok (g g' : St) c : gg_calls g' = gg_calls g ++ [c] → asked g' = asked g → gg_world g' = gg_world g →
  (∀ a, playerId <$> gg_heap g !! a = playerId <$> gg_heap g' !! a ∨ gg_heap g !! a = None) →
  call_linked (gg_heap g') c → call_claims c ++ (gg_heap g' ≫= session_claims) ⊆+ (gg_heap g ≫= session_claims) →
  rounds_ok g → rounds_ok g'.
Proof.
  intros Hc Ha Hw Hh Hl Hs Hg. apply (rounds_ok_mono g); [|by rewrite Hw| |done].
  - unfold claims. rewrite Hc, Ha, bind_app. cbn. rewrite app_nil_r, <-app_assoc. by do 2 apply submseteq_skips_l.
  - unfold linked. rewrite Hc. apply Forall_app. split; [|by apply Forall_singleton]. eapply linked_heap; [exact Hh|apply Hg].
Qed.

Lemma gather {A} (a b r h : list A) : a ++ (b ++ r) ++ h ≡ₚ r ++ (a ++ b ++ h).
Proof. by rewrite <-app_assoc, !app_assoc, (Permutation_app_comm (a ++ b)), <-!app_assoc. Qed.

(** A handler that goes on as [c'], with what it claimed or less. *)
Lemma become_ok i c c' (g g' : St) : gg_calls g !! i = Some c → gg_calls g' = <[i := c']> (gg_calls g) →
  (∀ a, playerId <$> gg_heap g !! a = playerId <$> gg_heap g' !! a ∨ gg_heap g !! a = None) →
  (∀ p id, issuedTo (gg_world g) p id → issuedTo (gg_world g') p id) → (call_linked (gg_heap g) c → call_linked (gg_heap g) c') →
  asked g' ++ call_claims c' ++ (gg_heap g' ≫= session_claims) ⊆+ asked g ++ call_claims c ++ (gg_heap g ≫= session_claims) →
  rounds_ok g → rounds_ok g'.
Proof.
  intros Hi Hc Hh Hw Hl Hs Hg. destruct (bind_insert call_claims _ _ _ c' Hi) as [H1 H2]. apply (rounds_ok_mono g); [|done| |done].
  - unfold claims. rewrite Hc, H1, H2, !gather. by apply submseteq_skips_l.
  - unfold linked. rewrite Hc. eapply linked_heap; [exact Hh|].
    apply Forall_insert; [apply Hg|]. apply Hl. by eapply Forall_lookup_1; [apply Hg|].
Qed.

Lemma handleConnection_ok client h g : rounds_ok g → rounds_ok (handleConnection client h g).
Proof.
  intros Hg. unfold handleConnection. destruct (present (extractToken h) ≫= verifyToken) as [userId|].
  - destruct (acquire userId client (gg_limiter g)) as [[] l]; [|by apply (rounds_ok_same g)].
    apply tell_ok. apply (rounds_ok_mono g); [|done| |done].
    + unfold claims. cbn. by rewrite bind_app, app_nil_r.
    + eapply linked_heap; [|apply Hg]. intros a. cbn. destruct (decide (a < length (gg_heap g))%nat).
      * left. by rewrite lookup_app_l.
      * right. apply lookup_ge_None. lia.
  - by apply (rounds_ok_same g).
Qed.

Lemma handleRequestLyric_ok client options g : rounds_ok g → rounds_ok (handleRequestLyric client options g).
Proof.
  apply allowed_ok. intros g'. apply with_session_ok. intros a s Hs Hg.
  eapply (begin_ok g'); try done; [by left|]. cbn. by rewrite Hs.
Qed.

Lemma handleRequestHint_ok client g : rounds_ok g → rounds_ok (handleRequestHint client g).
Proof.
  apply allowed_ok. intros g'. apply with_session_ok. intros a s Hs Hg. destruct (present (currentRoundId s)); [|by apply tell_ok].
  eapply (begin_ok g'); try done. by left.
Qed.

Lemma handleGetSession_ok client g : rounds_ok g → rounds_ok (handleGetSession client g).
Proof. apply allowed_ok. intros g'. apply with_session_ok. intros a s Hs Hg. by apply tell_ok. Qed.

Lemma handleSubmitGuess_ok client guess g : rounds_ok g → rounds_ok (handleSubmitGuess client guess g).
Proof.
  apply allowed_ok. intros g'. apply with_session_ok. intros a s Hs Hg. destruct (validateGuess _); [by apply tell_ok|].
  destruct (present (currentRoundId s)) as [id|] eqn:Hid; [|by apply tell_ok]. apply present_Some in Hid.
  eapply (begin_ok g'); try done; cbn.
  - intros a'. left. destruct (decide (a = a')) as [<-|]; [|by rewrite list_lookup_insert_ne].
    rewrite list_lookup_insert_eq by by eapply lookup_lt_Some. by rewrite Hs.
  - destruct (bind_insert session_claims _ _ _ (s <| currentRoundId := None |>) Hs) as [-> ->]. cbn.
    unfold session_claims at 2. by rewrite Hid.
Qed.

(** A session that comes to hold a round gives up the one it held. *)
Lemma session_takes a (heap : list GameSession) player (f : GameSession → GameSession) id : playerId <$> heap !! a = Some player →
  (∀ s, playerId (f s) = playerId s ∧ currentRoundId (f s) = Some id) →
  (alter f a heap ≫= session_claims) ⊆+ (player, id) :: (heap ≫= session_claims).
Proof.
  intros (s & Hs & ->)%fmap_Some Hf. destruct (Hf s) as [Hp Hc].
  assert (alter f a heap = <[a := f s]> heap) as ->.
  { apply list_eq. intros j. destruct (decide (a = j)) as [<-|].
    - rewrite list_lookup_alter_eq, list_lookup_insert_eq, Hs by by eapply lookup_lt_Some. done.
    - by rewrite list_lookup_alter_ne, list_lookup_insert_ne. }
  destruct (bind_insert session_claims _ _ _ (f s) Hs) as [-> ->]. unfold session_claims at 1. rewrite Hp, Hc. cbn.
  apply submseteq_skip. by apply submseteq_inserts_l.
Qed.

Lemma session_forgets a (heap : list GameSession) (f : GameSession → GameSession) : (∀ s, session_claims (f s) = session_claims s) →
  (alter f a heap ≫= session_claims) = (heap ≫= session_claims).
Proof.
  intros Hf. revert a. induction heap as [|s heap IH]; intros [|a]; cbn; [done..| |].
  - by rewrite Hf.
  - f_equal. apply IH.
Qed.

(** The service gives a round out: its identifier is nowhere yet. *)
Lemma issued_ok i client a player options x round w g : gg_calls g !! i = Some (Issuing client a player options x) →
  issueRound player options x (gg_world g) = (Ok round, w) → rounds_ok g →
  rounds_ok (g <| gg_world := w |> <| gg_calls := <[i := Issued client a player options x (Ok round)]> (gg_calls g) |>).
Proof.
  intros Hi Hw (Hn & Hk & Hl). destruct (issue_fresh _ _ _ _ _ _ Hw) as [Hnew Hfresh].
  set (g' := g <| gg_world := w |> <| gg_calls := _ |>).
  assert (claims g' ≡ₚ (player, ir_roundId round) :: claims g) as Hc.
  { destruct (bind_insert call_claims _ _ _ (Issued client a player options x (Ok round)) Hi) as [H1 H2].
    unfold claims. cbn. rewrite H1, H2. symmetry. apply Permutation_middle. }
  split; [|split].
  - rewrite Hc. cbn. constructor; [|done]. intros ([p id] & Heq & Hp)%list_elem_of_fmap. apply (Hfresh p), Hk. by rewrite Heq.
  - intros p id. rewrite Hc. intros [[= -> ->]|Hp]%elem_of_cons; [done|]. cbn.
    replace w with (issueRound player options x (gg_world g)).2 by by rewrite Hw. by apply issue_keeps, Hk.
  - unfold linked. cbn. apply Forall_insert; [done|]. exact (Forall_lookup_1 _ _ _ _ Hl Hi).
Qed.

Lemma resume_ok i g : rounds_ok g → rounds_ok (resume i g).
Proof.
  intros Hg. unfold resume. destruct (gg_calls g !! i) as [[client a player options x|client a player options x r|client player id guess
    |client r|client player id|client r|]|] eqn:Hi; [..|done|done].
  - destruct (issueRound player options x (gg_world g)) as [[round|e] w] eqn:Hw; [exact (issued_ok i client a player options x round w g Hi Hw Hg)|].
    eapply (become_ok _ _ _ g); [exact Hi|reflexivity|by left| |done|done|done]. cbn. intros p id.
    replace w with (issueRound player options x (gg_world g)).2 by by rewrite Hw. apply issue_keeps.
  - assert (playerId <$> gg_heap g !! a = Some player) as Hp.
    { destruct Hg as (_ & _ & Hl). exact (Forall_lookup_1 _ _ _ _ Hl Hi). }
    destruct r as [round|e].
    + apply tell_ok. eapply (become_ok _ _ _ g); try done; cbn; [intros a'; by apply heap_same|].
      apply submseteq_skips_l. by apply (session_takes _ _ player).
    + destruct (is_not_found e && _).
      * eapply (become_ok _ _ _ g); try done; cbn; [intros a'; by apply heap_same|]. by rewrite session_forgets.
      * apply tell_ok. eapply (become_ok _ _ _ g); try done. by left.
  - destruct (guessRound player id guess (gg_world g)) as [r w] eqn:Hw.
    eapply (become_ok _ _ _ g); try done; cbn; [by left| |by rewrite <-app_assoc]. intros p id'.
    replace w with (guessRound player id guess (gg_world g)).2 by by rewrite Hw. apply guess_keeps.
  - apply tell_ok. eapply (become_ok _ _ _ g); try done. by left.
  - destruct (useHint player id (gg_world g)) as [r w] eqn:Hw. eapply (become_ok _ _ _ g); try done; cbn; [by left|].
    intros p id'. replace w with (useHint player id (gg_world g)).2 by by rewrite Hw. apply hint_keeps.
  - apply tell_ok. eapply (become_ok _ _ _ g); try done. by left.
Qed.

Lemma game_run_ok s g : rounds_ok g → rounds_ok (game_run g s).
Proof.
  destruct s; cbn [game_run].
  - apply handleConnection_ok.
  - by apply rounds_ok_same.
  - apply handleRequestLyric_ok.
  - apply handleSubmitGuess_ok.
  - apply handleRequestHint_ok.
  - apply handleGetSession_ok.
  - apply resume_ok.
Qed.

Lemma started_ok l w : rounds_ok (started l w).
Proof. split; [constructor|split; [|constructor]]. intros p id H. by apply elem_of_nil in H. Qed.

Lemma foldl_ok steps g : rounds_ok g → rounds_ok (foldl game_run g steps).
Proof. revert g. induction steps as [|s steps IH]; intros g Hg; [done|]. by apply IH, game_run_ok. Qed.
End claims.

(** ** Properties *)

Section game_properties.
Context {L W Opt Hint : Type} `{!GatewayDeps L} `{!GameLogic W Opt Hint}.

(** However messages, answers of the service and broken connections interleave, the gateway asks for no round to be
    scored twice, and only for the player it was issued to: an answer that a guess has revealed cannot be sent again. *)
Theorem guesses_asked_once (issuedTo : W → string → string → Prop) `{!FreshRounds issuedTo} (l : L) (w : W) steps :
  let g := foldl game_run (started l w) steps in
  NoDup (snd <$> asked g) ∧ ∀ player roundId, (player, roundId) ∈ asked g → issuedTo (gg_world g) player roundId.
Proof.
  cbn zeta. destruct (foldl_ok issuedTo steps _ (started_ok issuedTo l w)) as (Hn & Hi & _). split.
  - eapply NoDup_part; [|exact Hn]. apply fmap_submseteq. by apply submseteq_inserts_r.
  - intros player id H. apply Hi, elem_of_app. by left.
Qed.
End game_properties.

(** ** A run *)

Module GameDemo.
#[local] Existing Instance GatewayDemo.demo_deps.

(** A game of two lyrics; the state is the players that rounds were issued to, in order. *)
Definition song (id : Z) : Lyrics := mkLyrics id "Adele" [] "words" "Hello" [] None "Pop" "2010s" 3 true 0 "seed" 0 0.
Definition round_name (n : nat) : string := "round-" +:+ show (Z.of_nat n).
#[export] Instance demo_game : GameLogic (list string) unit string := {|
  issueRound := λ player _ excludeIds w,
    match List.filter (λ id, negb (bool_decide (id ∈ excludeIds))) [1; 2] with
    | id :: _ => (Ok (mkIssued (round_name (length w)) 0 20 (song id)), w ++ [player])
    | [] => (Err (NotFound "No lyrics"), w)
    end;
  guessRound := λ _ _ guess w, (Ok (mkGuess (sg_guessValue guess == "Hello") "Hello" None None None None None), w);
  useHint := λ _ _ w, (Ok "Pop", w);
  validateGuess := λ s, if nonempty s then None else Some "Guess is empty";
|}.

Definition demo_issued (w : list string) (player id : string) : Prop := ∃ n, w !! n = Some player ∧ id = round_name n.

#[export] Instance demo_fresh : FreshRounds demo_issued.
Proof.
  split; cbn; [|intros player _ x w p id (n & Hn & ->)|done..].
  - intros player _ x w round w'. case_match; [done|]. intros [= <- <-]. cbn. split.
    + exists (length w). by rewrite list_lookup_middle.
    + intros p (n & Hn & Hid). apply lookup_lt_Some in Hn. unfold round_name in Hid. simplify_eq/=.
      apply show_inj in Hid; lia.
  - exists n. split; [|done]. case_match; [done|]. cbn. by apply lookup_app_l_Some.
Qed.

Definition guess : SocketGuess := mkSocketGuess "songTitle" "Hello".
Definition demo_game_steps : list (game_step unit) :=
  [ Connects "c1" (GatewayDemo.hello "ann"); RequestLyric "c1" tt; RequestLyric "c1" tt; Resume 0; Resume 1; Resume 0; Resume 1;
    SubmitGuess "c1" guess; SubmitGuess "c1" guess; Resume 2; Resume 2; RequestLyric "c1" tt; Resume 3; Resume 3;
    RequestLyric "c1" tt; Resume 4; Resume 4; Resume 4; Resume 4; SubmitGuess "c1" guess; Disconnects "c1"; Resume 5; Resume 5 ].
Definition demo_game_end : GameGw nat (list string) unit string := foldl game_run (started 0%nat []) demo_game_steps.

(** Two requests at once serve the same lyric twice; the first round is lost with the second's arrival; the second
    guess has nothing to guess; the third lyric is new, and the fourth starts the lyrics over. *)
Example demo_messages : (snd <$> gg_out demo_game_end) =
  [ GameConnected "c1"; newLyric (mkIssued "round-0" 0 20 (song 1)); newLyric (mkIssued "round-1" 0 20 (song 1));
    GameError "Request a lyric before guessing"; GuessResultMessage (mkGuess true "Hello" None None None None None);
    newLyric (mkIssued "round-2" 0 20 (song 2)); newLyric (mkIssued "round-3" 0 20 (song 1));
    GuessResultMessage (mkGuess true "Hello" None None None None None) ].
Proof. vm_compute. reflexivity. Qed.

Lemma guesses_asked_once_witness : asked demo_game_end = [("ann", "round-1"); ("ann", "round-3")] ∧
  NoDup (snd <$> asked demo_game_end) ∧
  ∀ player roundId, (player, roundId) ∈ asked demo_game_end → demo_issued (gg_world demo_game_end) player roundId.
Proof. split; [vm_compute; reflexivity|]. exact (guesses_asked_once demo_issued 0%nat [] demo_game_steps). Defined.
End GameDemo.
