(* ===== verification/LyricsService.v ===== *)
(** * Lyrics (src/src/lyrics/lyrics.service.ts, game/progression.util.ts)

    [LyricsService] as far as its source goes: adding a lyric, listing, reading through the cache, taking a source down and
    restoring.  Cached lyrics are found under keys that carry a version, which every change raises.
    [getOrLoad] is called and not in the repository: it is a parameter, with what its name and its
    use say of it as a law. *)

From S2P Require Import Prelude Decimal Amount Number Entities.
From stdpp Require Import gmap sorting.
From Stdlib Require Import Ascii.

#[local] Open Scope Z_scope.

(** ** Decades (progression.util.ts) *)

Definition ends_with_s (s : string) : bool := String.substring (String.length s - 1) 1 s == "s".

Definition normalizeDecade (input : string) : string :=
  let raw := trim input in
  match number_of (if ends_with_s raw then String.substring 0 4 raw else raw) with
  | Decimal m e => show (floor_tens m e) +:+ "s"
  | NotANumber | Infinity _ => raw
  end.

(** ** Rows *)

Definition MAX_LYRIC_SNIPPET_LENGTH : nat := 150.
Definition LYRICS_NAMESPACE_KEY : string := "lyrics:ns".
Definition lyricsTtlMs : Z := 5 * 60 * 1000.
Definition MAX_PAGE_SIZE : Z := 100.
Definition Genre : list string := ["Afrobeats"; "Hip-Hop"; "Pop"; "Other"].

(** A row: what the game reads of it, and what only this service writes. *)
Record LyricRow := mkLyricRow {
  lr_lyrics : Lyrics;
  lr_content : option string;
  lr_sourceUrl : option string;
  lr_licence : option string;
  lr_addedBy : option string;
  lr_createdBy : option string;
}.
#[export] Instance LyricRow_settable : Settable LyricRow := λ r,
  mkLyricRow (lr_lyrics r) (lr_content r) (lr_sourceUrl r) (lr_licence r) (lr_addedBy r) (lr_createdBy r).

Record CreateLyricsDto := mkCreateDto {
  c_content : option string;
  c_lyricSnippet : option string;
  c_source : string;
  c_sourceUrl : option string;
  c_licence : option string;
  c_artist : string;
  c_artistAliases : option (list string);
  c_songTitle : string;
  c_titleAliases : option (list string);
  c_genre : string;
  c_decade : Z;
  c_category : option string;
  c_difficulty : option Z;
}.

Inductive AdminLyricSortBy := CREATED_AT | TITLE | ARTIST.
Inductive SortOrder := ASC | DESC.

Record AdminLyricsFilter := mkAdminFilter {
  f_limit : Z;
  f_offset : Z;
  f_sortBy : option AdminLyricSortBy;
  f_sortOrder : option SortOrder;
  f_isActive : option bool;
  f_source : option string;
}.

Inductive cached := CachedVersion (n : Z) | CachedLyric (row : LyricRow).

(** The table and its sequence, the cache that instances share (each entry with the time it expires at), this
    instance's generation, and the clock. *)
Record LyricsDb := mkLyricsDb {
  lyrics : gmap Z LyricRow;
  nextId : Z;
  cache : gmap string (cached * Z);
  cacheGeneration : Z;
  clock : Z;
}.
#[export] Instance LyricsDb_settable : Settable LyricsDb := λ d,
  mkLyricsDb (lyrics d) (nextId d) (cache d) (cacheGeneration d) (clock d).

Local Abbreviation M := (M LyricsDb).

(** ** The cache *)

Definition live (d : LyricsDb) (key : string) : option cached :=
  '(v, expires) ← cache d !! key; if clock d <? expires then Some v else None.
Definition store (key : string) (v : cached) (ttl : Z) (d : LyricsDb) : LyricsDb :=
  d <| cache := <[key := (v, clock d + ttl)]> (cache d) |>.

Definition getNamespaceVersion : M Z :=
  gets (λ d, match live d LYRICS_NAMESPACE_KEY with Some (CachedVersion n) => n | _ => 0 end).

Definition namespacedKey (version : Z) (key : string) : string := "lyrics:v" +:+ show version +:+ ":" +:+ key.

Definition clearCache : M unit :=
  modify (λ d, d <| cacheGeneration := cacheGeneration d + 1 |>);;
  current ← getNamespaceVersion;
  modify (store LYRICS_NAMESPACE_KEY (CachedVersion (current + 1)) lyricsTtlMs).

(** What the cache says is what [getOrLoad] answers; a lyric that it loads may be kept. *)
Class Loader := {
  getOrLoad : string → Z → M LyricRow → M LyricRow;
  getOrLoad_hit key ttl load d row : live d key = Some (CachedLyric row) → getOrLoad key ttl load d = (Ok row, d);
  getOrLoad_load key ttl load d : (∀ row, live d key ≠ Some (CachedLyric row)) →
    match load d with
    | (Ok row, d') => ∃ kept : bool, getOrLoad key ttl load d = (Ok row, if kept then store key (CachedLyric row) ttl d' else d')
    | (Err e, d') => getOrLoad key ttl load d = (Err e, d')
    end;
}.

(** ** Adding *)

Definition unique_violation : exn := PlainError "23505" "duplicate key value violates unique constraint".
Definition check_violation : exn := PlainError "23514" "violates check constraint".
Definition too_long : exn := PlainError "22001" "value too long for type character varying(200)".

(** [save] of a new row, with the constraints of the table. *)
Definition insert_lyric (mk : Z → Z → LyricRow) : M LyricRow :=
  d ← gets id;
  let row := mk (nextId d) (clock d) in
  let l := lr_lyrics row in
  throw_if (200 <? strlen (ly_songTitle l)) too_long;;
  throw_if (negb ((1 <=? ly_difficulty l) && (ly_difficulty l <=? 5))) check_violation;;
  throw_if (existsb (λ r : LyricRow, (ly_artist (lr_lyrics r) == ly_artist l) && (ly_songTitle (lr_lyrics r) == ly_songTitle l))
    (map_to_list (lyrics d)).*2) unique_violation;;
  modify (λ d, d <| lyrics := <[nextId d := row]> (lyrics d) |> <| nextId := nextId d + 1 |>);;
  mret row.

Definition assertSnippetWithinLimit (snippet : string) : M unit :=
  throw_if (MAX_LYRIC_SNIPPET_LENGTH <? String.length snippet)%nat
    (BadRequest "lyricSnippet must be at most 150 characters").

(** [dto.lyricSnippet?.trim() || (dto.content ?? '').slice(0, 150).trim()] *)
Definition snippet_of (dto : CreateLyricsDto) : string :=
  default (trim (String.substring 0 MAX_LYRIC_SNIPPET_LENGTH (default "" (c_content dto)))) (present (trim <$> c_lyricSnippet dto)).

Definition create (dto : CreateLyricsDto) (user : option string) : M LyricRow :=
  let lyricSnippet := snippet_of dto in
  assertSnippetWithinLimit lyricSnippet;;
  throw_if (negb (nonempty lyricSnippet)) (BadRequest "Either lyricSnippet or content must be provided");;
  savedLyrics ← insert_lyric (λ id now,
    mkLyricRow
      (mkLyrics id (c_artist dto) (default [] (c_artistAliases dto)) lyricSnippet (c_songTitle dto)
        (default [] (c_titleAliases dto)) (c_category dto) (c_genre dto)
        (if c_decade dto =? 0 then "0" else normalizeDecade (show (c_decade dto)))
        (default 3 (c_difficulty dto)) true 0 (c_source dto) now now)
      None (c_sourceUrl dto) (c_licence dto) user user);
  clearCache;;
  mret savedLyrics.

(** ** Lists *)

Definition by_id (a b : LyricRow) : Prop := ly_id (lr_lyrics a) ≤ ly_id (lr_lyrics b).
#[export] Instance by_id_dec : RelDecision by_id.
Proof. intros a b. unfold by_id. apply _. Defined.

Definition lyric_rows (d : LyricsDb) : list LyricRow := (map_to_list (lyrics d)).*2.

(** [WHERE] genre and decade are those asked for, and the lyric is active *)
Definition listed (genre decade : option string) (r : LyricRow) : bool :=
  match genre with Some g => ly_genre (lr_lyrics r) == g | None => true end &&
  match decade with Some s => ly_decade (lr_lyrics r) == s | None => true end &&
  ly_isActive (lr_lyrics r).

Definition findAll (genre decade : option string) (limit offset : nat) : M (list LyricRow) :=
  let genre := present genre in
  let decade := normalizeDecade <$> present decade in
  throw_if (match genre with Some g => negb (bool_decide (g ∈ Genre)) | None => false end)
    (BadRequest "Invalid genre. Valid genres are: Afrobeats, Hip-Hop, Pop, Other");;
  throw_if (match decade with Some s => negb (nonempty s) | None => false end)
    (BadRequest "Invalid decade. Please provide a decade such as 1990 or 1990s");;
  gets (λ d, take limit (drop offset (merge_sort by_id (List.filter (listed genre decade) (lyric_rows d))))).

Definition count (isActive : option bool) : M nat :=
  gets (λ d : LyricsDb, length (List.filter (λ r, match isActive with Some b => Bool.eqb (ly_isActive (lr_lyrics r)) b | None => true end) (lyric_rows d))).

Definition normalizeSource (source : string) : string := lower (trim source).

Section findAllForAdmin.
(** [a] comes before [b], or is equal to it, in the database's collation. *)
Context (collation : string → string → bool).

Definition ADMIN_LYRIC_SORT_COLUMNS (sortBy : AdminLyricSortBy) (a b : LyricRow) : bool :=
  let a := lr_lyrics a in let b := lr_lyrics b in
  match sortBy with
  | CREATED_AT => ly_createdAt a <=? ly_createdAt b
  | TITLE => collation (ly_songTitle a) (ly_songTitle b)
  | ARTIST => collation (ly_artist a) (ly_artist b)
  end.

(** [ORDER BY] the column, then the id. *)
Definition admin_before (sortBy : AdminLyricSortBy) (sortOrder : SortOrder) (a b : LyricRow) : Prop :=
  let le a b := match sortOrder with
    | ASC => ADMIN_LYRIC_SORT_COLUMNS sortBy a b
    | DESC => ADMIN_LYRIC_SORT_COLUMNS sortBy b a
    end in
  le a b = true ∧ (le b a = true → ly_id (lr_lyrics a) ≤ ly_id (lr_lyrics b)).
#[export] Instance admin_before_dec sortBy sortOrder : RelDecision (admin_before sortBy sortOrder).
Proof.
  intros a b. unfold admin_before. destruct sortOrder.
  all: apply and_dec; [apply _|].
  all: match goal with |- Decision (?x = true → _) => destruct x eqn:E end; [|by left].
  all: destruct (decide (ly_id (lr_lyrics a) ≤ ly_id (lr_lyrics b))); [by left|right; auto].
Defined.

Definition admin_selected (filter : AdminLyricsFilter) (r : LyricRow) : bool :=
  match f_isActive filter with Some b => Bool.eqb (ly_isActive (lr_lyrics r)) b | None => true end &&
  match present (f_source filter) with Some s => ly_source (lr_lyrics r) == normalizeSource s | None => true end.

Definition findAllForAdmin (filter : AdminLyricsFilter) : M (list LyricRow * nat) :=
  let limit := Z.min (Z.max (f_limit filter) 1) MAX_PAGE_SIZE in
  let offset := Z.max (f_offset filter) 0 in
  gets (λ d,
    let rows := merge_sort (admin_before (default CREATED_AT (f_sortBy filter)) (default DESC (f_sortOrder filter)))
      (List.filter (admin_selected filter) (lyric_rows d)) in
    (take (Z.to_nat limit) (drop (Z.to_nat offset) rows), length rows)).
End findAllForAdmin.

(** ** Taking down and restoring *)

(** [UPDATE lyrics SET isActive = false WHERE source = $1 AND isActive RETURNING id] *)
Definition from_source (source : string) (r : LyricRow) : bool :=
  (ly_source (lr_lyrics r) == source) && ly_isActive (lr_lyrics r).
Definition deactivated (now : Z) (r : LyricRow) : LyricRow :=
  r <| lr_lyrics := lr_lyrics r <| ly_isActive := false |> <| ly_updatedAt := now |> |>.

Definition deactivateBySource (source : string) : M (string * list Z) :=
  let normalized := normalizeSource source in
  throw_if (negb (nonempty normalized)) (BadRequest "source is required");;
  d ← gets id;
  let ids := (List.filter (λ e, from_source normalized e.2) (map_to_list (lyrics d))).*1 in
  modify (λ d, d <| lyrics := (λ r, if from_source normalized r then deactivated (clock d) r else r) <$> lyrics d |>);;
  (if bool_decide (ids = []) then mret tt else clearCache);;
  mret (normalized, ids).

Definition findOneIncludingInactive (id : Z) : M LyricRow :=
  throw_if (id <=? 0) (BadRequest "Invalid lyrics ID");;
  row ← gets (λ d, lyrics d !! id);
  require row (NotFound "Lyrics not found").

Definition restore (id : Z) : M LyricRow :=
  row ← findOneIncludingInactive id;
  throw_if (ly_isActive (lr_lyrics row)) (Conflict "Lyrics is already active");;
  now ← gets clock;
  let restored := row <| lr_lyrics := lr_lyrics row <| ly_isActive := true |> <| ly_updatedAt := now |> |> in
  modify (λ d, d <| lyrics := <[id := restored]> (lyrics d) |>);;
  clearCache;;
  mret restored.

(** ** Reading *)

Section findOne.
Context {loader : Loader}.

Definition load_active (id : Z) : M LyricRow :=
  row ← gets (λ d, lyrics d !! id);
  require (match row with Some r => if ly_isActive (lr_lyrics r) then Some r else None | None => None end)
    (NotFound "Lyrics not found").

Definition lyric_key (id : Z) : string := "lyrics:" +:+ show id.

Definition findOne (id : Z) : M LyricRow :=
  throw_if (id <=? 0) (BadRequest "Invalid lyrics ID");;
  version ← getNamespaceVersion;
  getOrLoad (namespacedKey version (lyric_key id)) lyricsTtlMs (load_active id).
End findOne.

(** ** What happens to the lyrics *)

Section lyrics_ops.
Context {loader : Loader}.

Inductive lyrics_op :=
  | AddLyric (dto : CreateLyricsDto) (user : option string)
  | TakeDown (source : string)
  | RestoreLyric (id : Z)
  | ReadLyric (id : Z)
  | Wait (ms : nat).

Definition run_op (d : LyricsDb) (op : lyrics_op) : LyricsDb :=
  match op with
  | AddLyric dto user => (create dto user d).2
  | TakeDown source => (deactivateBySource source d).2
  | RestoreLyric id => (restore id d).2
  | ReadLyric id => (findOne id d).2
  | Wait ms => d <| clock := clock d + Z.of_nat ms |>
  end.
End lyrics_ops.

(** *** Decades *)

Lemma normalizeDecade_nonempty s : normalizeDecade s ≠ "".
Proof.
  unfold normalizeDecade. destruct (trim s) as [|c t] eqn:E; [done|].
  destruct (number_of _) as [|n|m e]; [done..|]. by destruct (show _).
Qed.

(** *** Keys *)

Lemma until_colon a b x y : string_forallb is_digit a = true → string_forallb is_digit b = true →
  a +:+ ":" +:+ x = b +:+ ":" +:+ y → a = b ∧ x = y.
Proof.
  revert b. induction a as [|c a IH]; intros [|c' b]; cbn; [by intros _ _ [=]|..].
  - intros _ [Hc _]%andb_true_iff [= <- _]. done.
  - intros [Hc _]%andb_true_iff _ [= -> _]. done.
  - intros [_ Ha]%andb_true_iff [_ Hb]%andb_true_iff [= -> H]. by destruct (IH b Ha Hb H) as [-> ->].
Qed.

Lemma namespacedKey_inj v v' k k' : 0 ≤ v → 0 ≤ v' → namespacedKey v k = namespacedKey v' k' → v = v' ∧ k = k'.
Proof.
  intros Hv Hv'. unfold namespacedKey. cbn. intros [= H].
  assert (∀ z, 0 ≤ z → string_forallb is_digit (show z) = true) as Hd.
  { intros z Hz. unfold show. destruct (Z.ltb_spec z 0); [lia|]. by apply digits_show_nat. }
  apply until_colon in H as [H1 H2]; [|by apply Hd..]. split; [by apply show_inj|done].
Qed.

Lemma namespacedKey_ns v k : namespacedKey v k ≠ LYRICS_NAMESPACE_KEY.
Proof. done. Qed.

Lemma lyric_key_inj id id' : lyric_key id = lyric_key id' → id = id'.
Proof. unfold lyric_key. cbn. intros [= H]. by apply show_inj. Qed.

(** *** The version *)

(** The version last stored, and whether the cache still has it. *)
Definition stored_version (d : LyricsDb) : Z :=
  match cache d !! LYRICS_NAMESPACE_KEY with Some (CachedVersion n, _) => n | _ => 0 end.
Definition alive (d : LyricsDb) : Prop :=
  match cache d !! LYRICS_NAMESPACE_KEY with Some (_, expires) => clock d < expires | None => True end.

(** No lyric is cached under a version to come. *)
Definition bounded (d : LyricsDb) : Prop :=
  0 ≤ stored_version d ∧
  ∀ v id row e, 0 ≤ v → cache d !! namespacedKey v (lyric_key id) = Some (CachedLyric row, e) → v ≤ stored_version d.

(** What is cached under the version of now is what the table holds. *)
Definition cache_ok (d : LyricsDb) : Prop :=
  bounded d ∧
  ∀ id row e, cache d !! namespacedKey (stored_version d) (lyric_key id) = Some (CachedLyric row, e) → clock d < e →
    lyrics d !! id = Some row ∧ ly_isActive (lr_lyrics row) = true.

Lemma version_alive d : alive d → getNamespaceVersion d = (Ok (stored_version d), d).
Proof.
  unfold alive, getNamespaceVersion, gets, live, stored_version. destruct (cache d !! LYRICS_NAMESPACE_KEY) as [[v e]|]; [|done].
  intros H. cbn. by rewrite (proj2 (Z.ltb_lt _ _) H).
Qed.

Lemma bounded_same d d' : cache d' = cache d → bounded d → bounded d'.
Proof. intros Hc. unfold bounded, stored_version. by rewrite Hc. Qed.
Lemma alive_same d d' : cache d' = cache d → clock d' = clock d → alive d → alive d'.
Proof. intros Hc Ht. unfold alive. by rewrite Hc, Ht. Qed.

(** Raising the version leaves nothing to be found. *)
Lemma clearCache_ok d : bounded d → alive d → ∃ d', clearCache d = (Ok tt, d') ∧ cache_ok d' ∧ lyrics d' = lyrics d ∧ clock d' = clock d.
Proof.
  intros [Hv Hb] Ha. unfold clearCache. rewrite bind_modify. set (d1 := d <| cacheGeneration := _ |>).
  rewrite (bind_run _ _ _ _ _ (version_alive d1 Ha)). unfold modify. eexists. split; [done|]. cbn [lyrics clock store].
  split; [|done]. change (stored_version d1) with (stored_version d). unfold cache_ok, bounded.
  assert (stored_version (store LYRICS_NAMESPACE_KEY (CachedVersion (stored_version d + 1)) lyricsTtlMs d1) = stored_version d + 1) as Hs.
  { unfold stored_version at 1. cbn. by rewrite lookup_insert_eq. }
  assert (∀ v id, cache (store LYRICS_NAMESPACE_KEY (CachedVersion (stored_version d + 1)) lyricsTtlMs d1) !! namespacedKey v (lyric_key id) =
    cache d !! namespacedKey v (lyric_key id)) as Hk by (intros; apply lookup_insert_ne; symmetry; apply namespacedKey_ns).
  rewrite Hs. split; [split; [lia|]|].
  - intros v id row e H0. rewrite Hk. intros H. apply Hb in H; lia.
  - intros id row e. rewrite Hk. intros H. apply Hb in H; lia.
Qed.

Lemma cache_ok_later d d' : cache d' = cache d → lyrics d' = lyrics d → clock d ≤ clock d' → cache_ok d → cache_ok d'.
Proof.
  intros Hc Hl Ht [Hb Hf]. split; [by apply (bounded_same d)|]. intros id row e.
  replace (stored_version d') with (stored_version d) by (unfold stored_version; by rewrite Hc).
  rewrite Hc, Hl. intros H He. apply (Hf id row e H). lia.
Qed.

Lemma insert_lyric_run mk d : match insert_lyric mk d with
  | (Ok row, d') => row = mk (nextId d) (clock d) ∧ cache d' = cache d ∧ clock d' = clock d ∧ lyrics d' = <[nextId d := row]> (lyrics d)
  | (Err e, d') => d' = d ∧ (e = too_long ∨ e = check_violation ∨ e = unique_violation)
  end.
Proof.
  unfold insert_lyric. rewrite bind_gets, !bind_throw_if. cbn [id].
  destruct (200 <? _); [by eauto|]. destruct (negb _); [by eauto|]. destruct (existsb _ _); by eauto.
Qed.

Section preserved.
Context {loader : Loader}.

Lemma create_cached_ok dto user d : cache_ok d → alive d → cache_ok (create dto user d).2.
Proof.
  intros Hok Ha. unfold create, assertSnippetWithinLimit. rewrite bind_throw_if. destruct (_ <? _)%nat; [done|].
  rewrite bind_throw_if. destruct (negb _); [done|].
  match goal with |- context [insert_lyric ?mk] => pose proof (insert_lyric_run mk d) as Hi; destruct (insert_lyric mk d) as [[row|e] d1] eqn:E end.
  - rewrite (bind_run _ _ _ _ _ E). destruct Hi as (_ & Hc & Ht & _).
    destruct (clearCache_ok d1) as (d2 & Hrun & Hok2 & _); [by apply (bounded_same d), Hok|by apply (alive_same d)|].
    by rewrite (bind_run _ _ _ _ _ Hrun).
  - rewrite (bind_run_err _ _ _ _ _ E). by destruct Hi as [-> _].
Qed.

(** Nothing to take down: the statement changes nothing. *)
Lemma none_from source (m : gmap Z LyricRow) f : (List.filter (λ e, from_source source e.2) (map_to_list m)).*1 = [] →
  (λ r, if from_source source r then f r else r) <$> m = m.
Proof.
  intros Hnil. apply fmap_nil_inv in Hnil. apply map_eq. intros i. rewrite lookup_fmap. destruct (m !! i) as [r|] eqn:E; [|done]. cbn.
  destruct (from_source source r) eqn:Ef; [|done]. exfalso.
  assert ((i, r) ∈ List.filter (λ e : Z * LyricRow, from_source source e.2) (map_to_list m)) as Hin.
  { apply list_elem_of_In, List.filter_In. split; [apply list_elem_of_In; by apply elem_of_map_to_list|done]. }
  rewrite Hnil in Hin. by apply elem_of_nil in Hin.
Qed.

Lemma deactivateBySource_ok source d : cache_ok d → alive d → cache_ok (deactivateBySource source d).2.
Proof.
  intros Hok Ha. unfold deactivateBySource. rewrite bind_throw_if. destruct (negb _); [done|]. rewrite bind_gets, bind_modify. cbn [id].
  set (d1 := d <| lyrics := _ |>). case_bool_decide as Hn.
  - rewrite bind_ret. cbn. apply (cache_ok_later d); try done. subst d1. cbn. by apply none_from.
  - destruct (clearCache_ok d1) as (d2 & Hrun & Hok2 & _); [by apply (bounded_same d), Hok|by apply (alive_same d)|].
    by rewrite (bind_run _ _ _ _ _ Hrun).
Qed.

Lemma restore_cached_ok id d : cache_ok d → alive d → cache_ok (restore id d).2.
Proof.
  intros Hok Ha. unfold restore, findOneIncludingInactive. rewrite bind_assoc, bind_throw_if. destruct (id <=? 0); [done|].
  rewrite bind_assoc, bind_gets, bind_require. destruct (lyrics d !! id) as [row|]; [|done].
  rewrite bind_throw_if. destruct (ly_isActive _); [done|]. rewrite bind_gets, bind_modify.
  match goal with |- context [clearCache ≫= _] => idtac end. set (d1 := d <| lyrics := _ |>).
  destruct (clearCache_ok d1) as (d2 & Hrun & Hok2 & _); [by apply (bounded_same d), Hok|by apply (alive_same d)|].
  by rewrite (bind_run _ _ _ _ _ Hrun).
Qed.

(** What the table answers. *)
Definition current (id : Z) (d : LyricsDb) : result LyricRow :=
  if id <=? 0 then Err (BadRequest "Invalid lyrics ID")
  else match lyrics d !! id with
  | Some row => if ly_isActive (lr_lyrics row) then Ok row else Err (NotFound "Lyrics not found")
  | None => Err (NotFound "Lyrics not found")
  end.

Lemma load_active_run id d : 0 < id → load_active id d = (current id d, d).
Proof.
  intros Hid. unfold load_active, current. rewrite bind_gets. destruct (Z.leb_spec id 0); [lia|].
  destruct (lyrics d !! id) as [row|]; [|done]. by destruct (ly_isActive _).
Qed.

Lemma findOne_ok id d : cache_ok d → alive d → ∃ d', findOne id d = (current id d, d') ∧ cache_ok d'.
Proof.
  intros Hok Ha. unfold findOne. rewrite bind_throw_if. destruct (Z.leb_spec id 0) as [|Hid].
  { exists d. unfold current. destruct (Z.leb_spec id 0); [done|lia]. }
  rewrite (bind_run _ _ _ _ _ (version_alive d Ha)). set (key := namespacedKey _ _).
  assert ((∃ row, live d key = Some (CachedLyric row)) ∨ ∀ row, live d key ≠ Some (CachedLyric row)) as [[row Hl]|Hl].
  { destruct (live d key) as [[n|row]|]; [by right|left; by eexists|by right]. }
  - rewrite (getOrLoad_hit _ _ _ _ _ Hl). exists d. split; [|done]. f_equal. unfold live in Hl.
    destruct (cache d !! key) as [[v e]|] eqn:E; [|done]. cbn in Hl. destruct (Z.ltb_spec (clock d) e); [|done]. injection Hl as ->.
    destruct Hok as [_ Hf]. destruct (Hf _ _ _ E) as [Hrow Hact]; [done|].
    unfold current. destruct (Z.leb_spec id 0); [lia|]. by rewrite Hrow, Hact.
  - pose proof (getOrLoad_load key lyricsTtlMs (load_active id) d Hl) as Hspec. rewrite load_active_run in Hspec by done.
    destruct (current id d) as [row|e] eqn:Ec; [|by eexists]. destruct Hspec as [[] ->]; [|by eexists].
    eexists. split; [done|]. destruct Hok as [[Hv Hb] Hf]. unfold current in Ec. destruct (Z.leb_spec id 0); [done|].
    destruct (lyrics d !! id) as [r|] eqn:Er; [|done]. destruct (ly_isActive _) eqn:Eact; [|done]. injection Ec as ->.
    set (d' := store _ _ _ _).
    assert (stored_version d' = stored_version d) as Hs.
    { unfold stored_version, d'. cbn. by rewrite lookup_insert_ne by apply namespacedKey_ns. }
    unfold cache_ok, bounded. rewrite Hs. subst d' key. cbn. split; [split; [done|]|].
    + intros v id' row' e Hv0 [[Heq _]|[_ H']]%lookup_insert_Some; [|by eapply Hb].
      apply namespacedKey_inj in Heq as [-> _]; [done|done|done].
    + intros id' row' e [[Heq Hv']|[_ H']]%lookup_insert_Some He; [|by eapply Hf].
      apply namespacedKey_inj in Heq as [_ Heq]; [|done..]. apply lyric_key_inj in Heq as ->. injection Hv' as -> _. done.
Qed.

Lemma run_op_ok op d : cache_ok d → alive d → cache_ok (run_op d op).
Proof.
  intros Hok Ha. destruct op as [dto user|source|id|id|ms]; cbn [run_op].
  - by apply create_cached_ok.
  - by apply deactivateBySource_ok.
  - by apply restore_cached_ok.
  - destruct (findOne_ok id d Hok Ha) as (d' & -> & ?). done.
  - apply (cache_ok_later d); try done. cbn. lia.
Qed.

Lemma run_ops_ok ops d : cache_ok d → (∀ k, alive (foldl run_op d (take k ops))) → cache_ok (foldl run_op d ops).
Proof.
  revert d. induction ops as [|op ops IH]; intros d Hok Ha; [done|]. apply IH.
  - apply run_op_ok; [done|]. exact (Ha 0%nat).
  - intros k. exact (Ha (S k)).
Qed.
End preserved.

(** *** Taking down and restoring *)

Lemma clearCache_run d : ∃ d', clearCache d = (Ok tt, d') ∧ lyrics d' = lyrics d ∧ clock d' = clock d.
Proof. unfold clearCache. rewrite bind_modify. by eexists. Qed.

Lemma clearCache_alive d : alive (clearCache d).2.
Proof.
  unfold clearCache, getNamespaceVersion. rewrite bind_modify, bind_gets. unfold alive, modify, store.
  cbn. rewrite lookup_insert_eq. unfold lyricsTtlMs. lia.
Qed.

Lemma bind_clear {B} (f : unit → M B) d : ∃ d', (clearCache ≫= f) d = f tt d' ∧ clearCache d = (Ok tt, d') ∧ lyrics d' = lyrics d ∧ clock d' = clock d.
Proof. destruct (clearCache_run d) as (d' & Hrun & Hd). exists d'. by rewrite (bind_run _ _ _ _ _ Hrun). Qed.

Lemma ids_from source (m : gmap Z LyricRow) id :
  id ∈ (List.filter (λ e, from_source source e.2) (map_to_list m)).*1 ↔ ∃ r, m !! id = Some r ∧ from_source source r = true.
Proof.
  rewrite list_elem_of_fmap. split.
  - intros ([i r] & -> & Hin). apply list_elem_of_In, List.filter_In in Hin as [Hin%list_elem_of_In%elem_of_map_to_list Hf]. eauto.
  - intros (r & Hr & Hf). exists (id, r). split; [done|].
    apply list_elem_of_In, List.filter_In. split; [apply list_elem_of_In; by apply elem_of_map_to_list|done].
Qed.

Lemma NoDup_filtered_keys p (m : gmap Z LyricRow) : NoDup (List.filter p (map_to_list m)).*1.
Proof.
  pose proof (NoDup_fst_map_to_list m) as Hn. revert Hn. induction (map_to_list m) as [|e l IH]; cbn; [done|].
  intros [Hx Hn]%NoDup_cons. specialize (IH Hn). destruct (p e); [|done]. cbn. constructor; [|done].
  intros (e' & He & Hin)%list_elem_of_fmap. apply Hx. apply list_elem_of_fmap. exists e'. split; [done|].
  apply list_elem_of_In. apply list_elem_of_In, List.filter_In in Hin. by destruct Hin.
Qed.

(** What the statement does. *)
Lemma deactivateBySource_run source d : normalizeSource source ≠ "" → ∃ ids d',
  deactivateBySource source d = (Ok (normalizeSource source, ids), d') ∧ NoDup ids ∧
  (∀ id, id ∈ ids ↔ ∃ r, lyrics d !! id = Some r ∧ from_source (normalizeSource source) r = true) ∧
  lyrics d' = (λ r, if from_source (normalizeSource source) r then deactivated (clock d) r else r) <$> lyrics d ∧
  clock d' = clock d ∧ (alive d → alive d').
Proof.
  intros Hs. unfold deactivateBySource. rewrite bind_throw_if.
  assert (nonempty (normalizeSource source) = true) as -> by by destruct (normalizeSource source). cbn [negb].
  rewrite bind_gets, bind_modify. cbn [id]. set (ids := (List.filter _ _).*1). set (d1 := d <| lyrics := _ |>).
  assert (∀ id, id ∈ ids ↔ ∃ r, lyrics d !! id = Some r ∧ from_source (normalizeSource source) r = true) as Hids by (intros; apply ids_from).
  exists ids. case_bool_decide as Hn.
  - exists d1. repeat split; [apply NoDup_filtered_keys|apply Hids|apply Hids|]. by apply alive_same.
  - destruct (bind_clear (λ _, mret (normalizeSource source, ids)) d1) as (d' & -> & Hrun & Hl & Ht). exists d'.
    repeat split; [apply NoDup_filtered_keys|apply Hids|apply Hids|by rewrite Hl|by rewrite Ht|].
    intros _. replace d' with (clearCache d1).2 by by rewrite Hrun. apply clearCache_alive.
Qed.

Lemma from_source_deactivated source now r : from_source source (deactivated now r) = false.
Proof. unfold from_source. cbn. apply andb_false_r. Qed.

Definition restored (now : Z) (r : LyricRow) : LyricRow :=
  r <| lr_lyrics := lr_lyrics r <| ly_isActive := true |> <| ly_updatedAt := now |> |>.

Lemma restore_run id d r : 0 < id → lyrics d !! id = Some r → ly_isActive (lr_lyrics r) = false →
  ∃ d', restore id d = (Ok (restored (clock d) r), d') ∧ lyrics d' = <[id := restored (clock d) r]> (lyrics d) ∧ clock d' = clock d.
Proof.
  intros Hid Hr Ha. unfold restore, findOneIncludingInactive. rewrite bind_assoc, bind_throw_if. destruct (Z.leb_spec id 0); [lia|].
  rewrite bind_assoc, bind_gets, bind_require, Hr, bind_throw_if, Ha, bind_gets, bind_modify.
  match goal with |- context [(clearCache ≫= ?f) ?s] => destruct (bind_clear f s) as (d' & -> & _ & Hl & Ht) end.
  exists d'. by rewrite Hl, Ht.
Qed.

Lemma restore_all ids d : NoDup ids → (∀ id, id ∈ ids → 0 < id ∧ ∃ r, lyrics d !! id = Some r ∧ ly_isActive (lr_lyrics r) = false) →
  ∃ d', for_each (λ id, restore id;; mret tt) ids d = (Ok tt, d') ∧
    ∀ id, lyrics d' !! id = (if bool_decide (id ∈ ids) then restored (clock d) else λ r, r) <$> lyrics d !! id.
Proof.
  revert d. induction ids as [|i ids IH]; intros d Hn Hids; cbn [for_each].
  - exists d. split; [done|]. intros id. rewrite bool_decide_false by apply not_elem_of_nil. by destruct (lyrics d !! id).
  - apply NoDup_cons in Hn as [Hi Hn]. destruct (Hids i) as [Hpos (r & Hr & Hra)]; [by left|].
    destruct (restore_run i d r Hpos Hr Hra) as (d1 & Hrun & Hl & Ht). rewrite bind_assoc, (bind_run _ _ _ _ _ Hrun), bind_ret.
    destruct (IH d1 Hn) as (d' & Hrun' & Hd').
    { intros id Hid. rewrite Hl, lookup_insert_ne by (intros ->; done). apply Hids. by right. }
    exists d'. split; [done|]. intros id. rewrite Hd', Hl, Ht. destruct (decide (id = i)) as [->|Hne].
    + rewrite lookup_insert_eq, (bool_decide_false _ Hi), bool_decide_true by by left. by rewrite Hr.
    + rewrite lookup_insert_ne by done. by rewrite (bool_decide_ext (id ∈ i :: ids) (id ∈ ids)) by set_solver.
Qed.

(** ** Properties *)

Section lyrics_properties.
Context {loader : Loader}.

(** C35. As long as the version of the cache's keys does not expire, what is read is what the table holds: whatever was added,
    taken down, restored and read before, a lyric that is active is found as it is, and one that is
    not is not found, cached or not. *)
Theorem findOne_current ops d id : cache_ok d → (∀ k, alive (foldl run_op d (take k ops))) →
  let d' := foldl run_op d ops in (findOne id d').1 = current id d'.
Proof.
  intros Hok Ha. cbn zeta. destruct (findOne_ok id (foldl run_op d ops)) as (d' & -> & _); [by apply run_ops_ok| |done].
  specialize (Ha (length ops)). by rewrite firstn_all in Ha.
Qed.

(** C36. Taking down a source, however it is spelled, deactivates exactly its active lyrics and says which; no lyric of
    that source is left active, all others are as they were, and none of those is served any more,
    not even from the cache. *)
Theorem takedown_complete source d : cache_ok d → alive d → normalizeSource source ≠ "" → ∃ ids d',
  deactivateBySource source d = (Ok (normalizeSource source, ids), d') ∧
  (∀ id, id ∈ ids ↔ ∃ r, lyrics d !! id = Some r ∧ ly_isActive (lr_lyrics r) = true ∧ ly_source (lr_lyrics r) = normalizeSource source) ∧
  (∀ id r, lyrics d' !! id = Some r → ly_isActive (lr_lyrics r) = true → ly_source (lr_lyrics r) ≠ normalizeSource source) ∧
  (∀ id, id ∉ ids → lyrics d' !! id = lyrics d !! id) ∧
  (∀ id, id ∈ ids → is_ok (findOne id d').1 = false).
Proof.
  intros Hok Ha Hs. destruct (deactivateBySource_run source d Hs) as (ids & d' & Hrun & _ & Hids & Hl & Ht & Halive).
  assert (cache_ok d') as Hok'.
  { pose proof (deactivateBySource_ok source d Hok Ha) as H. by rewrite Hrun in H. }
  assert (∀ id, id ∈ ids → ∃ r, lyrics d' !! id = Some (deactivated (clock d) r)) as Hdown.
  { intros id (r & Hr & Hf)%Hids. exists r. by rewrite Hl, lookup_fmap, Hr; cbn; rewrite Hf. }
  exists ids, d'. split; [done|]. repeat split.
  - intros (r & Hr & Hf)%Hids. exists r. unfold from_source in Hf. bool_prop. naive_solver.
  - intros (r & Hr & Hact & Hsrc). apply Hids. exists r. split; [done|]. unfold from_source. by rewrite Hact, Hsrc, bool_decide_true.
  - intros id r Hr Hact Hsrc. rewrite Hl, lookup_fmap in Hr. apply fmap_Some in Hr as (r0 & Hr0 & ->).
    destruct (from_source (normalizeSource source) r0) eqn:E; [done|]. unfold from_source in E. by rewrite Hact, Hsrc, bool_decide_true in E.
  - intros id Hid. rewrite Hl, lookup_fmap. destruct (lyrics d !! id) as [r|] eqn:Er; [|done]. cbn.
    destruct (from_source (normalizeSource source) r) eqn:E; [|done]. destruct Hid. apply Hids. eauto.
  - intros id Hid. destruct (findOne_ok id d' Hok' (Halive Ha)) as (d2 & -> & _). cbn. unfold current.
    destruct (id <=? 0); [done|]. by destruct (Hdown id Hid) as (r & ->).
Qed.

(** Restoring each lyric that a takedown reports undoes it: every lyric is as it was before, but for the time of its
    last update. *)
Theorem takedown_restored source d : normalizeSource source ≠ "" → (∀ id r, lyrics d !! id = Some r → 0 < id) → ∃ ids d1 d2,
  deactivateBySource source d = (Ok (normalizeSource source, ids), d1) ∧
  for_each (λ id, restore id;; mret tt) ids d1 = (Ok tt, d2) ∧
  ∀ id, let undated r := r <| lr_lyrics := lr_lyrics r <| ly_updatedAt := 0 |> |> in
    undated <$> lyrics d2 !! id = undated <$> lyrics d !! id.
Proof.
  intros Hs Hpos. destruct (deactivateBySource_run source d Hs) as (ids & d1 & Hrun & Hn & Hids & Hl & Ht & _).
  destruct (restore_all ids d1 Hn) as (d2 & Hrun2 & Hd2).
  { intros id (r & Hr & Hf)%Hids. split; [by eapply Hpos|]. exists (deactivated (clock d) r). by rewrite Hl, lookup_fmap, Hr; cbn; rewrite Hf. }
  exists ids, d1, d2. split; [done|]. split; [done|]. intros id. cbn zeta. rewrite Hd2, Hl, lookup_fmap.
  destruct (lyrics d !! id) as [r|] eqn:Er; [|done]. cbn. destruct (from_source (normalizeSource source) r) eqn:E.
  - rewrite bool_decide_true by (apply Hids; eauto). unfold from_source in E. apply andb_true_iff in E as [_ Hact].
    destruct r as [[] ? ? ? ? ?]. cbn in *. by rewrite Hact.
  - rewrite bool_decide_false; [done|]. intros (r' & Hr' & Hf)%Hids. congruence.
Qed.

(** A lyric that is added is active, from its source, with a snippet of 1 to 150 characters that is the given one or
    the beginning of the text, and never with the text; what is refused leaves no row. *)
Theorem create_outcome dto user d : match create dto user d with
  | (Ok row, d') => lyrics d' = <[nextId d := row]> (lyrics d) ∧ lr_content row = None ∧ lr_addedBy row = user ∧
      ly_isActive (lr_lyrics row) = true ∧ ly_source (lr_lyrics row) = c_source dto ∧
      (0 < String.length (ly_lyricSnippet (lr_lyrics row)) ≤ 150)%nat ∧
      ly_lyricSnippet (lr_lyrics row) = snippet_of dto
  | (Err _, d') => d' = d
  end.
Proof.
  unfold create, assertSnippetWithinLimit. rewrite bind_throw_if. destruct (Nat.ltb_spec MAX_LYRIC_SNIPPET_LENGTH (String.length (snippet_of dto))) as [|Hlen]; [done|].
  rewrite bind_throw_if. destruct (nonempty (snippet_of dto)) eqn:Hne; cbn [negb]; [|done].
  match goal with |- context [insert_lyric ?mk] => pose proof (insert_lyric_run mk d) as Hi; destruct (insert_lyric mk d) as [[row|e] d1] eqn:E end.
  - rewrite (bind_run _ _ _ _ _ E). destruct Hi as (-> & _ & _ & Hl).
    match goal with |- context [(clearCache ≫= ?f) ?s] => destruct (bind_clear f s) as (d' & -> & _ & Hl' & _) end.
    cbn. rewrite Hl', Hl. repeat split; [|done]. by destruct (snippet_of dto); cbn; [|lia].
  - rewrite (bind_run_err _ _ _ _ _ E). by destruct Hi as [-> _].
Qed.

(** The public list is made of the active lyrics of the genre and decade asked for, all of them and no others over its
    pages, in the order of their ids; a year and its decade ask for the same. *)
Theorem findAll_lists genre decade limit offset d : (∀ g, present genre = Some g → g ∈ Genre) → ∃ all,
  findAll genre decade limit offset d = (Ok (take limit (drop offset all)), d) ∧ StronglySorted by_id all ∧
  ∀ r, r ∈ all ↔ (∃ id, lyrics d !! id = Some r) ∧ ly_isActive (lr_lyrics r) = true ∧
    (∀ g, present genre = Some g → ly_genre (lr_lyrics r) = g) ∧ (∀ s, present decade = Some s → ly_decade (lr_lyrics r) = normalizeDecade s).
Proof.
  intros Hg. unfold findAll. set (decade' := normalizeDecade <$> present decade).
  exists (merge_sort by_id (List.filter (listed (present genre) decade') (lyric_rows d))). split; [|split].
  - rewrite bind_throw_if. replace (match present genre with Some _ => _ | None => _ end) with false.
    + rewrite bind_throw_if. replace (match decade' with Some _ => _ | None => _ end) with false; [done|].
      unfold decade'. destruct (present decade) as [s|]; [|done]. cbn.
      pose proof (normalizeDecade_nonempty s). by destruct (normalizeDecade s).
    + destruct (present genre) as [g|] eqn:E; [|done]. by rewrite bool_decide_true by by apply Hg.
  - apply StronglySorted_merge_sort; intros ?; unfold by_id; lia.
  - intros r. rewrite merge_sort_Permutation, list_elem_of_In, List.filter_In, <-list_elem_of_In. unfold listed, lyric_rows, decade'.
    rewrite list_elem_of_fmap.
    assert ((∃ y : Z * LyricRow, r = y.2 ∧ y ∈ map_to_list (lyrics d)) ↔ ∃ id, lyrics d !! id = Some r) as ->.
    { split; [intros ([i r'] & -> & H%elem_of_map_to_list); eauto|intros (i & Hi); exists (i, r); by rewrite elem_of_map_to_list]. }
    rewrite !andb_true_iff. destruct (present genre) as [g|], (present decade) as [s|]; cbn; rewrite ?bool_decide_eq_true; naive_solver.
Qed.
End lyrics_properties.

(** A year and its decade are one decade, stored as it is shown; storing what is stored changes nothing. *)
Theorem normalizeDecade_years y : 1900 ≤ y ≤ 2100 →
  normalizeDecade (show y) = show (y / 10 * 10) +:+ "s" ∧ normalizeDecade (show y +:+ "s") = normalizeDecade (show y) ∧
  normalizeDecade (normalizeDecade (show y)) = normalizeDecade (show y).
Proof.
  intros Hy. replace y with (1900 + (y - 1900)) by lia. assert (0 ≤ y - 1900 < 201) as Hk by lia. revert Hk. generalize (y - 1900). intros k Hk.
  assert ((normalizeDecade (show (1900 + k)) == (show ((1900 + k) / 10 * 10) +:+ "s")) &&
    (normalizeDecade (show (1900 + k) +:+ "s") == normalizeDecade (show (1900 + k))) &&
    (normalizeDecade (normalizeDecade (show (1900 + k))) == normalizeDecade (show (1900 + k))) = true) as H.
  { check_all 201%nat k. vm_compute. reflexivity. }
  bool_prop. done.
Qed.

(** ** Concrete runs *)

Module LyricsDemo.

(** Every lyric that is loaded is kept. *)
Definition keeping (key : string) (ttl : Z) (load : M LyricRow) : M LyricRow := λ d,
  match live d key with
  | Some (CachedLyric row) => (Ok row, d)
  | _ => match load d with (Ok row, d') => (Ok row, store key (CachedLyric row) ttl d') | (Err e, d') => (Err e, d') end
  end.
#[export] Instance keep_all : Loader.
Proof.
  refine {| getOrLoad := keeping |}.
  - intros key ttl load d row H. unfold keeping. by rewrite H.
  - intros key ttl load d H. unfold keeping. destruct (live d key) as [[n|row]|]; [|by destruct (H row)|].
    all: destruct (load d) as [[row|e] d']; [by exists true|done].
Defined.

Definition dto (title source : string) : CreateLyricsDto :=
  mkCreateDto (Some "Some lyric text") None source None None "Adele" None title None "Pop" 1995 None None.
Definition d0 : LyricsDb := mkLyricsDb ∅ 1 ∅ 0 0.
Definition demo_ops : list lyrics_op :=
  [AddLyric (dto "Hello" "genius") (Some "admin"); AddLyric (dto "Skyfall" "acme") None; ReadLyric 1; Wait 1000; TakeDown " Genius "; ReadLyric 1].
Definition d1 : LyricsDb := foldl run_op d0 demo_ops.

Lemma d0_ok : cache_ok d0.
Proof.
  split; [split; [done|]|].
  - intros v id row e Hv H. cbn in H. by rewrite lookup_empty in H.
  - intros id row e H. cbn in H. by rewrite lookup_empty in H.
Qed.

Lemma demo_alive k : alive (foldl run_op d0 (take k demo_ops)).
Proof. do 7 (destruct k as [|k]; [vm_compute; done|]). vm_compute. done. Qed.

Lemma d1_ok : cache_ok d1.
Proof. apply run_ops_ok; [apply d0_ok|apply demo_alive]. Qed.

Lemma findOne_current_witness : (findOne 1 d1).1 = Err (NotFound "Lyrics not found") ∧ (findOne 1 d1).1 = current 1 d1.
Proof. split; [vm_compute; reflexivity|]. apply (findOne_current demo_ops d0 1); [apply d0_ok|apply demo_alive]. Defined.

Lemma takedown_complete_witness : normalizeSource " ACME" = "acme" ∧ ∃ ids d', deactivateBySource " ACME" d1 = (Ok (normalizeSource " ACME", ids), d') ∧
  ∀ id, id ∈ ids → is_ok (findOne id d').1 = false.
Proof.
  split; [reflexivity|]. destruct (takedown_complete " ACME" d1 d1_ok (demo_alive 6)) as (ids & d' & H & _ & _ & _ & Hr); [discriminate|].
  exists ids, d'. split; [exact H|exact Hr].
Defined.

Lemma takedown_restored_witness : ∃ ids d2 d3, deactivateBySource "acme" d1 = (Ok (normalizeSource "acme", ids), d2) ∧
  for_each (λ id, restore id;; mret tt) ids d2 = (Ok tt, d3).
Proof.
  destruct (takedown_restored "acme" d1) as (ids & d2 & d3 & H1 & H2 & _); [discriminate| |exists ids, d2, d3; split; [exact H1|exact H2]].
  intros id r Hr. assert (map_Forall (λ id _, 0 < id) (lyrics d1)) as H by (apply map_Forall_to_list; vm_compute; repeat constructor).
  exact (H id r Hr).
Defined.

Lemma findAll_lists_witness : ∃ all, findAll (Some "Pop") (Some "1995") 10 0 d1 = (Ok (take 10 (drop 0 all)), d1) ∧ StronglySorted by_id all.
Proof.
  destruct (findAll_lists (Some "Pop") (Some "1995") 10 0 d1) as (all & H1 & H2 & _); [|exists all; split; [exact H1|exact H2]].
  intros g [= <-]. apply (proj1 (bool_decide_eq_true _)). vm_compute. reflexivity.
Defined.

Lemma create_outcome_witness : ∃ row d', create (dto "Rolling" "acme") None d1 = (Ok row, d') ∧ lr_content row = None.
Proof.
  pose proof (create_outcome (dto "Rolling" "acme") None d1) as H. destruct (create (dto "Rolling" "acme") None d1) as [[row|e] d'] eqn:E.
  - exists row, d'. split; [reflexivity|]. apply H.
  - exfalso. vm_compute in E. discriminate E.
Defined.

Lemma normalizeDecade_years_witness : normalizeDecade (show 1995) = "1990s".
Proof. assert (1900 ≤ 1995 ≤ 2100) as H by lia. rewrite (proj1 (normalizeDecade_years 1995 H)). reflexivity. Defined.

(** The version itself expires with the entries: five minutes after a change the next one gives the cache the keys of
    the one before, with what was cached under them meanwhile.  A lyric that was taken down is served. *)
Definition stale_ops : list lyrics_op :=
  [AddLyric (dto "Hello" "genius") None; Wait 200000; ReadLyric 1; Wait 110000; TakeDown "genius"].
Definition stale : LyricsDb := foldl run_op d0 stale_ops.
Lemma expired_version_serves_taken_down : is_ok (current 1 stale) = false ∧
  ∃ row, (findOne 1 stale).1 = Ok row ∧ ly_isActive (lr_lyrics row) = true ∧ ly_source (lr_lyrics row) = "genius".
Proof. split; [vm_compute; reflexivity|]. eexists. split; [vm_compute; reflexivity|split; reflexivity]. Qed.

(** No text is refused as a decade: a blank one asks for the decade 0. *)
Example blank_decade : normalizeDecade " " = "0s" ∧ normalizeDecade "nineties" = "nineties".
Proof. by vm_compute. Qed.

(** The dto's default difficulty is refused by the table. *)
Example unset_difficulty : (create (mkCreateDto None (Some "la la") "acme" None None "Adele" None "Easy" None "Pop" 1995 None (Some 0)) None d0).1
  = Err check_violation.
Proof. by vm_compute. Qed.
End LyricsDemo.
