(* ===== verification/Administration.v ===== *)
(** * Administration (src/src/admin/admin.service.ts)

    [AdminService]: the import of lyrics from a file, and what it forwards to the services of users and lyrics.  Reading JSON and
    CSV, checking a row against the dto, [findExistingKeys] and [bulkUpsert] of [LyricsService] (called
    and not in the repository) are parameters; what is relied on of the last two is a class of laws. *)

From S2P Require Import Prelude Decimal Entities Users LyricsService Auditing.
From stdpp Require Import gmap sorting.
From Stdlib Require Import Ascii.

#[local] Open Scope Z_scope.

(** ** The import *)

Inductive LyricsImportMode := CreateOnly | Upsert.
Inductive RowStatus := created | updated | skipped | error.
#[export] Instance RowStatus_eq_dec : EqDecision RowStatus.
Proof. solve_decision. Defined.

Record LyricsImportRowReport := mkRowReport {
  rr_row : nat;
  rr_status : RowStatus;
  rr_errors : list string;
}.

Record LyricsImportReport := mkReport {
  rp_dryRun : bool;
  rp_mode : LyricsImportMode;
  rp_total : nat;
  rp_created : nat;
  rp_updated : nat;
  rp_skipped : nat;
  rp_errors : nat;
  rp_rows : list LyricsImportRowReport;
}.
#[export] Instance LyricsImportReport_settable : Settable LyricsImportReport := λ r,
  mkReport (rp_dryRun r) (rp_mode r) (rp_total r) (rp_created r) (rp_updated r) (rp_skipped r) (rp_errors r) (rp_rows r).

Record ParsedImportRow (R : Type) := mkParsedRow {
  pr_line : nat;
  pr_data : R;
}.
Arguments mkParsedRow {_} _ _.
Arguments pr_line {_} _.
Arguments pr_data {_} _.

(** [buffer] is absent when nothing was uploaded. *)
Record ImportFile := mkFile {
  fi_buffer : option string;
  fi_originalname : option string;
  fi_mimetype : option string;
}.

(** A valid row by the line it was read from. *)
Record ImportEntry := mkImportEntry {
  line : nat;
  dto : CreateLyricsDto;
}.

(** What a JSON file holds: a list of rows, or one. *)
Inductive json_rows (R : Type) := JsonList (rows : list R) | JsonOne (row : R).
Arguments JsonList {_} _.
Arguments JsonOne {_} _.

(** [R] is a row as it was read, [W] the state of the lyrics.  [validate] gives the messages of each failed
    property, after [plainToInstance]. *)
Class ImportDeps (R W : Type) := {
  parseJson : string → option (json_rows R);
  parseCsv : string → result (list R);
  plainToInstance : R → CreateLyricsDto;
  validate : CreateLyricsDto → list (list string);
  findExistingKeys : list (string * string) → W → gset string;
  bulkUpsert : list CreateLyricsDto → option string → W → result unit * W;
}.

Definition NUL : ascii := ascii_of_nat 0.
Definition key_of (artist songTitle : string) : string := artist +:+ String NUL songTitle.
Definition dto_key (d : CreateLyricsDto) : string := key_of (c_artist d) (c_songTitle d).

(** [s.endsWith(t)] *)
Definition endsWith (t s : string) : bool :=
  (String.length t <=? String.length s)%nat &&
  (String.substring (String.length s - String.length t) (String.length t) s == t).

Section AdminService_import.
Context {R W : Type} `{!ImportDeps R W}.
Local Abbreviation M := (M W).

Definition numbered (rows : list R) : list (ParsedImportRow R) := imap (λ index data, mkParsedRow (S index) data) rows.

Definition parseImportFile (buffer : string) (file : ImportFile) : result (list (ParsedImportRow R)) :=
  let isJson := bool_decide (fi_mimetype file = Some "application/json") ||
    endsWith ".json" (lower (default "" (fi_originalname file))) in
  if isJson then
    match parseJson buffer with
    | None => Err (BadRequest "Invalid JSON file")
    | Some (JsonList rows) => Ok (numbered rows)
    | Some (JsonOne row) => Ok (numbered [row])
    end
  else match parseCsv buffer with
    | Err e => Err (BadRequest ("Invalid CSV file: " +:+ exn_message e))
    | Ok rows => Ok (numbered rows)
    end.

Definition push (row : LyricsImportRowReport) (r : LyricsImportReport) : LyricsImportReport :=
  r <| rp_rows := rp_rows r ++ [row] |>.
Definition report_error (row : nat) (errors : list string) (r : LyricsImportReport) : LyricsImportReport :=
  push (mkRowReport row error errors) (r <| rp_errors := S (rp_errors r) |>).

(** What the first loop keeps: the lines of the keys seen, the valid rows, and the report. *)
Record Checked := mkChecked {
  seen : gmap string nat;
  valid : list ImportEntry;
  report : LyricsImportReport;
}.

Definition duplicate_of (firstLine : nat) : string :=
  "Duplicate of row " +:+ show (Z.of_nat firstLine) +:+ " for (artist, songTitle) in this file".

Definition check_row (c : Checked) (row : ParsedImportRow R) : Checked :=
  let d := plainToInstance (pr_data row) in
  let validationErrors := validate d in
  if negb (bool_decide (validationErrors = [])) then
    mkChecked (seen c) (valid c) (report_error (pr_line row) (concat validationErrors) (report c))
  else match seen c !! dto_key d with
    | Some firstLine => mkChecked (seen c) (valid c) (report_error (pr_line row) [duplicate_of firstLine] (report c))
    | None => mkChecked (<[dto_key d := pr_line row]> (seen c)) (valid c ++ [mkImportEntry (pr_line row) d]) (report c)
    end.

(** What the second loop keeps. *)
Record Sorted := mkSorted {
  toCreate : list ImportEntry;
  toUpdate : list ImportEntry;
  sorted_report : LyricsImportReport;
}.

Definition sort_entry (existingKeys : gset string) (mode : LyricsImportMode) (s : Sorted) (entry : ImportEntry) : Sorted :=
  let exists_ := bool_decide (dto_key (dto entry) ∈ existingKeys) in
  match exists_, mode with
  | true, CreateOnly => mkSorted (toCreate s) (toUpdate s)
      (push (mkRowReport (line entry) skipped []) (sorted_report s <| rp_skipped := S (rp_skipped (sorted_report s)) |>))
  | true, Upsert => mkSorted (toCreate s) (toUpdate s ++ [entry]) (sorted_report s)
  | false, _ => mkSorted (toCreate s ++ [entry]) (toUpdate s) (sorted_report s)
  end.

Definition report_created (r : LyricsImportReport) (entry : ImportEntry) : LyricsImportReport :=
  push (mkRowReport (line entry) created []) (r <| rp_created := S (rp_created r) |>).
Definition report_updated (r : LyricsImportReport) (entry : ImportEntry) : LyricsImportReport :=
  push (mkRowReport (line entry) updated []) (r <| rp_updated := S (rp_updated r) |>).

Definition by_row (a b : LyricsImportRowReport) : Prop := (rr_row a ≤ rr_row b)%nat.
#[export] Instance by_row_dec : RelDecision by_row.
Proof. intros a b. unfold by_row. apply _. Defined.
Definition sort_rows (r : LyricsImportReport) : LyricsImportReport := r <| rp_rows := merge_sort by_row (rp_rows r) |>.

(** The lines of what is written, in order. *)
Definition final_report (s : Sorted) : LyricsImportReport :=
  sort_rows (foldl report_updated (foldl report_created (sorted_report s) (toCreate s)) (toUpdate s)).

Definition importLyrics (file : ImportFile) (dryRun : bool) (user : option string) (mode : LyricsImportMode) : M LyricsImportReport :=
  buffer ← require (fi_buffer file) (BadRequest "A CSV or JSON file is required");
  rawRows ← lift (parseImportFile buffer file);
  let checked := foldl check_row (mkChecked ∅ [] (mkReport dryRun mode (length rawRows) 0 0 0 0 [])) rawRows in
  if bool_decide (valid checked = []) then mret (report checked)
  else
    existingKeys ← gets (findExistingKeys ((λ e, (c_artist (dto e), c_songTitle (dto e))) <$> valid checked));
    let s := foldl (sort_entry existingKeys mode) (mkSorted [] [] (report checked)) (valid checked) in
    if dryRun then mret (final_report s)
    else
      (if bool_decide (toCreate s = []) && bool_decide (toUpdate s = []) then mret tt
       else bulkUpsert (dto <$> (toCreate s ++ toUpdate s)) user);;
      mret (final_report s).
End AdminService_import.

(** ** What is forwarded *)

Inductive GrantMockBalanceMode := ADD | SET.

(** The query's own defaults (limit, sort column and order) are the controller's; [sortBy] is read for lyrics only. *)
Record AdminUserQueryDto := mkUserQuery {
  uq_limit : option nat;
  uq_offset : option nat;
  uq_sortBy : option string;
  uq_sortOrder : option SortOrder;
}.
Record AdminLyricQueryDto := mkLyricQuery {
  lq_limit : option nat;
  lq_offset : option nat;
  lq_sortBy : option AdminLyricSortBy;
  lq_sortOrder : option SortOrder;
  lq_status : option string;
  lq_source : option string;
}.

Section AdminService_users.
Context {X : Type}.

(** [grant] is [grantMockBalance] of [MockTokenService], which has no such method. *)
Definition grantMockBalance {B} (grant : string → string → GrantMockBalanceMode → M (UsersDb X) B)
    (userId amount : string) (mode : option GrantMockBalanceMode) : M (UsersDb X) B :=
  user ← gets (λ d, users (core d) !! userId);
  require user (NotFound "User not found");;
  grant userId amount (default ADD mode).

Definition findAllUsers (query : AdminUserQueryDto) : M (UsersDb X) (PaginatedResponseDto User) :=
  let limit := default 20%nat (uq_limit query) in
  let offset := default 0%nat (uq_offset query) in
  data ← Users.findAll limit offset;
  total ← Users.count;
  mret (toPaginated data total limit offset).

Definition deleteUser (id : string) : M (UsersDb X) string :=
  message ← Users.remove id;
  mret (if nonempty message then message else "User deleted successfully").

(** The controller's, by the setting [STELLAR_SETTLEMENT_MODE]. *)
Definition grantMockBalance_request {B} (settlementMode : option string) (grant : string → string → GrantMockBalanceMode → M (UsersDb X) B)
    (id amount : string) (mode : option GrantMockBalanceMode) : M (UsersDb X) B :=
  if bool_decide (settlementMode = Some "mock") then grantMockBalance grant id amount (Some (default ADD mode))
  else throw (NotFound "Not Found").
End AdminService_users.

Section AdminService_lyrics.
Context (collation : string → string → bool).
Local Abbreviation M := (M LyricsDb).

Definition findAllLyrics (query : AdminLyricQueryDto) : M (PaginatedResponseDto LyricRow) :=
  let limit := default 20%nat (lq_limit query) in
  let offset := default 0%nat (lq_offset query) in
  let isActive :=
    if bool_decide (lq_status query = Some "inactive") then Some false
    else if bool_decide (lq_status query = Some "active") then Some true
    else None in
  '(data, total) ← findAllForAdmin collation
    (mkAdminFilter (Z.of_nat limit) (Z.of_nat offset) (lq_sortBy query) (lq_sortOrder query) isActive (lq_source query));
  mret (toPaginated data total limit offset).

Definition deactivateLyricsBySource (source : string) : M (string * list Z) := deactivateBySource source.

Definition restoreLyric (id : Z) : M LyricRow :=
  lyric ← findOneIncludingInactive id;
  throw_if (ly_isActive (lr_lyrics lyric)) (Conflict ("Lyric with id " +:+ show id +:+ " is already active"));;
  restore id.
End AdminService_lyrics.

(** What the controller makes of the fields of a form: text, or a value the dto has turned into a boolean. *)
Definition import_dryRun (body : option (bool + string)) : bool :=
  bool_decide (body = Some (inl true)) || bool_decide (body = Some (inr "true")).
Definition import_mode (body : option string) : LyricsImportMode :=
  if bool_decide (body = Some "create-only") then CreateOnly else Upsert.

(** ** What the loops keep *)

Definition reported (r : LyricsImportReport) : list nat := rr_row <$> rp_rows r.
Definition count_of (s : RowStatus) (r : LyricsImportReport) : nat :=
  length (List.filter (λ row, bool_decide (rr_status row = s)) (rp_rows r)).

(** The counters are those of the rows. *)
Definition tallied (r : LyricsImportReport) : Prop :=
  rp_created r = count_of created r ∧ rp_updated r = count_of updated r ∧
  rp_skipped r = count_of skipped r ∧ rp_errors r = count_of error r.

(** What a report says of the request does not change. *)
Definition same_request (r r' : LyricsImportReport) : Prop :=
  rp_dryRun r' = rp_dryRun r ∧ rp_mode r' = rp_mode r ∧ rp_total r' = rp_total r.
#[export] Instance same_request_preorder : PreOrder same_request.
Proof. split; [by intros r|]. intros r1 r2 r3 (H1 & H2 & H3) (G1 & G2 & G3). unfold same_request. by rewrite G1, G2, G3. Qed.

Lemma count_push s row r : count_of s (push row r) = (count_of s r + if bool_decide (rr_status row = s) then 1 else 0)%nat.
Proof. unfold count_of, push. cbn. rewrite List.filter_app, length_app. cbn. by destruct (bool_decide (rr_status row = s)). Qed.

Lemma reported_push row r : reported (push row r) = reported r ++ [rr_row row].
Proof. unfold reported, push. cbn. by rewrite fmap_app. Qed.

(** A row is reported together with its count. *)
Lemma tallied_step r r' row : tallied r → rp_rows r' = rp_rows r ++ [row] →
  rp_created r' = (rp_created r + if bool_decide (rr_status row = created) then 1 else 0)%nat →
  rp_updated r' = (rp_updated r + if bool_decide (rr_status row = updated) then 1 else 0)%nat →
  rp_skipped r' = (rp_skipped r + if bool_decide (rr_status row = skipped) then 1 else 0)%nat →
  rp_errors r' = (rp_errors r + if bool_decide (rr_status row = error) then 1 else 0)%nat → tallied r'.
Proof.
  intros (H1 & H2 & H3 & H4) Hr Hc Hu Hs He.
  assert (∀ s, count_of s r' = (count_of s r + if bool_decide (rr_status row = s) then 1 else 0)%nat) as Hcount.
  { intros s. unfold count_of. rewrite Hr, List.filter_app, length_app. cbn. by destruct (bool_decide (rr_status row = s)). }
  unfold tallied. rewrite !Hcount, <-H1, <-H2, <-H3, <-H4. done.
Qed.

Local Ltac count_one := case_bool_decide; cbn in *; simplify_eq; lia.

Lemma report_error_tallied l es r : tallied r → tallied (report_error l es r).
Proof. intros H. eapply tallied_step; [exact H|done|count_one..]. Qed.
Lemma report_created_tallied r e : tallied r → tallied (report_created r e).
Proof. intros H. eapply tallied_step; [exact H|done|count_one..]. Qed.
Lemma report_updated_tallied r e : tallied r → tallied (report_updated r e).
Proof. intros H. eapply tallied_step; [exact H|done|count_one..]. Qed.

Lemma reported_created r e : reported (report_created r e) = reported r ++ [line e].
Proof. unfold report_created. by rewrite reported_push. Qed.
Lemma reported_updated r e : reported (report_updated r e) = reported r ++ [line e].
Proof. unfold report_updated. by rewrite reported_push. Qed.

Lemma foldl_created es r : tallied r → tallied (foldl report_created r es) ∧ same_request r (foldl report_created r es) ∧
  reported (foldl report_created r es) = reported r ++ (line <$> es) ∧
  rp_created (foldl report_created r es) = (rp_created r + length es)%nat.
Proof.
  revert r. induction es as [|e es IH]; intros r Hr; cbn; [by rewrite app_nil_r, Nat.add_0_r|].
  destruct (IH (report_created r e) (report_created_tallied r e Hr)) as (H1 & H2 & H3 & H4). split; [done|].
  rewrite H3, H4, reported_created, <-app_assoc. split; [exact H2|]. cbn. split; [done|lia].
Qed.

Lemma foldl_updated es r : tallied r → tallied (foldl report_updated r es) ∧ same_request r (foldl report_updated r es) ∧
  reported (foldl report_updated r es) = reported r ++ (line <$> es) ∧
  rp_created (foldl report_updated r es) = rp_created r.
Proof.
  revert r. induction es as [|e es IH]; intros r Hr; cbn; [by rewrite app_nil_r|].
  destruct (IH (report_updated r e) (report_updated_tallied r e Hr)) as (H1 & H2 & H3 & H4). split; [done|].
  rewrite H3, H4, reported_updated, <-app_assoc. done.
Qed.

Lemma count_sorted s r : count_of s (sort_rows r) = count_of s r.
Proof. unfold count_of, sort_rows. cbn. by rewrite merge_sort_Permutation. Qed.

Lemma final_report_spec s : tallied (sorted_report s) → tallied (final_report s) ∧ same_request (sorted_report s) (final_report s) ∧
  reported (final_report s) ≡ₚ reported (sorted_report s) ++ (line <$> toCreate s) ++ (line <$> toUpdate s) ∧
  StronglySorted le (reported (final_report s)) ∧
  rp_created (final_report s) = (rp_created (sorted_report s) + length (toCreate s))%nat.
Proof.
  intros Ht. unfold final_report.
  destruct (foldl_created (toCreate s) _ Ht) as (H1 & H2 & H3 & H4). destruct (foldl_updated (toUpdate s) _ H1) as (G1 & G2 & G3 & G4).
  set (r := foldl report_updated _ _) in *. split; [|split; [|split; [|split]]].
  - unfold tallied. rewrite !count_sorted. exact G1.
  - etrans; [exact H2|]. etrans; [exact G2|]. done.
  - unfold reported at 1, sort_rows. cbn. rewrite merge_sort_Permutation. change (rr_row <$> rp_rows r) with (reported r).
    by rewrite G3, H3, <-app_assoc.
  - unfold reported, sort_rows. cbn. assert (StronglySorted by_row (merge_sort by_row (rp_rows r))) as Hs.
    { apply StronglySorted_merge_sort; intros ?; unfold by_row; lia. }
    induction Hs as [|x l Hl IH Hx]; cbn; constructor; [done|]. by apply Forall_fmap.
  - cbn. by rewrite G4, H4.
Qed.

Lemma StronglySorted_seq i n : StronglySorted le (seq i n).
Proof.
  revert i. induction n as [|n IH]; intros i; cbn; constructor; [done|]. apply Forall_forall. intros x Hx%elem_of_seq. lia.
Qed.

Section loops.
Context {R W : Type} `{!ImportDeps R W}.

Lemma numbered_lines (rows : list R) : pr_line <$> numbered rows = seq 1 (length rows).
Proof. unfold numbered. rewrite fmap_imap. etrans; [apply (imap_seq rows (λ n, n) 1)|]. apply list_fmap_id. Qed.

(** The first loop. *)
Record checked_ok (c : Checked) : Prop := {
  ck_tallied : tallied (report c);
  ck_seen k : k ∈ ((λ e, dto_key (dto e)) <$> valid c) → is_Some (seen c !! k);
  ck_keys : NoDup ((λ e, dto_key (dto e)) <$> valid c);
  ck_created : rp_created (report c) = 0%nat;
}.

Lemma check_row_spec (c : Checked) (row : ParsedImportRow R) : checked_ok c →
  checked_ok (check_row c row) ∧ same_request (report c) (report (check_row c row)) ∧
  (∃ new, valid (check_row c row) = valid c ++ new ∧
    reported (report (check_row c row)) = reported (report c) ++ (if new is [] then [pr_line row] else []) ∧ (line <$> new) ⊆+ [pr_line row] ∧
    (new ≠ [] → line <$> new = [pr_line row])).
Proof.
  intros [Ht Hs Hn Hc]. unfold check_row. case_bool_decide as Hv; cbn [negb].
  - destruct (seen c !! _) as [first|] eqn:E.
    + split; [split; cbn; [by apply report_error_tallied|done..]|]. split; [done|]. exists []. unfold report_error.
      cbn [valid report]. rewrite app_nil_r, reported_push. repeat split; [apply submseteq_nil_l|done].
    + split; [split; cbn|split; [done|]].
      * done.
      * intros k. rewrite fmap_app, elem_of_app. cbn. intros [Hk|Hk].
        -- destruct (decide (dto_key (plainToInstance (pr_data row)) = k)) as [->|]; [by rewrite lookup_insert_eq|].
           rewrite lookup_insert_ne by done. by apply Hs.
        -- apply list_elem_of_singleton in Hk as ->. by rewrite lookup_insert_eq.
      * rewrite fmap_app. cbn. apply NoDup_app. split; [done|]. split; [|apply NoDup_singleton].
        intros k Hk%Hs ->%list_elem_of_singleton. rewrite E in Hk. by destruct Hk.
      * done.
      * eexists. split; [done|]. cbn. by rewrite app_nil_r.
  - split; [split; cbn; [by apply report_error_tallied|done..]|]. split; [done|]. exists []. unfold report_error.
    cbn [valid report]. rewrite app_nil_r, reported_push. repeat split; [apply submseteq_nil_l|done].
Qed.

Lemma check_rows_spec (rows : list (ParsedImportRow R)) c : checked_ok c →
  let c' := foldl check_row c rows in
  checked_ok c' ∧ same_request (report c) (report c') ∧
  (∃ new, valid c' = valid c ++ new ∧
    reported (report c') ++ (line <$> new) ≡ₚ reported (report c) ++ (pr_line <$> rows) ∧
    (new = [] → reported (report c') = reported (report c) ++ (pr_line <$> rows))).
Proof.
  cbn zeta. revert c. induction rows as [|row rows IH]; intros c Hc; cbn [foldl].
  - split; [done|]. split; [done|]. exists []. cbn. by rewrite !app_nil_r.
  - destruct (check_row_spec c row Hc) as (H1 & H2 & new & H3 & H4 & _ & H6).
    destruct (IH _ H1) as (G1 & G2 & new' & G3 & G4 & G5). split; [done|]. split; [by etrans|].
    exists (new ++ new'). split; [by rewrite G3, H3, <-app_assoc|]. split.
    + rewrite fmap_app, Permutation_app_swap_app, G4, H4. cbn. destruct new as [|e new].
      * by rewrite <-app_assoc.
      * rewrite H6 by done. rewrite app_nil_r. cbn. by rewrite Permutation_middle.
    + intros [-> ->]%app_nil. rewrite G5, H4 by done. by rewrite <-app_assoc.
Qed.

(** The second loop. *)
Lemma sort_entries_spec (existing : gset string) mode es s : tallied (sorted_report s) →
  let s' := foldl (sort_entry existing mode) s es in
  tallied (sorted_report s') ∧ same_request (sorted_report s) (sorted_report s') ∧
  reported (sorted_report s') ++ (line <$> toCreate s') ++ (line <$> toUpdate s') ≡ₚ
    (reported (sorted_report s) ++ (line <$> toCreate s) ++ (line <$> toUpdate s)) ++ (line <$> es) ∧
  rp_created (sorted_report s') = rp_created (sorted_report s) ∧
  toCreate s' = toCreate s ++ List.filter (λ e, negb (bool_decide (dto_key (dto e) ∈ existing))) es ∧
  toUpdate s' = toUpdate s ++ (if mode is Upsert then List.filter (λ e, bool_decide (dto_key (dto e) ∈ existing)) es else []).
Proof.
  cbn zeta. revert s. induction es as [|e es IH]; intros s Ht; cbn [foldl].
  - cbn. rewrite !app_nil_r. by destruct mode; rewrite ?app_nil_r.
  - assert (tallied (sorted_report (sort_entry existing mode s e))) as Ht'.
    { unfold sort_entry. destruct (bool_decide (_ ∈ existing)), mode; cbn; try done. eapply tallied_step; [exact Ht|done|count_one..]. }
    destruct (IH _ Ht') as (G1 & G2 & G3 & G4 & G5 & G6). rewrite G3, G4, G5, G6. unfold sort_entry in *. cbn [List.filter].
    destruct (bool_decide (dto_key (dto e) ∈ existing)), mode; cbn [negb toCreate toUpdate sorted_report] in *.
    + split; [done|]. split; [by etrans|]. split; [rewrite reported_push; cbn; solve_Permutation|]. done.
    + split; [done|]. split; [by etrans|]. split; [rewrite fmap_app; cbn; solve_Permutation|]. by rewrite <-app_assoc.
    + split; [done|]. split; [by etrans|]. split; [rewrite fmap_app; cbn; solve_Permutation|]. by rewrite <-app_assoc.
    + split; [done|]. split; [by etrans|]. split; [rewrite fmap_app; cbn; solve_Permutation|]. by rewrite <-app_assoc.
Qed.
End loops.

Lemma tallied_total r : tallied r → (rp_created r + rp_updated r + rp_skipped r + rp_errors r)%nat = length (rp_rows r).
Proof.
  intros (-> & -> & -> & ->). unfold count_of. induction (rp_rows r) as [|row rows IH]; [done|]. cbn [List.filter length].
  assert (∀ st, length (if bool_decide (rr_status row = st) then row :: List.filter (λ r, bool_decide (rr_status r = st)) rows
    else List.filter (λ r, bool_decide (rr_status r = st)) rows) =
    ((if bool_decide (rr_status row = st) then 1 else 0) + length (List.filter (λ r, bool_decide (rr_status r = st)) rows))%nat) as Hl.
  { intros st. by destruct (bool_decide (rr_status row = st)). }
  rewrite !Hl, <-IH. repeat case_bool_decide; try congruence; try lia. by destruct (rr_status row).
Qed.

(** *** A file, from its rows to its report *)

Section import_runs.
Context {R W : Type} `{!ImportDeps R W}.

Lemma parse_lines buffer file (rows : list (ParsedImportRow R)) : parseImportFile buffer file = Ok rows → pr_line <$> rows = seq 1 (length rows).
Proof.
  unfold parseImportFile. intros H. assert (∃ l, rows = numbered l) as [l ->].
  { destruct (_ || _); [destruct (parseJson buffer) as [[l|x]|]|destruct (parseCsv buffer) as [l|]]; simplify_eq; eauto. }
  rewrite numbered_lines. f_equal. unfold numbered. by rewrite length_imap.
Qed.

Definition start_report (dryRun : bool) (mode : LyricsImportMode) (n : nat) : LyricsImportReport := mkReport dryRun mode n 0 0 0 0 [].
Definition check_all_rows (dryRun : bool) (mode : LyricsImportMode) (rows : list (ParsedImportRow R)) : Checked :=
  foldl check_row (mkChecked ∅ [] (start_report dryRun mode (length rows))) rows.
Definition keys_to_find (c : Checked) : list (string * string) := (λ e, (c_artist (dto e), c_songTitle (dto e))) <$> valid c.
Definition sort_all (existing : gset string) (mode : LyricsImportMode) (c : Checked) : Sorted :=
  foldl (sort_entry existing mode) (mkSorted [] [] (report c)) (valid c).

Lemma start_checked dryRun mode n : checked_ok (mkChecked ∅ [] (start_report dryRun mode n)).
Proof. split; cbn; [done| |constructor|done]. intros k H. by apply elem_of_nil in H. Qed.

(** How a run that returns came to. *)
Lemma importLyrics_Ok file dryRun user mode w r w' : importLyrics file dryRun user mode w = (Ok r, w') → ∃ buffer rows,
  fi_buffer file = Some buffer ∧ parseImportFile buffer file = Ok rows ∧
  let c := check_all_rows dryRun mode rows in
  let s := sort_all (findExistingKeys (keys_to_find c) w) mode c in
  (valid c = [] ∧ r = report c ∧ w' = w) ∨
  (valid c ≠ [] ∧ r = final_report s ∧
    (w' = w ∧ (dryRun = true ∨ toCreate s ++ toUpdate s = []) ∨
     dryRun = false ∧ bulkUpsert (dto <$> (toCreate s ++ toUpdate s)) user w = (Ok tt, w'))).
Proof.
  unfold importLyrics. rewrite bind_require. destruct (fi_buffer file) as [buffer|]; [|done].
  destruct (parseImportFile buffer file) as [rows|] eqn:Hp; [|by erewrite bind_lift_err].
  erewrite bind_lift by done. intros Hrun. exists buffer, rows. split; [done|]. split; [done|]. cbn zeta in *.
  change (foldl check_row _ rows) with (check_all_rows dryRun mode rows) in Hrun. set (c := check_all_rows dryRun mode rows) in *.
  case_bool_decide as Hv; [left; by injection Hrun as <- <-|right; split; [done|]].
  rewrite bind_gets in Hrun. change (foldl (sort_entry _ mode) _ (valid c)) with (sort_all (findExistingKeys (keys_to_find c) w) mode c) in Hrun.
  set (s := sort_all _ _ _) in *. destruct dryRun; [injection Hrun as <- <-; auto|].
  destruct (bool_decide (toCreate s = []) && bool_decide (toUpdate s = [])) eqn:Eb.
  - rewrite bind_ret in Hrun. injection Hrun as <- <-. bool_prop. split; [done|]. left. split; [done|]. right.
    by rewrite H, H0.
  - apply bind_Ok_inv in Hrun as ([] & w1 & Hb & [= <- <-]). auto.
Qed.

Lemma check_all_spec dryRun mode (rows : list (ParsedImportRow R)) : pr_line <$> rows = seq 1 (length rows) →
  let c := check_all_rows dryRun mode rows in
  checked_ok c ∧ same_request (start_report dryRun mode (length rows)) (report c) ∧
  reported (report c) ++ (line <$> valid c) ≡ₚ seq 1 (length rows) ∧ (valid c = [] → reported (report c) = seq 1 (length rows)).
Proof.
  intros Hl. cbn zeta. destruct (check_rows_spec rows _ (start_checked dryRun mode (length rows))) as (H1 & H2 & new & H3 & H4 & H5).
  rewrite Hl in H4, H5. cbn in H3. fold (check_all_rows dryRun mode rows) in *. rewrite H3. done.
Qed.

Lemma sort_all_spec existing mode c : checked_ok c → let s := sort_all existing mode c in
  tallied (sorted_report s) ∧ same_request (report c) (sorted_report s) ∧
  reported (sorted_report s) ++ (line <$> toCreate s) ++ (line <$> toUpdate s) ≡ₚ reported (report c) ++ (line <$> valid c) ∧
  rp_created (sorted_report s) = 0%nat ∧
  toCreate s = List.filter (λ e, negb (bool_decide (dto_key (dto e) ∈ existing))) (valid c) ∧
  toUpdate s = (if mode is Upsert then List.filter (λ e, bool_decide (dto_key (dto e) ∈ existing)) (valid c) else []).
Proof.
  intros [Ht _ _ Hc]. cbn zeta. destruct (sort_entries_spec existing mode (valid c) (mkSorted [] [] (report c)) Ht) as (H1 & H2 & H3 & H4 & H5 & H6).
  cbn in *. rewrite app_nil_r in H3. rewrite Hc in H4. done.
Qed.
End import_runs.

(** *** What a dry run says *)

(** Nothing reads the flag of a report. *)
Definition flag (b : bool) (r : LyricsImportReport) : LyricsImportReport := r <| rp_dryRun := b |>.
Definition flag_checked (b : bool) (c : Checked) : Checked := mkChecked (seen c) (valid c) (flag b (report c)).
Definition flag_sorted (b : bool) (s : Sorted) : Sorted := mkSorted (toCreate s) (toUpdate s) (flag b (sorted_report s)).

Lemma foldl_commute {A B} (f : A → B → A) (g : A → A) l a : (∀ a x, f (g a) x = g (f a x)) → foldl f (g a) l = g (foldl f a l).
Proof. intros Hf. revert a. induction l as [|x l IH]; intros a; [done|]. cbn. by rewrite Hf, IH. Qed.

Section dry_runs.
Context {R W : Type} `{!ImportDeps R W}.

Lemma check_all_flag b b' mode (rows : list (ParsedImportRow R)) : check_all_rows b mode rows = flag_checked b (check_all_rows b' mode rows).
Proof.
  unfold check_all_rows. rewrite <-(foldl_commute _ (flag_checked b)); [done|]. intros c row. unfold check_row. cbn.
  destruct (negb _); [done|]. by destruct (seen c !! _).
Qed.

Lemma sort_all_flag existing mode b c : sort_all existing mode (flag_checked b c) = flag_sorted b (sort_all existing mode c).
Proof.
  unfold sort_all. rewrite <-(foldl_commute _ (flag_sorted b)); [done|]. intros s e. unfold sort_entry.
  by destruct (bool_decide _), mode.
Qed.

Lemma final_report_flag b s : final_report (flag_sorted b s) = flag b (final_report s).
Proof.
  unfold final_report. cbn. rewrite (foldl_commute _ (flag b)) by done. by rewrite (foldl_commute _ (flag b)).
Qed.

(** A run, on a file that parses. *)
Lemma importLyrics_rows file dryRun user mode w buffer rows : fi_buffer file = Some buffer → parseImportFile buffer file = Ok rows →
  importLyrics file dryRun user mode w =
  let c := check_all_rows dryRun mode rows in
  if bool_decide (valid c = []) then (Ok (report c), w)
  else
    let s := sort_all (findExistingKeys (keys_to_find c) w) mode c in
    if dryRun || (bool_decide (toCreate s = []) && bool_decide (toUpdate s = [])) then (Ok (final_report s), w)
    else ((bulkUpsert (dto <$> (toCreate s ++ toUpdate s)) user;; mret (final_report s)) : M W _) w.
Proof.
  intros Hb Hp. unfold importLyrics. rewrite bind_require, Hb, (bind_lift _ _ _ _ Hp). cbn zeta.
  change (foldl check_row _ rows) with (check_all_rows dryRun mode rows). case_bool_decide; [done|]. rewrite bind_gets.
  change (foldl (sort_entry _ mode) _ _) with
    (sort_all (findExistingKeys (keys_to_find (check_all_rows dryRun mode rows)) w) mode (check_all_rows dryRun mode rows)).
  destruct dryRun; [done|]. cbn [orb]. by destruct (_ && _).
Qed.
End dry_runs.

Section import_properties.
Context {R W : Type} `{!ImportDeps R W}.

(** The report of an import accounts for the file: its rows are the lines of the file, each once and in order, and its
    counters are the numbers of rows of each kind, which add up to the total. *)
Theorem import_accounts file dryRun user mode w r w' : importLyrics file dryRun user mode w = (Ok r, w') →
  rp_dryRun r = dryRun ∧ rp_mode r = mode ∧ reported r = seq 1 (rp_total r) ∧ tallied r ∧
  (rp_created r + rp_updated r + rp_skipped r + rp_errors r)%nat = rp_total r.
Proof.
  intros (buffer & rows & _ & Hp%parse_lines & Hrun)%importLyrics_Ok. cbn zeta in Hrun.
  destruct (check_all_spec dryRun mode rows Hp) as (Hok & Hsame & Hperm & Hnil). set (c := check_all_rows dryRun mode rows) in *.
  assert (∀ r', same_request (report c) r' → reported r' = seq 1 (length rows) → tallied r' → rp_dryRun r' = dryRun ∧ rp_mode r' = mode ∧
    reported r' = seq 1 (rp_total r') ∧ tallied r' ∧ (rp_created r' + rp_updated r' + rp_skipped r' + rp_errors r')%nat = rp_total r') as Hfin.
  { intros r' Hs Hr Ht. assert (same_request (start_report dryRun mode (length rows)) r') as (-> & -> & ->) by by etrans.
    split; [done|]. split; [done|]. split; [done|]. split; [done|]. rewrite tallied_total by done.
    rewrite <-(length_fmap rr_row). change (length (reported r') = length rows). by rewrite Hr, length_seq. }
  destruct Hrun as [(Hv & -> & _)|(_ & -> & _)].
  - apply Hfin; [done|by apply Hnil|apply Hok].
  - destruct (sort_all_spec (findExistingKeys (keys_to_find c) w) mode c Hok) as (Ht & Hs & Hl & _).
    destruct (final_report_spec _ Ht) as (H1 & H2 & H3 & H4 & _). apply Hfin; [by etrans| |done].
    apply (StronglySorted_unique le); [done|apply StronglySorted_seq|]. by rewrite H3, Hl, Hperm.
Qed.

(** A dry run writes nothing, and says what the run would: when the import succeeds, a dry run of the same file on the same
    lyrics gives the same report, but for the flag. *)
Theorem dry_run_predicts file user user' mode w :
  (∀ r w', importLyrics file true user mode w = (r, w') → w' = w) ∧
  (∀ r w', importLyrics file false user mode w = (Ok r, w') → importLyrics file true user' mode w = (Ok (flag true r), w)).
Proof.
  destruct (fi_buffer file) as [buffer|] eqn:Hb.
  2: { unfold importLyrics. rewrite !bind_require, Hb. split; [by intros r w' [= _ <-]|done]. }
  destruct (parseImportFile buffer file) as [rows|e] eqn:Hp.
  2: { unfold importLyrics. rewrite !bind_require, Hb. erewrite !bind_lift_err by exact Hp. split; [by intros r w' [= _ <-]|done]. }
  split; intros r w'; rewrite !(importLyrics_rows _ _ _ _ _ _ _ Hb Hp); cbn zeta; cbn [orb].
  - case_bool_decide; by intros [= _ <-].
  - rewrite (check_all_flag true false). change (valid (flag_checked ?b ?c)) with (valid c).
    change (keys_to_find (flag_checked ?b ?c)) with (keys_to_find c). rewrite sort_all_flag, final_report_flag.
    case_bool_decide; [by intros [= <- _]|]. destruct (_ && _); [by intros [= <- _]|].
    by intros ([] & w1 & _ & [= <- _])%bind_Ok_inv.
Qed.
End import_properties.

(** *** The lists *)

(** The order an admin asks for makes no difference to the list of users. *)
Theorem findAllUsers_unsorted {X} (d : UsersDb X) query query' : uq_limit query' = uq_limit query → uq_offset query' = uq_offset query →
  findAllUsers query' d = findAllUsers query d.
Proof. unfold findAllUsers. by intros -> ->. Qed.

(** Restoring a lyric: which refusal, and what a lyric that was taken down becomes. *)
Theorem restoreLyric_outcome id d : restoreLyric id d =
  if id <=? 0 then (Err (BadRequest "Invalid lyrics ID"), d)
  else match lyrics d !! id with
  | None => (Err (NotFound "Lyrics not found"), d)
  | Some row =>
      if ly_isActive (lr_lyrics row) then (Err (Conflict ("Lyric with id " +:+ show id +:+ " is already active")), d)
      else restore id d
  end.
Proof.
  unfold restoreLyric, findOneIncludingInactive. rewrite bind_assoc, bind_throw_if. destruct (id <=? 0); [done|].
  rewrite bind_assoc, bind_gets, bind_require. destruct (lyrics d !! id) as [row|]; [|done]. rewrite bind_throw_if.
  by destruct (ly_isActive _).
Qed.

Module AdminDemo.
(** Rows are dtos, the lyrics a set of keys. *)
#[local] Instance demo_import : ImportDeps CreateLyricsDto (gset string) := {
  parseJson s := if s == "bad" then None else Some (JsonList [LyricsDemo.dto "Song" "a"; LyricsDemo.dto "Other" "a"; LyricsDemo.dto "Song" "b"; LyricsDemo.dto "" "c"]);
  parseCsv s := Err (PlainError "CSV" "columns");
  plainToInstance d := d;
  validate d := if nonempty (c_songTitle d) then [] else [["songTitle should not be empty"]];
  findExistingKeys keys w := list_to_set ((λ k, key_of k.1 k.2) <$> keys) ∩ w;
  bulkUpsert dtos _ w := (Ok tt, list_to_set (dto_key <$> dtos) ∪ w);
}.

Definition file : ImportFile := mkFile (Some "rows") (Some "Songs.JSON") None.
Definition stored : gset string := {[dto_key (LyricsDemo.dto "Other" "a")]}.

Example json_by_name : is_ok (parseImportFile "rows" file) = true ∧
  parseImportFile (W := gset string) "rows" (mkFile None (Some "songs.csv") None) = Err (BadRequest "Invalid CSV file: columns").
Proof. by vm_compute. Qed.

Example upsert_report : (λ r, (rr_row r, rr_status r)) <$> (if (importLyrics file false None Upsert stored).1 is Ok r then rp_rows r else []) =
  [(1%nat, created); (2%nat, updated); (3%nat, error); (4%nat, error)].
Proof. by vm_compute. Qed.

Definition outcome (dryRun : bool) : result LyricsImportReport * gset string := importLyrics file dryRun None Upsert stored.
Definition report_of (r : result LyricsImportReport) : LyricsImportReport := if r is Ok r then r else start_report false Upsert 0.

Example import_accounts_witness : reported (report_of (outcome false).1) = seq 1 (rp_total (report_of (outcome false).1)).
Proof.
  eapply (import_accounts file false None Upsert stored (report_of (outcome false).1) (outcome false).2). by vm_compute.
Defined.

Example dry_run_predicts_witness : outcome true = (Ok (flag true (report_of (outcome false).1)), stored).
Proof.
  eapply (dry_run_predicts file None None Upsert stored). by vm_compute.
Defined.

Example findAllUsers_unsorted_witness (d : UsersDb unit) :
  findAllUsers (mkUserQuery None None (Some "email") (Some ASC)) d = findAllUsers (mkUserQuery None None (Some "username") None) d.
Proof. apply findAllUsers_unsorted; done. Defined.
End AdminDemo.
