(* ===== verification/Notifications.v ===== *)
(** * Notifications (src/src/notifications)

    [NotificationsService]: what is stored for a user and told to their sockets, the list, reading, and the
    nightly purge.  The room of a user ([RealtimeRoomsService], not in the repository) is the list of what is emitted to it.
    Which rows TypeORM takes [readAt: null] for is a parameter, one for reads and one for updates; the code
    relies on both meaning the rows that are not read. *)

From S2P Require Import Prelude Decimal.
From stdpp Require Import gmap sorting.

#[local] Open Scope Z_scope.

Definition RETENTION_DAYS : Z := 90.

(** ** Payloads *)

Inductive AchievementType := perfect_guess | streak | first_win | speed_demon.

Record BaseNotificationPayload := mkBase {
  np_userId : string;
  np_timestamp : Z;
  np_message : string;
}.

Inductive NotificationPayload :=
  | LevelUpNotificationPayload (base : BaseNotificationPayload) (newLevel : Z) (newTitle : string) (xpGained : Z)
  | ChallengeCompletedNotificationPayload (base : BaseNotificationPayload) (challengeName : string) (streakCount : Z) (reward : option string)
  | GameAchievementNotificationPayload (base : BaseNotificationPayload) (achievementType : AchievementType) (achievementValue : option Z)
      (reward : option string).

Definition base_of (p : NotificationPayload) : BaseNotificationPayload :=
  match p with
  | LevelUpNotificationPayload b _ _ _ => b
  | ChallengeCompletedNotificationPayload b _ _ _ => b
  | GameAchievementNotificationPayload b _ _ _ => b
  end.

Record CreateLevelUpNotificationDto := mkLevelUp {
  lu_userId : string;
  lu_newLevel : Z;
  lu_newTitle : string;
  lu_xpGained : Z;
}.
Record CreateChallengeNotificationDto := mkChallenge {
  cn_userId : string;
  cn_challengeName : string;
  cn_streakCount : Z;
  cn_reward : option string;
}.
Record CreateAchievementNotificationDto := mkAchievement {
  an_userId : string;
  an_achievementType : AchievementType;
  an_achievementValue : option Z;
  an_reward : option string;
}.

(** ** The table *)

Record Notification := mkNotification {
  nt_id : string;
  nt_userId : string;
  nt_type : string;
  nt_payload : NotificationPayload;
  nt_readAt : option Z;
  nt_createdAt : Z;
}.
#[export] Instance Notification_settable : Settable Notification := λ n,
  mkNotification (nt_id n) (nt_userId n) (nt_type n) (nt_payload n) (nt_readAt n) (nt_createdAt n).

(** The rows by id, whether the table can be written, the ids drawn, the clock, and what was emitted to the rooms of
    users: the user, the event and its payload. *)
Record NotificationsDb := mkNotificationsDb {
  notifications : gmap string Notification;
  writable : bool;
  drawn : nat;
  clock : Z;
  emitted : list (string * string * Notification);
}.
#[export] Instance NotificationsDb_settable : Settable NotificationsDb := λ d,
  mkNotificationsDb (notifications d) (writable d) (drawn d) (clock d) (emitted d).

Local Abbreviation M := (M NotificationsDb).

(** What [readAt: null] takes, in a find and in an update, and the ids the database draws. *)
Class Rows := {
  find_null : option Z → bool;
  update_null : option Z → bool;
  uuid : nat → string;
}.

Record NotificationQueryOptions := mkOptions {
  o_page : option Z;
  o_limit : option Z;
  o_unreadOnly : option bool;
}.
Record PaginatedNotifications := mkPage {
  pn_data : list Notification;
  pn_total : nat;
  pn_page : Z;
  pn_limit : Z;
}.

Definition newest_first (a b : Notification) : Prop := nt_createdAt b ≤ nt_createdAt a.
#[export] Instance newest_first_dec : RelDecision newest_first.
Proof. intros a b. unfold newest_first. apply _. Defined.

Section NotificationsService.
Context `{!Rows}.

Definition check_writable : M unit :=
  ok ← gets writable;
  throw_if (negb ok) (PlainError "QueryFailedError" "notifications is not available").

(** [save] of a row that is there, by its id. *)
Definition save (n : Notification) : M unit :=
  check_writable;;
  modify (λ d, d <| notifications := <[nt_id n := n]> (notifications d) |>).

Definition storeNotification (type : string) (notification : NotificationPayload) : M Notification :=
  let userId := np_userId (base_of notification) in
  check_writable;;
  d ← gets id;
  let saved := mkNotification (uuid (drawn d)) userId type notification None (clock d) in
  modify (λ d, d <| notifications := <[nt_id saved := saved]> (notifications d) |> <| drawn := S (drawn d) |>);;
  modify (λ d, d <| emitted := emitted d ++ [(userId, "notification", saved)] |>);;
  mret saved.

Definition handleLevelUpEvent (payload : NotificationPayload) : M unit := storeNotification "level_up" payload;; mret tt.
Definition handleChallengeCompletedEvent (payload : NotificationPayload) : M unit := storeNotification "challenge_completed" payload;; mret tt.
Definition handleAchievementEvent (payload : NotificationPayload) : M unit := storeNotification "achievement_unlocked" payload;; mret tt.

(** [eventEmitter.emit]: the handler of the event runs; what it throws is logged. *)
Definition emit (handler : NotificationPayload → M unit) (payload : NotificationPayload) : M unit :=
  try_catch (handler payload) (λ _, mret tt).

Definition emitLevelUpEvent (dto : CreateLevelUpNotificationDto) : M unit :=
  now ← gets clock;
  emit handleLevelUpEvent (LevelUpNotificationPayload
    (mkBase (lu_userId dto) now ("🎉 You leveled up to " +:+ lu_newTitle dto +:+ "!"))
    (lu_newLevel dto) (lu_newTitle dto) (lu_xpGained dto)).

Definition emitChallengeCompletedEvent (dto : CreateChallengeNotificationDto) : M unit :=
  now ← gets clock;
  emit handleChallengeCompletedEvent (ChallengeCompletedNotificationPayload
    (mkBase (cn_userId dto) now
      ("🔥 You completed " +:+ cn_challengeName dto +:+ " with " +:+ show (cn_streakCount dto) +:+ " correct guesses in a row!"))
    (cn_challengeName dto) (cn_streakCount dto) (cn_reward dto)).

Definition achievementMessages (a : AchievementType) : string :=
  match a with
  | perfect_guess => "🎯 Perfect guess!"
  | streak => "🔥 Streak achieved!"
  | first_win => "🏆 First win!"
  | speed_demon => "⚡ Speed demon!"
  end.

(** A value of 0 is falsy. *)
Definition achievement_value (v : option Z) : string :=
  match v with
  | Some v => if v =? 0 then "" else "(" +:+ show v +:+ ")"
  | None => ""
  end.

Definition emitAchievementEvent (dto : CreateAchievementNotificationDto) : M unit :=
  now ← gets clock;
  emit handleAchievementEvent (GameAchievementNotificationPayload
    (mkBase (an_userId dto) now (achievementMessages (an_achievementType dto) +:+ " " +:+ achievement_value (an_achievementValue dto)))
    (an_achievementType dto) (an_achievementValue dto) (an_reward dto)).

(** The rows of a user, of those that [unreadOnly] selects, newest first. *)
Definition selected (userId : string) (unreadOnly : bool) (n : Notification) : bool :=
  (nt_userId n == userId) && (if unreadOnly then find_null (nt_readAt n) else true).
Definition inbox (userId : string) (unreadOnly : bool) (d : NotificationsDb) : list Notification :=
  merge_sort newest_first (List.filter (selected userId unreadOnly) (map_to_list (notifications d)).*2).

Definition getNotificationsForUser (userId : string) (options : NotificationQueryOptions) : M PaginatedNotifications :=
  let page := Z.max 1 (default 1 (o_page options)) in
  let limit := Z.min 100 (Z.max 1 (default 20 (o_limit options))) in
  let rows := inbox userId (default false (o_unreadOnly options)) in
  gets (λ d, mkPage (take (Z.to_nat limit) (drop (Z.to_nat ((page - 1) * limit)) (rows d))) (length (rows d)) page limit).

Definition markAsRead (userId id : string) : M (option Notification) :=
  row ← gets (λ d, notifications d !! id);
  match row with
  | None => mret None
  | Some notification =>
      if negb (nt_userId notification == userId) then mret None
      else match nt_readAt notification with
      | Some _ => mret (Some notification)
      | None =>
          now ← gets clock;
          let read := notification <| nt_readAt := Some now |> in
          save read;;
          mret (Some read)
      end
  end.

Definition unread_of (userId : string) (n : Notification) : bool := (nt_userId n == userId) && update_null (nt_readAt n).

Definition markAllAsRead (userId : string) : M nat :=
  check_writable;;
  d ← gets id;
  modify (λ d, d <| notifications := (λ n, if unread_of userId n then n <| nt_readAt := Some (clock d) |> else n) <$> notifications d |>);;
  mret (length (List.filter (unread_of userId) (map_to_list (notifications d)).*2)).

(** [readAt < cutoff] *)
Definition expired (cutoff : Z) (n : Notification) : bool := if nt_readAt n is Some t then t <? cutoff else false.

Definition purgeOldNotifications : M unit :=
  now ← gets clock;
  let cutoff := now - RETENTION_DAYS * 24 * 60 * 60 * 1000 in
  check_writable;;
  modify (λ d, d <| notifications := filter (λ e, expired cutoff e.2 = false) (notifications d) |>).

Definition mockUserId : string := "mock-user-123".
Definition generateMockNotifications : M unit :=
  emitLevelUpEvent (mkLevelUp mockUserId 5 "Rising Star" 100);;
  emitChallengeCompletedEvent (mkChallenge mockUserId "Perfect Streak" 5 (Some "50 tokens"));;
  emitAchievementEvent (mkAchievement mockUserId perfect_guess (Some 10) (Some "Speed boost")).
End NotificationsService.

(** ** Runs *)

Inductive inbox_op :=
  | Store (type : string) (payload : NotificationPayload)
  | Read (userId id : string)
  | ReadAll (userId : string)
  | Purge
  | Elapse (ms : Z)
  | Writable (b : bool).

Section runs.
Context `{!Rows}.

Definition run_op (d : NotificationsDb) (op : inbox_op) : NotificationsDb :=
  match op with
  | Store type payload => (storeNotification type payload d).2
  | Read userId id => (markAsRead userId id d).2
  | ReadAll userId => (markAllAsRead userId d).2
  | Purge => (purgeOldNotifications d).2
  | Elapse ms => d <| clock := clock d + Z.max 0 ms |>
  | Writable b => d <| writable := b |>
  end.

(** The operation reads notification [id] of [userId]. *)
Definition reads (userId id : string) (op : inbox_op) : bool :=
  match op with
  | Read u i => (u == userId) && (i == id)
  | ReadAll u => u == userId
  | _ => false
  end.
End runs.

(** What the code relies on: the database draws new ids, and [readAt: null] takes the rows that are not read. *)
Class RowsLaws `{!Rows} := {
  uuid_inj : Inj (=) (=) uuid;
  find_null_unread r : find_null r = bool_decide (r = None);
  update_null_unread r : update_null r = bool_decide (r = None);
}.

Definition DAY : Z := 24 * 60 * 60 * 1000.

Section kept.
Context `{!Rows}.

(** Rows by their ids, which were drawn. *)
Definition ids_drawn (d : NotificationsDb) : Prop := ∀ id n, notifications d !! id = Some n →
  nt_id n = id ∧ ∃ k, (k < drawn d)%nat ∧ id = uuid k.

(** What may have become of row [n] by the time [d']: it is there, read at most once, or it was read long ago. *)
Definition kept (n : Notification) (d d' : NotificationsDb) : Prop :=
  ∃ r, (nt_readAt n = r ∨ nt_readAt n = None ∧ ∃ t, r = Some t ∧ clock d ≤ t ≤ clock d') ∧
    (notifications d' !! nt_id n = Some (n <| nt_readAt := r |>) ∨
     notifications d' !! nt_id n = None ∧ ∃ t, r = Some t ∧ t < clock d' - RETENTION_DAYS * DAY).

Lemma set_readAt_id n : n <| nt_readAt := nt_readAt n |> = n.
Proof. by destruct n. Qed.

Lemma store_run type payload d : writable d = true →
  let n := mkNotification (uuid (drawn d)) (np_userId (base_of payload)) type payload None (clock d) in
  storeNotification type payload d =
  (Ok n, d <| notifications := <[uuid (drawn d) := n]> (notifications d) |> <| drawn := S (drawn d) |>
    <| emitted := emitted d ++ [(np_userId (base_of payload), "notification", n)] |>).
Proof. intros Hw. unfold storeNotification, check_writable. rewrite bind_assoc, bind_gets, Hw. by rewrite bind_throw_if. Qed.

Lemma store_refused type payload d : writable d = false → (storeNotification type payload d).2 = d.
Proof. intros Hw. unfold storeNotification, check_writable. by rewrite bind_assoc, bind_gets, Hw, bind_throw_if. Qed.

Lemma markAsRead_run userId id d : markAsRead userId id d =
  match notifications d !! id with
  | None => (Ok None, d)
  | Some n =>
      if negb (nt_userId n == userId) then (Ok None, d)
      else if nt_readAt n is Some _ then (Ok (Some n), d)
      else if writable d then
        (Ok (Some (n <| nt_readAt := Some (clock d) |>)),
         d <| notifications := <[nt_id n := n <| nt_readAt := Some (clock d) |>]> (notifications d) |>)
      else (Err (PlainError "QueryFailedError" "notifications is not available"), d)
  end.
Proof.
  unfold markAsRead. rewrite bind_gets. destruct (notifications d !! id) as [n|]; [|done].
  destruct (negb _); [done|]. destruct (nt_readAt n); [done|]. rewrite bind_gets. unfold save, check_writable.
  rewrite !bind_assoc, bind_gets, bind_throw_if. by destruct (writable d).
Qed.

Lemma markAllAsRead_run userId d : markAllAsRead userId d =
  if writable d then
    (Ok (length (List.filter (unread_of userId) (map_to_list (notifications d)).*2)),
     d <| notifications := (λ n, if unread_of userId n then n <| nt_readAt := Some (clock d) |> else n) <$> notifications d |>)
  else (Err (PlainError "QueryFailedError" "notifications is not available"), d).
Proof. unfold markAllAsRead, check_writable. rewrite bind_assoc, bind_gets, bind_throw_if. by destruct (writable d). Qed.

Lemma purge_run d : purgeOldNotifications d =
  if writable d then
    (Ok tt, d <| notifications := filter (λ e, expired (clock d - RETENTION_DAYS * DAY) e.2 = false) (notifications d) |>)
  else (Err (PlainError "QueryFailedError" "notifications is not available"), d).
Proof.
  unfold purgeOldNotifications, check_writable. rewrite bind_gets, bind_assoc, bind_gets, bind_throw_if. destruct (writable d); [|done].
  cbn. unfold modify, RETENTION_DAYS, DAY. do 3 f_equal.
Qed.

Context `{!RowsLaws}.

Lemma run_op_drawn d op : ids_drawn d → ids_drawn (run_op d op).
Proof.
  intros Hd. destruct op as [type payload|u i|u| |ms|b]; cbn [run_op]; try done.
  - destruct (writable d) eqn:Hw; [|by rewrite store_refused]. rewrite store_run by done. intros id n. cbn.
    rewrite lookup_insert_Some. intros [[<- <-]|[_ (H1 & k & H2 & H3)%Hd]]; [split; [done|]|split; [done|]]; eexists; (split; [|done]); lia.
  - rewrite markAsRead_run. destruct (notifications d !! i) as [n|] eqn:E; [|done]. destruct (negb _); [done|].
    destruct (nt_readAt n); [done|]. destruct (writable d); [|done]. intros id m. cbn. rewrite lookup_insert_Some.
    intros [[<- <-]|[_ Hm]]; [|by apply Hd]. destruct (Hd _ _ E) as (Hi & Hk). rewrite Hi. split; [exact Hi|exact Hk].
  - rewrite markAllAsRead_run. destruct (writable d); [|done]. intros id m. cbn. rewrite lookup_fmap_Some.
    intros (n & <- & Hn%Hd). by destruct (unread_of u n).
  - rewrite purge_run. destruct (writable d); [|done]. intros id m. cbn. intros [Hm _]%map_lookup_filter_Some. by apply Hd.
Qed.

Local Ltac unmoved := cbn; split; [lia|by auto].

(** What an operation makes of a row: it stays, is read now, or is purged. *)
Lemma run_op_row d op id n : ids_drawn d → notifications d !! id = Some n →
  let d' := run_op d op in
  clock d ≤ clock d' ∧
  (notifications d' !! id = Some n ∨
   reads (nt_userId n) id op = true ∧ nt_readAt n = None ∧ notifications d' !! id = Some (n <| nt_readAt := Some (clock d) |>) ∨
   notifications d' !! id = None ∧ ∃ t, nt_readAt n = Some t ∧ t < clock d - RETENTION_DAYS * DAY).
Proof.
  intros Hd Hn. cbn zeta. destruct op as [type payload|u i|u| |ms|b]; cbn [run_op reads].
  - destruct (writable d) eqn:Hw; [|rewrite store_refused by done; unmoved]. rewrite store_run by done. cbn. split; [lia|]. left.
    rewrite lookup_insert_ne; [done|]. destruct (Hd _ _ Hn) as (_ & k & Hk & ->). intros Heq%uuid_inj. lia.
  - rewrite markAsRead_run. destruct (notifications d !! i) as [m|] eqn:E; [|unmoved].
    destruct (nt_userId m == u) eqn:Eu; cbn [negb]; [|unmoved]. destruct (nt_readAt m) eqn:Er; [unmoved|].
    destruct (writable d); [|unmoved]. cbn. split; [lia|]. destruct (Hd _ _ E) as (Hi & _). rewrite Hi.
    destruct (decide (i = id)) as [->|]; [|left; by rewrite lookup_insert_ne]. right; left.
    assert (m = n) as -> by congruence. rewrite lookup_insert_eq. apply bool_decide_eq_true in Eu as ->. by rewrite !bool_decide_true by done.
  - rewrite markAllAsRead_run. destruct (writable d); [|unmoved]. cbn. split; [lia|]. rewrite lookup_fmap, Hn. cbn. unfold unread_of.
    destruct (decide (nt_userId n = u)) as [<-|]; [|rewrite bool_decide_false by done; auto].
    rewrite !bool_decide_true by done. cbn. rewrite update_null_unread. case_bool_decide; auto.
  - rewrite purge_run. destruct (writable d); [|unmoved]. cbn. split; [lia|].
    destruct (expired (clock d - RETENTION_DAYS * DAY) n) eqn:Ex.
    + right; right. split.
      * apply map_lookup_filter_None. right. intros m Hm. assert (m = n) as -> by congruence. cbn. by rewrite Ex.
      * unfold expired in Ex. destruct (nt_readAt n) as [t|]; [|done]. exists t. split; [done|lia].
    + left. by apply map_lookup_filter_Some.
  - unmoved.
  - unmoved.
Qed.

(** An id that was drawn and is gone is not drawn again. *)
Lemma run_op_gone d op k : ids_drawn d → (k < drawn d)%nat → notifications d !! uuid k = None →
  notifications (run_op d op) !! uuid k = None.
Proof.
  intros Hd Hk Hn. destruct op as [type payload|u i|u| |ms|b]; cbn [run_op]; try done.
  - destruct (writable d) eqn:Hw; [|by rewrite store_refused]. rewrite store_run by done. cbn.
    rewrite lookup_insert_ne; [done|]. intros Heq%uuid_inj. lia.
  - rewrite markAsRead_run. destruct (notifications d !! i) as [m|] eqn:E; [|done]. destruct (negb _); [done|].
    destruct (nt_readAt m); [done|]. destruct (writable d); [|done]. cbn. destruct (Hd _ _ E) as (-> & _).
    rewrite lookup_insert_ne; [done|]. intros ->. by rewrite Hn in E.
  - rewrite markAllAsRead_run. destruct (writable d); [|done]. cbn. by rewrite lookup_fmap, Hn.
  - rewrite purge_run. destruct (writable d); [|done]. cbn. apply map_lookup_filter_None. by left.
Qed.

Lemma run_op_grows d op : (drawn d ≤ drawn (run_op d op))%nat ∧ clock d ≤ clock (run_op d op).
Proof.
  destruct op as [type payload|u i|u| |ms|b]; cbn [run_op]; try (cbn; lia).
  - destruct (writable d) eqn:Hw; [rewrite store_run by done|rewrite store_refused by done]; cbn; lia.
  - rewrite markAsRead_run. destruct (notifications d !! i); [|done]. destruct (negb _); [done|].
    destruct (nt_readAt _); [done|]. by destruct (writable d).
  - rewrite markAllAsRead_run. by destruct (writable d).
  - rewrite purge_run. by destruct (writable d).
Qed.

Lemma kept_step n d d' op : ids_drawn d → notifications d !! nt_id n = Some n → ids_drawn d' → (drawn d ≤ drawn d')%nat → clock d ≤ clock d' →
  kept n d d' → kept n d (run_op d' op).
Proof.
  intros Hd Hn Hd' Hdr Hc (r & Hr & Hrow). destruct (run_op_grows d' op) as [_ Hc']. destruct Hrow as [Hrow|[Hgone (t & -> & Ht)]].
  - destruct (run_op_row d' op _ _ Hd' Hrow) as (_ & [Hs|[(_ & Hu & Hs)|(Hs & t & Ht & Hold)]]).
    + exists r. split; [|auto]. destruct Hr as [|(? & t & ? & ?)]; [auto|right; split; [done|exists t; split; [done|lia]]].
    + cbn in Hu. subst r. exists (Some (clock d')). split; [|left; exact Hs].
      right. destruct Hr as [->|(-> & _)]; (split; [done|exists (clock d'); split; [done|lia]]).
    + cbn in Ht. subst r. exists (Some t). split; [destruct Hr as [|(? & t' & ? & ?)]; [auto|right; split; [done|exists t'; split; [done|lia]]]|].
      right. split; [exact Hs|exists t; split; [done|lia]].
  - destruct (Hd _ _ Hn) as (_ & k & Hk & Hid). exists (Some t).
    split; [destruct Hr as [|(? & t' & ? & ?)]; [auto|right; split; [done|exists t'; split; [done|lia]]]|].
    right. split; [rewrite Hid; apply run_op_gone; [done|lia|by rewrite <-Hid]|exists t; split; [done|lia]].
Qed.

(** Whatever is stored, read and purged after it, a notification stays as it was stored, marked as read at most once, until ninety days after
    it was read; while its user does not read it, it stays unread. *)
Theorem notification_kept d id n ops : ids_drawn d → notifications d !! id = Some n →
  kept n d (foldl run_op d ops) ∧
  (nt_readAt n = None → existsb (reads (nt_userId n) id) ops = false → notifications (foldl run_op d ops) !! id = Some n).
Proof.
  intros Hd Hn. destruct (Hd _ _ Hn) as [<- _]. split.
  - assert (ids_drawn (foldl run_op d ops) ∧ (drawn d ≤ drawn (foldl run_op d ops))%nat ∧ clock d ≤ clock (foldl run_op d ops) ∧
      kept n d (foldl run_op d ops)) as (_ & _ & _ & Hkept); [|exact Hkept].
    induction ops as [|op ops (H1 & H2 & H3 & H4)] using rev_ind.
    + split; [done|]. split; [done|]. split; [done|]. exists (nt_readAt n). rewrite set_readAt_id. auto.
    + rewrite foldl_app. cbn. destruct (run_op_grows (foldl run_op d ops) op). split; [by apply run_op_drawn|].
      split; [lia|]. split; [lia|]. by apply kept_step.
  - intros Hu. revert d Hd Hn. induction ops as [|op ops IH]; intros d Hd Hn; [done|]. cbn. intros [Hop Hops]%orb_false_iff.
    destruct (run_op_row d op _ _ Hd Hn) as (_ & [Hs|[(Hr & _)|(_ & t & Ht & _)]]); [|congruence|congruence].
    apply IH; [by apply run_op_drawn|done|done].
Qed.

(** *** The list *)

(** The pages of a user's notifications, one after the other, are theirs, newest first; those asked for unread are the
    unread ones. *)
Lemma inbox_spec userId unreadOnly d n : n ∈ inbox userId unreadOnly d ↔
  (∃ id, notifications d !! id = Some n) ∧ nt_userId n = userId ∧ (unreadOnly = true → nt_readAt n = None).
Proof.
  unfold inbox. rewrite merge_sort_Permutation, list_elem_of_In, List.filter_In, <-list_elem_of_In, list_elem_of_fmap. unfold selected.
  rewrite andb_true_iff, bool_decide_eq_true. split.
  - intros (([id m] & -> & Hm%elem_of_map_to_list) & -> & Hu). split; [eauto|]. split; [done|]. intros ->.
    rewrite find_null_unread in Hu. by apply bool_decide_eq_true in Hu.
  - intros ((id & Hm) & <- & Hu). split; [exists (id, n); split; [done|by apply elem_of_map_to_list]|]. split; [done|].
    destruct unreadOnly; [|done]. rewrite find_null_unread, Hu by done. done.
Qed.

Lemma inbox_sorted userId unreadOnly d : StronglySorted newest_first (inbox userId unreadOnly d).
Proof. apply StronglySorted_merge_sort; intros ?; unfold newest_first; lia. Qed.

(** The pages of a user's list, one after the other, are the user's notifications, all of them or the unread ones as asked, newest first,
    none lost or repeated; no page has more than a hundred. *)
Theorem notifications_pages userId limit unreadOnly d : 1 ≤ limit →
  let page (i : nat) := (getNotificationsForUser userId (mkOptions (Some (Z.of_nat i + 1)) (Some limit) (Some unreadOnly)) d).1 in
  let rows := inbox userId unreadOnly d in
  ∃ pages : nat → list Notification,
    (∀ i, page i = Ok (mkPage (pages i) (length rows) (Z.of_nat i + 1) (Z.min 100 limit)) ∧ (length (pages i) ≤ 100)%nat) ∧
    mjoin (pages <$> seq 0 (length rows)) = rows ∧ StronglySorted newest_first rows ∧
    (∀ n, n ∈ rows ↔ (∃ id, notifications d !! id = Some n) ∧ nt_userId n = userId ∧ (unreadOnly = true → nt_readAt n = None)).
Proof.
  intros Hl. cbn zeta. set (l := Z.min 100 limit). set (rows := inbox userId unreadOnly d).
  exists (λ i, take (Z.to_nat l) (drop (i * Z.to_nat l) rows)). split; [|split; [|split]].
  - intros i. split; [|rewrite length_take; lia]. unfold getNotificationsForUser, gets. cbn -[Z.min Z.max Z.mul].
    replace (Z.max 1 (Z.of_nat i + 1)) with (Z.of_nat i + 1) by lia. replace (Z.max 1 limit) with limit by lia. fold l rows.
    do 4 f_equal. lia.
  - rewrite (chunks (Z.to_nat l) (length rows) 0); [done|]. assert (1 ≤ l) by lia. nia.
  - apply inbox_sorted.
  - intros n. apply inbox_spec.
Qed.

(** *** Told *)

Definition empty_db (now : Z) : NotificationsDb := mkNotificationsDb ∅ true 0 now [].

(** What the rooms heard: the rows drawn, each to its own user. *)
Definition told (d : NotificationsDb) : Prop :=
  (λ e, nt_id e.2) <$> emitted d = uuid <$> seq 0 (drawn d) ∧
  Forall (λ e, e.1 = (nt_userId e.2, "notification") ∧ np_userId (base_of (nt_payload e.2)) = nt_userId e.2) (emitted d).

Lemma run_op_told d op : told d → told (run_op d op).
Proof.
  intros [H1 H2]. destruct op as [type payload|u i|u| |ms|b]; cbn [run_op]; try done.
  - destruct (writable d) eqn:Hw; [|by rewrite store_refused]. rewrite store_run by done. unfold told. cbn [emitted drawn snd].
    change (emitted (set_field _ _)) with (emitted d ++ [(np_userId (base_of payload), "notification",
      mkNotification (uuid (drawn d)) (np_userId (base_of payload)) type payload None (clock d))]).
    change (drawn (set_field _ _)) with (S (drawn d)). rewrite seq_S, !fmap_app, H1. split; [done|]. by apply Forall_app_2, Forall_singleton.
  - rewrite markAsRead_run. destruct (notifications d !! i); [|done]. destruct (negb _); [done|].
    destruct (nt_readAt _); [done|]. by destruct (writable d).
  - rewrite markAllAsRead_run. by destruct (writable d).
  - rewrite purge_run. by destruct (writable d).
Qed.

(** Each notification is told once, as it was stored, to the user it is for and to nobody else; what is not stored is not told. *)
Theorem notification_told_once now ops : told (foldl run_op (empty_db now) ops) ∧ NoDup ((λ e, nt_id e.2) <$> emitted (foldl run_op (empty_db now) ops)).
Proof.
  assert (told (foldl run_op (empty_db now) ops)) as Ht.
  { induction ops as [|op ops IH] using rev_ind; [by split; [|constructor]|]. rewrite foldl_app. by apply run_op_told. }
  split; [done|]. destruct Ht as [-> _]. apply NoDup_fmap_2; [apply uuid_inj|apply NoDup_seq].
Qed.

(** Reading again gives the time it was first read, whenever. *)
Theorem markAsRead_once userId id d n d' now : markAsRead userId id d = (Ok (Some n), d') → ids_drawn d →
  nt_userId n = userId ∧ is_Some (nt_readAt n) ∧ markAsRead userId id (d' <| clock := now |>) = (Ok (Some n), d' <| clock := now |>).
Proof.
  rewrite markAsRead_run. intros Hrun Hd. destruct (notifications d !! id) as [m|] eqn:E; [|done]. destruct (Hd _ _ E) as [Hi _].
  destruct (nt_userId m == userId) eqn:Eu; [|done]. cbn [negb] in Hrun. rewrite markAsRead_run.
  destruct (nt_readAt m) as [t|] eqn:Er; [|destruct (writable d); [|done]]; injection Hrun as <- <-; cbn [notifications].
  - change (notifications (set_field _ d)) with (notifications d). rewrite E, Eu, Er. cbn. apply bool_decide_eq_true in Eu. eauto.
  - change (notifications (set_field _ _)) with (<[nt_id m := m <| nt_readAt := Some (clock d) |>]> (notifications d)).
    rewrite Hi, lookup_insert_eq. cbn. rewrite Eu. apply bool_decide_eq_true in Eu. eauto.
Qed.

(** Raising an event never fails: when the table cannot be written, nothing is stored and nothing told. *)
Theorem emit_safe handler payload d : handler ∈ [handleLevelUpEvent; handleChallengeCompletedEvent; handleAchievementEvent] →
  (emit handler payload d).1 = Ok tt ∧ (writable d = false → (emit handler payload d).2 = d).
Proof.
  intros Hh. assert (∃ type, handler payload = (storeNotification type payload;; mret tt)) as [type He] by (set_unfold; naive_solver).
  unfold emit, try_catch. rewrite He. destruct (writable d) eqn:Hw.
  - erewrite bind_run by (by apply store_run). done.
  - unfold storeNotification, check_writable. by rewrite !bind_assoc, bind_gets, Hw, bind_throw_if.
Qed.
End kept.

(** When [readAt: null] is left out of the query, as the find options of TypeORM do by default, asking for the unread ones lists all. *)
Theorem unread_filter_ignored `{!Rows} userId page limit d : (∀ r, find_null r = true) →
  getNotificationsForUser userId (mkOptions page limit (Some true)) d = getNotificationsForUser userId (mkOptions page limit (Some false)) d.
Proof.
  intros Hn. assert (inbox userId true d = inbox userId false d) as Hi.
  { unfold inbox. f_equal. apply List.filter_ext. intros n. unfold selected. by rewrite Hn. }
  unfold getNotificationsForUser, gets. cbn -[inbox]. by rewrite Hi.
Qed.

Module InboxDemo.
#[local] Instance demo_rows : Rows := {
  find_null r := bool_decide (r = None);
  update_null r := bool_decide (r = None);
  uuid k := show_nat (Z.of_nat k);
}.
#[local] Instance demo_laws : RowsLaws.
Proof. split; [|done..]. intros a b H%(f_equal dec). change (dec (show_nat (Z.of_nat a)) = dec (show_nat (Z.of_nat b))) in H. rewrite !dec_show_nat in H by lia. lia. Qed.

Definition level_up : NotificationPayload := LevelUpNotificationPayload (mkBase "ada" 0 "up") 2 "Rookie" 10.
Definition d1 : NotificationsDb := foldl run_op (empty_db 0) [Store "level_up" level_up; Elapse 5; Store "level_up" level_up].
Definition later : list inbox_op := [Read "bob" "0"; ReadAll "bob"; Elapse (100 * DAY); Purge; Store "level_up" level_up].

Lemma d1_drawn : ids_drawn d1.
Proof.
  assert (ids_drawn (empty_db 0)) as H0 by (intros id n H; cbn in H; by rewrite lookup_empty in H).
  unfold d1. cbn [foldl]. by repeat apply run_op_drawn.
Qed.

Definition first : Notification := mkNotification "0" "ada" "level_up" level_up None 0.

Example notification_kept_witness : notifications (foldl run_op d1 later) !! "0" = Some first.
Proof. refine (proj2 (notification_kept d1 "0" first later d1_drawn _) _ _); by vm_compute. Defined.

(** Read, it is purged after ninety days and not before. *)
Example purged_in_time : let read := foldl run_op d1 [Read "ada" "0"] in
  is_Some (notifications (foldl run_op read [Elapse (90 * DAY); Purge]) !! "0") ∧
  notifications (foldl run_op read [Elapse (90 * DAY + 1); Purge]) !! "0" = None.
Proof. split; [eexists|]; by vm_compute. Qed.

Example notifications_pages_witness : ∃ pages : nat → list Notification, mjoin (pages <$> seq 0 2) = inbox "ada" false d1.
Proof.
  destruct (notifications_pages "ada" 1 false d1) as (pages & _ & H & _); [lia|]. exists pages. exact H.
Defined.

Example markAsRead_once_witness : ∃ n, markAsRead "ada" "0" (foldl run_op d1 [Read "ada" "0"] <| clock := 77 |>) =
  (Ok (Some n), foldl run_op d1 [Read "ada" "0"] <| clock := 77 |>).
Proof.
  eexists. refine (proj2 (proj2 (markAsRead_once "ada" "0" d1 (first <| nt_readAt := Some 5 |>) _ 77 _ d1_drawn))).
  by vm_compute.
Defined.

Example emit_safe_witness : (emit handleLevelUpEvent level_up (d1 <| writable := false |>)).1 = Ok tt.
Proof. refine (proj1 (emit_safe handleLevelUpEvent level_up (d1 <| writable := false |>) _)). apply list_elem_of_here. Defined.

Example achievement_message : let d := (emitAchievementEvent (mkAchievement "ada" streak (Some 7) None) (empty_db 0)).2 in
  (λ e, np_message (base_of (nt_payload e.2))) <$> emitted d = ["🔥 Streak achieved! (7)"].
Proof. by vm_compute. Qed.
End InboxDemo.

Module IgnoredDemo.
#[local] Instance ignored_rows : Rows := { find_null r := true; update_null r := true; uuid k := show_nat (Z.of_nat k) }.

Example unread_filter_ignored_witness userId d :
  getNotificationsForUser userId (mkOptions None None (Some true)) d = getNotificationsForUser userId (mkOptions None None (Some false)) d.
Proof. apply unread_filter_ignored. done. Defined.
End IgnoredDemo.
