(* ===== verification/Access.v ===== *)
(** * Access (auth/guards, common/throttler, the controllers' decorators, metrics/metrics.controller.ts)

    The guards every request and message passes ([JwtAuthGuard], [RolesGuard], [AppThrottlerGuard], in the order [AppModule]
    registers them, then the one of a handler), the table of the routes as the controllers' decorators declare it, and the checks
    of the metrics endpoint.  The framework is read as documented: metadata of a handler go before those of its class, and a
    guard that throws ends the request.  The counting of the throttler library is a parameter, with any state. *)

From S2P Require Import Prelude Number Entities Auth.
From stdpp Require Import gmap.
From Stdlib Require Import Ascii.

#[local] Open Scope Z_scope.

(** ** Limits (throttle.config.ts) *)

Definition Env := string → option string.

Record Throttle := mkThrottle {
  th_ttl : Z;
  th_limit : Z;
}.

Definition num (env : Env) (key : string) (fallback : Z) : Z :=
  match parseInt (default "" (env key)) with
  | Some value => if (value <? NUMBER_OVERFLOW) && (0 <? value) then value else fallback
  | None => fallback
  end.

(** The limits, by what sets them. *)
Inductive Limits := Default | AuthLimit | StellarLimit | ExportLimit | GuessLimit.

Definition defaultThrottle (env : Env) : Throttle := mkThrottle (num env "THROTTLE_TTL_MS" 60000) (num env "THROTTLE_LIMIT" 100).
Definition authThrottle (env : Env) : Throttle := mkThrottle (num env "THROTTLE_AUTH_TTL_MS" 60000) (num env "THROTTLE_AUTH_LIMIT" 5).
Definition stellarThrottle (env : Env) : Throttle := mkThrottle (num env "THROTTLE_STELLAR_TTL_MS" 60000) (num env "THROTTLE_STELLAR_LIMIT" 10).
Definition exportThrottle (env : Env) : Throttle := mkThrottle (num env "THROTTLE_EXPORT_TTL_MS" 3600000) (num env "THROTTLE_EXPORT_LIMIT" 3).
Definition guessThrottle (env : Env) : Throttle := mkThrottle (num env "THROTTLE_GUESS_TTL_MS" 60000) (num env "THROTTLE_GUESS_LIMIT" 30).
Definition wsRateLimit (env : Env) : Z * Z * Z :=
  (num env "WS_RATE_LIMIT_CAPACITY" 20, num env "WS_RATE_LIMIT_REFILL_PER_SEC" 5, num env "WS_RATE_LIMIT_DISCONNECT_AFTER" 50).
Definition wsMaxHttpBufferSize (env : Env) : Z := num env "WS_MAX_HTTP_BUFFER_SIZE" (16 * 1024).
Definition wsMaxSocketsPerUser (env : Env) : Z := num env "WS_MAX_SOCKETS_PER_USER" 5.

Definition throttle_of (env : Env) (l : Limits) : Throttle :=
  match l with
  | Default => defaultThrottle env
  | AuthLimit => authThrottle env
  | StellarLimit => stellarThrottle env
  | ExportLimit => exportThrottle env
  | GuessLimit => guessThrottle env
  end.

(** ** Routes *)

Inductive Verb := Get | Post | Put | Patch | Delete.

(** What the decorators of a class or of a handler set. *)
Record Meta := mkMeta {
  m_public : option bool;
  m_roles : option (list Role);
  m_limits : option Limits;
}.
Definition plain : Meta := mkMeta None None None.
Definition Public (m : Meta) : Meta := mkMeta (Some true) (m_roles m) (m_limits m).
Definition Roles (roles : list Role) (m : Meta) : Meta := mkMeta (m_public m) (Some roles) (m_limits m).
Definition Throttled (l : Limits) (m : Meta) : Meta := mkMeta (m_public m) (m_roles m) (Some l).

Record Handler := mkHandler {
  h_verb : Verb;
  h_path : string;
  h_name : string;
  h_meta : Meta;
  h_optionalJwt : bool;
}.
Definition on (verb : Verb) (path name : string) (meta : Meta) : Handler := mkHandler verb path name meta false.

Record Controller := mkController {
  ct_name : string;
  ct_path : string;
  ct_meta : Meta;
  ct_handlers : list Handler;
}.
Definition admin_only : Meta := Roles [Admin] plain.

Definition AppController : Controller := mkController "AppController" "" plain [on Get "" "redirectToHealth" (Public plain)].

Definition AdminController : Controller := mkController "AdminController" "admin" admin_only
  [ on Get "users" "findAllUsers" plain;
    on Delete "users/:id" "deleteUser" plain;
    on Post "users/:id/mock-balance" "grantMockBalance" plain;
    on Get "lyrics" "findAllLyrics" plain;
    on Post "lyrics/import" "importLyrics" plain;
    on Post "lyrics/sources/:source/deactivate" "deactivateLyricsBySource" plain;
    on Post "lyrics/:id/restore" "restoreLyric" plain;
    on Delete "lyrics/:id" "deleteLyric" plain;
    on Get "reports" "findAllReports" plain;
    on Post "reports/:id/resolve" "resolveReport" plain ].

Definition AuditController : Controller := mkController "AuditController" "admin/audit-logs" admin_only
  [ on Get "" "find" plain; on Get "export" "export" plain ].

Definition AuthController : Controller := mkController "AuthController" "auth" plain
  [ on Post "signup" "signup" (Public (Throttled AuthLimit plain));
    on Post "login" "login" (Public (Throttled AuthLimit plain));
    on Post "refresh" "refresh" (Public plain);
    on Post "logout" "logout" (Public plain);
    on Get "sessions" "listSessions" plain;
    on Delete "sessions/:id" "revokeSession" plain;
    on Post "logout-all" "logoutAll" plain;
    on Post "verify-email" "verifyEmail" (Public (Throttled AuthLimit plain));
    on Post "resend-verification" "resendVerification" (Public (Throttled AuthLimit plain));
    on Post "forgot-password" "forgotPassword" (Public (Throttled AuthLimit plain));
    on Post "reset-password" "resetPassword" (Public (Throttled AuthLimit plain));
    on Post "change-password" "changePassword" (Throttled AuthLimit plain);
    on Post "stellar/challenge" "challenge" (Public (Throttled StellarLimit plain));
    on Post "stellar/login" "stellarLogin" (Public (Throttled StellarLimit plain));
    on Post "stellar/link" "linkWallet" (Throttled StellarLimit plain);
    on Get "stellar/wallet" "getWallet" plain;
    on Delete "stellar/wallet" "unlinkWallet" (Throttled StellarLimit plain) ].

Definition ChallengesController : Controller := mkController "ChallengesController" "challenges/daily" plain
  [ on Get "" "getDaily" plain; on Post "guess" "guess" (Throttled GuessLimit plain); on Get "leaderboard" "getLeaderboard" plain ].

Definition GameHistoryController : Controller := mkController "GameHistoryController" "game-history" plain
  [ on Get "me" "getMyHistory" plain;
    on Get "me/stats" "getMyStats" plain;
    on Get ":id" "getGameHistory" plain;
    on Get "users/:userId" "getUserHistory" (Roles [Admin] plain) ].

Definition GameSessionsController : Controller := mkController "GameSessionsController" "game-sessions" plain
  [ on Post "" "create" plain;
    on Get "" "findAll" plain;
    on Get "top-scores" "getTopScores" plain;
    on Get "my-recent" "getRecentGames" plain;
    on Get ":id" "findOne" plain;
    on Patch ":id" "update" plain;
    on Delete ":id" "remove" plain;
    on Put ":id/complete-wagered" "completeWageredGame" (Roles [Admin] plain);
    on Post ":id/accept" "accept" plain;
    on Post ":id/decline" "decline" plain;
    on Post ":id/stake" "confirmStake" plain;
    on Post ":id/stake/transaction" "requestFreshStakeTransaction" plain;
    on Post ":id/wager/reconcile" "reconcileWager" (Roles [Admin] plain) ].

Definition GameController : Controller := mkController "GameController" "game" plain
  [ on Get "lyric" "getRandomLyric" plain;
    on Get "lyrics/multiple" "getMultipleRandomLyrics" plain;
    on Post "guess" "checkGuess" (Throttled GuessLimit plain);
    on Post "rounds/:id/hint" "useHint" plain;
    on Get "stats" "getLyricStats" plain ].

Definition HealthController : Controller := mkController "HealthController" "health" plain
  [ on Get "live" "live" (Public plain); on Get "ready" "ready" (Public plain) ].

Definition LyricsController : Controller := mkController "LyricsController" "lyrics" plain
  [ on Post "" "create" (Roles [Admin] plain);
    on Get "" "findAll" plain;
    on Get "random" "getRandomLyrics" plain;
    on Get "genre/:genre" "getLyricsByGenre" plain;
    on Get "decade/:decade" "getLyricsByDecade" plain;
    on Get "artist/:artist" "getLyricsByArtist" (Roles [Admin] plain);
    on Get "search" "search" (Roles [Admin] plain);
    on Get ":id" "findOne" plain;
    on Patch ":id" "update" (Roles [Admin] plain);
    on Delete ":id" "remove" (Roles [Admin] plain);
    on Post "cache/clear" "clearCache" (Roles [Admin] plain);
    on Get "cache/stats" "getCacheStats" (Roles [Admin] plain) ].

Definition MetricsController : Controller := mkController "MetricsController" "metrics" (Public plain) [on Get "" "getMetrics" plain].

Definition NotificationsController : Controller := mkController "NotificationsController" "notifications" plain
  [ on Get "me" "getMyNotifications" plain;
    on Post "read-all" "markAllRead" plain;
    on Post ":id/read" "markRead" plain;
    on Get "user/:userId" "getUserNotifications" (Roles [Admin] plain);
    on Delete "" "clearNotifications" (Roles [Admin] plain) ].

Definition NotificationsDevController : Controller := mkController "NotificationsDevController" "notifications" admin_only
  [ on Post "mock-level-up" "emitMockLevelUp" plain;
    on Post "mock-challenge-completed" "emitMockChallengeCompleted" plain;
    on Post "mock-achievement" "emitMockAchievement" plain;
    on Post "generate-mock-data" "generateMockData" plain;
    on Post "test/level-up" "testLevelUp" plain;
    on Post "test/challenge" "testChallenge" plain;
    on Post "test/achievement" "testAchievement" plain ].

Definition RoomsController : Controller := mkController "RoomsController" "rooms" plain
  [ on Post "create" "create" plain;
    on Post ":roomId/join" "join" plain;
    on Post "join/:code" "joinByCode" plain;
    on Post ":roomId/start" "start" plain;
    on Get ":roomId/results" "getResults" plain;
    on Get "" "findOpenRooms" plain;
    on Get ":roomId/status" "getRoomStatus" plain;
    on Post ":roomId/guess" "submitGuess" plain ].

Definition StellarController : Controller := mkController "StellarController" "stellar" plain
  [ on Get "info" "getInfo" (Public plain); on Get "health" "getHealth" (Public plain) ].

Definition UsersController : Controller := mkController "UsersController" "users" plain
  [ on Get "" "findAll" (Roles [Admin] plain);
    on Get "me" "getMe" plain;
    on Get "profile" "getProfile" plain;
    on Patch "me" "updateMe" plain;
    on Delete "me" "removeMe" plain;
    on Get "me/export" "exportMe" (Throttled ExportLimit plain);
    on Patch "preferences" "updatePreferences" plain;
    on Get "preferences" "getUserPreferences" plain;
    mkHandler Get "leaderboard" "getLeaderboard" (Public plain) true;
    on Get ":username/public" "findPublicByUsername" (Public plain);
    on Get ":id" "findOne" (Roles [Admin] plain);
    on Patch ":id" "update" (Roles [Admin] plain);
    on Delete ":id" "remove" (Roles [Admin] plain) ].

(** The controllers of the modules that [AppModule] imports, and of those they import; [HealthModule] is not among them.
    [NotificationsDevController] is left out in production. *)
Definition controllers (env : Env) : list Controller :=
  [AppController; UsersController; StellarController; AuthController; GameSessionsController; LyricsController; RoomsController;
   AdminController; GameController; ChallengesController; GameHistoryController; NotificationsController] ++
  (if bool_decide (env "NODE_ENV" = Some "production") then [] else [NotificationsDevController]) ++
  [AuditController; MetricsController].

Record Route := mkRoute {
  rt_controller : Controller;
  rt_handler : Handler;
}.
Definition routes (env : Env) : list Route :=
  concat ((λ c, mkRoute c <$> ct_handlers c) <$> controllers env).

(** [reflector.getAllAndOverride] *)
Definition getAllAndOverride {A} (field : Meta → option A) (r : Route) : option A :=
  match field (h_meta (rt_handler r)) with
  | Some a => Some a
  | None => field (ct_meta (rt_controller r))
  end.
Definition is_public (r : Route) : bool := default false (getAllAndOverride m_public r).
Definition required_roles (r : Route) : list Role := default [] (getAllAndOverride m_roles r).
Definition limits_of (r : Route) : Limits := default Default (getAllAndOverride m_limits r).

(** ** Who is asking (auth-context.util.ts) *)

(** The row that [JwtStrategy] loaded, or what a gateway keeps of the claims of a token. *)
Inductive AuthUser := RowUser (u : User) | SocketUser (id : string) (username : option string) (role : option Role).
Definition user_id (u : AuthUser) : string := match u with RowUser u => u_id u | SocketUser id _ _ => id end.
Definition user_role (u : AuthUser) : option Role := match u with RowUser u => Some (u_role u) | SocketUser _ _ role => role end.

Inductive ContextType := Http | Ws | OtherContext.

(** A request with its bearer token, if any, or a message of a socket; [cx_user] is [request.user] or [client.data.user]. *)
Record Context := mkContext {
  cx_type : ContextType;
  cx_token : option string;
  cx_user : option AuthUser;
  cx_ip : string;
}.
#[export] Instance Context_settable : Settable Context := λ c, mkContext (cx_type c) (cx_token c) (cx_user c) (cx_ip c).

Definition getAuthUser (context : Context) : option AuthUser :=
  match cx_type context with
  | Http | Ws => cx_user context
  | OtherContext => None
  end.

(** ** The guards *)

Record AccessState (L : Type) := mkAccess {
  auth : AuthDb;
  counters : L;
}.
Arguments mkAccess {_} _ _.
Arguments auth {_} _.
Arguments counters {_} _.

(** The throttler library: a request of a tracker to a handler is counted, and refused or not. *)
Class Throttler (L : Type) := hit : string → string → Throttle → L → bool * L.

Section guards.
Context `{Crypto} {L : Type} `{!Throttler L}.
Variable env : Env.
Local Abbreviation M := (M (AccessState L)).

Definition with_auth {A} (m : Prelude.M AuthDb A) : M A := λ s,
  let '(r, d) := m (auth s) in (r, mkAccess d (counters s)).

(** [AuthGuard('jwt')] of passport: the user of the token, or what went wrong. *)
Definition passport_jwt (context : Context) : M User :=
  token ← require (cx_token context) (Unauthorized "Unauthorized");
  with_auth (authenticate token).

Definition JwtAuthGuard (route : Route) (context : Context) : M Context :=
  if is_public route then mret context
  else match cx_type context with
  | Http => user ← passport_jwt context; mret (context <| cx_user := Some (RowUser user) |>)
  | Ws => require (getAuthUser context) (Unauthorized "Unauthorized");; mret context
  | OtherContext => mret context
  end.

Definition RolesGuard (route : Route) (context : Context) : M Context :=
  let requiredRoles := required_roles route in
  if bool_decide (requiredRoles = []) then mret context
  else
    user ← require (getAuthUser context) (Forbidden "You do not have permission");
    let hasRequiredRole := existsb (λ role, bool_decide (Some role = user_role user)) requiredRoles in
    throw_if (negb hasRequiredRole) (Forbidden "You do not have permission (roles)");;
    mret context.

(** A user with an empty id is no user here. *)
Definition getTracker (context : Context) : string :=
  match present (user_id <$> cx_user context) with
  | Some id => "user:" +:+ id
  | None => "ip:" +:+ cx_ip context
  end.

Definition handler_key (route : Route) : string := ct_name (rt_controller route) +:+ "-" +:+ h_name (rt_handler route).

Definition AppThrottlerGuard (route : Route) (context : Context) : M Context :=
  match cx_type context with
  | OtherContext => mret context
  | _ => λ s,
      let '(blocked, l) := hit (handler_key route) (getTracker context) (throttle_of env (limits_of route)) (counters s) in
      (if blocked then Err (PlainError "ThrottlerException" "ThrottlerException: Too Many Requests") else Ok context, mkAccess (auth s) l)
  end.

(** [OptionalJwtAuthGuard]: whatever fails, the request goes on without a user. *)
Definition OptionalJwtAuthGuard (context : Context) : M Context :=
  try_catch (user ← passport_jwt context; mret (context <| cx_user := Some (RowUser user) |>))
    (λ _, mret (context <| cx_user := None |>)).

(** What a request passes before its handler runs. *)
Definition admitted (route : Route) (context : Context) : M Context :=
  context ← JwtAuthGuard route context;
  context ← RolesGuard route context;
  context ← AppThrottlerGuard route context;
  if h_optionalJwt (rt_handler route) then OptionalJwtAuthGuard context else mret context.
End guards.

(** ** The metrics endpoint *)

Section metrics.
(** [Buffer.from(text, 'base64').toString('utf-8')] *)
Variable fromBase64 : string → string.

Definition startsWith (t s : string) : bool := String.prefix t s.
Definition first_of (s : string) : string := default "" (head (split_char ","%char s)).

(** The address the allow list is asked about. *)
Definition client_ip (forwarded ip : option string) : string :=
  match forwarded with
  | Some f => trim (first_of f)
  | None => default "127.0.0.1" ip
  end.

(** The checks of [getMetrics], by the headers [x-forwarded-for] and [authorization] and the address of the connection. *)
Definition metrics_access (env : Env) (forwarded authorization ip : option string) : result unit :=
  match
    match present (env "METRICS_IP_ALLOWLIST") with
    | Some allowlist =>
        let allowed := trim <$> split_char ","%char allowlist in
        if bool_decide (client_ip forwarded ip ∈ allowed) then Ok tt else Err (Forbidden "Access denied")
    | None => Ok tt
    end
  with
  | Err e => Err e
  | Ok _ =>
      match present (env "METRICS_BASIC_AUTH") with
      | Some expectedCredentials =>
          match authorization with
          | Some authHeader =>
              if startsWith "Basic " authHeader then
                let presented := fromBase64 (String.substring 6 (String.length authHeader - 6) authHeader) in
                if presented == expectedCredentials then Ok tt else Err (Unauthorized "Invalid credentials")
              else Err (Unauthorized "Authentication required")
          | None => Err (Unauthorized "Authentication required")
          end
      | None => Ok tt
      end
  end.
End metrics.

(** ** What passes the guards *)

Section admission.
Context `{Crypto} {L : Type} `{!Throttler L}.
Variable env : Env.

(** The bearer token of a request names an active user whose tokens of this version have not been revoked. *)
Definition signed_in (context : Context) (d : AuthDb) (u : User) : Prop := ∃ token payload,
  cx_token context = Some token ∧ jwt_verify token = Some payload ∧ a_users d !! sub payload = Some u ∧
  u_isActive u = true ∧ default 0 (p_tokenVersion payload) = u_tokenVersion u.

Lemma with_auth_run {A} (m : M AuthDb A) (s : AccessState L) : with_auth m s = ((m (auth s)).1, mkAccess (m (auth s)).2 (counters s)).
Proof. unfold with_auth. by destruct (m (auth s)). Qed.

Lemma access_eta (s : AccessState L) : mkAccess (auth s) (counters s) = s.
Proof. by destruct s. Qed.

Local Ltac refused := cbn; split; [done|]; intros v; split; [done|]; intros (? & ? & ? & ? & ?); simplify_eq; congruence.

Lemma authenticate_run token d : (authenticate token d).2 = d ∧
  (∀ u, (authenticate token d).1 = Ok u ↔ ∃ payload, jwt_verify token = Some payload ∧ a_users d !! sub payload = Some u ∧
    u_isActive u = true ∧ default 0 (p_tokenVersion payload) = u_tokenVersion u).
Proof.
  unfold authenticate. rewrite bind_require. destruct (jwt_verify token) as [payload|]; [|refused].
  unfold validate, find_user_by_id. rewrite bind_gets, bind_require. destruct (a_users d !! sub payload) as [u|] eqn:E; [|refused].
  rewrite !bind_throw_if. destruct (u_isActive u) eqn:Ea; [|refused].
  cbn [negb]. destruct (default 0 (p_tokenVersion payload) =? u_tokenVersion u) eqn:Ev; cbn [negb].
  - apply Z.eqb_eq in Ev. split; [done|]. intros v. cbn. split; [intros [= <-]; eauto|].
    intros (? & [= <-] & Hv & _). congruence.
  - apply Z.eqb_neq in Ev. refused.
Qed.

(** The token decides, and nothing is written. *)
Lemma passport_run context (s : AccessState L) :
  (passport_jwt context s).2 = s ∧ (∀ u, (passport_jwt context s).1 = Ok u ↔ signed_in context (auth s) u).
Proof.
  unfold passport_jwt, signed_in. rewrite bind_require. destruct (cx_token context) as [token|]; [|cbn; naive_solver].
  rewrite with_auth_run. destruct (authenticate_run token (auth s)) as [Hd Hu]. rewrite Hd, access_eta. cbn. split; [done|].
  intros u. rewrite Hu. naive_solver.
Qed.

Lemma passport_cases context (s : AccessState L) :
  (∃ u, signed_in context (auth s) u ∧ passport_jwt context s = (Ok u, s)) ∨
  ((∀ u, ¬ signed_in context (auth s) u) ∧ ∃ e, passport_jwt context s = (Err e, s)).
Proof.
  destruct (passport_run context s) as [H1 H2]. destruct (passport_jwt context s) as [[u|e] s'] eqn:E; cbn in *; subst s'.
  - left. exists u. split; [by apply H2|done].
  - right. split; [|eauto]. intros u Hu%H2. done.
Qed.

(** The context after the first guard, when it lets the request through. *)
Definition identified (route : Route) (context : Context) (s : AccessState L) (context' : Context) : Prop :=
  if is_public route then context' = context
  else match cx_type context with
  | Http => ∃ u, signed_in context (auth s) u ∧ context' = context <| cx_user := Some (RowUser u) |>
  | Ws => is_Some (cx_user context) ∧ context' = context
  | OtherContext => context' = context
  end.

Lemma identified_unique route context s c1 c2 : identified route context s c1 → identified route context s c2 → c1 = c2.
Proof.
  unfold identified. destruct (is_public route); [congruence|]. destruct (cx_type context); [|by intros [_ ->] [_ ->]|congruence].
  intros (u & (t & p & H1 & H2 & H3 & _) & ->) (v & (t' & p' & G1 & G2 & G3 & _) & ->).
  by simplify_eq.
Qed.

Definition permitted (route : Route) (context : Context) : Prop :=
  required_roles route = [] ∨ ∃ u role, getAuthUser context = Some u ∧ user_role u = Some role ∧ role ∈ required_roles route.

Lemma JwtAuthGuard_cases route context s :
  (∃ context', identified route context s context' ∧ JwtAuthGuard route context s = (Ok context', s)) ∨
  ((∀ context', ¬ identified route context s context') ∧ ∃ e, JwtAuthGuard route context s = (Err e, s)).
Proof.
  unfold JwtAuthGuard, identified. destruct (is_public route); [left; by exists context|].
  destruct (cx_type context) eqn:Et; [| |left; by exists context].
  - destruct (passport_cases context s) as [(u & Hu & Hrun)|(Hno & e & Hrun)].
    + left. rewrite (bind_run _ _ _ _ _ Hrun). eauto.
    + right. rewrite (bind_run_err _ _ _ _ _ Hrun). split; [|eauto]. intros ? (u & Hu & _). by apply (Hno u).
  - unfold getAuthUser. rewrite Et, bind_require. destruct (cx_user context); [left; eauto|right].
    split; [|eauto]. intros ? [Hs _]. by destruct Hs.
Qed.

Lemma RolesGuard_cases route context (s : AccessState L) :
  (permitted route context ∧ RolesGuard route context s = (Ok context, s)) ∨
  (¬ permitted route context ∧ ∃ m, RolesGuard route context s = (Err (Forbidden m), s)).
Proof.
  unfold RolesGuard, permitted. case_bool_decide as Hr; [left; auto|]. rewrite bind_require.
  destruct (getAuthUser context) as [u|]; [|right; split; [naive_solver|eauto]]. rewrite bind_throw_if.
  destruct (existsb _ _) eqn:Ex; cbn [negb].
  - left. split; [|done]. right. apply existsb_exists in Ex as (role & Hin & Hb). apply bool_decide_eq_true in Hb.
    exists u, role. split; [done|]. split; [done|]. by apply list_elem_of_In.
  - right. split; [|eauto]. intros [?|(? & role & [= <-] & Hrole & Hin)]; [done|].
    apply not_true_iff_false in Ex. apply Ex. apply existsb_exists. exists role. split; [by apply list_elem_of_In|].
    by apply bool_decide_eq_true.
Qed.

(** The request is counted, and not refused. *)
Definition counted (route : Route) (context : Context) (s : AccessState L) : bool * L :=
  match cx_type context with
  | OtherContext => (false, counters s)
  | _ => hit (handler_key route) (getTracker context) (throttle_of env (limits_of route)) (counters s)
  end.

Lemma AppThrottlerGuard_run route context s : AppThrottlerGuard env route context s =
  (if (counted route context s).1 then Err (PlainError "ThrottlerException" "ThrottlerException: Too Many Requests") else Ok context,
   mkAccess (auth s) (counted route context s).2).
Proof.
  unfold AppThrottlerGuard, counted. destruct (cx_type context); [by destruct (hit _ _ _ _)|by destruct (hit _ _ _ _)|].
  cbn. by rewrite access_eta.
Qed.

Lemma OptionalJwt_Ok context (s : AccessState L) : ∃ context', OptionalJwtAuthGuard context s = (Ok context', s) ∧
  (∀ u, cx_user context' = Some u ↔ ∃ row, u = RowUser row ∧ signed_in context (auth s) row).
Proof.
  unfold OptionalJwtAuthGuard. destruct (passport_cases context s) as [(u & Hu & Hrun)|(Hno & e & Hrun)].
  - exists (context <| cx_user := Some (RowUser u) |>). split.
    + apply try_catch_ok. by rewrite (bind_run _ _ _ _ _ Hrun).
    + cbn. intros v. split; [intros [= <-]; eauto|]. intros (row & -> & Hrow).
      apply (proj2 (passport_run context s)) in Hrow. rewrite Hrun in Hrow. cbn in Hrow. by injection Hrow as ->.
  - exists (context <| cx_user := None |>). split; [|cbn; naive_solver].
    unfold try_catch. by rewrite (bind_run_err _ _ _ _ _ Hrun).
Qed.

(** A request reaches its handler when its caller is identified, has a role the route asks for, and is not over the limit;
    whoever is turned away by the first two guards is not counted; and no guard writes to the accounts. *)
Lemma admitted_run route context s :
  (∃ c1, identified route context s c1 ∧ permitted route c1 ∧ (counted route c1 s).1 = false ∧
    ∃ c2, admitted env route context s = (Ok c2, mkAccess (auth s) (counted route c1 s).2) ∧
      (h_optionalJwt (rt_handler route) = false → c2 = c1)) ∨
  (∃ c1, identified route context s c1 ∧ permitted route c1 ∧ (counted route c1 s).1 = true ∧
    ∃ e, admitted env route context s = (Err e, mkAccess (auth s) (counted route c1 s).2)) ∨
  ((∀ c1, identified route context s c1 → ¬ permitted route c1) ∧ ∃ e, admitted env route context s = (Err e, s)).
Proof.
  unfold admitted. destruct (JwtAuthGuard_cases route context s) as [(c1 & Hid & Hrun)|(Hno & e & Hrun)].
  2: { right; right. rewrite (bind_run_err _ _ _ _ _ Hrun). split; [|eauto]. intros c1 Hid. by destruct (Hno c1). }
  rewrite (bind_run _ _ _ _ _ Hrun). destruct (RolesGuard_cases route c1 s) as [[Hp Hr]|[Hp (m & Hr)]].
  2: { right; right. rewrite (bind_run_err _ _ _ _ _ Hr). split; [|eauto]. intros c2 Hid2.
    enough (c2 = c1) as -> by done. apply (identified_unique route context s c2 c1 Hid2 Hid). }
  rewrite (bind_run _ _ _ _ _ Hr). pose proof (AppThrottlerGuard_run route c1 s) as Ht.
  destruct (counted route c1 s).1 eqn:Ec.
  - right; left. exists c1. rewrite (bind_run_err _ _ _ _ _ Ht). eauto 6.
  - left. exists c1. rewrite (bind_run _ _ _ _ _ Ht). split; [done|]. split; [done|]. split; [done|].
    destruct (h_optionalJwt (rt_handler route)); [|eauto].
    destruct (OptionalJwt_Ok c1 (mkAccess (auth s) (counted route c1 s).2)) as (c2 & Ho & _).
    exists c2. split; [exact Ho|done].
Qed.
End admission.

(** ** The routes *)

Definition public_handlers : list string :=
  ["AppController-redirectToHealth"; "UsersController-getLeaderboard"; "UsersController-findPublicByUsername";
   "StellarController-getInfo"; "StellarController-getHealth"; "AuthController-signup"; "AuthController-login";
   "AuthController-refresh"; "AuthController-logout"; "AuthController-verifyEmail"; "AuthController-resendVerification";
   "AuthController-forgotPassword"; "AuthController-resetPassword"; "AuthController-challenge"; "AuthController-stellarLogin";
   "MetricsController-getMetrics"].

(** The routes are a table: what holds of each is computed. *)
Lemma routes_check (P : Route → bool) env :
  forallb P (routes (λ _, None)) = true → forallb P (routes (λ _, Some "production")) = true →
  ∀ route, route ∈ routes env → P route = true.
Proof.
  intros H1 H2 route Hr. apply list_elem_of_In in Hr. revert route Hr. apply forallb_forall.
  unfold routes, controllers in *. by destruct (bool_decide (env "NODE_ENV" = Some "production")).
Qed.

Definition is_admin_route (r : Route) : bool :=
  String.prefix "admin" (ct_path (rt_controller r)) || (ct_name (rt_controller r) == "NotificationsDevController").

Lemma admin_routes env route : route ∈ routes env → is_admin_route route = true →
  is_public route = false ∧ required_roles route = [Admin].
Proof.
  intros Hr Ha. assert (implb (is_admin_route route) (negb (is_public route) && bool_decide (required_roles route = [Admin])) = true) as H.
  { exact (routes_check (λ r, implb (is_admin_route r) (negb (is_public r) && bool_decide (required_roles r = [Admin]))) env eq_refl eq_refl route Hr). }
  rewrite Ha in H. cbn in H. apply andb_prop in H as [H1%negb_true_iff H2%bool_decide_eq_true]. done.
Qed.

Lemma optional_public env route : route ∈ routes env → is_public route = false → h_optionalJwt (rt_handler route) = false.
Proof.
  intros Hr Hp. assert (implb (negb (is_public route)) (negb (h_optionalJwt (rt_handler route))) = true) as H.
  { exact (routes_check (λ r, implb (negb (is_public r)) (negb (h_optionalJwt (rt_handler r)))) env eq_refl eq_refl route Hr). }
  rewrite Hp in H. by apply negb_true_iff.
Qed.

Lemma public_routes env route : route ∈ routes env → is_public route = bool_decide (handler_key route ∈ public_handlers).
Proof.
  intros Hr. apply eqb_prop. exact (routes_check (λ r, Bool.eqb (is_public r) (bool_decide (handler_key r ∈ public_handlers))) env eq_refl eq_refl route Hr).
Qed.

Lemma public_unrestricted env route : route ∈ routes env → is_public route = true → required_roles route = [].
Proof.
  intros Hr Hp. assert (implb (is_public route) (bool_decide (required_roles route = [])) = true) as Hi.
  { exact (routes_check (λ r, implb (is_public r) (bool_decide (required_roles r = []))) env eq_refl eq_refl route Hr). }
  rewrite Hp in Hi. by apply bool_decide_eq_true in Hi.
Qed.

Section route_properties.
Context `{Crypto} {L : Type} `{!Throttler L}.
Variable env : Env.

(** C13. The administration is reached by administrators only: a request gets to a handler under [admin], or to one that a role is asked for, only with
    the token of an active user, not revoked, whose row has that role now; and it is that user the handler sees. *)
Theorem admin_by_row route context s context' (s' : AccessState L) : route ∈ routes env → cx_type context = Http →
  is_admin_route route = true ∨ required_roles route ≠ [] → admitted env route context s = (Ok context', s') →
  ∃ u, signed_in context (auth s) u ∧ (u_role u ∈ required_roles route) ∧ (is_admin_route route = true → u_role u = Admin) ∧
    cx_user context' = Some (RowUser u).
Proof.
  intros Hr Ht Hwhy Hrun. assert (is_public route = false ∧ required_roles route ≠ []) as [Hp Hreq].
  { destruct Hwhy as [Ha|Hreq]; [by destruct (admin_routes env route Hr Ha) as [-> ->]|]. split; [|done].
    apply not_true_iff_false. intros Hp. by apply Hreq, (public_unrestricted env). }
  destruct (admitted_run env route context s) as [(c1 & Hid & Hperm & _ & c2 & H2 & Hc)|[(c1 & _ & _ & _ & e & He)|[_ (e & He)]]];
    [|congruence|congruence].
  assert (context' = c1) as ->. { rewrite <-Hc by (by eapply optional_public). congruence. }
  unfold identified in Hid. rewrite Hp, Ht in Hid. destruct Hid as (u & Hu & ->). exists u.
  destruct Hperm as [|(v & role & Hv & Hrole & Hin)]; [done|]. unfold getAuthUser in Hv. cbn in Hv. rewrite Ht in Hv. injection Hv as <-.
  cbn in Hrole. injection Hrole as <-. split; [done|]. split; [done|]. split; [|done].
  intros Ha. destruct (admin_routes env route Hr Ha) as [_ Hroles]. rewrite Hroles in Hin. by apply list_elem_of_singleton in Hin.
Qed.

(** C14. What a request without a valid token can reach is the list [public_handlers], and each of it unless the limit is reached. *)
Theorem anonymous_surface route context (s : AccessState L) : route ∈ routes env → cx_type context = Http → (∀ u, ¬ signed_in context (auth s) u) →
  (∃ context' s', admitted env route context s = (Ok context', s')) ↔ handler_key route ∈ public_handlers ∧ (counted env route context s).1 = false.
Proof.
  intros Hr Ht Hno. pose proof (public_routes env route Hr) as Hp.
  destruct (admitted_run env route context s) as [(c1 & Hid & _ & Hcnt & c2 & Hrun & _)|[(c1 & Hid & _ & Hcnt & e & Hrun)|[Hnp (e & Hrun)]]].
  - unfold identified in Hid. rewrite Ht in Hid. destruct (is_public route); [|by destruct Hid as (u & Hu & _); destruct (Hno u)].
    subst c1. symmetry in Hp. apply bool_decide_eq_true in Hp. split; [done|eauto].
  - unfold identified in Hid. rewrite Ht in Hid. destruct (is_public route); [|by destruct Hid as (u & Hu & _); destruct (Hno u)].
    subst c1. split; [intros (? & ? & H'); congruence|]. intros [_ H']. congruence.
  - split; [intros (? & ? & H'); congruence|]. intros [Hin _]. rewrite bool_decide_true in Hp by done. 
    destruct (Hnp context); [by unfold identified; rewrite Hp|left; by eapply public_unrestricted].
Qed.

(** Signing out everywhere takes the routes away too: once a user is signed out ([logoutAll], [changePassword]), a request with any
    token of that user from before reaches no handler but the public ones, and is not counted. *)
Theorem signed_out_of_routes u d d' (l : L) route context token payload : signed_out u d d' →
  jwt_verify token = Some payload → sub payload = u_id u → default 0 (p_tokenVersion payload) = u_tokenVersion u →
  route ∈ routes env → cx_type context = Http → cx_token context = Some token → handler_key route ∉ public_handlers →
  ∃ e, admitted env route context (mkAccess d' l) = (Err e, mkAccess d' l).
Proof.
  intros [Hout _] Hv Hsub Hver Hr Ht Htok Hpub. pose proof (public_routes env route Hr) as Hp. rewrite bool_decide_false in Hp by done.
  destruct (Hout payload Hsub Hver) as [e He]. unfold admitted, JwtAuthGuard. rewrite Hp, Ht. exists e.
  assert (passport_jwt context (mkAccess d' l) = (Err e, mkAccess d' l)) as Hpass.
  { unfold passport_jwt. rewrite Htok, bind_require, with_auth_run. unfold authenticate. rewrite Hv, bind_require. cbn. by rewrite He. }
  rewrite (bind_run_err _ _ _ e (mkAccess d' l)); [done|]. by rewrite (bind_run_err _ _ _ _ _ Hpass).
Qed.
End route_properties.

(** ** The metrics endpoint *)

Lemma split_char_one c s f : f ∈ split_char c s → split_char c f = [f].
Proof.
  revert f. induction s as [|x s IH]; intros f; cbn; [by intros ->%list_elem_of_singleton|].
  destruct (x =? c)%char eqn:Ex.
  - rewrite elem_of_cons. intros [->|Hf]; [done|by apply IH].
  - destruct (split_char c s) as [|w ws]; [intros ->%list_elem_of_singleton; cbn; by rewrite Ex|]. rewrite elem_of_cons. intros [->|Hf].
    + cbn. rewrite Ex. rewrite (IH w) by apply list_elem_of_here. done.
    + apply IH. by apply list_elem_of_further.
Qed.

(** The allow list of addresses stops nobody who knows an address on it: the header [x-forwarded-for] is believed, from whatever
    address the request comes. *)
Theorem metrics_spoofed fromBase64 env allowlist forwarded authorization ip : present (env "METRICS_IP_ALLOWLIST") = Some allowlist →
  present (env "METRICS_BASIC_AUTH") = None → forwarded ∈ split_char ","%char allowlist →
  metrics_access fromBase64 env (Some forwarded) authorization ip = Ok tt.
Proof.
  intros Ha Hb Hf. unfold metrics_access, client_ip, first_of. rewrite Ha, Hb, (split_char_one _ _ _ Hf). cbn [head default].
  rewrite bool_decide_true; [done|]. by apply list_elem_of_fmap_2.
Qed.

(** With credentials set, they are asked for whatever the address. *)
Theorem metrics_credentials fromBase64 env forwarded authorization ip expected : present (env "METRICS_BASIC_AUTH") = Some expected →
  metrics_access fromBase64 env forwarded authorization ip = Ok tt →
  ∃ header, authorization = Some header ∧ String.prefix "Basic " header = true ∧
    fromBase64 (String.substring 6 (String.length header - 6) header) = expected.
Proof.
  intros Hb. unfold metrics_access. rewrite Hb. destruct (match present _ with Some _ => _ | None => _ end); [|done].
  destruct authorization as [header|]; [|done]. unfold startsWith. destruct (String.prefix "Basic " header) eqn:Ep; [|done].
  case_bool_decide; [|done]. eauto.
Qed.

(** A limit that is set is positive and finite, whatever the environment says. *)
Theorem limits_positive env l : 0 < th_ttl (throttle_of env l) ∧ 0 < th_limit (throttle_of env l) ∧
  th_ttl (throttle_of env l) < NUMBER_OVERFLOW ∧ th_limit (throttle_of env l) < NUMBER_OVERFLOW.
Proof.
  assert (∀ key n, 0 < n < NUMBER_OVERFLOW → 0 < num env key n < NUMBER_OVERFLOW) as Hn.
  { intros key n Hn. unfold num. destruct (parseInt _) as [v|]; [|done]. destruct ((v <? NUMBER_OVERFLOW) && (0 <? v)) eqn:E; [lia|done]. }
  destruct l; cbn [throttle_of defaultThrottle authThrottle stellarThrottle exportThrottle guessThrottle th_ttl th_limit];
    repeat match goal with |- context [num env ?k ?n] => pose proof (Hn k n ltac:(by vm_compute)); generalize dependent (num env k n); intros end; lia.
Qed.

(** ** A member, an administrator and the routes *)

Module AccessDemo.
(** Every tracker gets three requests. *)
#[local] Instance demo_throttler : Throttler (gmap string nat) := λ key tracker throttle l,
  let n := default 0%nat (l !! (key +:+ tracker)) in ((3 <=? n)%nat, <[key +:+ tracker := S n]> l).

(** A token is the id of its user, all of version 0. *)
#[local] Instance demo_crypto : Crypto := {|
  sha256 s := s;
  bcrypt_hash p _ := Ok p;
  bcrypt_compare p h := Ok (h == p);
  randomHex _ n := "n";
  uuid n := "n";
  jwt_sign p := sub p;
  jwt_verify s := Some (mkPayload s "" "" UserRole (Some 0));
  isIP _ := 0%nat;
  deliver _ _ := Ok tt;
  findByObject _ _ := Err (PlainError "QueryFailedError" "invalid input syntax for type uuid");
|}.

Definition member (id : string) (role : Role) : User := new_user id "a@x" id "$pw" <| u_role := role |>.
Definition token_of (u : User) : string := jwt_sign (mkPayload (u_id u) (u_email u) (u_username u) (u_role u) (Some (u_tokenVersion u))).
Definition ada : User := member "ada" Admin.
Definition bob : User := member "bob" UserRole.
Definition db : AuthDb := mkAuthDb {["ada" := ada; "bob" := bob]} ∅ ∅ ∅ 0 0.
Definition start : AccessState (gmap string nat) := mkAccess db ∅.
Definition no_env : Env := λ _, None.
Definition deleteUser : Route := mkRoute AdminController (on Delete "users/:id" "deleteUser" plain).
Definition login : Route := mkRoute AuthController (on Post "login" "login" (Public (Throttled AuthLimit plain))).
Definition asking (token : option string) : Context := mkContext Http token None "::1".

Lemma deleteUser_route : deleteUser ∈ routes no_env.
Proof. by apply (list_elem_of_lookup_2 _ 67). Qed.
Lemma login_route : login ∈ routes no_env.
Proof. by apply (list_elem_of_lookup_2 _ 17). Qed.

Lemma ok_run {S A} (m : M S A) s : is_ok (m s).1 = true → ∃ a s', m s = (Ok a, s').
Proof. destruct (m s) as [[a|e] s']; [by exists a, s'|done]. Qed.

Example roles_enforced : (λ t, is_ok (admitted no_env deleteUser (asking t) start).1) <$> [None; Some (token_of bob); Some (token_of ada)] =
  [false; false; true].
Proof. by vm_compute. Qed.

Example admin_by_row_witness : ∃ u, signed_in (asking (Some (token_of ada))) db u ∧ u_role u = Admin.
Proof.
  destruct (ok_run (admitted no_env deleteUser (asking (Some (token_of ada)))) start) as (context & s' & E); [by vm_compute|].
  destruct (admin_by_row no_env deleteUser (asking (Some (token_of ada))) start context s') as (u & Hu & _ & Hadmin & _).
  - apply deleteUser_route.
  - reflexivity.
  - by left.
  - exact E.
  - exists u. split; [exact Hu|by apply Hadmin].
Defined.

Example anonymous_surface_witness : ∃ context' s', admitted no_env login (asking None) start = (Ok context', s').
Proof.
  apply (anonymous_surface no_env login (asking None) start).
  - apply login_route.
  - reflexivity.
  - intros u (t & p & Ht & _). discriminate Ht.
  - split; [|by vm_compute]. by apply (bool_decide_eq_true_1 _).
Defined.

(** An administrator whose role is taken away is refused with the token they have. *)
Example demoted : is_ok (admitted no_env deleteUser (asking (Some (token_of ada)))
  (mkAccess (db <| a_users := <["ada" := member "ada" UserRole]> (a_users db) |>) (∅ : gmap string nat))).1 = false.
Proof. by vm_compute. Qed.

Definition signed_out_db : AuthDb := (logoutAll "ada" db).2.
Example signed_out_of_routes_witness : ∃ e,
  admitted no_env deleteUser (asking (Some (token_of ada))) (mkAccess signed_out_db (∅ : gmap string nat)) =
  (Err e, mkAccess signed_out_db ∅).
Proof.
  assert (signed_out ada db signed_out_db) as Hout.
  { exact (signed_out_intro ada (ada <| u_tokenVersion := 1 |>) db
      (db <| a_users := alter (λ u, u <| u_tokenVersion := u_tokenVersion u + 1 |>) "ada" (a_users db) |>) eq_refl eq_refl eq_refl). }
  eapply (signed_out_of_routes no_env ada db signed_out_db ∅ deleteUser _ _ _ Hout).
  - reflexivity.
  - reflexivity.
  - reflexivity.
  - apply deleteUser_route.
  - reflexivity.
  - reflexivity.
  - by apply (bool_decide_eq_false_1 _).
Defined.

Example metrics_spoofed_witness : metrics_access (λ s, s) (λ k, if k == "METRICS_IP_ALLOWLIST" then Some "10.0.0.1, 10.0.0.2" else None)
  (Some "10.0.0.1") None (Some "203.0.113.9") = Ok tt.
Proof. eapply metrics_spoofed; [by vm_compute..|]. by apply list_elem_of_here. Defined.

(** The address of the connection itself is not on the list. *)
Example metrics_refused : metrics_access (λ s, s) (λ k, if k == "METRICS_IP_ALLOWLIST" then Some "10.0.0.1, 10.0.0.2" else None)
  None None (Some "203.0.113.9") = Err (Forbidden "Access denied").
Proof. by vm_compute. Qed.
End AccessDemo.
