(* ===== verification/Database.v ===== *)
(** * Database connection and log level (config/database.config.ts, common/services/log-level.ts)

    What the environment is made into: the address of the database, its TLS, the replica, logging, and the level of the
    logger.  The runtime's [URL] and [decodeURIComponent], and reading files, are parameters. *)

From S2P Require Import Prelude Number Decimal Redact Auth.
From stdpp Require Import gmap.
From Stdlib Require Import Ascii.

#[local] Open Scope Z_scope.

(** A value may be a number; it is read as its text. *)
Definition EnvReader := string → option string.

Inductive SslMode := disable | require_ | verify_full.
#[export] Instance SslMode_eq_dec : EqDecision SslMode.
Proof. solve_decision. Defined.

(** [None] for [false]. *)
Definition SslOptions := option (bool * option string).

(** A port that is not a number ([None]) is [NaN]. *)
Record ConnectionTarget := mkTarget {
  host : string;
  port : option Z;
  username : string;
  password : string;
  database : string;
}.

(** What [new URL] makes of a text. *)
Record ParsedUrl := mkUrl {
  url_protocol : string;
  url_hostname : string;
  url_port : string;
  url_pathname : string;
  url_username : string;
  url_password : string;
  url_sslmode : option string;
}.

Class Runtime := {
  parseUrl : string → option ParsedUrl;
  decodeURIComponent : string → result string;
  readFileSync : string → result string;
}.

Definition config_error (message : string) : exn := PlainError "Error" message.

Definition read (env : EnvReader) (key : string) : option string :=
  match env key with
  | None => None
  | Some value => let text := trim value in if text == "" then None else Some text
  end.

(** [s.replace(/^\//, '')] *)
Definition without_slash (s : string) : string := match s with String "/" s' => s' | _ => s end.

(** [s.replace(/\\n/g, '\n')] *)
Fixpoint line_breaks (s : string) : string :=
  match s with
  | String "\" (String "n" s') => String (ascii_of_nat 10) (line_breaks s')
  | String c s' => String c (line_breaks s')
  | EmptyString => EmptyString
  end.

Definition ssl_mode_of (s : string) : option SslMode :=
  if s == "disable" then Some disable else if s == "require" then Some require_ else if s == "verify-full" then Some verify_full else None.

(** libpq's prefer, allow and the rest are [require]. *)
Definition url_mode (sslParam : string) : SslMode :=
  if sslParam == "disable" then disable
  else if (sslParam == "verify-full") || (sslParam == "verify-ca") then verify_full
  else require_.

Section database_config.
Context `{!Runtime}.

Definition parseDatabaseUrl (url : string) : result (ConnectionTarget * option SslMode) :=
  match parseUrl url with
  | None => Err (config_error "DATABASE_URL is not a valid URL")
  | Some parsed =>
      if negb (bool_decide (url_protocol parsed ∈ ["postgres:"; "postgresql:"])) then
        Err (config_error "DATABASE_URL must start with postgres:// or postgresql://")
      else
        database ← decodeURIComponent (without_slash (url_pathname parsed));
        if negb (nonempty (url_hostname parsed)) || negb (nonempty database) then
          Err (config_error "DATABASE_URL must include a host and a database name")
        else
          username ← decodeURIComponent (url_username parsed);
          password ← decodeURIComponent (url_password parsed);
          Ok (mkTarget (url_hostname parsed) (if nonempty (url_port parsed) then parseInt (url_port parsed) else Some 5432)
                username password database,
              url_mode <$> url_sslmode parsed)
  end.

Definition buildSslOptions (env : EnvReader) (urlSslMode : option SslMode) : result SslOptions :=
  let configured := read env "DB_SSL" in
  match configured, configured ≫= ssl_mode_of with
  | Some _, None => Err (config_error "DB_SSL must be one of disable, require, verify-full")
  | _, mode =>
      let mode := match mode with Some m => m | None => default disable urlSslMode end in
      if bool_decide (mode = disable) then Ok None
      else
        ca ← match read env "DB_SSL_CA" with
             | Some caSetting => if includes "-----BEGIN" caSetting then Ok (Some (line_breaks caSetting)) else Some <$> readFileSync caSetting
             | None => Ok None
             end;
        Ok (Some (bool_decide (mode = verify_full), present ca))
  end.

Definition missing (env : EnvReader) : list string :=
  filter (λ key, read env key = None) ["DB_HOST"; "DB_USERNAME"; "DB_PASSWORD"; "DB_NAME"].

Definition resolveConnectionTarget (env : EnvReader) : result (ConnectionTarget * option SslMode) :=
  match read env "DATABASE_URL" with
  | Some url => parseDatabaseUrl url
  | None =>
      if negb (bool_decide (missing env = [])) then
        Err (config_error ("Database is not configured: set DATABASE_URL, or " +:+ String.concat ", " (missing env)))
      else
        let get key := default "" (read env key) in
        Ok (mkTarget (get "DB_HOST") (parseInt (default "5432" (read env "DB_PORT"))) (get "DB_USERNAME") (get "DB_PASSWORD") (get "DB_NAME"), None)
  end.

Inductive LoggingOptions := LogAll | LogNone | LogLevels (levels : list string).

Definition parseLogging (env : EnvReader) : LoggingOptions :=
  let isProduction := bool_decide (read env "NODE_ENV" = Some "production") in
  let raw := default (if isProduction then "error" else "error,warn,slow") (read env "DB_LOGGING") in
  if raw == "all" then LogAll else if raw == "false" then LogNone else LogLevels (trim <$> split_char ","%char raw).

(** One database, or a primary with its replica; each with its TLS. *)
Inductive Connection :=
  | Single (target : ConnectionTarget) (ssl : SslOptions)
  | Replicated (master : ConnectionTarget) (master_ssl : SslOptions) (slave : ConnectionTarget) (slave_ssl : SslOptions).

Record DataSourceOptions := mkOptions {
  connection : Connection;
  synchronize : bool;
  logging : LoggingOptions;
  maxQueryExecutionTime : js_number;
  poolSize : js_number;
  session_options : string;
}.

Definition buildDataSourceOptions (env : EnvReader) : result DataSourceOptions :=
  '(primary, sslMode) ← resolveConnectionTarget env;
  ssl ← buildSslOptions env sslMode;
  let connection :=
    match read env "DB_REPLICA_HOST" with
    | Some replicaHost =>
        Replicated primary ssl
          (mkTarget replicaHost
            (match read env "DB_REPLICA_PORT" with Some replicaPort => parseInt replicaPort | None => port primary end)
            (default (username primary) (read env "DB_REPLICA_USERNAME"))
            (default (password primary) (read env "DB_REPLICA_PASSWORD"))
            (default (database primary) (read env "DB_REPLICA_NAME"))) ssl
    | None => Single primary ssl
    end in
  Ok (mkOptions connection false (parseLogging env)
    (number_of (default "250" (read env "DB_SLOW_QUERY_THRESHOLD_MS"))) (number_of (default "10" (read env "DB_POOL_SIZE")))
    "-c timezone=UTC").
End database_config.

(** ** The level of the logger (log-level.ts) *)

Definition WINSTON_LOG_LEVELS : list string := ["error"; "warn"; "info"; "http"; "verbose"; "debug"].
Definition ACCEPTED_LOG_LEVELS : list string := WINSTON_LOG_LEVELS ++ ["log"].

Definition defaultLogLevel (nodeEnv : option string) : string := if bool_decide (nodeEnv = Some "production") then "info" else "debug".

Definition resolveLogLevel (raw nodeEnv : option string) : string :=
  let value := (λ r, lower (trim r)) <$> raw in
  if bool_decide (value = Some "log") then "info"
  else match present value with
  | Some value => if bool_decide (value ∈ WINSTON_LOG_LEVELS) then value else defaultLogLevel nodeEnv
  | None => defaultLogLevel nodeEnv
  end.

(** ** What is connected to, and how *)

Definition targets (c : Connection) : list (ConnectionTarget * SslOptions) :=
  match c with
  | Single target ssl => [(target, ssl)]
  | Replicated master master_ssl slave slave_ssl => [(master, master_ssl); (slave, slave_ssl)]
  end.

Lemma read_trimmed env key v : read env key = Some v → nonempty v = true.
Proof. unfold read. destruct (env key) as [s|]; [|done]. case_bool_decide; [done|]. intros [= <-]. by destruct (trim s). Qed.

Section database_properties.
Context `{!Runtime}.

(** What the address asks for. *)
Definition url_asked (env : EnvReader) : option SslMode :=
  match read env "DATABASE_URL" with
  | Some url => match parseUrl url with Some u => url_mode <$> url_sslmode u | None => None end
  | None => None
  end.

(** What TLS is asked for: by [DB_SSL], or else by the address. *)
Definition asked (env : EnvReader) : option SslMode :=
  match read env "DB_SSL" with
  | Some s => ssl_mode_of s
  | None => Some (default disable (url_asked env))
  end.
Definition tls_mode (ssl : SslOptions) : SslMode :=
  match ssl with
  | None => disable
  | Some (rejectUnauthorized, _) => if rejectUnauthorized : bool then verify_full else require_
  end.

Lemma parseDatabaseUrl_Ok url t m : parseDatabaseUrl url = Ok (t, m) →
  ∃ u, parseUrl url = Some u ∧ m = url_mode <$> url_sslmode u ∧ nonempty (host t) = true ∧ nonempty (database t) = true ∧
    url_protocol u ∈ ["postgres:"; "postgresql:"].
Proof.
  unfold parseDatabaseUrl. destruct (parseUrl url) as [u|]; [|done]. destruct (bool_decide (_ ∈ _)) eqn:Ep; [|done]. cbn [negb].
  intros (db & _ & Hrun)%result_bind_Ok. destruct (nonempty (url_hostname u)) eqn:Eh; [|done]. destruct (nonempty db) eqn:Ed; [|done].
  cbn [negb orb] in Hrun. apply result_bind_Ok in Hrun as (un & _ & Hrun). apply result_bind_Ok in Hrun as (pw & _ & [= <- <-]).
  exists u. apply bool_decide_eq_true in Ep. done.
Qed.

Lemma resolve_Ok env t m : resolveConnectionTarget env = Ok (t, m) →
  nonempty (host t) = true ∧ nonempty (database t) = true ∧ m = url_asked env.
Proof.
  unfold resolveConnectionTarget, url_asked. destruct (read env "DATABASE_URL") as [url|].
  - intros (u & Hu & -> & Hh & Hd & _)%parseDatabaseUrl_Ok. cbn. by rewrite Hu.
  - case_bool_decide as Hm; cbn [negb]; [|done]. intros [= <- <-]. cbn [host database].
    assert (∀ key, key ∈ ["DB_HOST"; "DB_USERNAME"; "DB_PASSWORD"; "DB_NAME"] → nonempty (default "" (read env key)) = true) as Hset.
    { intros key Hkey. destruct (read env key) eqn:Er; [by eapply read_trimmed|]. exfalso.
      assert (key ∈ missing env) as Hin by (apply list_elem_of_filter; done). rewrite Hm in Hin. by apply elem_of_nil in Hin. }
    split; [|split; [|done]]; apply Hset; set_solver.
Qed.

Lemma buildSsl_Ok env m ssl : buildSslOptions env m = Ok ssl →
  (match read env "DB_SSL" with Some s => ssl_mode_of s | None => Some (default disable m) end) = Some (tls_mode ssl).
Proof.
  unfold buildSslOptions. destruct (read env "DB_SSL") as [s|]; cbn [mbind option_bind].
  - destruct (ssl_mode_of s) as [mode|]; [|done]. case_bool_decide as Hd; [by intros [= <-]; rewrite Hd|].
    intros (ca & _ & [= <-])%result_bind_Ok. cbn. by destruct mode.
  - set (mode := default disable m). case_bool_decide as Hd; [by intros [= <-]; rewrite Hd|].
    intros (ca & _ & [= <-])%result_bind_Ok. cbn. by destruct mode.
Qed.

(** Every connection that options are built for, the primary and the replica, has the TLS that is asked for, by [DB_SSL] or else by the
    address, never less: the certificate is verified when that is asked; what asks for something else than the three modes is refused. *)
Theorem tls_as_asked env o : buildDataSourceOptions env = Ok o →
  (∀ e, e ∈ targets (connection o) → asked env = Some (tls_mode e.2)) ∧
  (∀ e, e ∈ targets (connection o) → nonempty (host e.1) = true ∧ nonempty (database e.1) = true) ∧
  (is_Some (read env "DB_REPLICA_HOST") ↔ length (targets (connection o)) = 2%nat).
Proof.
  unfold buildDataSourceOptions. intros ([t m] & (Hh & Hd & Hm)%resolve_Ok & (ssl & Hssl%buildSsl_Ok & [= <-])%result_bind_Ok)%result_bind_Ok.
  assert (asked env = Some (tls_mode ssl)) as Hasked by (unfold asked; by rewrite <-Hm).
  cbn [connection]. destruct (read env "DB_REPLICA_HOST") as [replica|] eqn:Er; cbn [targets].
  - split; [|split; [|by split]].
    + by intros e [->| ->%list_elem_of_singleton]%elem_of_cons.
    + intros e [->| ->%list_elem_of_singleton]%elem_of_cons; cbn; [done|]. split; [by eapply read_trimmed|].
      destruct (read env "DB_REPLICA_NAME") eqn:En; [by eapply read_trimmed|done].
  - split; [|split; [|by split; intros [? [=]] || intros [=]]]; intros e ->%list_elem_of_singleton; done.
Qed.

(** Without an address, what fails names exactly the variables that are not set. *)
Theorem missing_named env : read env "DATABASE_URL" = None →
  match missing env with
  | [] => is_ok (resolveConnectionTarget env) = true
  | keys => resolveConnectionTarget env = Err (config_error ("Database is not configured: set DATABASE_URL, or " +:+ String.concat ", " keys))
  end ∧ (∀ key, key ∈ missing env ↔ key ∈ ["DB_HOST"; "DB_USERNAME"; "DB_PASSWORD"; "DB_NAME"] ∧ read env key = None).
Proof.
  intros Hu. unfold resolveConnectionTarget. rewrite Hu. split; [by destruct (missing env)|].
  intros key. unfold missing. rewrite list_elem_of_filter. tauto.
Qed.
End database_properties.

(** The level is always one the logger has; the accepted ones are kept, in any case, and [log] is [info]. *)
Theorem resolveLogLevel_known raw nodeEnv : resolveLogLevel raw nodeEnv ∈ WINSTON_LOG_LEVELS ∧
  (∀ level, lower (trim level) ∈ WINSTON_LOG_LEVELS → resolveLogLevel (Some level) nodeEnv = lower (trim level)) ∧
  (∀ level, lower (trim level) = "log" → resolveLogLevel (Some level) nodeEnv = "info").
Proof.
  assert (∀ v : string, v ∈ WINSTON_LOG_LEVELS → v ≠ "log" ∧ nonempty v = true) as Hlevels.
  { intros v Hv. unfold WINSTON_LOG_LEVELS in Hv. set_unfold. by destruct Hv as [->|[->|[->|[->|[->|[->|[]]]]]]]. }
  unfold resolveLogLevel. split; [|split].
  - case_bool_decide; [unfold WINSTON_LOG_LEVELS; set_solver|]. destruct (present _) as [v|].
    + case_bool_decide; [done|]. unfold defaultLogLevel, WINSTON_LOG_LEVELS. case_bool_decide; set_solver.
    + unfold defaultLogLevel, WINSTON_LOG_LEVELS. case_bool_decide; set_solver.
  - intros level Hl. destruct (Hlevels _ Hl) as [Hne Hn]. cbn. rewrite bool_decide_false by congruence.
    rewrite Hn, bool_decide_true by done. done.
  - intros level Hl. cbn. by rewrite bool_decide_true by by rewrite Hl.
Qed.

Module DatabaseDemo.
(** One address parses, and nothing is escaped. *)
#[local] Instance demo_runtime : Runtime := {
  parseUrl s := if s == "postgres://app:pw@db:5433/lyrics?sslmode=verify-ca" then
    Some (mkUrl "postgres:" "db" "5433" "/lyrics" "app" "pw" (Some "verify-ca")) else None;
  decodeURIComponent s := Ok s;
  readFileSync s := Ok ("file " +:+ s);
}.

Definition env : EnvReader := λ key,
  if key == "DATABASE_URL" then Some " postgres://app:pw@db:5433/lyrics?sslmode=verify-ca "
  else if key == "DB_REPLICA_HOST" then Some "replica" else if key == "DB_SSL_CA" then Some "/ca.pem" else None.

Example replicated : (connection <$> buildDataSourceOptions env) =
  Ok (Replicated (mkTarget "db" (Some 5433) "app" "pw" "lyrics") (Some (true, Some "file /ca.pem"))
        (mkTarget "replica" (Some 5433) "app" "pw" "lyrics") (Some (true, Some "file /ca.pem"))).
Proof. by vm_compute. Qed.

Definition options : DataSourceOptions := if buildDataSourceOptions env is Ok o then o else mkOptions (Single (mkTarget "" None "" "" "") None) false LogNone NotANumber NotANumber "".

Example tls_as_asked_witness : length (targets (connection options)) = 2%nat ∧
  ∀ e, e ∈ targets (connection options) → asked env = Some (tls_mode e.2).
Proof.
  assert (buildDataSourceOptions env = Ok options) as H by (by vm_compute). split.
  - apply (tls_as_asked env options H). by exists "replica".
  - apply (tls_as_asked env options H).
Defined.

Example missing_named_witness : resolveConnectionTarget (λ key, if key == "DB_HOST" then Some "db" else None) =
  Err (config_error "Database is not configured: set DATABASE_URL, or DB_USERNAME, DB_PASSWORD, DB_NAME").
Proof. exact (proj1 (missing_named (λ key, if key == "DB_HOST" then Some "db" else None) eq_refl)). Defined.

(** What is not a number is passed on as [NaN]. *)
Example port_unchecked : (λ r, port r.1) <$> resolveConnectionTarget
  (λ key, if bool_decide (key ∈ ["DB_HOST"; "DB_USERNAME"; "DB_PASSWORD"; "DB_NAME"; "DB_PORT"]) then Some "x" else None) = Ok None.
Proof. by vm_compute. Qed.
End DatabaseDemo.
