(* ===== verification/StellarToken.v ===== *)
(** * Settlement on Stellar (src/src/tokens/services/stellar-token.service.ts)

    [StellarTokenService]: the settlement backend over the escrow contract's client (file Escrow).  Six helpers it calls are not
    in the repository; they are parameters, with what the service's tests say of them as laws ([HelperLaws]).  The accounts and
    the wagers are a [Db], with the RPC server and what was sent to it beside. *)

From S2P Require Import Prelude Amount Entities TokenService StellarRpc Escrow.
From stdpp Require Import gmap.

#[local] Open Scope Z_scope.

(** [IKeyStore], as far as the service uses it. *)
Class IKeyStore `{sdk : StellarSdk} := {
  getResolverKeypair : result Keypair;
  getPlayerSigner : string → result (option Keypair);
}.

(** What the service calls and the repository does not have. *)
Class Helpers `{sdk : StellarSdk} (Net : Type) := {
  requireAddress : string → M (Db (Rpc Net)) string;
  addressForPlayer : string → EscrowContext → M (Db (Rpc Net)) string;
  safeBalance : string → M (Db (Rpc Net)) (option Stroops);
  toTransactionResult : SubmitResult → string → option Stroops → TokenTransactionResult;
  toFailure : exn → string → TokenTransactionResult;
  lookupTransaction : string → M (Rpc Net) SubmitResult;
  checkTrustline : string → string → string → M (Db (Rpc Net)) bool;
}.

Section StellarTokenService.
Context {sdk : StellarSdk} {Net : Type} {srv : RpcServer sdk Net} {esdk : EnvelopeSdk sdk} {keyStore : IKeyStore} {helpers : Helpers Net}.
(** [tokenIsSacWrapped] is a field that the configuration does not have: it is always unset. *)
Variables (env : Env) (networkPassphrase : string) (config : StellarIds) (horizonUrl : string) (tokenIsSacWrapped : bool) (decimals : nat).

Local Abbreviation St := (Db (Rpc Net)).
Local Abbreviation M := (M St).

Definition on_rpc {A} (m : Prelude.M (Rpc Net) A) : M A := λ d,
  let '(r, x) := m (ext d) in (r, d <| ext := x |>).

Definition settlementMode : string := "stellar".

Definition assertCanReceiveToken (address userId : string) : M unit :=
  if negb tokenIsSacWrapped then mret tt
  else
    hasTrustline ← checkTrustline address (tokenContractId config) horizonUrl;
    throw_if (negb hasTrustline) (BadRequest ("Player " +:+ userId +:+ " cannot receive LYRIC: account " +:+ address +:+ " has no " +:+
      "trustline for the token. Add the trustline in your wallet before " +:+ "opening a wager.")).

(** [catch (error) { return this.toFailure(error, action); }] *)
Definition or_failure (action : string) (m : M TokenTransactionResult) : M TokenTransactionResult :=
  try_catch m (λ error, mret (toFailure error action)).

Definition openEscrow (context : EscrowContext) : M TokenTransactionResult :=
  or_failure "open the escrow pot" (
    playerAAddress ← requireAddress (ctx_playerAId context);
    playerBAddress ← requireAddress (ctx_playerBId context);
    assertCanReceiveToken playerAAddress (ctx_playerAId context);;
    assertCanReceiveToken playerBAddress (ctx_playerBId context);;
    resolver ← lift getResolverKeypair;
    result ← on_rpc (openPot env networkPassphrase config resolver (ctx_sessionId context) playerAAddress playerBAddress (ctx_stake context));
    stake ← lift (fromStroops decimals (ctx_stake context));
    mret (toTransactionResult result ("Escrow opened for " +:+ stake +:+ " LYRIC per player") None)).

Definition stakeTokens (userId : string) (context : EscrowContext) : M TokenTransactionResult :=
  or_failure "stake tokens" (
    address ← requireAddress userId;
    signer ← lift (getPlayerSigner userId);
    match signer with
    | None =>
        unsigned ← on_rpc (buildUnsignedStake env networkPassphrase config (ctx_sessionId context) address);
        stake ← lift (fromStroops decimals (ctx_stake context));
        mret {|
          success := false;
          status := SettlementStatus.PENDING_SIGNATURE;
          txHash := Some (ut_hash unsigned);
          ledger := None;
          newBalance := None;
          unsignedTransaction := Some unsigned;
          message := Some ("Sign this transaction in your wallet to stake " +:+ stake +:+ " LYRIC, then submit it back to confirm the wager.");
        |}
    | Some signer =>
        transaction ← on_rpc (buildStake env networkPassphrase config (publicKey signer) (ctx_sessionId context) address);
        result ← on_rpc (signAndSubmit env transaction (SignerArray [signer]));
        stake ← lift (fromStroops decimals (ctx_stake context));
        balance ← safeBalance address;
        mret (toTransactionResult result ("Staked " +:+ stake +:+ " LYRIC") balance)
    end).

Definition is_bad_request (e : exn) : bool := if e is BadRequest _ then true else false.
Definition is_not_found (e : exn) : bool := if e is NotFound _ then true else false.

Definition confirmStake (userId signedXdr : string) (context : EscrowContext) : M TokenTransactionResult :=
  try_catch (
    address ← requireAddress userId;
    result ← on_rpc (submitSignedStake env networkPassphrase config signedXdr (ctx_sessionId context) address);
    stake ← lift (fromStroops decimals (ctx_stake context));
    mret (toTransactionResult result ("Stake of " +:+ stake +:+ " LYRIC confirmed") None))
  (λ error, if is_bad_request error then throw error else mret (toFailure error "confirm the stake")).

Definition releaseToWinner (winnerId : string) (context : EscrowContext) : M TokenTransactionResult :=
  or_failure "release the pot to the winner" (
    winnerAddress ← addressForPlayer winnerId context;
    resolver ← lift getResolverKeypair;
    result ← on_rpc (resolve env networkPassphrase config resolver (ctx_sessionId context) winnerAddress);
    stake ← lift (fromStroops decimals (ctx_stake context));
    balance ← safeBalance winnerAddress;
    mret (toTransactionResult result ("You won " +:+ stake +:+ " LYRIC ×2!") balance)).

Definition refundEscrow (context : EscrowContext) : M TokenTransactionResult :=
  or_failure "refund the pot" (
    resolver ← lift getResolverKeypair;
    result ← on_rpc (refund env networkPassphrase config resolver (ctx_sessionId context));
    stake ← lift (fromStroops decimals (ctx_stake context));
    mret (toTransactionResult result ("Refunded " +:+ stake +:+ " LYRIC to each player who staked") None)).

Definition getUserBalance (userId : string) : M Stroops :=
  address ← requireAddress userId;
  on_rpc (getTokenBalance networkPassphrase config address).

Definition hasSufficientTokens (userId : string) (amount : Stroops) : M bool :=
  try_catch (balance ← getUserBalance userId; lift (isAtLeast balance amount))
    (λ error, if is_bad_request error || is_not_found error then throw error else mret false).

Definition RESOLVED : string := "Resolved".
Definition REFUNDED : string := "Refunded".

(** [{ success: false, status: SettlementStatus.SUBMIT }]: the enum has no [SUBMIT], so the status is [undefined]. *)
Inductive Reconciled := Known (r : TokenTransactionResult) | StillUnknown.

Definition reconcile (hash : string) (context : EscrowContext) : M Reconciled :=
  submission ← on_rpc (lookupTransaction hash);
  pot ← on_rpc (getPot networkPassphrase config (ctx_sessionId context));
  if sub_confirmed submission then mret (Known (toTransactionResult submission "Transaction confirmed on-chain" None))
  else
    let status_ := oc_status <$> pot in
    if bool_decide (status_ = Some RESOLVED) || bool_decide (status_ = Some REFUNDED) then
      mret (Known {|
        success := true;
        status := SettlementStatus.CONFIRMED;
        txHash := Some hash;
        ledger := None;
        newBalance := None;
        unsignedTransaction := None;
        message := Some ("The escrow pot is already " +:+ lower (default "" status_) +:+ " on-chain; " +:+ "treating this wager as settled.");
      |})
    else mret StillUnknown.
End StellarTokenService.

(** ** What the tests say of the helpers *)

(** Nothing was submitted. *)
Definition silent `{sdk : StellarSdk} {Net} : relation (Db (Rpc Net)) := λ s s', trace (ext s') = trace (ext s).

Class HelperLaws `{sdk : StellarSdk} {Net : Type} (helpers : Helpers Net) := {
  toTransactionResult_spec result message balance : let r := toTransactionResult result message balance in
    success r = sub_confirmed result ∧ txHash r = Some (sub_hash result) ∧
    status r = (if sub_confirmed result then SettlementStatus.CONFIRMED else SettlementStatus.SUBMITTED);
  toFailure_spec error action : let r := toFailure error action in
    success r = false ∧ txHash r = None ∧ status r = SettlementStatus.FAILED;
  requireAddress_silent userId : preserves silent (requireAddress userId);
  addressForPlayer_silent userId context : preserves silent (addressForPlayer userId context);
  checkTrustline_silent address token horizon : preserves silent (checkTrustline address token horizon);
}.

(** ** What the service answers *)

Section answers.
Context {sdk : StellarSdk} {Net : Type} {srv : RpcServer sdk Net} {esdk : EnvelopeSdk sdk} {keyStore : IKeyStore} {helpers : Helpers Net}
  {laws : HelperLaws helpers}.
Variables (env : Env) (networkPassphrase : string) (config : StellarIds) (horizonUrl : string) (tokenIsSacWrapped : bool) (decimals : nat).

Local Abbreviation St := (Db (Rpc Net)).

#[local] Instance silent_refl : Reflexive (silent (Net := Net)).
Proof. done. Qed.
#[local] Instance silent_trans : Transitive (silent (Net := Net)).
Proof. intros s1 s2 s3 H12 H23. unfold silent in *. congruence. Qed.

Lemma on_rpc_run {A} (m : M (Rpc Net) A) (s : St) r x : m (ext s) = (r, x) → on_rpc m s = (r, s <| ext := x |>).
Proof. unfold on_rpc. by intros ->. Qed.

Lemma on_rpc_silent {A} (m : M (Rpc Net) A) : preserves quiet m → preserves silent (on_rpc m).
Proof.
  intros Hm s r s'. destruct (m (ext s)) as [r' x] eqn:E. rewrite (on_rpc_run _ _ _ _ E). intros [= <- <-]. by apply Hm in E.
Qed.

(** It fails, having submitted nothing. *)
Definition fails_silently {S A} (R : relation S) (m : M S A) : Prop := ∀ s, ∃ e s', m s = (Err e, s') ∧ R s s'.

Lemma fails_on_rpc {A} (m : M (Rpc Net) A) : fails_silently quiet m → fails_silently silent (on_rpc m).
Proof. intros Hm s. destruct (Hm (ext s)) as (e & x & E & Hq). exists e, (s <| ext := x |>). by rewrite (on_rpc_run _ _ _ _ E). Qed.

Lemma silent_fails_bind {A B} (m : M St A) (f : A → M St B) : preserves silent m → (∀ a, fails_silently silent (f a)) → fails_silently silent (m ≫= f).
Proof.
  intros Hm Hf s. destruct (m s) as [[a|e] s1] eqn:E.
  - destruct (Hf a s1) as (e & s2 & Hrun & H2). exists e, s2. rewrite (bind_run _ _ _ _ _ E). split; [done|]. etrans; [by apply Hm in E|done].
  - exists e, s1. rewrite (bind_run_err _ _ _ _ _ E). split; [done|by apply Hm in E].
Qed.

Lemma fails_head {A B} (m : M St A) (f : A → M St B) : fails_silently silent m → fails_silently silent (m ≫= f).
Proof. intros Hm s. destruct (Hm s) as (e & s' & E & Hq). exists e, s'. by rewrite (bind_run_err _ _ _ _ _ E). Qed.

Lemma assertCanReceiveToken_silent address userId :
  preserves silent (assertCanReceiveToken config horizonUrl tokenIsSacWrapped address userId).
Proof.
  unfold assertCanReceiveToken. destruct (negb tokenIsSacWrapped); [apply (preserves_ret silent)|].
  apply (preserves_bind silent); [apply checkTrustline_silent|]. intros b. apply (preserves_throw_if silent).
Qed.

(** An attempt that fails is answered as a failure. *)
Lemma or_failure_of action (m : M St TokenTransactionResult) : fails_silently silent m → ∀ s, ∃ r s', or_failure action m s = (Ok r, s') ∧
  success r = false ∧ status r = SettlementStatus.FAILED ∧ txHash r = None ∧ silent s s'.
Proof.
  intros Hm s. destruct (Hm s) as (e & s' & E & Hq). exists (toFailure e action), s'.
  destruct (toFailure_spec e action) as (H1 & H2 & H3). split; [|done]. unfold or_failure, try_catch. by rewrite E.
Qed.

Lemma or_failure_cases action (m : M St TokenTransactionResult) s : ∃ r s', or_failure action m s = (Ok r, s') ∧
  (m s = (Ok r, s') ∨ ∃ e, m s = (Err e, s') ∧ r = toFailure e action).
Proof.
  unfold or_failure, try_catch. destruct (m s) as [[r|e] s'] eqn:E; [by exists r, s'; auto|].
  exists (toFailure e action), s'. split; [done|]. right. by exists e.
Qed.

(** With the backend on Stellar, no pot is ever opened, paid out or refunded: each of the three is answered as a failure, with no hash to
    reconcile by, and nothing is submitted to the network. *)
Theorem resolver_calls_fail winnerId context s op :
  op ∈ [openEscrow env networkPassphrase config horizonUrl tokenIsSacWrapped decimals context;
        releaseToWinner env networkPassphrase config decimals winnerId context;
        refundEscrow env networkPassphrase config decimals context] →
  ∃ r s', op s = (Ok r, s') ∧ success r = false ∧ status r = SettlementStatus.FAILED ∧ txHash r = None ∧ silent s s'.
Proof.
  pose proof (resolver_never_submits env networkPassphrase config) as Hno. cbn zeta in Hno.
  pose proof (assertCanReceiveToken_silent) as Hcan.
  rewrite !elem_of_cons, elem_of_nil. intros [->|[->|[->|[]]]]; apply or_failure_of.
  - apply silent_fails_bind; [apply requireAddress_silent|intros a]. apply silent_fails_bind; [apply requireAddress_silent|intros b].
    apply silent_fails_bind; [apply Hcan|intros _]. apply silent_fails_bind; [apply Hcan|intros _].
    apply silent_fails_bind; [apply (preserves_lift silent)|intros resolver]. apply fails_head, fails_on_rpc.
    intros x. apply (Hno resolver (ctx_sessionId context) a b "" (ctx_stake context) x).
  - apply silent_fails_bind; [apply addressForPlayer_silent|intros a]. apply silent_fails_bind; [apply (preserves_lift silent)|intros resolver].
    apply fails_head, fails_on_rpc. intros x. apply (Hno resolver (ctx_sessionId context) "" "" a "" x).
  - apply silent_fails_bind; [apply (preserves_lift silent)|intros resolver]. apply fails_head, fails_on_rpc.
    intros x. apply (Hno resolver (ctx_sessionId context) "" "" "" "" x).
Qed.

#[local] Instance quiet_refl : Reflexive (quiet (Net := Net)).
Proof. done. Qed.
#[local] Instance quiet_trans : Transitive (quiet (Net := Net)).
Proof. intros s1 s2 s3 H12 H23. unfold quiet in *. congruence. Qed.

Lemma buildUnsignedStake_quiet sessionId address : preserves quiet (buildUnsignedStake env networkPassphrase config sessionId address).
Proof.
  unfold buildUnsignedStake, buildStake, playerCall.
  repeat first [ apply build_quiet | apply (preserves_ret quiet) | apply (preserves_lift quiet) | apply (preserves_bind quiet); [|intros] ].
Qed.

(** A submission that answered [result]. *)
Definition submitted_as (m : M (Rpc Net) SubmitResult) (r : TokenTransactionResult) : Prop := ∃ x result x',
  m x = (Ok result, x') ∧ txHash r = Some (sub_hash result) ∧ success r = sub_confirmed result ∧
  status r = (if sub_confirmed result then SettlementStatus.CONFIRMED else SettlementStatus.SUBMITTED).

Lemma on_rpc_Ok {A} (m : M (Rpc Net) A) (s : St) a s' : on_rpc m s = (Ok a, s') → ∃ x', m (ext s) = (Ok a, x').
Proof. unfold on_rpc. destruct (m (ext s)) as [r x]. intros [= -> <-]. eauto. Qed.

Lemma submitted_intro m (s : St) result s' msg balance : on_rpc m s = (Ok result, s') → submitted_as m (toTransactionResult result msg balance).
Proof.
  intros (x' & Hm)%on_rpc_Ok. destruct (toTransactionResult_spec result msg balance) as (H1 & H2 & H3). exists (ext s), result, x'. done.
Qed.

(** Staking always answers.  Without the player's key it hands out the transaction to sign, and neither submits nor claims anything; with it, what it says is what
    the submission of that transaction, signed by that key alone, showed: confirmed, or submitted and not known. *)
Theorem stakeTokens_honest userId context s : ∃ r s', stakeTokens env networkPassphrase config decimals userId context s = (Ok r, s') ∧
  ((success r = false ∧ status r = SettlementStatus.FAILED ∧ txHash r = None) ∨
   (getPlayerSigner userId = Ok None ∧ success r = false ∧ status r = SettlementStatus.PENDING_SIGNATURE ∧
    is_Some (unsignedTransaction r) ∧ silent s s') ∨
   (∃ signer transaction, getPlayerSigner userId = Ok (Some signer) ∧ submitted_as (signAndSubmit env transaction (SignerArray [signer])) r)).
Proof.
  unfold stakeTokens. match goal with |- context [or_failure _ ?m] => set (attempt := m) end.
  destruct (or_failure_cases "stake tokens" attempt s) as (r & s' & -> & Hcases). exists r, s'. split; [done|].
  destruct Hcases as [Hrun|(e & _ & ->)]; [right|left; by destruct (toFailure_spec e "stake tokens") as (? & ? & ?)].
  unfold attempt in Hrun. apply bind_Ok_inv in Hrun as (address & s1 & Ha & Hrun). apply requireAddress_silent in Ha.
  apply bind_Ok_inv in Hrun as (signer & s2 & Hs & Hrun). injection Hs as Hs <-. destruct signer as [signer|].
  - right. apply bind_Ok_inv in Hrun as (tx & s3 & _ & Hrun). apply bind_Ok_inv in Hrun as (result & s4 & Hsub & Hrun).
    apply bind_Ok_inv in Hrun as (stake & s5 & _ & Hrun). apply bind_Ok_inv in Hrun as (balance & s6 & _ & [= <- <-]).
    exists signer, tx. split; [done|]. by eapply submitted_intro.
  - left. apply bind_Ok_inv in Hrun as (unsigned & s3 & Hu & Hrun). apply bind_Ok_inv in Hrun as (stake & s4 & Hstake & [= <- <-]).
    injection Hstake as _ <-. split; [done|]. split; [done|]. split; [done|]. split; [by eexists|].
    etrans; [exact Ha|]. by apply (on_rpc_silent _ (buildUnsignedStake_quiet _ _)) in Hu.
Qed.

(** Confirming a stake: only a request that is wrong is thrown back; what is answered as confirmed was seen confirmed. *)
Theorem confirmStake_honest userId signedXdr context s :
  (∃ m s', confirmStake env networkPassphrase config decimals userId signedXdr context s = (Err (BadRequest m), s')) ∨
  ∃ r s', confirmStake env networkPassphrase config decimals userId signedXdr context s = (Ok r, s') ∧
    ((success r = false ∧ status r = SettlementStatus.FAILED ∧ txHash r = None) ∨
     ∃ address, submitted_as (submitSignedStake env networkPassphrase config signedXdr (ctx_sessionId context) address) r).
Proof.
  unfold confirmStake, try_catch. match goal with |- context [match ?m s with _ => _ end] => destruct (m s) as [[r|e] s'] eqn:Hrun end.
  - right. exists r, s'. split; [done|]. right. apply bind_Ok_inv in Hrun as (address & s1 & _ & Hrun).
    apply bind_Ok_inv in Hrun as (result & s2 & Hsub & Hrun). apply bind_Ok_inv in Hrun as (stake & s3 & _ & [= <- <-]).
    exists address. by eapply submitted_intro.
  - destruct e as [m|m|m|m|m|m|m|code m]; cbn; [left; by exists m, s'|right..].
    all: match goal with |- context [toFailure ?e ?a] => destruct (toFailure_spec e a) as (H1 & H2 & H3); by exists (toFailure e a), s'; auto end.
Qed.

(** What a reconciliation calls settled is confirmed, or its pot is closed on-chain. *)
Theorem reconcile_honest hash context s r s' : reconcile networkPassphrase config hash context s = (Ok r, s') →
  match r with
  | Known r => success r = true ∧ status r = SettlementStatus.CONFIRMED ∧
      (submitted_as (lookupTransaction hash) r ∨
       txHash r = Some hash ∧ ∃ x pot x', getPot networkPassphrase config (ctx_sessionId context) x = (Ok (Some pot), x') ∧
         (oc_status pot = RESOLVED ∨ oc_status pot = REFUNDED))
  | StillUnknown => True
  end.
Proof.
  unfold reconcile. intros (submission & s1 & Hsub & (pot & s2 & Hpot & Hrun)%bind_Ok_inv)%bind_Ok_inv.
  destruct (sub_confirmed submission) eqn:Hc.
  - injection Hrun as <- _. destruct (toTransactionResult_spec submission "Transaction confirmed on-chain" None) as (H1 & H2 & H3).
    rewrite Hc in *. split; [done|]. split; [done|]. left. by eapply submitted_intro.
  - destruct (_ || _) eqn:Es; [|by injection Hrun as <- _]. injection Hrun as <- _. split; [done|]. split; [done|]. right. split; [done|].
    apply on_rpc_Ok in Hpot as (x' & Hpot). destruct pot as [pot|]; [|done]. exists (ext s1), pot, x'. split; [done|].
    cbn in Es. apply orb_true_iff in Es as [E%bool_decide_eq_true|E%bool_decide_eq_true]; [left|right]; congruence.
Qed.
End answers.

(** ** A wager on the demonstration network *)

Module StellarTokenDemo.
Import StellarDemo EscrowDemo.

(** Addresses are ids; the store signs for "bot" only. *)
#[local] Instance demo_keys : StellarToken.IKeyStore := {
  getResolverKeypair := Ok "RESOLVER";
  getPlayerSigner userId := Ok (if userId == "bot" then Some "BOT" else None);
}.
#[local] Instance demo_helpers : Helpers (nat * nat) := {
  requireAddress userId := if nonempty userId then mret userId else throw (NotFound "User not found");
  addressForPlayer userId _ := mret userId;
  safeBalance _ := mret (Some "42");
  toTransactionResult r m b := mkTtr (sub_confirmed r) (if sub_confirmed r then SettlementStatus.CONFIRMED else SettlementStatus.SUBMITTED)
    (Some (sub_hash r)) (sub_ledger r) b None (Some m);
  toFailure e action := mkTtr false SettlementStatus.FAILED None None None None (Some (exn_message e));
  lookupTransaction hash := mret (mkSubmit hash (hash == "#done") None None None);
  checkTrustline _ _ _ := mret true;
}.
#[local] Instance demo_laws : HelperLaws demo_helpers.
Proof.
  split; [by intros result|done|..]; cbn.
  - intros userId s r s'. by destruct (nonempty userId); intros [= _ <-].
  - by intros userId context s r s' [= _ <-].
  - by intros address token horizon s r s' [= _ <-].
Qed.

Definition context : EscrowContext := mkCtx "session" "ada" "bot" "10000000".
Definition db : Db (Rpc (nat * nat)) := mkDb ∅ ∅ 0 0 start.

Example resolver_calls_fail_witness : ∃ r s', releaseToWinner no_env "net" ids 7 "ada" context db = (Ok r, s') ∧ success r = false ∧ silent db s'.
Proof.
  destruct (resolver_calls_fail no_env "net" ids "https://horizon" false 7 "ada" context db
    (releaseToWinner no_env "net" ids 7 "ada" context)) as (r & s' & Hrun & H1 & _ & _ & H4).
  - apply list_elem_of_further, list_elem_of_here.
  - exists r, s'. done.
Defined.

(** The transaction of a player whose key is held is sent until it is taken, and confirmed. *)
Example bot_stakes : (λ r, (success r, status r, txHash r)) <$> (stakeTokens no_env "net" ids 7 "bot" context db).1 =
  Ok (true, SettlementStatus.CONFIRMED, Some "#BOT:ESCROW.stakesession,bot").
Proof. by vm_compute. Qed.
Example ada_signs : (λ r, (success r, status r, ut_xdr <$> unsignedTransaction r)) <$> (stakeTokens no_env "net" ids 7 "ada" context db).1 =
  Ok (false, SettlementStatus.PENDING_SIGNATURE, Some "ada:ESCROW.stakesession,ada").
Proof. by vm_compute. Qed.

Definition staked (userId : string) : TokenTransactionResult :=
  if (stakeTokens no_env "net" ids 7 userId context db).1 is Ok r then r else mkTtr false SettlementStatus.FAILED None None None None None.

Example stakeTokens_honest_witness : success (staked "bot") = true ∧ ∃ signer transaction, getPlayerSigner "bot" = Ok (Some signer) ∧
  submitted_as (signAndSubmit no_env transaction (SignerArray [signer])) (staked "bot").
Proof.
  split; [by vm_compute|].
  destruct (stakeTokens_honest no_env "net" ids 7 "bot" context db) as (r & s' & Hrun & Hcases).
  assert (r = staked "bot") as -> by (unfold staked; by rewrite Hrun).
  destruct Hcases as [(Hf & _)|[(Hn & _)|Hs]]; [vm_compute in Hf; discriminate|vm_compute in Hn; discriminate|exact Hs].
Defined.

Definition settled : Reconciled := if (reconcile "net" ids "#done" context db).1 is Ok r then r else StillUnknown.

Example reconcile_honest_witness : match settled with Known r => success r = true | StillUnknown => False end.
Proof.
  pose proof (reconcile_honest "net" ids "#done" context db settled (reconcile "net" ids "#done" context db).2) as H.
  destruct settled as [r|] eqn:E; [|vm_compute in E; discriminate]. apply H. rewrite <-E. by vm_compute.
Defined.
End StellarTokenDemo.
