(* ===== verification/Monitoring.v ===== *)
(** * Monitoring (health/, metrics/, game/difficulty-calibrator.job.ts)

    The probes, the gauges and counters of wagers and requests, and the nightly job that sets the difficulty of lyrics.
    The driver, the RPC's [isHealthy] and Redis are parameters: whether they answer. *)

From S2P Require Import Prelude Decimal Entities LyricsService GameHistory Access.
From stdpp Require Import gmap.

#[local] Open Scope Z_scope.

(** ** Probes (health.controller.ts, stellar-rpc.health.ts, redis.health.ts) *)

(** What is reachable: the database, the Soroban RPC, and a client of Redis that connects, and that answers. *)
Record Dependencies := mkDeps {
  database_pings : bool;
  rpc_healthy : bool;
  redis_connects : bool;
  redis_pings : bool;
}.

(** An indicator: its key, and whether it is up. *)
Definition check := (string * bool)%type.

Definition stellar_isHealthy (d : Dependencies) (key : string) : check := (key, rpc_healthy d).

(** [isOpen]: the client that earlier checks have left. *)
Definition redis_isHealthy (env : Env) (isOpen : bool) (d : Dependencies) (key : string) : check :=
  match present (env "REDIS_URL") with
  | None => (key, true)
  | Some _ => (key, (isOpen || redis_connects d) && redis_pings d)
  end.

Definition ready_checks (env : Env) (isOpen : bool) (d : Dependencies) : list check :=
  let stellarMode := default "mock" (env "STELLAR_SETTLEMENT_MODE") in
  [("database", database_pings d)] ++
  (if stellarMode == "stellar" then [stellar_isHealthy d "stellar_rpc"] else []) ++
  (if truthy (env "REDIS_URL") then [redis_isHealthy env isOpen d "redis"] else []).

(** [HealthCheckService.check]: every indicator is asked, and one that is down makes the answer 503, with what each said. *)
Definition health_check (checks : list check) : result (list check) :=
  if forallb snd checks then Ok checks else Err (ServiceUnavailable "Service Unavailable Exception").

Definition live : result (list check) := health_check [].
Definition ready (env : Env) (isOpen : bool) (d : Dependencies) : result (list check) := health_check (ready_checks env isOpen d).

(** ** Metrics of wagers (wager-metrics.service.ts) *)

Definition WAGER_STATUSES : list string :=
  [WagerStatus.PENDING; WagerStatus.AWAITING_STAKES; WagerStatus.STAKED; WagerStatus.SETTLING; WagerStatus.WON; WagerStatus.REFUNDED;
   WagerStatus.FAILED].

(** The gauge by status, the counter by outcome, and the counters of requests by their labels. *)
Record Metrics := mkMetrics {
  wagersByStatus : gmap string Z;
  settlementOutcomes : gmap string Z;
  httpRequestTotal : gmap (string * string * string) Z;
}.
#[export] Instance Metrics_settable : Settable Metrics := λ m, mkMetrics (wagersByStatus m) (settlementOutcomes m) (httpRequestTotal m).

(** [SELECT status, COUNT(... )] grouped by status: one row per status that occurs. *)
Definition with_status (status : string) (rows : list Wager) : list Wager := List.filter (λ w, w_status w == status) rows.
Definition count_by_status (rows : list Wager) : list (string * Z) :=
  (λ status, (status, Z.of_nat (length (with_status status rows)))) <$> remove_dups (w_status <$> rows).

Definition set_gauge (g : gmap string Z) (row : string * Z) : gmap string Z := <[row.1 := row.2]> g.

(** [query] is what the query for the counts answers; a failure is logged. *)
Definition refreshWagerGauges (query : result (list (string * Z))) (m : Metrics) : Metrics :=
  match query with
  | Err _ => m
  | Ok rows => m <| wagersByStatus := foldl set_gauge (foldl (λ g status, <[status := 0]> g) (wagersByStatus m) WAGER_STATUSES) rows |>
  end.

Definition inc {K} `{Countable K} (label : K) (c : gmap K Z) : gmap K Z := <[label := default 0 (c !! label) + 1]> c.

Definition onWagerSettled (outcome : string) (m : Metrics) : Metrics := m <| settlementOutcomes := inc outcome (settlementOutcomes m) |>.

(** ** Metrics of requests (http-metrics.middleware.ts) *)

Definition UNMATCHED_ROUTE : string := "unmatched".

(** [path] is that of the route that matched, if any. *)
Definition routeTemplate (baseUrl path : option string) : string :=
  match present path with
  | None => UNMATCHED_ROUTE
  | Some path => default "" baseUrl +:+ path
  end.

Record HttpRequest := mkHttp {
  hr_method : string;
  hr_baseUrl : option string;
  hr_path : option string;
  hr_statusCode : Z;
}.
Definition labels_of (r : HttpRequest) : string * string * string :=
  (hr_method r, routeTemplate (hr_baseUrl r) (hr_path r), show (hr_statusCode r)).

(** How a response ends. *)
Inductive ending := Finish | Close.

(** [recorded] is of the request, the counters of the service. *)
Definition on_ending (labels : string * string * string) (s : bool * Metrics) (e : ending) : bool * Metrics :=
  let '(recorded, m) := s in
  if recorded then (true, m) else (true, m <| httpRequestTotal := inc labels (httpRequestTotal m) |>).

(** ** The difficulty of lyrics (difficulty-calibrator.job.ts) *)

(** [ROUND] of [5 - rate * 4] for [c] of [n] guesses, half away from zero, between 1 and 5. *)
Definition calibrated (c n : Z) : Z := Z.max 1 (Z.min 5 ((2 * (5 * n - 4 * c) + n) / (2 * n))).

(** The guesses of a lyric, by the column [success]. *)
Definition guesses_of (id : Z) (rows : list GameHistory) : list GameHistory := List.filter (λ h, gh_lyricId h =? id) rows.
Definition calibrate_row (success : GameHistory → bool) (rows : list GameHistory) (id : Z) (r : LyricRow) : LyricRow :=
  let guesses := guesses_of id rows in
  if bool_decide (guesses = []) then r
  else r <| lr_lyrics := lr_lyrics r <| ly_difficulty :=
    calibrated (Z.of_nat (length (List.filter success guesses))) (Z.of_nat (length guesses)) |> |>.

(** [success] is the column of that name of [game_history], which the entity and the migrations do not have. *)
Definition calibrate (env : Env) (success : option (GameHistory → bool)) (rows : list GameHistory) : M LyricsDb unit :=
  if negb (bool_decide (env "CALIBRATION_ENABLED" = Some "true")) then mret tt
  else match success with
  | None => throw (PlainError "42703" "column gh.success does not exist")
  | Some success => modify (λ d, d <| lyrics := map_imap (λ id r, Some (calibrate_row success rows id r)) (lyrics d) |>)
  end.

(** ** Properties *)

(** Ready means that what the settings need is up: the database, the RPC where wagers settle on Stellar, Redis where it is used;
    and nothing else is asked for. *)
Theorem ready_when_needed env isOpen d : is_ok (ready env isOpen d) = true ↔
  database_pings d = true ∧ (default "mock" (env "STELLAR_SETTLEMENT_MODE") = "stellar" → rpc_healthy d = true) ∧
  (truthy (env "REDIS_URL") = true → (isOpen || redis_connects d) = true ∧ redis_pings d = true).
Proof.
  assert (is_ok (ready env isOpen d) = forallb snd (ready_checks env isOpen d)) as ->.
  { unfold ready, health_check. by destruct (forallb snd _). }
  unfold ready_checks, redis_isHealthy. rewrite !forallb_app, !andb_true_iff. cbn [forallb snd]. rewrite andb_true_r.
  assert (truthy (env "REDIS_URL") = true → ∃ url, present (env "REDIS_URL") = Some url) as Hurl.
  { unfold truthy, present. destruct (env "REDIS_URL") as [url|]; [|done]. cbn. intros ->. eauto. }
  case_bool_decide as Hm; destruct (truthy (env "REDIS_URL")) eqn:Et; cbn [forallb snd stellar_isHealthy]; rewrite ?andb_true_r.
  - destruct (Hurl eq_refl) as [url ->]. cbn. rewrite andb_true_iff. naive_solver.
  - naive_solver.
  - destruct (Hurl eq_refl) as [url ->]. cbn. rewrite andb_true_iff. naive_solver.
  - naive_solver.
Qed.

Lemma foldl_insert_ne {V} (rows : list (string * V)) (g : gmap string V) k : k ∉ rows.*1 →
  foldl (λ g row, <[row.1 := row.2]> g) g rows !! k = g !! k.
Proof.
  revert g. induction rows as [|row rows IH]; intros g; [done|]. cbn. rewrite not_elem_of_cons. intros [Hne Hk].
  rewrite IH by done. by rewrite lookup_insert_ne.
Qed.

Lemma foldl_zero (statuses : list string) (g : gmap string Z) k :
  foldl (λ g status, <[status := 0]> g) g statuses !! k = if bool_decide (k ∈ statuses) then Some 0 else g !! k.
Proof.
  revert g. induction statuses as [|s statuses IH]; intros g; [done|]. cbn [foldl]. rewrite IH.
  destruct (decide (k ∈ statuses)) as [Hk|Hk]; [rewrite !bool_decide_true by (try done; by apply list_elem_of_further); done|].
  rewrite (bool_decide_false (k ∈ statuses)) by done. destruct (decide (k = s)) as [->|Hne].
  - rewrite lookup_insert_eq, bool_decide_true; [done|]. by apply list_elem_of_here.
  - rewrite lookup_insert_ne by done. rewrite bool_decide_false; [done|]. rewrite elem_of_cons. tauto.
Qed.

Lemma with_status_nil status rows : status ∉ (w_status <$> rows) → with_status status rows = [].
Proof.
  unfold with_status. induction rows as [|w rows IH]; [done|]. cbn. rewrite not_elem_of_cons. intros [Hne Hin].
  rewrite bool_decide_false by done. by apply IH.
Qed.

Lemma foldl_counts (rows : list Wager) (l : list string) (g : gmap string Z) status : NoDup l → status ∈ l →
  foldl set_gauge g ((λ s, (s, Z.of_nat (length (with_status s rows)))) <$> l) !! status = Some (Z.of_nat (length (with_status status rows))).
Proof.
  revert g. induction l as [|s l IH]; intros g; [by intros _ ?%elem_of_nil|]. rewrite NoDup_cons, elem_of_cons. cbn. intros [Hs Hl] [<-|Hin].
  - unfold set_gauge at 1. rewrite (foldl_insert_ne (V := Z)).
    + by rewrite lookup_insert_eq.
    + rewrite <-list_fmap_compose. by rewrite list_fmap_id.
  - by apply IH.
Qed.

(** After a refresh the gauge of every status is the number of wagers that have it, zero where none has, whatever it was before; a
    refresh whose query fails changes nothing. *)
Theorem gauges_exact m rows status : status ∈ WAGER_STATUSES →
  wagersByStatus (refreshWagerGauges (Ok (count_by_status rows)) m) !! status = Some (Z.of_nat (length (with_status status rows))) ∧
  (∀ e, refreshWagerGauges (Err e) m = m).
Proof.
  intros Hs. split; [|done]. cbn [refreshWagerGauges wagersByStatus]. unfold count_by_status.
  change (wagersByStatus (set_field _ m)) with (foldl set_gauge (foldl (λ g status, <[status := 0]> g) (wagersByStatus m) WAGER_STATUSES)
    ((λ status, (status, Z.of_nat (length (with_status status rows)))) <$> remove_dups (w_status <$> rows))).
  destruct (decide (status ∈ (w_status <$> rows))) as [Hin|Hout].
  - apply foldl_counts; [apply NoDup_remove_dups|by apply elem_of_remove_dups].
  - rewrite (foldl_insert_ne (V := Z)).
    + rewrite foldl_zero, bool_decide_true by done. by rewrite with_status_nil.
    + rewrite <-list_fmap_compose. rewrite list_fmap_id. by rewrite elem_of_remove_dups.
Qed.

(** A response that ends is counted once, under one label, however many times and ways it ends. *)
Theorem request_counted_once labels m e es : foldl (on_ending labels) (false, m) (e :: es) =
  (true, m <| httpRequestTotal := inc labels (httpRequestTotal m) |>).
Proof. cbn. induction es as [|e' es IH]; [done|]. exact IH. Qed.

(** The difficulty is between 1 and 5, 1 when all guess it and 5 when none does, and no lyric is harder for being guessed more often. *)
Theorem calibrated_spec c n : 0 ≤ c ≤ n → 0 < n →
  1 ≤ calibrated c n ≤ 5 ∧ calibrated n n = 1 ∧ calibrated 0 n = 5 ∧ (c < n → calibrated (c + 1) n ≤ calibrated c n).
Proof.
  intros Hc Hn. unfold calibrated. split; [lia|]. split; [|split].
  - replace (2 * (5 * n - 4 * n) + n) with (n + 1 * (2 * n)) by lia. rewrite Z.div_add by lia. rewrite Z.div_small by lia. lia.
  - replace (2 * (5 * n - 4 * 0) + n) with (n + 5 * (2 * n)) by lia. rewrite Z.div_add by lia. rewrite Z.div_small by lia. lia.
  - intros _. apply Z.max_le_compat_l, Z.min_le_compat_l, Z.div_le_mono; lia.
Qed.

(** Enabled, the job fails on the table as the repository has it, and changes no lyric. *)
Theorem calibrate_never_runs env rows d : env "CALIBRATION_ENABLED" = Some "true" →
  ∃ e, calibrate env None rows d = (Err e, d).
Proof. intros He. unfold calibrate. rewrite He. eexists. done. Qed.

Module MonitoringDemo.
Definition wager (id status : string) : Wager := new_wager "s" <| w_id := id |> <| w_status := status |>.
Definition rows : list Wager := [wager "1" WagerStatus.WON; wager "2" WagerStatus.STAKED; wager "3" WagerStatus.WON].
(** Three wagers were failed before. *)
Definition before : Metrics := mkMetrics {[WagerStatus.FAILED := 3]} ∅ ∅.

Example gauges_exact_witness : wagersByStatus (refreshWagerGauges (Ok (count_by_status rows)) before) !! WagerStatus.FAILED = Some 0.
Proof. apply (gauges_exact before rows WagerStatus.FAILED). apply (bool_decide_eq_true_1 _). by vm_compute. Defined.

Example gauges : (λ status, wagersByStatus (refreshWagerGauges (Ok (count_by_status rows)) before) !! status) <$>
  [WagerStatus.WON; WagerStatus.STAKED; WagerStatus.PENDING] = [Some 2; Some 1; Some 0].
Proof. by vm_compute. Qed.

Example templates : routeTemplate (Some "") (Some "/api/v1/rooms/join/:code") = "/api/v1/rooms/join/:code" ∧ routeTemplate None None = "unmatched".
Proof. done. Qed.

Example difficulties : (λ c, calibrated c 8) <$> [0; 1; 4; 7; 8] = [5; 5; 3; 2; 1].
Proof. by vm_compute. Qed.

Example not_ready : ready (λ k, if k == "STELLAR_SETTLEMENT_MODE" then Some "stellar" else None) false (mkDeps true false true true) =
  Err (ServiceUnavailable "Service Unavailable Exception").
Proof. by vm_compute. Qed.
End MonitoringDemo.
