(* ===== verification/Endpoints.v ===== *)
(** * The lyrics and game endpoints (src/src/lyrics/lyrics.controller.ts, lyrics/dto, game/game.controller.ts, game/dto)

    [LyricsController] and [GameController]: what each handler asks of its service and what it answers with.  A
    lyric's artist, title and text are what players guess, so who is shown them is the point: the theorems say
    that no series of requests of a player tells two tables apart that differ in those only, and that the game
    hands out an answer once, for a round that it has closed. The methods of the services that the repository
    does not contain are classes. *)

From S2P Require Import Prelude Decimal Amount Number Entities LyricsService Rounds.
From stdpp Require Import gmap sorting.

#[local] Open Scope Z_scope.

(** ** Filters on genre (lyrics/entities/genre.enum.ts) *)

Definition toGenre (value : string) : string :=
  let needle := lower (trim value) in
  default (trim value) (List.find (λ g, lower g == needle) Genre).

Definition isGenre (value : string) : bool := bool_decide (value ∈ Genre).

(** ** What is shown of a lyric (lyrics/dto/lyric-response.dto.ts) *)

Record PlayerLyricDto := mkPlayerLyric {
  pl_id : Z;
  pl_lyricSnippet : string;
  pl_genre : string;
  pl_decade : string;
  pl_category : option string;
}.

Definition PlayerLyricDto_from (lyric : LyricRow) : PlayerLyricDto :=
  let l := lr_lyrics lyric in
  mkPlayerLyric (ly_id l) (ly_lyricSnippet l) (ly_genre l) (ly_decade l) (ly_category l).

Record AdminLyricDto := mkAdminLyric {
  al_player : PlayerLyricDto;
  al_content : option string;
  al_source : string;
  al_sourceUrl : option string;
  al_licence : option string;
  al_addedBy : option string;
  al_artist : string;
  al_songTitle : string;
  al_difficulty : Z;
  al_isActive : bool;
  al_timesUsed : Z;
  al_createdAt : Z;
  al_updatedAt : Z;
}.

Definition AdminLyricDto_from (lyric : LyricRow) : AdminLyricDto :=
  let l := lr_lyrics lyric in
  mkAdminLyric (PlayerLyricDto_from lyric) (lr_content lyric) (ly_source l) (lr_sourceUrl lyric) (lr_licence lyric) (lr_addedBy lyric)
    (ly_artist l) (ly_songTitle l) (ly_difficulty l) (ly_isActive l) (ly_timesUsed l) (ly_createdAt l) (ly_updatedAt l).

Inductive LyricDto := AsPlayer (lyric : PlayerLyricDto) | AsAdmin (lyric : AdminLyricDto).

Definition forCaller (lyric : LyricRow) (user : option User) : LyricDto :=
  if bool_decide (u_role <$> user = Some Admin) then AsAdmin (AdminLyricDto_from lyric) else AsPlayer (PlayerLyricDto_from lyric).

(** ** LyricsController *)

(** What the controller calls and [LyricsService] does not contain. *)
Class LyricsRest := {
  UpdateLyricsDto : Type;
  CacheStats : Type;
  getRandomLyrics : option Z → option string → option string → M LyricsDb (list LyricRow);
  getLyricsByCategory : string → option string → M LyricsDb (list LyricRow);
  findByArtist : string → M LyricsDb (list LyricRow);
  searchLyrics : string → Z → Z → M LyricsDb (list LyricRow);
  update : Z → UpdateLyricsDto → option string → M LyricsDb LyricRow;
  remove : Z → M LyricsDb unit;
  invalidateCache : M LyricsDb unit;
  getCacheStats : M LyricsDb CacheStats;
}.

Module LyricsController.
Section handlers.
Context {loader : Loader} {rest : LyricsRest}.
Local Abbreviation M := (M LyricsDb).

Definition create (createLyricsDto : CreateLyricsDto) (user : User) : M AdminLyricDto :=
  lyric ← LyricsService.create createLyricsDto (Some (u_id user));
  mret (AdminLyricDto_from lyric).

Definition for_all (user : option User) (lyrics : list LyricRow) : list LyricDto := (λ lyric, forCaller lyric user) <$> lyrics.

(** The service's default page: the first hundred. *)
Definition findAll (user : option User) (genre decade : option string) : M (list LyricDto) :=
  let normalizedDecade := normalizeDecade <$> present decade in
  lyrics ← LyricsService.findAll genre normalizedDecade (Z.to_nat MAX_PAGE_SIZE) 0;
  mret (for_all user lyrics).

Definition getRandom (user : option User) (count genre decade : option string) : M (list LyricDto) :=
  let countNum := match present count with Some c => parseInt c | None => Some 1 end in
  let normalizedDecade := normalizeDecade <$> present decade in
  lyrics ← getRandomLyrics countNum genre normalizedDecade;
  mret (for_all user lyrics).

Definition getLyricsByGenre (genre : string) (user : option User) : M (list LyricDto) :=
  lyrics ← getLyricsByCategory genre None;
  mret (for_all user lyrics).

Definition getLyricsByDecade (decade : string) (user : option User) : M (list LyricDto) :=
  lyrics ← getLyricsByCategory "decade" (Some (normalizeDecade decade));
  mret (for_all user lyrics).

Definition getLyricsByArtist (artist : string) : M (list LyricRow) := findByArtist artist.

Definition search (q : string) (page limit : Z) : M (list AdminLyricDto) :=
  lyrics ← searchLyrics q page limit;
  mret (AdminLyricDto_from <$> lyrics).

Definition findOne (id : Z) (user : option User) : M LyricDto :=
  lyric ← LyricsService.findOne id;
  mret (forCaller lyric user).

Definition update_lyric (id : Z) (updateLyricsDto : UpdateLyricsDto) (user : User) : M AdminLyricDto :=
  lyric ← update id updateLyricsDto (Some (u_id user));
  mret (AdminLyricDto_from lyric).

Definition remove_lyric (id : Z) : M unit := remove id.
Definition clearCache : M unit := invalidateCache.
Definition cacheStats : M CacheStats := getCacheStats.
End handlers.
End LyricsController.

(** ** What a player may ask *)

Inductive lyric_request :=
  | ListLyrics (genre decade : option string)
  | OneLyric (id : Z).

Section requests.
Context {loader : Loader}.

Definition answer (user : option User) (r : lyric_request) : M LyricsDb (list LyricDto) :=
  match r with
  | ListLyrics genre decade => LyricsController.findAll user genre decade
  | OneLyric id => lyric ← LyricsController.findOne id user; mret [lyric]
  end.

Definition later (ms : nat) (d : LyricsDb) : LyricsDb := d <| clock := clock d + Z.of_nat ms |>.

(** The answers to requests, each made some time after the one before. *)
Fixpoint answers (user : option User) (rs : list (nat * lyric_request)) (d : LyricsDb) : list (result (list LyricDto)) :=
  match rs with
  | [] => []
  | (ms, r) :: rs => let '(a, d') := answer user r (later ms d) in a :: answers user rs d'
  end.
Definition duration (rs : list (nat * lyric_request)) : Z := foldr (λ r t, Z.of_nat r.1 + t) 0 rs.
End requests.

(** ** Tables that differ in the answers only *)

(** What anyone may know of a lyric.  Its artist, title, text and aliases, its source, its difficulty, who added it and
    when, and how often it was used are not part of it. *)
Record PublicPart := mkPublic {
  pub_id : Z;
  pub_lyricSnippet : string;
  pub_genre : string;
  pub_decade : string;
  pub_category : option string;
  pub_isActive : bool;
}.
Definition public (r : LyricRow) : PublicPart :=
  let l := lr_lyrics r in
  mkPublic (ly_id l) (ly_lyricSnippet l) (ly_genre l) (ly_decade l) (ly_category l) (ly_isActive l).
Definition same_public (d1 d2 : LyricsDb) : Prop := public <$> lyrics d1 = public <$> lyrics d2.
#[export] Instance same_public_equiv : Equivalence same_public.
Proof. split; unfold same_public; congruence. Qed.

(** The version of the cache's keys is there for a time to come. *)
Definition alive_for (ms : Z) (d : LyricsDb) : Prop := alive (d <| clock := clock d + ms |>).

Lemma alive_later ms ms' d d' : cache d' !! LYRICS_NAMESPACE_KEY = cache d !! LYRICS_NAMESPACE_KEY → clock d' + ms' ≤ clock d + ms →
  alive_for ms d → alive_for ms' d'.
Proof. unfold alive_for, alive. cbn. intros ->. destruct (cache d !! _) as [[??]|]; [lia|done]. Qed.
Lemma alive_for_0 d : alive_for 0 d ↔ alive d.
Proof. unfold alive_for, alive. cbn. destruct (cache d !! _) as [[??]|]; [|done]. by rewrite Z.add_0_r. Qed.

Lemma filter_fmap {A B} (f : A → B) (p : A → bool) (q : B → bool) l : (∀ a, p a = q (f a)) → f <$> List.filter p l = List.filter q (f <$> l).
Proof. intros Hp. induction l as [|a l IH]; cbn; [done|]. rewrite Hp. destruct (q (f a)); cbn; by rewrite IH. Qed.

(** Sorting looks at the keys only. *)
Section merge_sort_fmap.
Context {A B} (f : A → B) (R : relation A) (S : relation B) `{!RelDecision R, !RelDecision S} (HRS : ∀ a b, R a b ↔ S (f a) (f b)).

Lemma list_merge_fmap l1 l2 : f <$> list_merge R l1 l2 = list_merge S (f <$> l1) (f <$> l2).
Proof.
  revert l2. induction l1 as [|a l1 IH1]; intros l2; [by destruct l2|]. induction l2 as [|b l2 IH2]; [done|].
  cbn. rewrite (decide_ext (R a b) (S (f a) (f b))) by apply HRS.
  destruct (decide (S (f a) (f b))); cbn; f_equal; [by rewrite IH1|]. exact IH2.
Qed.

Local Definition stack_fmap (st : list (option (list A))) : list (option (list B)) := option_map (map f) <$> st.

Lemma stack_merge_fmap st l : stack_fmap (merge_list_to_stack R st l) = merge_list_to_stack S (stack_fmap st) (f <$> l).
Proof.
  revert l. induction st as [|[l'|] st IH]; intros l; cbn; [done| |done]. f_equal. by rewrite IH, list_merge_fmap.
Qed.
Lemma merge_stack_fmap st : f <$> merge_stack R st = merge_stack S (stack_fmap st).
Proof. induction st as [|[l'|] st IH]; cbn; [done| |done]. by rewrite list_merge_fmap, IH. Qed.

Lemma merge_sort_fmap l : f <$> merge_sort R l = merge_sort S (f <$> l).
Proof.
  unfold merge_sort. assert (∀ st, f <$> merge_sort_aux R st l = merge_sort_aux S (stack_fmap st) (f <$> l)) as H; [|by apply H].
  induction l as [|a l IH]; intros st; cbn; [apply merge_stack_fmap|]. by rewrite IH, stack_merge_fmap.
Qed.
End merge_sort_fmap.

(** What is shown is ordered and selected by what is shown. *)
Definition by_public_id (a b : PublicPart) : Prop := pub_id a ≤ pub_id b.
#[export] Instance by_public_id_dec : RelDecision by_public_id.
Proof. intros a b. unfold by_public_id. apply _. Defined.

Lemma public_rows d : public <$> lyric_rows d = (map_to_list (public <$> lyrics d)).*2.
Proof. unfold lyric_rows. rewrite map_to_list_fmap, <-!list_fmap_compose. by apply list_fmap_ext. Qed.

Lemma findAll_public genre decade limit offset d1 d2 : same_public d1 d2 →
  map public <$> (LyricsService.findAll genre decade limit offset d1).1 = map public <$> (LyricsService.findAll genre decade limit offset d2).1.
Proof.
  intros Hd. unfold LyricsService.findAll. rewrite !bind_throw_if.
  destruct (match present genre with Some _ => _ | None => _ end); [done|].
  destruct (match normalizeDecade <$> present decade with Some _ => _ | None => _ end); [done|]. unfold gets. cbn [fst fmap result_fmap]. f_equal.
  set (p := listed _ _).
  set (q := λ a : PublicPart, match present genre with Some g => pub_genre a == g | None => true end &&
    match normalizeDecade <$> present decade with Some s => pub_decade a == s | None => true end && pub_isActive a).
  change (map public) with (fmap (M := list) public). rewrite !fmap_take, !fmap_drop, !(merge_sort_fmap public by_id by_public_id) by done.
  rewrite !(filter_fmap public p q) by done. by rewrite !public_rows, Hd.
Qed.

Lemma findAll_reads genre decade limit offset d : (LyricsService.findAll genre decade limit offset d).2 = d.
Proof. unfold LyricsService.findAll. rewrite !bind_throw_if. by repeat case_match. Qed.

(** What a request leaves as it was: all but cached lyrics. *)
Definition only_cached (d d' : LyricsDb) : Prop :=
  lyrics d' = lyrics d ∧ clock d' = clock d ∧ cache d' !! LYRICS_NAMESPACE_KEY = cache d !! LYRICS_NAMESPACE_KEY.

Section unseen.
Context {loader : Loader}.

Lemma findOne_only_cached id d : alive d → only_cached d (LyricsService.findOne id d).2.
Proof.
  intros Ha. unfold LyricsService.findOne. rewrite bind_throw_if. destruct (Z.leb_spec id 0) as [|Hid]; [done|].
  rewrite (bind_run _ _ _ _ _ (version_alive d Ha)). set (key := namespacedKey _ _).
  assert ((∃ row, live d key = Some (CachedLyric row)) ∨ ∀ row, live d key ≠ Some (CachedLyric row)) as [[row Hl]|Hl].
  { destruct (live d key) as [[n|row]|]; [by right|left; by eexists|by right]. }
  - by rewrite (getOrLoad_hit _ _ _ _ _ Hl).
  - pose proof (getOrLoad_load key lyricsTtlMs (load_active id) d Hl) as Hspec. rewrite load_active_run in Hspec by done.
    destruct (current id d) as [row|e]; [|by rewrite Hspec]. destruct Hspec as [[] ->]; [|done].
    split; [done|]. split; [done|]. apply lookup_insert_ne, namespacedKey_ns.
Qed.

Lemma current_public id d1 d2 : same_public d1 d2 → public <$> current id d1 = public <$> current id d2.
Proof.
  intros Hd. unfold current. destruct (id <=? 0); [done|].
  assert (public <$> lyrics d1 !! id = public <$> lyrics d2 !! id) as Hi by (rewrite <-!lookup_fmap; by rewrite Hd).
  destruct (lyrics d1 !! id) as [r1|], (lyrics d2 !! id) as [r2|]; try done.
  assert (public r1 = public r2) as Hr by exact (inj Some _ _ Hi). pose proof (f_equal pub_isActive Hr) as Ha. cbn in Ha.
  rewrite Ha. destruct (ly_isActive (lr_lyrics r2)); [|done]. exact (f_equal Ok Hr).
Qed.

Definition is_player (user : option User) : Prop := u_role <$> user ≠ Some Admin.

(** A player is shown the public part, and nothing else. *)
Definition shown (p : PublicPart) : LyricDto :=
  AsPlayer (mkPlayerLyric (pub_id p) (pub_lyricSnippet p) (pub_genre p) (pub_decade p) (pub_category p)).

Lemma forCaller_player lyric user : is_player user → forCaller lyric user = shown (public lyric).
Proof. unfold is_player, forCaller. intros H. by rewrite bool_decide_false. Qed.

Lemma for_all_player rows user : is_player user → LyricsController.for_all user rows = shown <$> map public rows.
Proof.
  intros H. unfold LyricsController.for_all. change (map public) with (fmap (M := list) public). rewrite <-list_fmap_compose.
  apply list_fmap_ext. intros ? row _. by apply forCaller_player.
Qed.

Lemma answer_only_cached user r d : cache_ok d → alive d → only_cached d (answer user r d).2 ∧ cache_ok (answer user r d).2.
Proof.
  intros Hok Ha. destruct r as [genre decade|id]; cbn [answer].
  - unfold LyricsController.findAll. pose proof (findAll_reads genre (normalizeDecade <$> present decade) (Z.to_nat MAX_PAGE_SIZE) 0 d) as H.
    destruct (LyricsService.findAll _ _ _ _ d) as [[rows|e] d'] eqn:E; cbn in H; subst.
    + by rewrite (bind_run _ _ _ _ _ E).
    + by rewrite (bind_run_err _ _ _ _ _ E).
  - unfold LyricsController.findOne. pose proof (findOne_only_cached id d Ha) as Hf.
    destruct (findOne_ok id d Hok Ha) as (d' & E & Hok'). rewrite E in Hf. cbn in Hf. rewrite bind_assoc. destruct (current id d).
    + by rewrite (bind_run _ _ _ _ _ E).
    + by rewrite (bind_run_err _ _ _ _ _ E).
Qed.

Lemma answer_public user r d1 d2 : is_player user → same_public d1 d2 → cache_ok d1 → alive d1 → cache_ok d2 → alive d2 →
  (answer user r d1).1 = (answer user r d2).1.
Proof.
  intros Hu Hd Hok1 Ha1 Hok2 Ha2. destruct r as [genre decade|id]; cbn [answer].
  - unfold LyricsController.findAll. pose proof (findAll_public genre (normalizeDecade <$> present decade) (Z.to_nat MAX_PAGE_SIZE) 0 d1 d2 Hd) as H.
    unfold mbind, M_bind, mret, M_ret. repeat case_match; cbn in *; simplify_eq; try done. f_equal. rewrite !for_all_player by done. congruence.
  - unfold LyricsController.findOne. destruct (findOne_ok id d1 Hok1 Ha1) as (d1' & E1 & _), (findOne_ok id d2 Hok2 Ha2) as (d2' & E2 & _).
    pose proof (current_public id d1 d2 Hd) as H. rewrite !bind_assoc.
    destruct (current id d1) as [r1|], (current id d2) as [r2|]; try done.
    + rewrite (bind_run _ _ _ _ _ E1), (bind_run _ _ _ _ _ E2). rewrite !bind_ret. cbn [fst mret M_ret]. rewrite !forCaller_player by done.
      assert (public r1 = public r2) as -> by exact (f_equal (λ x, match x with Ok p => p | Err _ => public r1 end) H). done.
    + rewrite (bind_run_err _ _ _ _ _ E1), (bind_run_err _ _ _ _ _ E2). injection H as ->. done.
Qed.

(** One request, some time later. *)
Lemma answer_step user ms r rs d : cache_ok d → alive_for (duration ((ms, r) :: rs)) d →
  let d' := later ms d in
  cache_ok d' ∧ alive d' ∧ cache_ok (answer user r d').2 ∧ alive_for (duration rs) (answer user r d').2 ∧ lyrics (answer user r d').2 = lyrics d.
Proof.
  intros Hok Ha. change (duration ((ms, r) :: rs)) with (Z.of_nat ms + duration rs) in Ha. cbn zeta. set (d' := later ms d).
  assert (cache_ok d') as Hok' by (apply (cache_ok_later d); try done; cbn; lia).
  assert (0 ≤ duration rs) as Hpos by (clear; unfold duration; induction rs; cbn; lia).
  assert (alive d') as Ha' by (apply alive_for_0, (alive_later (Z.of_nat ms + duration rs) 0 d d'); [done|cbn; lia|done]).
  destruct (answer_only_cached user r d' Hok' Ha') as [(Hl & Ht & Hv) Hok2]. split_and!; [done..| |by rewrite Hl].
  apply (alive_later (Z.of_nat ms + duration rs) _ d); [by rewrite Hv|rewrite Ht; cbn; lia|done].
Qed.

(** C33. The public endpoints tell a player nothing of the answers: no series of requests for lists and lyrics, spread over
    any time in which the cache's version lives, is answered differently from two tables that differ in artists, titles,
    texts, aliases, sources or difficulties only, whatever either has cached. *)
Theorem players_see_no_answers user rs d1 d2 : is_player user → same_public d1 d2 →
  cache_ok d1 → alive_for (duration rs) d1 → cache_ok d2 → alive_for (duration rs) d2 →
  answers user rs d1 = answers user rs d2.
Proof.
  intros Hu. revert d1 d2. induction rs as [|[ms r] rs IH]; intros d1 d2 Hd Hok1 Ha1 Hok2 Ha2; [done|]. cbn [answers].
  destruct (answer_step user ms r rs d1 Hok1 Ha1) as (Hok1' & Ha1' & Hok1'' & Ha1'' & Hl1).
  destruct (answer_step user ms r rs d2 Hok2 Ha2) as (Hok2' & Ha2' & Hok2'' & Ha2'' & Hl2).
  pose proof (answer_public user r (later ms d1) (later ms d2) Hu Hd Hok1' Ha1' Hok2' Ha2') as Heq.
  destruct (answer user r (later ms d1)) as [a1 d1'], (answer user r (later ms d2)) as [a2 d2'].
  cbn in *. subst a2. f_equal. apply IH; try done. unfold same_public. by rewrite Hl1, Hl2.
Qed.
End unseen.

(** The controller writes the decade the way it is stored before the service does the same again: of a year before
    2200, that changes nothing. *)
Theorem findAll_decade user genre y d : 0 ≤ y < 2200 →
  LyricsController.findAll user genre (Some (show y)) d =
  (lyrics ← LyricsService.findAll genre (Some (show y)) (Z.to_nat MAX_PAGE_SIZE) 0; mret (LyricsController.for_all user lyrics)) d.
Proof.
  intros Hy. unfold LyricsController.findAll.
  assert (normalizeDecade (normalizeDecade (show y)) = normalizeDecade (show y)) as Htwice.
  { apply String.eqb_eq. check_all (Z.to_nat 2200) y. vm_compute. reflexivity. }
  assert (∀ s, nonempty s = true → present (Some s) = Some s) as Hp by (intros s Hs; cbn; by rewrite Hs).
  assert (nonempty (show y) = true) as Hs.
  { unfold show. destruct (Z.ltb_spec y 0); [lia|]. apply nonempty_show_nat. lia. }
  rewrite (Hp _ Hs). cbn [fmap option_fmap option_map]. apply bind_ext; [|done].
  unfold LyricsService.findAll. rewrite (Hp _ Hs), Hp by (pose proof (normalizeDecade_nonempty (show y)); by destruct (normalizeDecade (show y))).
  cbn [fmap option_fmap option_map]. by rewrite Htwice.
Qed.

(** ** GameController *)

Record RandomLyricOptionsDto := mkLyricOptions {
  q_category : option string;
  q_decade : option string;
  q_genre : option string;
  q_excludeIds : list Z;
  q_sessionId : option string;
  q_ignorePreferences : option bool;
  q_difficulty : option Z;
}.

(** What the service is asked for: the options without the session, and what the player prefers. *)
Record LyricQuery := mkQuery {
  lq_category : option string;
  lq_decade : option string;
  lq_genre : option string;
  lq_excludeIds : list Z;
  lq_ignorePreferences : option bool;
  lq_difficulty : option Z;
  lq_preferredGenre : option string;
  lq_preferredDecade : option string;
  lq_userId : option string;
}.

Record Player := mkPlayer {
  pr_id : string;
  pr_preferredGenre : option string;
  pr_preferredDecade : option string;
}.

Record GameLyricResponse := mkGameLyric {
  g_roundId : string;
  g_issuedAt : Z;
  g_expiresAt : Z;
  g_answerWindowSeconds : Z;
  g_lyric : PlayerLyricDto;
}.

Record GuessResultResponse := mkGuessResponse {
  gs_isCorrect : bool;
  gs_correctAnswer : string;
  gs_explanation : string;
  gs_points : Z;
  gs_speedBonus : Z;
  gs_timedOut : bool;
  gs_hintsUsed : Z;
}.

(** What the controller calls of [GameLogicService] and its source does not contain. [validateGuess] gives the reason a guess is
    not valid for. *)
Class GameRest (Sess : Type) := {
  RoundHintResponse : Type;
  getRandomLyric : LyricQuery → M (RoundsDb Sess) LyricRow;
  getMultipleRandomLyrics : Z → LyricQuery → M (RoundsDb Sess) (list LyricRow);
  issueRounds : string → list Z → option string → M (RoundsDb Sess) (list GameRound);
  validateGuess : string → option string;
  useHint : string → string → M (RoundsDb Sess) RoundHintResponse;
}.

Definition lyric_id (lyric : LyricRow) : Z := ly_id (lr_lyrics lyric).

Module GameController.
Section handlers.
Context {Sess : Type} `{!RoundDeps Sess} `{!GameRest Sess}.
Local Abbreviation M := (M (RoundsDb Sess)).

Definition toLyricGenre (value : option string) : option string :=
  value ← present value;
  if isGenre value then Some value else None.

Definition query_of (options : RandomLyricOptionsDto) (user : Player) (userId : option string) : LyricQuery :=
  mkQuery (q_category options) (q_decade options) (q_genre options) (q_excludeIds options) (q_ignorePreferences options) (q_difficulty options)
    (toLyricGenre (pr_preferredGenre user)) (pr_preferredDecade user) userId.

Definition response (round : GameRound) (lyric : LyricRow) : GameLyricResponse :=
  mkGameLyric (r_id round) (r_issuedAt round) (r_expiresAt round) (r_answerWindowSeconds round) (PlayerLyricDto_from lyric).

Definition getRandomLyric (options : RandomLyricOptionsDto) (user : Player) : M GameLyricResponse :=
  lyric ← Endpoints.getRandomLyric (query_of options user None);
  round ← issueRound (pr_id user) (lyric_id lyric) (q_sessionId options);
  mret (response round lyric).

(** [lyrics.map((lyric, index) => ...rounds[index]...)] *)
Fixpoint responses (lyrics : list LyricRow) (rounds : list GameRound) : result (list GameLyricResponse) :=
  match lyrics, rounds with
  | [], _ => Ok []
  | _ :: _, [] => Err (PlainError "TypeError" "Cannot read properties of undefined (reading 'id')")
  | lyric :: lyrics, round :: rounds => rest ← responses lyrics rounds; mret (response round lyric :: rest)
  end.

Definition getMultipleRandomLyrics (options : RandomLyricOptionsDto) (count : Z) (user : Player) : M (list GameLyricResponse) :=
  throw_if (20 <? count) (BadRequest "Cannot request more than 20 lyrics at once");;
  lyrics ← Endpoints.getMultipleRandomLyrics count (query_of options user (Some (pr_id user)));
  rounds ← issueRounds (pr_id user) (lyric_id <$> lyrics) (q_sessionId options);
  lift (responses lyrics rounds).

Definition result_response (result : GuessResult) : GuessResultResponse :=
  mkGuessResponse (isCorrect result) (correctAnswer result) (default "" (explanation result)) (default 0 (gr_points result))
    (default 0 (gr_speedBonus result)) (default false (gr_timedOut result)) (default 0 (gr_hintsUsed result)).

Definition checkGuess (guessDto : RoundGuessDto) (user : string) : M GuessResultResponse :=
  match validateGuess (dto_guessValue guessDto) with Some reason => throw (BadRequest reason) | None => mret tt end;;
  result ← guessRound user guessDto;
  mret (result_response result).

Definition useHint (roundId user : string) : M RoundHintResponse := Endpoints.useHint user roundId.
End handlers.
End GameController.

(** *** Serving *)

Section serving.
Context {Sess : Type} `{!RoundDeps Sess} `{!GameRest Sess}.
Local Abbreviation Store := (RoundsDb Sess).

(** Choosing a lyric issues no round and takes no time. *)
Definition same_rounds (d d' : Store) : Prop := rounds d' = rounds d ∧ time d' = time d ∧ drawn d' = drawn d.
Class GameRestLaws := {
  getRandomLyric_chooses q d : same_rounds d (Endpoints.getRandomLyric q d).2;
  uuid_inj n m : uuid n = uuid m → n = m;
}.

(** Rounds are kept by their ids, which were all drawn. *)
Definition rounds_ok (d : Store) : Prop :=
  ∀ id r, rounds d !! id = Some r → r_id r = id ∧ ∃ n, (n < drawn d)%nat ∧ id = uuid n.

Definition new_round (userId : string) (lyricId : Z) (sessionId : option string) (d : Store) : GameRound :=
  mkRound (uuid (drawn d)) userId lyricId (time d) (time d + ROUND_TIMEOUT_SECONDS * 1000) answerWindowSeconds 0 sessionId None.

Lemma touch_session_of_rounds sessionId (d : Store) : same_rounds d (touch_session_of sessionId d).2.
Proof.
  unfold touch_session_of. destruct sessionId as [s|]; [|done]. destruct (nonempty s); [|done].
  unfold touch. rewrite bind_gets. by destruct (touchSession s (sessions d)).
Qed.

Lemma issueRound_run userId lyricId sessionId (d : Store) :
  let round := new_round userId lyricId sessionId d in
  match issueRound userId lyricId sessionId d with
  | (Ok r, d') => r = round ∧ rounds d' = <[r_id round := round]> (rounds d) ∧ time d' = time d ∧ drawn d' = S (drawn d)
  | (Err _, d') => d' = d ∨ rounds d' = <[r_id round := round]> (rounds d) ∧ time d' = time d ∧ drawn d' = S (drawn d)
  end.
Proof.
  cbn zeta. unfold issueRound. set (check := match sessionId with Some _ => _ | None => _ end).
  assert (check d = (Ok tt, d) ∨ ∃ e, check d = (Err e, d)) as [E|[e E]].
  { subst check. destruct sessionId as [s|]; [|by left]. destruct (nonempty s); [|by left]. rewrite bind_gets.
    destruct (assertActiveParticipant userId s (sessions d)) as [[]|e]; [by left|right; by exists e]. }
  - rewrite (bind_run _ _ _ _ _ E), !bind_gets, bind_modify. set (d1 := _ <| drawn := _ |>).
    pose proof (touch_session_of_rounds sessionId d1) as (Hr & Ht & Hn).
    destruct (touch_session_of sessionId d1) as [[[]|e] d2] eqn:Et; cbn [snd] in Hr, Ht, Hn.
    + rewrite (bind_run _ _ _ _ _ Et). unfold emit. rewrite bind_modify. cbn. rewrite Hr, Ht, Hn. done.
    + rewrite (bind_run_err _ _ _ _ _ Et), Hr, Ht, Hn. by right.
  - rewrite (bind_run_err _ _ _ _ _ E). by left.
Qed.

(** Every lyric that is served comes with a round of its own: new, open for two minutes, for that lyric and that player; and of
    the lyric it is served with what players may see.  *)
Theorem served_with_round `{!GameRestLaws} options user (d : Store) resp d' : rounds_ok d →
  GameController.getRandomLyric options user d = (Ok resp, d') →
  rounds d !! g_roundId resp = None ∧ g_expiresAt resp = time d + 120000 ∧ time d' = time d ∧ rounds_ok d' ∧
  ∃ lyric round, (Endpoints.getRandomLyric (GameController.query_of options user None) d).1 = Ok lyric ∧ g_lyric resp = PlayerLyricDto_from lyric ∧
    rounds d' = <[g_roundId resp := round]> (rounds d) ∧ r_userId round = pr_id user ∧ r_lyricId round = lyric_id lyric ∧ r_closedAt round = None ∧
    r_id round = g_roundId resp ∧ r_expiresAt round = g_expiresAt resp ∧ r_sessionId round = q_sessionId options.
Proof.
  intros Hok. unfold GameController.getRandomLyric. pose proof (getRandomLyric_chooses (GameController.query_of options user None) d) as (Hr & Ht & Hn).
  destruct (Endpoints.getRandomLyric _ d) as [[lyric|e] d1] eqn:E; [|by rewrite (bind_run_err _ _ _ _ _ E)].
  rewrite (bind_run _ _ _ _ _ E). cbn [snd] in *. pose proof (issueRound_run (pr_id user) (lyric_id lyric) (q_sessionId options) d1) as Hi. cbn zeta in Hi.
  destruct (issueRound _ _ _ d1) as [[round|e] d2] eqn:E2; [|by rewrite (bind_run_err _ _ _ _ _ E2)].
  rewrite (bind_run _ _ _ _ _ E2). intros [= <- <-]. destruct Hi as (-> & Hr2 & Ht2 & Hn2). cbn.
  rewrite Hr in Hr2. cbn in Hr2. rewrite Hn, Ht in *. split_and!.
  - destruct (rounds d !! uuid (drawn d)) as [r|] eqn:Er; [|done]. destruct (Hok _ _ Er) as (_ & n & Hlt & Heq%uuid_inj). lia.
  - unfold ROUND_TIMEOUT_SECONDS. lia.
  - congruence.
  - intros id r. rewrite Hr2, Hn2. intros [[<- <-]|[_ Hin]]%lookup_insert_Some.
    + cbn. rewrite Hn. split; [done|]. exists (drawn d). split; [lia|done].
    + destruct (Hok id r Hin) as (Hid & n & Hlt & ->). split; [done|]. exists n. split; [lia|done].
  - exists lyric, (new_round (pr_id user) (lyric_id lyric) (q_sessionId options) d1). cbn. rewrite Hn, Ht. by rewrite Hr2.
Qed.

(** Of many lyrics that are served, each comes with the round issued for it; more than twenty are refused before anything is done. *)
Theorem batch_paired options count user (d : Store) : match GameController.getMultipleRandomLyrics options count user d with
  | (Ok resps, _) => count ≤ 20 ∧ ∃ lyrics d1 rounds d2,
      Endpoints.getMultipleRandomLyrics count (GameController.query_of options user (Some (pr_id user))) d = (Ok lyrics, d1) ∧
      issueRounds (pr_id user) (lyric_id <$> lyrics) (q_sessionId options) d1 = (Ok rounds, d2) ∧
      length resps = length lyrics ∧ resps = zip_with GameController.response rounds lyrics
  | (Err e, d') => count ≤ 20 ∨ e = BadRequest "Cannot request more than 20 lyrics at once" ∧ d' = d
  end.
Proof.
  unfold GameController.getMultipleRandomLyrics. rewrite bind_throw_if. destruct (Z.ltb_spec 20 count); [by right|].
  destruct (Endpoints.getMultipleRandomLyrics _ _ d) as [[lyrics|e] d1] eqn:E; [|rewrite (bind_run_err _ _ _ _ _ E); by left].
  rewrite (bind_run _ _ _ _ _ E). destruct (issueRounds (pr_id user) (lyric_id <$> lyrics) (q_sessionId options) d1) as [[rounds|e] d2] eqn:E2; [|rewrite (bind_run_err _ _ _ _ _ E2); by left].
  rewrite (bind_run _ _ _ _ _ E2). unfold lift. destruct (GameController.responses lyrics rounds) as [resps|e] eqn:Er; [|by left].
  split; [done|]. exists lyrics, d1, rounds, d2. do 2 (split; [done|]). clear E E2 H.
  revert rounds resps Er. induction lyrics as [|lyric lyrics IH]; intros [|round rounds] resps; cbn; try by intros [= <-].
  destruct (GameController.responses lyrics rounds) as [rest|e] eqn:E; [|done]. intros [= <-]. cbn.
  by destruct (IH _ _ E) as [<- <-].
Qed.

(** *** Guessing *)

Definition keys_ok (d : Store) : Prop := ∀ id r, rounds d !! id = Some r → r_id r = id.
Lemma rounds_ok_keys d : rounds_ok d → keys_ok d.
Proof. intros H id r Hr. by destruct (H id r Hr). Qed.

Lemma checkGuess_run dto user (d : Store) :
  GameController.checkGuess dto user d = match validateGuess (dto_guessValue dto) with
  | Some reason => (Err (BadRequest reason), d)
  | None => (GameController.result_response <$> (guessRound user dto d).1, (guessRound user dto d).2)
  end.
Proof.
  unfold GameController.checkGuess. destruct (validateGuess _) as [reason|]; [done|]. rewrite bind_ret.
  destruct (guessRound user dto d) as [[result|e] d'] eqn:E; [by rewrite (bind_run _ _ _ _ _ E)|by rewrite (bind_run_err _ _ _ _ _ E)].
Qed.


Lemma checkGuess_closes dto user (d : Store) : keys_ok d → let '(res, d') := GameController.checkGuess dto user d in
  keys_ok d' ∧ (∀ id, is_closed id d = true → is_closed id d' = true) ∧
  (is_ok res = true → is_closed (dto_roundId dto) d = false ∧ is_closed (dto_roundId dto) d' = true).
Proof.
  intros Hk. rewrite checkGuess_run. destruct (validateGuess _); [done|]. pose proof (guessRound_outcome user dto d Hk) as H.
  destruct (guessRound user dto d) as [res d']. cbn [fst snd].
  assert (res = Err (NotFound "Round not found") ∧ d' = d ∨ res = Err already_guessed ∧ d' = d ∨
    ∃ round, rounds d !! dto_roundId dto = Some round ∧ r_closedAt round = None ∧ rounds d' = closed_now round d) as [[-> ->]|[[-> ->]|(round & Hr & Ho & Hd)]].
  { destruct (rounds d !! dto_roundId dto) as [round|]; [|by left]. destruct (negb _); [by left|].
    case_bool_decide as Hc; [by right; left|]. right. right. exists round. destruct H as [H _]. split; [done|]. split; [|done].
    destruct (r_closedAt round); [by destruct Hc|done]. }
  1, 2: done.
  pose proof (Hk _ _ Hr) as Hid. unfold is_closed, closed_now in *. rewrite Hd, Hid, Hr, Ho, lookup_insert_eq. split_and!.
  - intros id r. rewrite Hd, Hid. intros [[<- <-]|[_ Hin]]%lookup_insert_Some; [done|by apply Hk].
  - intros id. destruct (decide (id = dto_roundId dto)) as [->|Hne]; [by rewrite lookup_insert_eq|by rewrite lookup_insert_ne by done].
  - done.
Qed.

Definition pass (ms : nat) (d : Store) : Store := d <| time := time d + Z.of_nat ms |>.

(** Guesses of any players, one after the other, each some time after the one before. *)
Fixpoint guesses (gs : list (nat * (string * RoundGuessDto))) (d : Store) : list (string * result GuessResultResponse) :=
  match gs with
  | [] => []
  | (ms, (user, dto)) :: gs =>
      let '(res, d') := GameController.checkGuess dto user (pass ms d) in (dto_roundId dto, res) :: guesses gs d'
  end.
Definition told (id : string) (rs : list (string * result GuessResultResponse)) : nat :=
  length (List.filter (λ r : string * result GuessResultResponse, (r.1 == id) && is_ok r.2) rs).

(** The endpoint tells the answer of a round once: whoever guesses whatever and whenever, a round that is open is answered for
    one guess at most, and one that is closed, for none. *)
Theorem told_once gs (d : Store) id : keys_ok d → (told id (guesses gs d) ≤ if is_closed id d then 0 else 1)%nat.
Proof.
  revert d. induction gs as [|[ms [user dto]] gs IH]; intros d Hk; cbn [guesses]; [cbn; lia|].
  pose proof (checkGuess_closes dto user (pass ms d) Hk) as H. destruct (GameController.checkGuess _ _ _) as [res d'].
  destruct H as (Hk' & Hmono & Hok). specialize (Hmono id). specialize (IH d' Hk').
  change (is_closed id d = true → is_closed id d' = true) in Hmono.
  change (is_ok res = true → is_closed (dto_roundId dto) d = false ∧ is_closed (dto_roundId dto) d' = true) in Hok.
  unfold told in *. cbn [List.filter fst snd]. case_bool_decide as Heq; cbn [andb].
  - subst id. destruct (is_ok res); cbn [length].
    + destruct (Hok eq_refl) as [-> Hc]. rewrite Hc in IH. lia.
    + destruct (is_closed _ d); [by rewrite Hmono in IH|]. destruct (is_closed _ d'); lia.
  - destruct (is_closed id d); [by rewrite Hmono in IH|]. destruct (is_closed id d'); lia.
Qed.
End serving.

(** A genre is recognised whatever its case and the space around it, and only then; a preference that is no genre of lyrics is
    not asked for. *)
Theorem toGenre_recognises value :
  (isGenre (toGenre value) = true ↔ ∃ g, g ∈ Genre ∧ lower g = lower (trim value)) ∧
  (∀ g, g ∈ Genre → lower g = lower (trim value) → toGenre value = g) ∧
  (∀ g, GameController.toLyricGenre (Some value) = Some g → g ∈ Genre ∧ g = value).
Proof.
  assert (∀ g g', g ∈ Genre → g' ∈ Genre → lower g = lower g' → g = g') as Hinj.
  { intros g g' Hg Hg'. unfold Genre in Hg, Hg'. repeat (apply elem_of_cons in Hg as [->|Hg]; [|]); [..|by apply elem_of_nil in Hg].
    all: repeat (apply elem_of_cons in Hg' as [->|Hg']; [|]); [..|by apply elem_of_nil in Hg']. all: vm_compute; congruence. }
  assert (∀ g, g ∈ Genre → lower g = lower (trim value) → toGenre value = g) as Hfind.
  { intros g Hg Hl. unfold toGenre. destruct (List.find _ Genre) as [g'|] eqn:E; cbn.
    - apply List.find_some in E as [Hg' Hl'%bool_decide_eq_true]. apply Hinj; [by apply list_elem_of_In|done|congruence].
    - apply list_elem_of_In in Hg. by pose proof (List.find_none _ _ E _ Hg) as Hn%bool_decide_eq_false. }
  split; [split|split; [done|]].
  - unfold isGenre. rewrite bool_decide_eq_true. unfold toGenre. destruct (List.find _ Genre) as [g|] eqn:E; cbn.
    + intros Hg. apply List.find_some in E as [_ Hl%bool_decide_eq_true]. eauto.
    + intros Hg. eauto.
  - intros (g & Hg & Hl). rewrite (Hfind g Hg Hl). by apply bool_decide_eq_true.
  - intros g. unfold GameController.toLyricGenre. cbn. destruct (nonempty value); [|done]. cbn. unfold isGenre.
    case_bool_decide; [|done]. by intros [= <-].
Qed.

(** ** A small catalogue *)
Module EndpointsDemo.
#[local] Existing Instance LyricsDemo.keep_all.

Definition player : User := new_user "ada" "ada@x" "ada" "h".
Definition admin : User := player <| u_role := Admin |>.

(** The two lyrics of a catalogue, and the same with other answers. *)
Definition table : LyricsDb := mkLyricsDb (lyrics LyricsDemo.d1) 3 ∅ 0 0.
Definition scrambled (r : LyricRow) : LyricRow :=
  r <| lr_lyrics := lr_lyrics r <| ly_artist := "?" |> <| ly_songTitle := "?" |> <| ly_source := "?" |> |> <| lr_content := Some "?" |>.
Definition scramble (d : LyricsDb) : LyricsDb := d <| lyrics := scrambled <$> lyrics d |>.
Definition other : LyricsDb := scramble table.
Lemma scramble_same d : same_public d (scramble d).
Proof. unfold same_public, scramble. cbn. rewrite <-map_fmap_compose. symmetry. by apply map_fmap_ext. Qed.
Definition asked : list (nat * lyric_request) :=
  [(0%nat, ListLyrics (Some "Pop") (Some "1995")); (10%nat, OneLyric 2); (1000%nat, OneLyric 1); (0%nat, OneLyric 0)].

Lemma uncached_ok d : cache d = ∅ → cache_ok d ∧ ∀ ms, alive_for ms d.
Proof.
  intros Hc. unfold cache_ok, bounded, stored_version, alive_for, alive. cbn. rewrite Hc. split; [|done]. split; [split; [done|]|].
  - intros v id row e _ H. by rewrite lookup_empty in H.
  - intros id row e H. by rewrite lookup_empty in H.
Qed.

Lemma players_see_no_answers_witness : answers (Some player) asked table = answers (Some player) asked other.
Proof.
  apply players_see_no_answers.
  - discriminate.
  - apply scramble_same.
  - apply uncached_ok. reflexivity.
  - apply uncached_ok. reflexivity.
  - apply uncached_ok. reflexivity.
  - apply uncached_ok. reflexivity.
Defined.

(** The answers are not all errors, and an administrator does tell the tables apart. *)
Example players_see_lyrics : is_ok <$> answers (Some player) asked table = [true; true; false; false].
Proof. vm_compute. reflexivity. Qed.
Example admins_see_answers : answers (Some admin) asked table ≠ answers (Some admin) asked other.
Proof. vm_compute. discriminate. Qed.

(** A year of five digits is normalised twice, to another decade than the one asked for. *)
Example five_digits : normalizeDecade "19905" = "19900s" ∧ normalizeDecade (normalizeDecade "19905") = "1990s".
Proof. vm_compute. split; reflexivity. Qed.

Lemma findAll_decade_witness : LyricsController.findAll None None (Some (show 1995)) table =
  (lyrics ← LyricsService.findAll None (Some (show 1995)) (Z.to_nat MAX_PAGE_SIZE) 0; mret (LyricsController.for_all None lyrics)) table.
Proof. apply findAll_decade. lia. Defined.

#[local] Instance demo_rounds : RoundDeps (list string) := {|
  checkGuess id _ value := if id =? 404 then Err (NotFound "Lyric not found")
    else Ok (mkGuess (value == "Queen") "Queen" None (Some (if value == "Queen" then 100 else 0)) None None None);
  assertActiveParticipant user session sess := Ok tt;
  touchSession s sess := Ok (s :: sess);
  config k := None;
  uuid n := show (Z.of_nat n);
|}.

Definition lyric : LyricRow := mkLyricRow (mkLyrics 7 "Queen" [] "Mama" "Bohemian Rhapsody" [] None "Pop" "1970s" 3 true 0 "acme" 0 0) None None None None None.
#[local] Instance demo_rest : GameRest (list string) := {|
  RoundHintResponse := Z;
  getRandomLyric q := mret lyric;
  getMultipleRandomLyrics n q := mret (repeat lyric (Z.to_nat n));
  issueRounds user ids session := λ d, (Ok [], d);
  validateGuess v := if nonempty v then None else Some "empty";
  useHint user id := mret 0;
|}.
#[local] Instance demo_laws : GameRestLaws (Sess := list string).
Proof. split; [done|]. intros n m H%show_inj. lia. Qed.

Definition nobody : RoundsDb (list string) := mkRoundsDb ∅ [] [] [] [] false false 0 0.
Definition options : RandomLyricOptionsDto := mkLyricOptions None None None [] None None None.
Definition ada : Player := mkPlayer "ada" (Some "Jazz") None.
Definition served : GameLyricResponse := mkGameLyric "0" 0 120000 20 (mkPlayerLyric 7 "Mama" "Pop" "1970s" None).
Definition d' : RoundsDb (list string) := (GameController.getRandomLyric options ada nobody).2.

Lemma nobody_ok : rounds_ok nobody.
Proof. intros id r H. cbn in H. by rewrite lookup_empty in H. Qed.

Lemma served_run : GameController.getRandomLyric options ada nobody = (Ok served, d').
Proof. reflexivity. Qed.

Lemma served_with_round_witness : ∃ round, rounds d' = <["0" := round]> (rounds nobody) ∧ r_userId round = "ada" ∧ r_lyricId round = 7.
Proof.
  destruct (served_with_round options ada nobody served d' nobody_ok served_run) as (_ & _ & _ & _ & l & round & E & _ & Hr & Hu & Hl & _).
  exists round. split; [exact Hr|]. split; [exact Hu|]. rewrite Hl. injection E as <-. reflexivity.
Defined.


Lemma told_once_witness : let queen := mkGuessDto "0" "artist" "Queen" in
  told "0" (guesses [(1%nat, ("bob", queen)); (5%nat, ("ada", queen)); (9%nat, ("ada", queen))] d') = 1%nat ∧
  (told "0" (guesses [(1%nat, ("bob", queen)); (5%nat, ("ada", queen)); (9%nat, ("ada", queen))] d') ≤ 1)%nat.
Proof.
  split; [vm_compute; reflexivity|]. apply (told_once _ d' "0"). intros id r H.
  change (rounds d') with ({["0" := mkRound "0" "ada" 7 0 120000 20 0 None None]} : gmap string GameRound) in H.
  apply lookup_singleton_Some in H as [<- <-]. reflexivity.
Defined.

(** When the service issues fewer rounds than lyrics, the request fails as if by a slip. *)
Example too_few_rounds : (GameController.getMultipleRandomLyrics options 2 ada nobody).1 =
  Err (PlainError "TypeError" "Cannot read properties of undefined (reading 'id')").
Proof. reflexivity. Qed.
End EndpointsDemo.
