(* ===== verification/Boot.v ===== *)
(** * Starting the server (src/src/main.ts, src/src/app.setup.ts)

    [bootstrap] is a function of the environment that records the steps it takes on the application, in their order. What other
    packages do in a step is theirs; connecting to Redis, the production safety check (whose file is not in the repository)
    and listening can fail, and are parameters. *)

From S2P Require Import Prelude Number Auth.
From Stdlib Require Import Ascii.

#[local] Open Scope Z_scope.

Definition Environment := string → option string.

(** ** Settings *)

(** A number that is an integer: [Number.isInteger]. *)
Definition integer_of (v : js_number) : option Z :=
  match v with
  | Decimal m e => if 0 <=? e then Some (m * 10 ^ e) else if m mod 10 ^ (- e) =? 0 then Some (m / 10 ^ (- e)) else None
  | NotANumber | Infinity _ => None
  end.

Definition readTimeoutMs (env : Environment) (name : string) (fallback : Z) : result Z :=
  match env name with
  | None => Ok fallback
  | Some raw =>
      if trim raw == "" then Ok fallback
      else match integer_of (number_of raw) with
        | Some value => if value <=? 0 then Err (PlainError "Error" (name +:+ " must be a positive integer (milliseconds), got " +:+ dq +:+ raw +:+ dq)) else Ok value
        | None => Err (PlainError "Error" (name +:+ " must be a positive integer (milliseconds), got " +:+ dq +:+ raw +:+ dq))
        end
  end.

Definition DEFAULT_BODY_LIMIT : string := "100kb".

(** [.split(',').map(trim).filter(length > 0)] *)
Definition origins (urls : string) : list string := List.filter nonempty (trim <$> split_char ","%char urls).

Definition getBodyLimit (env : Environment) (envVar fallback : string) : string :=
  default fallback (present (trim <$> env envVar)).

Definition parseAllowedOrigins (frontendUrl : option string) : list string := origins (default "" frontendUrl).

Definition allowedOrigins (env : Environment) : list string := origins (default "http://localhost:3000" (present (env "FRONTEND_URL"))).

Definition swaggerEnabled (env : Environment) : bool :=
  match env "SWAGGER_ENABLED" with
  | Some v => v == "true"
  | None => negb (bool_decide (env "NODE_ENV" = Some "production"))
  end.

(** How far [X-Forwarded-For] is trusted: a number of hops, or what express reads. *)
Inductive TrustProxy := TrustHops (hops : js_number) | TrustList (addresses : string).
Definition trust_proxy (env : Environment) : option TrustProxy :=
  v ← present (env "TRUST_PROXY");
  Some (match number_of v with NotANumber => TrustList v | hops => TrustHops hops end).

(** ** Steps *)

Inductive boot_step :=
  | UseLogger
  | EnableShutdownHooks
  | UseBodyParser (type limit : string)
  | UseRedisAdapter (url : string)
  | UseHttpMetrics
  | UseValidationPipe (disableErrorMessages : bool)
  | UseClassSerializer
  | UseParser (type limit : string)
  | EnableCors (origin : list string)
  | ConfigureApiRouting
  | SetTrustProxy (trust : TrustProxy)
  | DisablePoweredBy
  | UseHelmet
  | SetupSwagger
  | SetTimeouts (requestTimeout headersTimeout keepAliveTimeout : Z)
  | Listen (port host : string).

Definition is_listen (s : boot_step) : bool := match s with Listen _ _ => true | _ => false end.

Class Platform := {
  connectToRedis : string → result unit;
  runProductionSafetyCheck : Environment → result unit;
  listen : string → string → result unit;
}.

Section bootstrap.
Context {platform : Platform} (env : Environment).
Local Abbreviation M := (M (list boot_step)).

Definition take_step (s : boot_step) : M unit := modify (λ steps, steps ++ [s]).

Definition configureApp : M unit :=
  take_step (UseValidationPipe (bool_decide (env "NODE_ENV" = Some "production")));;
  take_step UseClassSerializer;;
  take_step (UseParser "json" (getBodyLimit env "JSON_BODY_LIMIT" "100kb"));;
  take_step (UseParser "urlencoded" (getBodyLimit env "URLENCODED_BODY_LIMIT" "100kb"));;
  take_step (EnableCors (parseAllowedOrigins (env "FRONTEND_URL"))).

Definition useRedis : M unit :=
  match present (env "REDIS_URL") with
  | Some url => lift (connectToRedis url);; take_step (UseRedisAdapter url)
  | None => mret tt
  end.

Definition setTimeouts : M unit :=
  requestTimeout ← lift (readTimeoutMs env "HTTP_REQUEST_TIMEOUT_MS" 30000);
  headersTimeout ← lift (readTimeoutMs env "HTTP_HEADERS_TIMEOUT_MS" 20000);
  keepAliveTimeout ← lift (readTimeoutMs env "HTTP_KEEP_ALIVE_TIMEOUT_MS" 65000);
  throw_if (requestTimeout <? headersTimeout) (PlainError "Error" "HTTP_HEADERS_TIMEOUT_MS must not exceed HTTP_REQUEST_TIMEOUT_MS");;
  take_step (SetTimeouts requestTimeout headersTimeout keepAliveTimeout).

Definition bootstrap : M unit :=
  take_step UseLogger;;
  take_step EnableShutdownHooks;;
  let bodyLimit := default DEFAULT_BODY_LIMIT (present (env "HTTP_BODY_LIMIT")) in
  take_step (UseBodyParser "json" bodyLimit);;
  take_step (UseBodyParser "urlencoded" bodyLimit);;
  useRedis;;
  take_step UseHttpMetrics;;
  configureApp;;
  take_step ConfigureApiRouting;;
  match trust_proxy env with Some t => take_step (SetTrustProxy t) | None => mret tt end;;
  take_step DisablePoweredBy;;
  take_step UseHelmet;;
  (if swaggerEnabled env then take_step SetupSwagger else mret tt);;
  take_step (EnableCors (allowedOrigins env));;
  setTimeouts;;
  lift (runProductionSafetyCheck env);;
  let port := default "3000" (env "PORT") in
  let host := default "0.0.0.0" (present (env "HOST")) in
  lift (listen port host);;
  take_step (Listen port host).
End bootstrap.

(** *** Times *)

Lemma readTimeoutMs_spec env name fallback : 0 < fallback → match readTimeoutMs env name fallback with
  | Ok v => 0 < v ∧ ((env name = None ∨ ∃ raw, env name = Some raw ∧ trim raw = "") → v = fallback) ∧
      (∀ raw, env name = Some raw → trim raw ≠ "" → integer_of (number_of raw) = Some v)
  | Err _ => ∃ raw, env name = Some raw ∧ trim raw ≠ "" ∧ ∀ v, integer_of (number_of raw) = Some v → v ≤ 0
  end.
Proof.
  intros Hf. unfold readTimeoutMs. destruct (env name) as [raw|]; [|naive_solver]. case_bool_decide as Hb.
  - split; [done|]. naive_solver.
  - destruct (integer_of (number_of raw)) as [v|] eqn:E; [|naive_solver]. destruct (Z.leb_spec v 0) as [H|H]; [naive_solver|].
    split; [done|]. split; [|naive_solver]. intros [?|(r & [= <-] & ?)]; done.
Qed.

(** *** Origins *)

Lemma split_char_app c x s : string_forallb (λ a, negb (a =? c)%char) x = true →
  split_char c (x +:+ String c s) = x :: split_char c s.
Proof.
  induction x as [|a x IH]; intros Hx.
  - change ("" +:+ String c s) with (String c s). cbn -[Ascii.eqb]. by rewrite Ascii.eqb_refl.
  - apply andb_true_iff in Hx as [Ha Hx]. change (String a x +:+ String c s) with (String a (x +:+ String c s)). cbn -[Ascii.eqb].
    destruct (a =? c)%char; [done|]. by rewrite IH.
Qed.
Lemma split_char_none c x : string_forallb (λ a, negb (a =? c)%char) x = true → split_char c x = [x].
Proof.
  induction x as [|a x IH]; intros Hx; [done|]. apply andb_true_iff in Hx as [Ha Hx]. cbn -[Ascii.eqb].
  destruct (a =? c)%char; [done|]. by rewrite IH.
Qed.

Definition origin_ok (o : string) : bool := nonempty o && (trim o == o) && string_forallb (λ a, negb (a =? ",")%char) o.

(** ** Properties *)

(** A list of origins, written with commas, is read back as it is. *)
Theorem origins_read_back os : forallb origin_ok os = true → origins (String.concat "," os) = os.
Proof.
  unfold origins. induction os as [|o os IH]; [done|]. cbn [forallb]. intros [Ho Hos]%andb_true_iff.
  apply andb_true_iff in Ho as [[Hne Ht%bool_decide_eq_true]%andb_true_iff Hc]. specialize (IH Hos).
  assert (List.filter nonempty (trim <$> [o]) = [o]) as H1 by (cbn; by rewrite Ht, Hne).
  destruct os as [|o2 os].
  - cbn [String.concat]. by rewrite split_char_none.
  - change (String.concat "," (o :: o2 :: os)) with (o +:+ String "," (String.concat "," (o2 :: os))).
    rewrite split_char_app by done. cbn [fmap list_fmap List.filter]. unfold fmap in IH. rewrite Ht, Hne. f_equal. exact IH.
Qed.

Section boot_properties.
Context {platform : Platform} (env : Environment).

Definition quiet (steps : list boot_step) : Prop := forallb (λ s, negb (is_listen s)) steps = true.

(** The settings that [SetTimeouts] is given. *)
Definition timeouts_ok (r h k : Z) : Prop :=
  readTimeoutMs env "HTTP_REQUEST_TIMEOUT_MS" 30000 = Ok r ∧ readTimeoutMs env "HTTP_HEADERS_TIMEOUT_MS" 20000 = Ok h ∧
  readTimeoutMs env "HTTP_KEEP_ALIVE_TIMEOUT_MS" 65000 = Ok k ∧ h ≤ r.

Definition connect : result unit := match present (env "REDIS_URL") with Some url => connectToRedis url | None => Ok tt end.

(** What is done before the timeouts are set. *)
Definition prepared : list boot_step :=
  [UseLogger; EnableShutdownHooks; UseBodyParser "json" (default DEFAULT_BODY_LIMIT (present (env "HTTP_BODY_LIMIT")));
    UseBodyParser "urlencoded" (default DEFAULT_BODY_LIMIT (present (env "HTTP_BODY_LIMIT")))] ++
  match present (env "REDIS_URL") with Some url => [UseRedisAdapter url] | None => [] end ++
  [UseHttpMetrics; UseValidationPipe (bool_decide (env "NODE_ENV" = Some "production")); UseClassSerializer;
    UseParser "json" (getBodyLimit env "JSON_BODY_LIMIT" "100kb"); UseParser "urlencoded" (getBodyLimit env "URLENCODED_BODY_LIMIT" "100kb");
    EnableCors (parseAllowedOrigins (env "FRONTEND_URL")); ConfigureApiRouting] ++
  match trust_proxy env with Some t => [SetTrustProxy t] | None => [] end ++
  [DisablePoweredBy; UseHelmet] ++ (if swaggerEnabled env then [SetupSwagger] else []) ++ [EnableCors (allowedOrigins env)].


Lemma take_run {B} st (f : unit → M (list boot_step) B) steps : (take_step st ≫= f) steps = f tt (steps ++ [st]).
Proof. done. Qed.

(** Up to the timeouts: all of it, or nothing that serves. *)
Lemma bootstrap_run : match connect with
  | Err e => ∃ steps, bootstrap env [] = (Err e, steps) ∧ quiet steps
  | Ok _ => bootstrap env [] = (setTimeouts env;; lift (runProductionSafetyCheck env);;
      let port := default "3000" (env "PORT") in let host := default "0.0.0.0" (present (env "HOST")) in
      lift (listen port host);; take_step (Listen port host)) prepared
  end.
Proof.
  unfold bootstrap, connect, prepared, useRedis, configureApp. rewrite !take_run. cbn [app].
  destruct (present (env "REDIS_URL")) as [url|].
  - destruct (connectToRedis url) as [[]|e] eqn:E.
    + rewrite bind_assoc, (bind_lift (Ok tt) tt) by done. rewrite !take_run, !bind_assoc, !take_run.
      destruct (trust_proxy env); destruct (swaggerEnabled env); reflexivity.
    + rewrite bind_assoc, (bind_lift_err (Err e) e) by done. by eexists.
  - destruct (trust_proxy env); destruct (swaggerEnabled env); reflexivity.
Qed.

Lemma prepared_quiet : quiet prepared.
Proof. unfold quiet, prepared. destruct (present (env "REDIS_URL")), (trust_proxy env), (swaggerEnabled env); reflexivity. Qed.

(** The server listens only when everything else is done: filters, parsers, headers, origins and timeouts that are positive, the
    headers' within the request's, and the safety check is passed. What fails on the way, it never listens. *)
Theorem listens_last : match bootstrap env [] with
  | (Ok _, steps) => ∃ r h k port host, timeouts_ok r h k ∧ 0 < h ≤ r ∧ 0 < k ∧ runProductionSafetyCheck env = Ok tt ∧
      steps = prepared ++ [SetTimeouts r h k; Listen port host] ∧ quiet prepared
  | (Err _, steps) => quiet steps
  end.
Proof.
  pose proof bootstrap_run as Hrun. destruct connect as [|e]; [|by destruct Hrun as (steps & -> & ?)]. rewrite Hrun. clear Hrun.
  pose proof prepared_quiet as Hq. unfold setTimeouts.
  pose proof (readTimeoutMs_spec env "HTTP_REQUEST_TIMEOUT_MS" 30000 ltac:(lia)) as Hr.
  pose proof (readTimeoutMs_spec env "HTTP_HEADERS_TIMEOUT_MS" 20000 ltac:(lia)) as Hh.
  pose proof (readTimeoutMs_spec env "HTTP_KEEP_ALIVE_TIMEOUT_MS" 65000 ltac:(lia)) as Hk.
  destruct (readTimeoutMs env "HTTP_REQUEST_TIMEOUT_MS" 30000) as [r|] eqn:Er; [|done].
  destruct (readTimeoutMs env "HTTP_HEADERS_TIMEOUT_MS" 20000) as [h|] eqn:Eh; [|done].
  destruct (readTimeoutMs env "HTTP_KEEP_ALIVE_TIMEOUT_MS" 65000) as [k|] eqn:Ek; [|done].
  rewrite bind_assoc, (bind_lift (Ok r) r) by done. rewrite bind_assoc, (bind_lift (Ok h) h) by done.
  rewrite bind_assoc, (bind_lift (Ok k) k), bind_assoc, bind_throw_if by done. destruct (Z.ltb_spec r h) as [|Hle]; [done|]. rewrite take_run.
  assert (quiet (prepared ++ [SetTimeouts r h k])) as Hq2 by (unfold quiet; rewrite forallb_app; by rewrite Hq).
  destruct (runProductionSafetyCheck env) as [[]|e] eqn:Es; [|by rewrite (bind_lift_err (Err e) e) by done]. rewrite (bind_lift (Ok tt) tt) by done. cbv zeta.
  destruct (listen _ _) as [[]|e] eqn:El; [|by rewrite (bind_lift_err (Err e) e) by done]. rewrite (bind_lift (Ok tt) tt) by done.
  unfold take_step, modify. rewrite <-app_assoc. eexists r, h, k, _, _. split_and!; [done..|lia|lia|lia|done|done|done].
Qed.

(** With settings that can be read, and nothing that refuses, it does listen. *)
Theorem bootstrap_listens r h k : let port := default "3000" (env "PORT") in let host := default "0.0.0.0" (present (env "HOST")) in
  connect = Ok tt → timeouts_ok r h k → runProductionSafetyCheck env = Ok tt → listen port host = Ok tt →
  bootstrap env [] = (Ok tt, prepared ++ [SetTimeouts r h k; Listen port host]).
Proof.
  cbv zeta. intros Hc (Hr & Hh & Hk & Hle) Hs Hl. pose proof bootstrap_run as Hrun. rewrite Hc in Hrun. rewrite Hrun. unfold setTimeouts.
  rewrite bind_assoc, (bind_lift _ _ _ _ Hr), bind_assoc, (bind_lift _ _ _ _ Hh), bind_assoc, (bind_lift _ _ _ _ Hk), bind_assoc, bind_throw_if.
  destruct (Z.ltb_spec r h); [lia|]. rewrite take_run, (bind_lift _ _ _ _ Hs). cbv zeta. rewrite (bind_lift _ _ _ _ Hl).
  unfold take_step, modify. by rewrite <-app_assoc.
Qed.

(** The interface is documented in production only when that is asked for. *)
Theorem swagger_asked : env "NODE_ENV" = Some "production" → SetupSwagger ∈ prepared → env "SWAGGER_ENABLED" = Some "true".
Proof.
  intros He Hin. destruct (swaggerEnabled env) eqn:Hs.
  - unfold swaggerEnabled in Hs. rewrite He in Hs. destruct (env "SWAGGER_ENABLED") as [v|]; [|done]. apply bool_decide_eq_true in Hs. by subst.
  - exfalso. assert (existsb (λ s, match s with SetupSwagger => true | _ => false end) prepared = true) as H.
    { apply existsb_exists. exists SetupSwagger. split; [by apply list_elem_of_In|done]. }
    revert H. unfold prepared. rewrite Hs. by destruct (present (env "REDIS_URL")), (trust_proxy env).
Qed.
End boot_properties.

(** ** A deployment *)
Module BootDemo.
#[local] Instance machine : Platform := {|
  connectToRedis url := if url == "redis://down" then Err (PlainError "ECONNREFUSED" "connect") else Ok tt;
  runProductionSafetyCheck env := if env "JWT_SECRET" is Some _ then Ok tt else Err (PlainError "Error" "JWT_SECRET");
  listen port host := if port == "80" then Err (PlainError "EACCES" "listen") else Ok tt;
|}.

Definition env (settings : list (string * string)) : Environment :=
  λ name, snd <$> List.find (λ e : string * string, e.1 == name) settings.
Definition plain : Environment := env [("JWT_SECRET", "s"); ("NODE_ENV", "production")].

Example by_default : bootstrap plain [] = (Ok tt, prepared plain ++ [SetTimeouts 30000 20000 65000; Listen "3000" "0.0.0.0"]).
Proof. vm_compute. reflexivity. Qed.
Example out_of_order : is_ok (bootstrap (env [("JWT_SECRET", "s"); ("HTTP_REQUEST_TIMEOUT_MS", "1e4")]) []).1 = false.
Proof. vm_compute. reflexivity. Qed.

(** The validation of the environment lets 0 pass as a timeout; the server does not start with it. *)
Example zero_refused : is_ok (bootstrap (env [("JWT_SECRET", "s"); ("HTTP_HEADERS_TIMEOUT_MS", "0")]) []).1 = false.
Proof. vm_compute. reflexivity. Qed.

(** Without [FRONTEND_URL], origins are set twice: to none, and to the one of development. *)
Example origins_twice : List.filter (λ s, match s with EnableCors _ => true | _ => false end) (prepared plain) = [EnableCors []; EnableCors ["http://localhost:3000"]].
Proof. vm_compute. reflexivity. Qed.

Lemma bootstrap_listens_witness : bootstrap plain [] = (Ok tt, prepared plain ++ [SetTimeouts 30000 20000 65000; Listen "3000" "0.0.0.0"]).
Proof. apply (bootstrap_listens plain 30000 20000 65000); [reflexivity| |reflexivity|reflexivity]. unfold timeouts_ok. split_and!; [reflexivity..|lia]. Defined.

Lemma origins_read_back_witness : origins "https://app.example.com,http://localhost:3000" = ["https://app.example.com"; "http://localhost:3000"].
Proof. apply (origins_read_back ["https://app.example.com"; "http://localhost:3000"]). reflexivity. Defined.

Lemma swagger_asked_witness : env [("NODE_ENV", "production"); ("SWAGGER_ENABLED", "true")] "SWAGGER_ENABLED" = Some "true".
Proof.
  apply (swagger_asked (env [("NODE_ENV", "production"); ("SWAGGER_ENABLED", "true")])); [reflexivity|].
  do 13 right. left.
Defined.
End BootDemo.
