(* ===== verification/Mailer.v ===== *)
(** * Mail (src/src/auth/services/mailer.service.ts)

    How [MailerService] chooses what sends its mails, and the two mails it writes.  Strings are 8-bit here, so a character of
    a token is one byte of its UTF-8 when it is ASCII and two when it is not. nodemailer is a parameter. *)

From S2P Require Import Prelude Number Boot.
From Stdlib Require Import Ascii.

#[local] Open Scope Z_scope.

(** ** [encodeURIComponent] *)

Definition unreserved (c : ascii) : bool :=
  let n := Z.of_nat (nat_of_ascii c) in
  ((65 <=? n) && (n <=? 90)) || ((97 <=? n) && (n <=? 122)) || ((48 <=? n) && (n <=? 57)) ||
  existsb (Ascii.eqb c) ["-"; "_"; "."; "!"; "~"; "*"; "'"; "("; ")"]%char.

Definition hex_digit (n : nat) : ascii := ascii_of_nat (if n <? 10 then 48 + n else 55 + n)%nat.
Definition percent (byte : nat) : string := String "%" (String (hex_digit (byte / 16)) (String (hex_digit (byte mod 16)) EmptyString)).

Definition encode_char (c : ascii) : string :=
  let n := nat_of_ascii c in
  if unreserved c then String c EmptyString
  else if (n <? 128)%nat then percent n
  else percent (192 + n / 64) +:+ percent (128 + n mod 64).

Fixpoint encodeURIComponent (s : string) : string :=
  match s with
  | EmptyString => EmptyString
  | String c s' => encode_char c +:+ encodeURIComponent s'
  end.

(** ** Transports *)

Record MailOptions := mkMail {
  to : string;
  subject : string;
  text : string;
  html : option string;
}.

Record SmtpOptions := mkSmtp {
  sm_host : string;
  sm_port : js_number;
  sm_secure : bool;
  sm_auth : option (string * string);
  sm_from : string;
}.

Inductive MailTransport := ConsoleTransport | SmtpTransport (options : SmtpOptions).

(** [port === n] *)
Definition is_port (port : js_number) (n : Z) : bool := bool_decide (integer_of port = Some n).

Definition frontendUrl (env : Environment) : string := default "http://localhost:3000" (present (env "FRONTEND_URL")).

Definition transport (env : Environment) : MailTransport :=
  match present (env "MAIL_HOST") with
  | Some mailHost =>
      if bool_decide (env "NODE_ENV" = Some "test") then ConsoleTransport
      else
        let port := match env "MAIL_PORT" with Some p => number_of p | None => Decimal 587 0 end in
        let secure := bool_decide (env "MAIL_SECURE" = Some "true") || is_port port 465 in
        let auth := user ← present (env "MAIL_USER"); pass ← present (env "MAIL_PASSWORD"); Some (user, pass) in
        SmtpTransport (mkSmtp mailHost port secure auth (default "no-reply@lyricsflip.local" (present (env "MAIL_FROM"))))
  | None => ConsoleTransport
  end.

(** ** Mails *)

Definition newline : string := String (ascii_of_nat 10) EmptyString.

Definition verification_link (env : Environment) (token : string) : string := frontendUrl env +:+ "/verify-email?token=" +:+ encodeURIComponent token.
Definition verification_mail (env : Environment) (to token : string) : MailOptions :=
  let link := verification_link env token in
  mkMail to "Verify your Lyricsflip email address"
    ("Welcome to Lyricsflip!" +:+ newline +:+ newline +:+ "Please verify your email address by visiting the link below:" +:+ newline +:+ newline +:+
     link +:+ newline +:+ newline +:+ "If you did not create an account, you can safely ignore this email.")
    (Some ("<p>Welcome to Lyricsflip!</p><p>Please verify your email address by clicking the link below:</p><p><a href=" +:+ dq +:+ link +:+ dq +:+
     ">Verify email</a></p><p>If you did not create an account, you can safely ignore this email.</p>")).

Definition reset_link (env : Environment) (token : string) : string := frontendUrl env +:+ "/reset-password?token=" +:+ encodeURIComponent token.
Definition reset_mail (env : Environment) (to token : string) : MailOptions :=
  let link := reset_link env token in
  mkMail to "Reset your Lyricsflip password"
    ("We received a request to reset your Lyricsflip password." +:+ newline +:+ newline +:+ "Reset your password by visiting the link below:" +:+ newline +:+ newline +:+
     link +:+ newline +:+ newline +:+ "If you did not request a password reset, you can safely ignore this email.")
    (Some ("<p>We received a request to reset your Lyricsflip password.</p><p><a href=" +:+ dq +:+ link +:+ dq +:+
     ">Reset password</a></p><p>If you did not request a password reset, you can safely ignore this email.</p>")).

(** What has been handed over: lines of the log, and mails to a server. *)
Inductive delivery := Logged (mail : MailOptions) | Mailed (options : SmtpOptions) (mail : MailOptions).

Section send.
(** nodemailer's [sendMail]. *)
Context (sendMail : SmtpOptions → MailOptions → result unit) (env : Environment).
Local Abbreviation M := (M (list delivery)).

(** The console's line has no HTML; a mail that fails is an error to the caller. *)
Definition send (mail : MailOptions) : M unit :=
  match transport env with
  | ConsoleTransport => modify (λ ds, ds ++ [Logged (mkMail (to mail) (subject mail) (text mail) None)])
  | SmtpTransport options => lift (sendMail options mail);; modify (λ ds, ds ++ [Mailed options mail])
  end.

Definition sendVerificationEmail (to token : string) : M unit := send (verification_mail env to token).
Definition sendPasswordResetEmail (to token : string) : M unit := send (reset_mail env to token).
End send.

(** ** Encoded tokens *)

(** A character that means nothing in HTML, in a URL or in a mail's text. *)
Definition harmless (c : ascii) : bool := unreserved c || (c =? "%")%char.

Lemma all_chars (P : ascii → bool) : forallb (λ n, P (ascii_of_nat n)) (seq 0 256) = true → ∀ c, P c = true.
Proof.
  intros H c. rewrite forallb_forall in H. rewrite <-(ascii_nat_embedding c). apply H, in_seq.
  pose proof (nat_ascii_bounded c). lia.
Qed.

Lemma forallb_app_string p s t : string_forallb p (s +:+ t) = string_forallb p s && string_forallb p t.
Proof.
  induction s as [|c s IH]; [done|]. change (String c s +:+ t) with (String c (s +:+ t)). cbn. by rewrite IH, andb_assoc.
Qed.

Lemma encode_char_harmless c : string_forallb harmless (encode_char c) = true.
Proof. revert c. apply all_chars. vm_compute. reflexivity. Qed.

Lemma encode_harmless s : string_forallb harmless (encodeURIComponent s) = true.
Proof. induction s as [|c s IH]; cbn [encodeURIComponent]; [done|]. by rewrite forallb_app_string, encode_char_harmless, IH. Qed.

(** What the page reads of its address: [decodeURIComponent], for characters of one or two bytes. *)
Definition hex_value (c : ascii) : option nat :=
  let n := nat_of_ascii c in
  if ((48 <=? n) && (n <=? 57))%nat then Some (n - 48)%nat
  else if ((65 <=? n) && (n <=? 70))%nat then Some (n - 55)%nat
  else if ((97 <=? n) && (n <=? 102))%nat then Some (n - 87)%nat else None.
Definition byte_of (h l : ascii) : option nat := h ← hex_value h; l ← hex_value l; Some (16 * h + l)%nat.

Fixpoint decodeURIComponent (s : string) : option string :=
  match s with
  | EmptyString => Some EmptyString
  | String "%" (String h (String l s1)) =>
      n ← byte_of h l;
      if (n <? 128)%nat then String (ascii_of_nat n) <$> decodeURIComponent s1
      else match s1 with
        | String "%" (String h' (String l' s2)) =>
            m ← byte_of h' l';
            if ((194 <=? n) && (n <? 196) && (128 <=? m) && (m <? 192))%nat
            then String (ascii_of_nat ((n - 192) * 64 + (m - 128))) <$> decodeURIComponent s2 else None
        | _ => None
        end
  | String "%" _ => None
  | String c s' => String c <$> decodeURIComponent s'
  end.

Lemma decode_char c s : decodeURIComponent (encode_char c +:+ s) = String c <$> decodeURIComponent s.
Proof. destruct c as [[] [] [] [] [] [] [] []]; reflexivity. Qed.

Lemma decode_encode s : decodeURIComponent (encodeURIComponent s) = Some s.
Proof. induction s as [|c s IH]; cbn [encodeURIComponent]; [done|]. by rewrite decode_char, IH. Qed.

(** ** Properties *)

(** A link carries its token whatever that contains: what follows the address of the page decodes to it, and holds nothing
    that could end the link in a text or in HTML or begin another parameter. *)
Theorem links_carry_token env token : ∃ code, decodeURIComponent code = Some token ∧
  verification_link env token = frontendUrl env +:+ "/verify-email?token=" +:+ code ∧
  reset_link env token = frontendUrl env +:+ "/reset-password?token=" +:+ code ∧
  string_forallb (λ c, negb (existsb (Ascii.eqb c) [" "; "<"; ">"; "&"; "#"; "="; "?"; "/"; ascii_of_nat 34; ascii_of_nat 10]%char)) code = true.
Proof.
  exists (encodeURIComponent token). split; [apply decode_encode|]. split; [done|]. split; [done|].
  pose proof (encode_harmless token) as H. revert H. induction (encodeURIComponent token) as [|c s IH]; [done|].
  cbn [string_forallb]. intros [Hc Hs]%andb_true_iff. rewrite (IH Hs), andb_true_r. revert Hc.
  assert (implb (harmless c) (negb (existsb (Ascii.eqb c) [" "; "<"; ">"; "&"; "#"; "="; "?"; "/"; ascii_of_nat 34; ascii_of_nat 10]%char)) = true) as H.
  { revert c. apply all_chars. vm_compute. reflexivity. }
  intros Hc. by rewrite Hc in H.
Qed.

(** Mail goes to a server exactly when one is configured and this is no test; over TLS from the beginning when that is asked for or
    the port is the one for it; and signed in with a user and a password or not at all. *)
Theorem transport_chosen env : match transport env with
  | ConsoleTransport => env "NODE_ENV" = Some "test" ∨ present (env "MAIL_HOST") = None
  | SmtpTransport o => env "NODE_ENV" ≠ Some "test" ∧ present (env "MAIL_HOST") = Some (sm_host o) ∧
      (sm_secure o = true ↔ env "MAIL_SECURE" = Some "true" ∨ integer_of (sm_port o) = Some 465) ∧
      match sm_auth o with
      | Some (user, pass) => env "MAIL_USER" = Some user ∧ env "MAIL_PASSWORD" = Some pass
      | None => present (env "MAIL_USER") = None ∨ present (env "MAIL_PASSWORD") = None
      end
  end.
Proof.
  unfold transport. destruct (present (env "MAIL_HOST")) as [h|]; [|by right].
  case_bool_decide as Ht; [by left|]. cbn [sm_host sm_port sm_secure sm_auth]. split; [done|]. split; [done|]. split.
  - unfold is_port. rewrite orb_true_iff, !bool_decide_eq_true. done.
  - destruct (present (env "MAIL_USER")) as [u|] eqn:Eu; [|by left]. cbn.
    destruct (present (env "MAIL_PASSWORD")) as [p|] eqn:Ep; [|by right]. cbn. split; by apply present_Some.
Qed.

(** A call hands over one mail, to the address it was given, or is told of the failure. *)
Theorem mail_sent sendMail env to token ds : match sendVerificationEmail sendMail env to token ds with
  | (Ok _, ds') => ∃ d, ds' = ds ++ [d] ∧ match d with
      | Logged m => transport env = ConsoleTransport ∧ Mailer.to m = to
      | Mailed o m => transport env = SmtpTransport o ∧ m = verification_mail env to token ∧ sendMail o m = Ok tt
      end
  | (Err e, ds') => ds' = ds ∧ ∃ o, transport env = SmtpTransport o ∧ sendMail o (verification_mail env to token) = Err e
  end.
Proof.
  unfold sendVerificationEmail, send. destruct (transport env) as [|o] eqn:Et; [by eexists|].
  destruct (sendMail o _) as [[]|e] eqn:E; [|rewrite (bind_lift_err (Err e) e) by done; eauto].
  rewrite (bind_lift (Ok tt) tt) by done. unfold modify. eexists. split; [done|]. done.
Qed.

(** ** A mail server *)
Module MailerDemo.
Definition settings : Environment := BootDemo.env
  [("FRONTEND_URL", "https://app.example.com"); ("MAIL_HOST", "smtp.example.com"); ("MAIL_PORT", "465"); ("MAIL_USER", "u"); ("MAIL_PASSWORD", "p")].

Example encoded : encodeURIComponent ("a b&" +:+ dq +:+ String (ascii_of_nat 233) "") = "a%20b%26%22%C3%A9".
Proof. vm_compute. reflexivity. Qed.
Example smtp : transport settings = SmtpTransport (mkSmtp "smtp.example.com" (Decimal 465 0) true (Some ("u", "p")) "no-reply@lyricsflip.local").
Proof. vm_compute. reflexivity. Qed.

(** With several origins in [FRONTEND_URL], which the server allows, links lead nowhere. *)
Example two_origins : verification_link (BootDemo.env [("FRONTEND_URL", "https://a.example,https://b.example")]) "t" =
  "https://a.example,https://b.example/verify-email?token=t".
Proof. vm_compute. reflexivity. Qed.
End MailerDemo.
