(* ===== verification/Logging.v ===== *)
(** * Logs (src/src/common/services/logger.service.ts, src/src/common/interceptors/logging.interceptor.ts)

    [LoggerService] makes records and Winston writes them: which of its transports a record reaches is decided by the levels,
    as Winston documents, and what the lines of the development format say is written out.  [LoggingInterceptor] says what is
    logged of a request or a message.  Clocks, sizes and the identifiers of traces are given. *)

From S2P Require Import Prelude Decimal Redact Database Boot.

#[local] Open Scope Z_scope.

(** ** Records *)

Record LogRecord := mkRecord {
  level : string;
  message : string;
  meta : list (string * json);
}.

(** What the request and the trace around a call are known by. *)
Record Telemetry := mkTelemetry {
  requestId : option string;
  span : option (string * string);
}.

Definition str (s : string) : json := JPrim (PString s).
Definition optional (key : string) (s : option string) : list (string * json) := match s with Some v => [(key, str v)] | None => [] end.

(** Assigning to a property of the record. *)
Definition assign (key : string) (v : json) (fields : list (string * json)) : list (string * json) :=
  if existsb (λ e : string * json, e.1 == key) fields
  then (λ e : string * json, if e.1 == key then (key, v) else e) <$> fields else fields ++ [(key, v)].

Definition get (key : string) (fields : list (string * json)) : json :=
  match List.find (λ e : string * json, e.1 == key) fields with Some e => e.2 | None => JUndefined end.
Definition field (key : string) (r : LogRecord) : json := get key (meta r).

(** [telemetryFormat] *)
Definition telemetryFormat (t : Telemetry) (info : LogRecord) : LogRecord :=
  let fields := match requestId t with Some rid => if nonempty rid then assign "requestId" (str rid) (meta info) else meta info | None => meta info end in
  let fields := match span t with Some (trace, id) => assign "span_id" (str id) (assign "trace_id" (str trace) fields) | None => fields end in
  mkRecord (level info) (message info) fields.

(** ** Transports *)

Inductive format := Production | Development.
Record Transport := mkTransport {
  t_name : string;
  t_level : option string;
  t_format : format;
}.

Definition log_level (env : Environment) : string := resolveLogLevel (env "LOG_LEVEL") (env "NODE_ENV").
Definition isProduction (env : Environment) : bool := bool_decide (env "NODE_ENV" = Some "production").
Definition logToFile (env : Environment) : bool := bool_decide (env "LOG_TO_FILE" = Some "true").

Definition transports_of (files production : bool) : list Transport :=
  mkTransport "console" None (if production then Production else Development) ::
  if files then [mkTransport "logs/app-%DATE%.log" (Some "info") Production; mkTransport "logs/error-%DATE%.log" (Some "error") Production] else [].
Definition transports (env : Environment) : list Transport := transports_of (logToFile env) (isProduction env).

(** Winston's priorities: 0 is the gravest. *)
Fixpoint index_of (s : string) (l : list string) : nat :=
  match l with [] => 0%nat | x :: l' => if x == s then 0%nat else S (index_of s l') end.
Definition priority (level : string) : nat := index_of level WINSTON_LOG_LEVELS.
Definition enabled (threshold level : string) : bool := (priority level <=? priority threshold)%nat.

(** The transports that a record of a level reaches, past the logger's threshold and their own. *)
Definition written_of (l threshold : string) (files production : bool) : list string :=
  if enabled threshold l
  then t_name <$> List.filter (λ t, match t_level t with Some th => enabled th l | None => true end) (transports_of files production) else [].
Definition written (env : Environment) (r : LogRecord) : list string := written_of (level r) (log_level env) (logToFile env) (isProduction env).

(** ** The methods.  What is passed as a trace or a context may be anything. *)

Definition log (msg : string) (context : json) : LogRecord := mkRecord "info" msg [("context", context)].
Definition error (msg : string) (trace context : json) : LogRecord := mkRecord "error" msg [("stack", trace); ("context", context)].
Definition warn (msg : string) (context : json) : LogRecord := mkRecord "warn" msg [("context", context)].
Definition debug (msg : string) (context : json) : LogRecord := mkRecord "debug" msg [("context", context)].
Definition verbose (msg : string) (context : json) : LogRecord := mkRecord "verbose" msg [("context", context)].

Definition logRequest (method url : string) (statusCode responseTime : Z) (extra : list (string * json)) : LogRecord :=
  mkRecord "info" "Request completed" (foldl (λ fields e, assign e.1 e.2 fields)
    [("method", str method); ("url", str url); ("statusCode", JPrim (PNumber statusCode)); ("responseTime", JPrim (PNumber responseTime))] extra).

Record JsError := mkJsError { e_name : string; e_message : string; e_stack : option string }.

Definition logError (t : Telemetry) (e : JsError) (context : json) : LogRecord :=
  mkRecord "error" (e_message e) ([("stack", match e_stack e with Some s => str s | None => JUndefined end); ("name", str (e_name e)); ("context", context)] ++
    match span t with Some (trace, id) => [("trace_id", str trace); ("span_id", str id)] | None => [] end).

Definition logDatabaseQuery (query : string) (duration : Z) (context : json) : LogRecord :=
  mkRecord "debug" "Database query executed" [("query", str (String.substring 0 200 query)); ("duration", JPrim (PNumber duration)); ("context", context)].

(** ** Lines of the development format, before they are coloured *)

Section lines.
(** [String] of a date and of an array, and [JSON.stringify]. *)
Context (date_string : Z → string) (array_string : list json → string) (stringify : list (string * json) → string).

(** [String(v)] *)
Definition to_text (v : json) : string :=
  match v with
  | JUndefined => "undefined"
  | JNull => "null"
  | JPrim (PBool b) => if b then "true" else "false"
  | JPrim (PNumber n) => show n
  | JPrim (PString s) => s
  | JDate t => date_string t
  | JArray items => array_string items
  | JObject _ => "[object Object]"
  end.

Definition is_truthy (v : json) : bool :=
  match v with
  | JUndefined | JNull => false
  | JPrim (PBool b) => b
  | JPrim (PNumber n) => negb (n =? 0)
  | JPrim (PString s) => nonempty s
  | _ => true
  end.
Definition is_nullish (v : json) : bool := match v with JUndefined | JNull => true | _ => false end.

Definition printed : list string := ["context"; "requestId"; "trace_id"; "stack"].

Definition development_line (timestamp : string) (r : LogRecord) : string :=
  let ctx := if is_truthy (field "context" r) then " [" +:+ to_text (field "context" r) +:+ "]" else "" in
  let rid := if is_truthy (field "requestId" r) then " {" +:+ to_text (field "requestId" r) +:+ "}" else "" in
  let tid := if is_truthy (field "trace_id" r) then " [trace:" +:+ to_text (field "trace_id" r) +:+ "]" else "" in
  let rest := List.filter (λ e : string * json, negb (bool_decide (e.1 ∈ printed))) (meta r) in
  let metaStr := match rest with [] => "" | _ => " " +:+ stringify rest end in
  timestamp +:+ rid +:+ tid +:+ " [" +:+ level r +:+ "]" +:+ ctx +:+ ": " +:+
  (if is_nullish (field "stack" r) then message r else to_text (field "stack" r)) +:+ metaStr.
End lines.

(** ** Requests and messages (logging.interceptor.ts) *)

(** What the interceptor asks of its logger: a message, and an object in some cases. *)
Record LogCall := mkCall {
  c_level : string;
  c_message : string;
  c_object : option (list (string * json));
}.

Record HttpRequest := mkRequest {
  method : string;
  url : string;
  body : value;
  query : json;
  params : json;
  ip : json;
  userAgent : option string;
}.

(** How a handler ends: values it emits, then nothing or an error with a status or none. *)
Record Handling := mkHandling {
  emitted : nat;
  failure : option (option Z * string);
}.

Inductive Context_ :=
  | HttpContext (request : HttpRequest)
  | WsContext (event : option string) (handlerName : string) (socketId : option string)
  | OtherContext.

Section intercept.
(** What is in memory, the time as text, and how long the handler took: in milliseconds, and as the text of [ms / 1000 * 1000]
    in floating point. *)
Context (h : heap) (now : string) (ms : Z) (duration : string).

Definition sanitizeBody (b : value) : option json :=
  match b with
  | VUndefined => Some JUndefined
  | VNull => Some JNull
  | VPrim p => if is_truthy (JPrim p) then redact_value h b else Some (JPrim p)
  | _ => redact_value h b
  end.

Definition took : string := show ms +:+ "ms".
Definition lasted : string := duration +:+ "ms".

(** [None]: the redaction does not come back. *)
Definition interceptHttp (request : HttpRequest) (statusCode : Z) (contentLength : json) (end_ : Handling) : option (list LogCall) :=
  let where_ := method request +:+ " " +:+ url request in
  safe ← sanitizeBody (body request);
  let incoming := [mkCall "log" ("Incoming Request: " +:+ where_) None;
    mkCall "debug" ("Incoming Request body: " +:+ where_) (Some
      [("method", str (method request)); ("url", str (url request)); ("body", safe); ("query", query request); ("params", params request);
       ("ip", ip request); ("userAgent", str (default "Unknown" (present (userAgent request)))); ("timestamp", str now)])] in
  let outgoing := mkCall "log" ("Outgoing Response: " +:+ where_ +:+ " - " +:+ show statusCode +:+ " - " +:+ lasted) (Some
      [("method", str (method request)); ("url", str (url request)); ("statusCode", JPrim (PNumber statusCode)); ("responseTime", str lasted);
       ("responseSize", contentLength); ("timestamp", str now)]) in
  let failed := match failure end_ with
    | Some (status, msg) =>
        let statusCode := match status with Some s => if s =? 0 then 500 else s | None => 500 end in
        [mkCall "error" ("Error Response: " +:+ where_ +:+ " - " +:+ show statusCode +:+ " - " +:+ lasted) (Some
          [("method", str (method request)); ("url", str (url request)); ("statusCode", JPrim (PNumber statusCode)); ("responseTime", str lasted);
           ("error", str msg); ("timestamp", str now)])]
    | None => []
    end in
  Some (incoming ++ replicate (emitted end_) outgoing ++ failed).

Definition interceptWs (event : option string) (handlerName : string) (socketId : option string) (end_ : Handling) : list LogCall :=
  let what := default handlerName event +:+ " (socket " +:+ default "unknown" socketId +:+ ")" in
  let failed := match failure end_ with
    | Some (_, msg) => [mkCall "error" ("WS message failed: " +:+ what +:+ " - " +:+ msg) (Some
        [("event", str (default handlerName event)); ("socketId", str (default "unknown" socketId)); ("error", str msg); ("responseTime", str took)])]
    | None => []
    end in
  mkCall "log" ("Incoming WS message: " +:+ what) None ::
  replicate (emitted end_) (mkCall "log" ("WS message handled: " +:+ what +:+ " - " +:+ took) None) ++ failed.

Definition intercept (context : Context_) (statusCode : Z) (contentLength : json) (end_ : Handling) : option (list LogCall) :=
  match context with
  | HttpContext request => interceptHttp request statusCode contentLength end_
  | WsContext event handlerName socketId => Some (interceptWs event handlerName socketId end_)
  | OtherContext => Some []
  end.
End intercept.

(** ** Properties *)

Lemma forallb_elem {A} (p : A → bool) l x : forallb p l = true → x ∈ l → p x = true.
Proof. rewrite forallb_forall. intros H Hx. apply H. by apply list_elem_of_In. Qed.

Definition written_check (l threshold : string) (files production : bool) : bool :=
  let ws := written_of l threshold files production in
  implb (l == "error") (bool_decide (ws = t_name <$> transports_of files production)) &&
  Bool.eqb (bool_decide ("console" ∈ ws)) (enabled threshold l) &&
  Bool.eqb (bool_decide ("logs/error-%DATE%.log" ∈ ws)) (files && (l == "error")) &&
  implb (bool_decide ("logs/app-%DATE%.log" ∈ ws)) (bool_decide (l ∈ ["error"; "warn"; "info"])).
Lemma written_checked : forallb (λ threshold, forallb (λ l, forallb (λ files, forallb (written_check l threshold files) [true; false]) [true; false])
  WINSTON_LOG_LEVELS) WINSTON_LOG_LEVELS = true.
Proof. vm_compute. reflexivity. Qed.

(** An error is written everywhere, whatever [LOG_LEVEL] says; what the console shows is what is at least as grave as the level; and
    the files hold no less grave record than their own level, the file of errors errors only. *)
Theorem written_where env r : level r ∈ WINSTON_LOG_LEVELS →
  (level r = "error" → written env r = t_name <$> transports env) ∧
  ("console" ∈ written env r ↔ (priority (level r) ≤ priority (log_level env))%nat) ∧
  ("logs/error-%DATE%.log" ∈ written env r ↔ logToFile env = true ∧ level r = "error") ∧
  ("logs/app-%DATE%.log" ∈ written env r → level r ∈ ["error"; "warn"; "info"]).
Proof.
  intros Hl. assert (written_check (level r) (log_level env) (logToFile env) (isProduction env) = true) as H.
  { pose proof (proj1 (resolveLogLevel_known (env "LOG_LEVEL") (env "NODE_ENV"))) as Hlevel.
    pose proof (forallb_elem _ _ _ (forallb_elem _ _ _ written_checked Hlevel) Hl) as H. cbn [forallb] in H. rewrite !andb_true_r in H.
    fold (log_level env) in H. bool_prop. by destruct (logToFile env), (isProduction env). }
  revert H. unfold written_check. change (transports_of _ _) with (transports env). change (written_of _ _ _ _) with (written env r). rewrite !andb_true_iff, !implb_true_iff, !bool_decide_eq_true.
  intros [[[H1 H2] H3] H4]. split_and!; [done|..].
  - apply eqb_prop in H2. rewrite <-(bool_decide_eq_true ("console" ∈ _)), H2. unfold enabled. by rewrite Nat.leb_le.
  - apply eqb_prop in H3. rewrite <-(bool_decide_eq_true ("logs/error-%DATE%.log" ∈ _)), H3. by rewrite andb_true_iff, bool_decide_eq_true.
  - done.
Qed.

(** A line of the development format for an error that is logged with an object, as the interceptor and the filters do: it does not
    contain the message. *)
Theorem object_hides_message date_string array_string stringify timestamp m1 m2 fields context t :
  let line m := development_line date_string array_string stringify timestamp (telemetryFormat t (error m (JObject fields) context)) in
  line m1 = line m2.
Proof.
  cbv zeta. destruct t as [[rid|] [[trace id]|]]; unfold telemetryFormat; cbn; try destruct (nonempty rid); reflexivity.
Qed.

Lemma get_cons key k v fields : get key ((k, v) :: fields) = if k == key then v else get key fields.
Proof. unfold get. cbn. by destruct (k == key). Qed.

Lemma assign_cons key v k w fields : assign key v ((k, w) :: fields) =
  if k == key then (key, v) :: ((λ e : string * json, if e.1 == key then (key, v) else e) <$> fields) else (k, w) :: assign key v fields.
Proof. unfold assign. cbn. destruct (k == key) eqn:E; cbn; rewrite ?E; [done|]. by destruct (existsb _ fields). Qed.

Lemma get_assign key v fields : get key (assign key v fields) = v.
Proof.
  induction fields as [|[k w] fields IH]; [unfold assign; cbn; by rewrite get_cons, bool_decide_true|].
  rewrite assign_cons. destruct (k == key) eqn:E; rewrite get_cons; [by rewrite bool_decide_true|]. by rewrite E.
Qed.

Lemma get_replaced key key' v fields : key ≠ key' → get key ((λ e : string * json, if e.1 == key' then (key', v) else e) <$> fields) = get key fields.
Proof.
  intros Hk. induction fields as [|[k w] fields IH]; [done|]. rewrite fmap_cons. cbn [fst]. rewrite get_cons.
  destruct (k == key') eqn:E; rewrite get_cons, IH; [|done]. apply bool_decide_eq_true in E as ->. by rewrite bool_decide_false by done.
Qed.

Lemma get_assign_ne key key' v fields : key ≠ key' → get key (assign key' v fields) = get key fields.
Proof.
  intros Hk. induction fields as [|[k w] fields IH]; [unfold assign; cbn; by rewrite get_cons, bool_decide_false by done|].
  rewrite assign_cons. destruct (k == key') eqn:E; rewrite !get_cons.
  - apply bool_decide_eq_true in E as ->. rewrite bool_decide_false by done. by apply get_replaced.
  - by rewrite IH.
Qed.

(** Every record made during a request carries the request's id, whatever else it has. *)
Theorem request_id_kept t rid r : requestId t = Some rid → rid ≠ "" → field "requestId" (telemetryFormat t r) = str rid.
Proof.
  intros Ht Hne. unfold telemetryFormat, field. rewrite Ht. assert (nonempty rid = true) as -> by by destruct rid.
  cbn [meta]. destruct (span t) as [[trace id]|]; [|apply get_assign].
  rewrite !get_assign_ne by done. apply get_assign.
Qed.

(** What is logged of a request: it comes in, once and with its body redacted, and then ends for every answer and every failure;
    nothing that is logged with an object shows the body otherwise. *)
Theorem requests_logged h now duration request statusCode contentLength end_ : ∃ safe calls,
  interceptHttp h now duration request statusCode contentLength end_ = Some calls ∧ clean safe = true ∧
  length calls = (2 + emitted end_ + match failure end_ with Some _ => 1 | None => 0 end)%nat ∧
  (∀ call fields, call ∈ calls → c_object call = Some fields → get "body" fields = safe ∨ get "body" fields = JUndefined) ∧
  (∀ call, call ∈ calls → c_level call = "error" ↔ ∃ status msg fields, failure end_ = Some (status, msg) ∧ c_object call = Some fields ∧ get "error" fields = str msg).
Proof.
  assert (∃ safe, sanitizeBody h (body request) = Some safe ∧ clean safe = true) as (safe & Hsafe & Hclean).
  { assert (∃ j, redact_value h (body request) = Some j ∧ clean j = true) as (j & Hj & Hc).
    { destruct (redact_total (S (size h)) h ∅ (body request)) as [[j seen] E].
      - assert (size (dom h ∖ ∅) = size h) as ->; [|lia]. rewrite difference_empty_L. apply size_dom.
      - unfold redact_value. rewrite E. exists j. split; [done|]. by eapply redact_spec. }
    unfold sanitizeBody. destruct (body request) as [| |p|t|a]; eauto. destruct (is_truthy (JPrim p)); eauto. }
  unfold interceptHttp. rewrite Hsafe. exists safe. eexists. split; [done|]. split; [done|]. split; [|split].
  - rewrite !length_app, length_replicate. by destruct (failure end_) as [[??]|].
  - intros call fields. rewrite !elem_of_app, elem_of_replicate. cbn [elem_of]. intros Hin Ho.
    destruct Hin as [Hin|[[-> _]|Hin]].
    + apply elem_of_cons in Hin as [->|[->|[]%elem_of_nil]%elem_of_cons]; [done|]. injection Ho as <-. by left.
    + injection Ho as <-. by right.
    + destruct (failure end_) as [[status msg]|]; [|by apply elem_of_nil in Hin]. apply list_elem_of_singleton in Hin as ->.
      injection Ho as <-. by right.
  - intros call. rewrite !elem_of_app, elem_of_replicate. intros Hin. destruct Hin as [Hin|[[-> _]|Hin]].
    + apply elem_of_cons in Hin as [->|[->|[]%elem_of_nil]%elem_of_cons]; (split; [done|]); intros (? & ? & ? & _ & [= <-] & ?); done.
    + split; [done|]. intros (? & ? & ? & _ & [= <-] & ?). done.
    + destruct (failure end_) as [[status msg]|]; [|by apply elem_of_nil in Hin]. apply list_elem_of_singleton in Hin as ->.
      split; [|done]. intros _. eexists _, _, _. done.
Qed.

(** ** A log *)
Module LoggingDemo.
Definition quiet_files : Environment := BootDemo.env [("LOG_LEVEL", "error"); ("LOG_TO_FILE", "true"); ("NODE_ENV", "production")].

Lemma written_where_witness : written quiet_files (error "m" JUndefined JUndefined) = ["console"; "logs/app-%DATE%.log"; "logs/error-%DATE%.log"] ∧
  written quiet_files (warn "m" JUndefined) = [].
Proof.
  split; [|vm_compute; reflexivity].
  destruct (written_where quiet_files (error "m" JUndefined JUndefined)) as [H _]; [left|]. rewrite (H eq_refl). vm_compute. reflexivity.
Defined.

Lemma request_id_kept_witness : field "requestId" (telemetryFormat (mkTelemetry (Some "r1") (Some ("t", "s"))) (logRequest "GET" "/" 200 1 [("requestId", str "x")])) = str "r1".
Proof. apply request_id_kept; [reflexivity|discriminate]. Defined.

(** The interceptor passes an object after the message; the line that is written does not say what failed. *)
Example failure_line : development_line (λ _, "") (λ _, "") (λ _, "") "12:00:00"
  (error "Error Response: GET / - 500 - 3ms" (JObject [("error", str "boom")]) (str "LoggingInterceptor")) =
  "12:00:00 [error] [LoggingInterceptor]: [object Object]".
Proof. vm_compute. reflexivity. Qed.

(** A body's password is not logged; what is asked for in the address is. *)
Definition login : HttpRequest := mkRequest "POST" "/login" (VRef 0) (JObject [("token", str "t")]) JUndefined JUndefined None.
Example logged_body :
  match interceptHttp {[0%nat := OObject [("password", VPrim (PString "p"))]]} "now" "3" login 200 JUndefined (mkHandling 1 None) with
  | Some calls => map (λ c, option_map (get "body") (c_object c)) calls
  | None => []
  end = [None; Some (JObject [("password", str REDACTED)]); Some JUndefined].
Proof. vm_compute. reflexivity. Qed.
End LoggingDemo.
