(* ===== verification/Schema.v ===== *)
(** * The SQL of the migrations: tables, constraints, indexes, types

    The migrations of src/src/migrations are lists of PostgreSQL statements.  This file
    gives the statements they use a meaning on a database state: tables with their
    columns in order, their constraints, triggers and rows; indexes; enum types;
    extensions and functions.  A statement that PostgreSQL refuses is an [Err] with its
    SQLSTATE.  [ALTER TABLE] rewrites the rows through its [USING] expression, adding
    [NOT NULL] without a default fails on a table with rows, a unique constraint fails
    on duplicates, [DROP TYPE] fails while a column has the type, and so on.

    Cells: integers are [Z] with the range of the column's type checked on every write;
    a [timestamp] and a [timestamptz] are both microseconds, the first of a wall clock,
    the second of an instant, so [AT TIME ZONE 'UTC'] changes the type and not the
    number; uuid, json and text cells are strings.  A column default that is evaluated
    per row ([now()], [uuid_generate_v4()], a sequence) has no cell here: adding such a
    column to a table with rows, which no migration does, is refused. *)

From S2P Require Import Prelude.

Inductive sql_type :=
  | Uuid | Varchar (n : option Z) | Text | Int4 | Int8 | Float8 | Boolean
  | Timestamp | Timestamptz | Date | Jsonb
  | ArrayOf (t : sql_type) | EnumT (name : string).

#[export] Instance sql_type_eq_dec : EqDecision sql_type.
Proof. solve_decision. Defined.

Inductive sql_default :=
  | DNow | DCurrentTimestamp | DUuid | DNextval
  | DInt (z : Z) | DBool (b : bool) | DText (s : string).

#[export] Instance sql_default_eq_dec : EqDecision sql_default.
Proof. solve_decision. Defined.

Inductive cell := Null | CInt (z : Z) | CText (s : string) | CBool (b : bool) | CTime (us : Z).

#[export] Instance cell_eq_dec : EqDecision cell.
Proof. solve_decision. Defined.

Notation row := (gmap string cell) (only parsing).

(** A column that a row does not have reads as [NULL]. *)
Definition field (r : row) (c : string) : cell := default Null (r !! c).

Record column := Column {
  cname : string; ctype : sql_type; cnotnull : bool; cdefault : option sql_default }.

#[export] Instance column_eq_dec : EqDecision column.
Proof. solve_decision. Defined.
#[export] Instance column_settable : Settable column := λ c,
  Column (cname c) (ctype c) (cnotnull c) (cdefault c).

Inductive action := NoAction | Cascade | SetNull.

#[export] Instance action_eq_dec : EqDecision action.
Proof. solve_decision. Defined.

Inductive constr :=
  | PrimaryKey (cols : list string)
  | UniqueKey (cols : list string)
  | ForeignKey (col : string) (ref refcol : string) (on_delete : action)
  | Between (col : string) (lo hi : Z).

#[export] Instance constr_eq_dec : EqDecision constr.
Proof. solve_decision. Defined.

Record table := Table {
  columns : list column;
  constraints : list (string * constr);
  triggers : list (string * string);   (* name, function it runs before UPDATE or DELETE *)
  rows : list row }.

#[export] Instance table_eq_dec : EqDecision table.
Proof. solve_decision. Defined.
#[export] Instance table_settable : Settable table := λ t,
  Table (columns t) (constraints t) (triggers t) (rows t).

Inductive key := Col (c : string) | Lower (c : string).

#[export] Instance key_eq_dec : EqDecision key.
Proof. solve_decision. Defined.

Record index := Index { itable : string; iunique : bool; ikeys : list key }.

#[export] Instance index_eq_dec : EqDecision index.
Proof. solve_decision. Defined.

Record schema := Schema {
  tables : gmap string table;
  indexes : gmap string index;
  enums : gmap string (list string);
  functions : list string;
  extensions : list string }.

#[export] Instance schema_eq_dec : EqDecision schema.
Proof. solve_decision. Defined.
#[export] Instance schema_settable : Settable schema := λ s,
  Schema (tables s) (indexes s) (enums s) (functions s) (extensions s).

Definition empty : schema := Schema ∅ ∅ ∅ [] [].

(** ** Errors, by SQLSTATE *)

Definition undefined_table (t : string) : exn := PlainError "42P01" t.
Definition undefined_column (c : string) : exn := PlainError "42703" c.
Definition undefined_object (o : string) : exn := PlainError "42704" o.
Definition duplicate_relation (r : string) : exn := PlainError "42P07" r.
Definition duplicate_column (c : string) : exn := PlainError "42701" c.
Definition duplicate_object (o : string) : exn := PlainError "42710" o.
Definition dependent_objects (o : string) : exn := PlainError "2BP01" o.
Definition not_null_violation (c : string) : exn := PlainError "23502" c.
Definition foreign_key_violation (c : string) : exn := PlainError "23503" c.
Definition unique_violation (c : string) : exn := PlainError "23505" c.
Definition check_violation (c : string) : exn := PlainError "23514" c.
Definition out_of_range (t : string) : exn := PlainError "22003" t.
Definition invalid_text (v : string) : exn := PlainError "22P02" v.
Definition not_supported (v : string) : exn := PlainError "0A000" v.

#[export] Instance result_eq_dec {A} `{EqDecision A} : EqDecision (result A).
Proof. solve_decision. Defined.

(** [if (!b) throw e] *)
Definition demand (b : bool) (e : exn) : result unit := if b then Ok tt else Err e.

Definition found {A} (o : option A) (e : exn) : result A :=
  match o with Some a => Ok a | None => Err e end.

Fixpoint mapR {A B} (f : A → result B) (l : list A) : result (list B) :=
  match l with
  | [] => Ok []
  | x :: l' => y ← f x; ys ← mapR f l'; Ok (y :: ys)
  end.

(** ** Looking things up *)

Definition column_of (t : table) (c : string) : option column :=
  List.find (λ k, cname k == c) (columns t).
Definition has_column (t : table) (c : string) : bool :=
  existsb (λ k, cname k == c) (columns t).

Definition enforced_by_index (k : constr) : bool :=
  match k with PrimaryKey _ | UniqueKey _ => true | _ => false end.

(** Tables, indexes and the indexes of primary and unique keys share one name space;
    [to_regclass] looks a name up in it. *)
Definition key_names (t : table) : list string :=
  (List.filter (λ nk, enforced_by_index nk.2) (constraints t)).*1.
Definition any_table (p : string → table → bool) (s : schema) : bool :=
  existsb (λ nt, p nt.1 nt.2) (map_to_list (tables s)).
Definition relation_exists (s : schema) (n : string) : bool :=
  bool_decide (is_Some (tables s !! n)) || bool_decide (is_Some (indexes s !! n))
  || any_table (λ _ t, bool_decide (n ∈ key_names t)) s.

Fixpoint uses_enum (n : string) (ty : sql_type) : bool :=
  match ty with EnumT m => n == m | ArrayOf t => uses_enum n t | _ => false end.
Fixpoint type_known (s : schema) (ty : sql_type) : bool :=
  match ty with
  | EnumT m => bool_decide (is_Some (enums s !! m))
  | ArrayOf t => type_known s t
  | _ => true
  end.

Definition get_table (s : schema) (t : string) : result table :=
  found (tables s !! t) (undefined_table t).
Definition put_table (t : string) (d : table) (s : schema) : schema :=
  s <| tables := <[t := d]> (tables s) |>.
Definition with_table (t : string) (f : schema → table → result table) (s : schema) :
    result schema :=
  d ← get_table s t; d' ← f s d; Ok (put_table t d' s).

Definition update_column (c : string) (f : column → column) (t : table) : table :=
  t <| columns := (λ k, if cname k == c then f k else k) <$> columns t |>.

(** ** Values *)

Definition int4_min : Z := -2147483648.
Definition int4_max : Z := 2147483647.
Definition int8_min : Z := -9223372036854775808.
Definition int8_max : Z := 9223372036854775807.

(** [x::integer], [x::bigint] *)
Definition to_int4 (z : Z) : result cell :=
  if (int4_min <=? z) && (z <=? int4_max) then Ok (CInt z)
  else Err (out_of_range "integer").
Definition to_int8 (z : Z) : result cell :=
  if (int8_min <=? z) && (z <=? int8_max) then Ok (CInt z)
  else Err (out_of_range "bigint").

(** [x::"public"."<enum>"] *)
Definition to_enum (labels : list string) (v : string) : result cell :=
  if bool_decide (v ∈ labels) then Ok (CText v) else Err (invalid_text v).

(** The value a column default gives a row that already exists. *)
Definition default_cell (d : option sql_default) : option cell :=
  match d with
  | None => Some Null
  | Some (DInt z) => Some (CInt z)
  | Some (DBool b) => Some (CBool b)
  | Some (DText v) => Some (CText v)
  | Some (DNow | DCurrentTimestamp | DUuid | DNextval) => None
  end.

(** ** Constraints on rows *)

Definition key_of (cols : list string) (r : row) : list cell := field r <$> cols.

(** Two keys clash when they are equal and hold no [NULL]. *)
Fixpoint distinct_keys (ks : list (list cell)) : bool :=
  match ks with
  | [] => true
  | k :: ks' => (bool_decide (Null ∈ k) || negb (bool_decide (k ∈ ks'))) && distinct_keys ks'
  end.

Definition between_ok (c : string) (lo hi : Z) (r : row) : bool :=
  match field r c with CInt z => (lo <=? z) && (z <=? hi) | _ => true end.

Definition lower_cell (v : cell) : cell :=
  match v with CText s => CText (lower s) | _ => v end.
Definition key_cell (r : row) (k : key) : cell :=
  match k with Col c => field r c | Lower c => lower_cell (field r c) end.
Definition key_column (k : key) : string := match k with Col c | Lower c => c end.

Definition foreign_ok (s : schema) (c ref refcol : string) (r : row) : bool :=
  match field r c with
  | Null => true
  | v => match tables s !! ref with
         | Some d => existsb (λ r', field r' refcol == v) (rows d)
         | None => false
         end
  end.

(** What [ADD CONSTRAINT] checks before it takes effect. *)
Definition constraint_ok (s : schema) (t : table) (n : string) (k : constr) : result unit :=
  match k with
  | PrimaryKey cols =>
      demand (forallb (has_column t) cols) (undefined_column n);;
      demand (forallb (λ r, negb (bool_decide (Null ∈ key_of cols r))) (rows t))
        (not_null_violation n);;
      demand (distinct_keys (key_of cols <$> rows t)) (unique_violation n)
  | UniqueKey cols =>
      demand (forallb (has_column t) cols) (undefined_column n);;
      demand (distinct_keys (key_of cols <$> rows t)) (unique_violation n)
  | ForeignKey c ref refcol _ =>
      demand (has_column t c) (undefined_column n);;
      d ← get_table s ref;
      demand (has_column d refcol) (undefined_column n);;
      demand (forallb (foreign_ok s c ref refcol) (rows t)) (foreign_key_violation n)
  | Between c lo hi =>
      demand (has_column t c) (undefined_column n);;
      demand (forallb (between_ok c lo hi) (rows t)) (check_violation n)
  end.

(** A constraint or an index that mentions a column of its own table is dropped with it. *)
Definition mentions (c : string) (k : constr) : bool :=
  match k with
  | PrimaryKey cols | UniqueKey cols => bool_decide (c ∈ cols)
  | ForeignKey c' _ _ _ | Between c' _ _ => c == c'
  end.
Definition indexes_column (t c : string) (i : index) : bool :=
  (itable i == t) && existsb (λ k, key_column k == c) (ikeys i).
Definition references (t : string) (k : constr) : bool :=
  match k with ForeignKey _ ref _ _ => ref == t | _ => false end.
Definition references_column (t c : string) (k : constr) : bool :=
  match k with ForeignKey _ ref refcol _ => (ref == t) && (refcol == c) | _ => false end.
Definition referenced (t : string) (s : schema) : bool :=
  any_table (λ n d, negb (n == t) && existsb (λ nk, references t nk.2) (constraints d)) s.
Definition column_referenced (t c : string) (s : schema) : bool :=
  any_table (λ n d, existsb (λ nk, references_column t c nk.2) (constraints d)) s.

(** ** Statements *)

Definition statement := schema → result schema.

Definition createExtension (n : string) : statement := λ s,
  Ok (if bool_decide (n ∈ extensions s) then s
      else s <| extensions := extensions s ++ [n] |>).

(** *** Enum types *)

Definition createType (n : string) (labels : list string) : statement := λ s,
  match enums s !! n with
  | Some _ => Err (duplicate_object n)
  | None => Ok (s <| enums := <[n := labels]> (enums s) |>)
  end.

Definition addValue (n v : string) : statement := λ s,
  labels ← found (enums s !! n) (undefined_object n);
  demand (negb (bool_decide (v ∈ labels))) (duplicate_object v);;
  Ok (s <| enums := <[n := labels ++ [v]]> (enums s) |>).

Definition renameValue (n a b : string) : statement := λ s,
  labels ← found (enums s !! n) (undefined_object n);
  demand (bool_decide (a ∈ labels)) (invalid_text a);;
  demand (negb (bool_decide (b ∈ labels))) (duplicate_object b);;
  Ok (s <| enums := <[n := (λ v, if v == a then b else v) <$> labels]> (enums s) |>).

Fixpoint rename_enum (a b : string) (ty : sql_type) : sql_type :=
  match ty with
  | EnumT m => EnumT (if m == a then b else m)
  | ArrayOf t => ArrayOf (rename_enum a b t)
  | _ => ty
  end.
Definition retype (a b : string) (k : column) : column :=
  k <| ctype := rename_enum a b (ctype k) |>.
Definition retype_table (a b : string) (t : table) : table :=
  t <| columns := retype a b <$> columns t |>.

(** Columns keep the type across its renaming. *)
Definition renameType (a b : string) : statement := λ s,
  labels ← found (enums s !! a) (undefined_object a);
  demand (negb (bool_decide (is_Some (enums s !! b)))) (duplicate_object b);;
  Ok (s <| enums := <[b := labels]> (delete a (enums s)) |>
        <| tables := retype_table a b <$> tables s |>).

Definition type_used (n : string) (s : schema) : bool :=
  any_table (λ _ t, existsb (λ k, uses_enum n (ctype k)) (columns t)) s.

Definition dropType (n : string) : statement := λ s,
  demand (bool_decide (is_Some (enums s !! n))) (undefined_object n);;
  demand (negb (type_used n s)) (dependent_objects n);;
  Ok (s <| enums := delete n (enums s) |>).

Definition dropTypeIfExists (n : string) : statement := λ s,
  if bool_decide (is_Some (enums s !! n)) then dropType n s else Ok s.

(** *** Tables *)

Definition addConstraint_to (n : string) (k : constr) (s : schema) (t : table) :
    result table :=
  demand (negb (bool_decide (n ∈ (constraints t).*1))) (duplicate_object n);;
  demand (negb (enforced_by_index k && relation_exists s n)) (duplicate_relation n);;
  constraint_ok s t n k;;
  Ok (t <| constraints := constraints t ++ [(n, k)] |>).

Fixpoint addConstraints (l : list (string * constr)) (s : schema) (t : table) :
    result table :=
  match l with
  | [] => Ok t
  | (n, k) :: l' => t' ← addConstraint_to n k s t; addConstraints l' s t'
  end.

Definition createTable (n : string) (cols : list column) (cons : list (string * constr)) :
    statement := λ s,
  demand (negb (relation_exists s n)) (duplicate_relation n);;
  demand (forallb (λ k, type_known s (ctype k)) cols) (undefined_object n);;
  demand (bool_decide (NoDup (cname <$> cols))) (duplicate_column n);;
  t ← addConstraints cons s (Table cols [] [] []);
  Ok (put_table n t s).

Definition createTableIfNotExists (n : string) cols cons : statement := λ s,
  if relation_exists s n then Ok s else createTable n cols cons s.

(** [LIKE src INCLUDING DEFAULTS INCLUDING CONSTRAINTS]: the columns with their defaults
    and [NOT NULL], and the check constraints; no key, foreign key, trigger or row. *)
Definition is_check (k : constr) : bool :=
  match k with Between _ _ _ => true | _ => false end.
Definition createTableLike (n src : string) : statement := λ s,
  demand (negb (relation_exists s n)) (duplicate_relation n);;
  d ← get_table s src;
  Ok (put_table n (Table (columns d)
        (List.filter (λ nk, is_check nk.2) (constraints d)) [] []) s).

Definition remove_table (n : string) (s : schema) : schema :=
  s <| tables := delete n (tables s) |>
    <| indexes := filter (λ ni, itable ni.2 ≠ n) (indexes s) |>.

Definition dropTable (n : string) : statement := λ s,
  demand (bool_decide (is_Some (tables s !! n))) (undefined_table n);;
  demand (negb (referenced n s)) (dependent_objects n);;
  Ok (remove_table n s).

Definition dropTableIfExists (n : string) : statement := λ s,
  if bool_decide (is_Some (tables s !! n)) then dropTable n s else Ok s.

(** *** [ALTER TABLE] *)

Definition addColumn (t : string) (k : column) : statement := λ s,
  d ← get_table s t;
  demand (negb (has_column d (cname k))) (duplicate_column (cname k));;
  demand (type_known s (ctype k)) (undefined_object (cname k));;
  match rows d, default_cell (cdefault k) with
  | [], _ => Ok (put_table t (d <| columns := columns d ++ [k] |>) s)
  | _, None => Err (not_supported (cname k))
  | _, Some v =>
      demand (negb (cnotnull k && (v == Null))) (not_null_violation (cname k));;
      Ok (put_table t (d <| columns := columns d ++ [k] |>
                         <| rows := <[cname k := v]> <$> rows d |>) s)
  end.

Definition addColumnIfNotExists (t : string) (k : column) : statement := λ s,
  d ← get_table s t;
  if has_column d (cname k) then Ok s else addColumn t k s.

Definition drop_column (c : string) (d : table) : table :=
  d <| columns := List.filter (λ k, negb (cname k == c)) (columns d) |>
    <| constraints := List.filter (λ nk, negb (mentions c nk.2)) (constraints d) |>
    <| rows := delete c <$> rows d |>.

Definition dropColumn (t c : string) : statement := λ s,
  d ← get_table s t;
  demand (has_column d c) (undefined_column c);;
  demand (negb (column_referenced t c s)) (dependent_objects c);;
  Ok (put_table t (drop_column c d) s
        <| indexes := filter (λ ni, indexes_column t c ni.2 = false) (indexes s) |>).

Definition dropColumnIfExists (t c : string) : statement := λ s,
  d ← get_table s t;
  if has_column d c then dropColumn t c s else Ok s.

(** References follow a renamed column. *)
Definition rename_in (a b c : string) : string := if c == a then b else c.
Definition rename_constr (here : bool) (t a b : string) (k : constr) : constr :=
  match k with
  | PrimaryKey cols => PrimaryKey (if here then rename_in a b <$> cols else cols)
  | UniqueKey cols => UniqueKey (if here then rename_in a b <$> cols else cols)
  | ForeignKey c ref refcol del =>
      ForeignKey (if here then rename_in a b c else c) ref
        (if ref == t then rename_in a b refcol else refcol) del
  | Between c lo hi => Between (if here then rename_in a b c else c) lo hi
  end.
Definition rename_key (a b : string) (k : key) : key :=
  match k with Col c => Col (rename_in a b c) | Lower c => Lower (rename_in a b c) end.
Definition rename_index_column (t a b : string) (i : index) : index :=
  if itable i == t then Index t (iunique i) (rename_key a b <$> ikeys i) else i.
Definition rename_row (a b : string) (r : row) : row :=
  match r !! a with Some v => <[b := v]> (delete a r) | None => r end.
Definition rename_constraints (t a b n : string) (d : table) : table :=
  d <| constraints := (λ nk, (nk.1, rename_constr (n == t) t a b nk.2)) <$> constraints d |>.
Definition rename_column (a b : string) (d : table) : table :=
  d <| columns := (λ k, if cname k == a then k <| cname := b |> else k) <$> columns d |>
    <| rows := rename_row a b <$> rows d |>.

Definition renameColumn (t a b : string) : statement := λ s,
  d ← get_table s t;
  demand (has_column d a) (undefined_column a);;
  demand (negb (has_column d b)) (duplicate_column b);;
  Ok (s <| tables := map_imap (λ n d', Some (rename_constraints t a b n
             (if n == t then rename_column a b d' else d'))) (tables s) |>
        <| indexes := rename_index_column t a b <$> indexes s |>).

(** [ALTER COLUMN c TYPE ty USING conv]: each row's value is rewritten; a [NULL] stays. *)
Definition cast_row (c : string) (conv : cell → result cell) (r : row) : result row :=
  match field r c with
  | Null => Ok r
  | v => v' ← conv v; Ok (<[c := v']> r)
  end.
Definition alterType (t c : string) (ty : sql_type) (conv : cell → result cell) :
    statement := λ s,
  d ← get_table s t;
  demand (has_column d c) (undefined_column c);;
  demand (type_known s ty) (undefined_object c);;
  rs ← mapR (cast_row c conv) (rows d);
  Ok (put_table t (update_column c (λ k, k <| ctype := ty |>) d <| rows := rs |>) s).

Definition alterColumn (t c : string) (f : column → column) : statement :=
  with_table t (λ _ d,
    demand (has_column d c) (undefined_column c);; Ok (update_column c f d)).

Definition setDefault (t c : string) (v : sql_default) : statement :=
  alterColumn t c (λ k, k <| cdefault := Some v |>).
Definition dropDefault (t c : string) : statement :=
  alterColumn t c (λ k, k <| cdefault := None |>).
Definition dropNotNull (t c : string) : statement :=
  alterColumn t c (λ k, k <| cnotnull := false |>).
Definition setNotNull (t c : string) : statement := λ s,
  d ← get_table s t;
  demand (forallb (λ r, negb (field r c == Null)) (rows d)) (not_null_violation c);;
  alterColumn t c (λ k, k <| cnotnull := true |>) s.

Definition addConstraint (t n : string) (k : constr) : statement :=
  with_table t (addConstraint_to n k).

Definition remove_constraint (n : string) (d : table) : table :=
  d <| constraints := List.filter (λ nk, negb (nk.1 == n)) (constraints d) |>.
Definition dropConstraint (t n : string) : statement :=
  with_table t (λ _ d,
    demand (bool_decide (n ∈ (constraints d).*1)) (undefined_object n);;
    Ok (remove_constraint n d)).
Definition dropConstraintIfExists (t n : string) : statement :=
  with_table t (λ _ d, Ok (remove_constraint n d)).

(** *** Indexes *)

Definition createIndexOn (n t : string) (u : bool) (ks : list key) : statement := λ s,
  demand (negb (relation_exists s n)) (duplicate_relation n);;
  d ← get_table s t;
  demand (forallb (λ k, has_column d (key_column k)) ks) (undefined_column n);;
  demand (negb u || distinct_keys ((λ r, key_cell r <$> ks) <$> rows d))
    (unique_violation n);;
  Ok (s <| indexes := <[n := Index t u ks]> (indexes s) |>).

Definition createIndex (n t : string) ks : statement := createIndexOn n t false ks.
Definition createUniqueIndex (n t : string) ks : statement := createIndexOn n t true ks.
Definition ifNotExists (n : string) (f : statement) : statement := λ s,
  if relation_exists s n then Ok s else f s.

Definition dropIndex (n : string) : statement := λ s,
  demand (bool_decide (is_Some (indexes s !! n))) (undefined_object n);;
  Ok (s <| indexes := delete n (indexes s) |>).
Definition dropIndexIfExists (n : string) : statement := λ s,
  if bool_decide (is_Some (indexes s !! n)) then dropIndex n s else Ok s.

Definition alterIndexRename (a b : string) : statement := λ s,
  i ← found (indexes s !! a) (undefined_table a);
  demand (negb (relation_exists s b)) (duplicate_relation b);;
  Ok (s <| indexes := <[b := i]> (delete a (indexes s)) |>).

(** *** Functions and triggers *)

Definition createOrReplaceFunction (n : string) : statement := λ s,
  Ok (if bool_decide (n ∈ functions s) then s
      else s <| functions := functions s ++ [n] |>).

Definition createTrigger (n t f : string) : statement := λ s,
  demand (bool_decide (f ∈ functions s)) (undefined_object f);;
  with_table t (λ _ d,
    demand (negb (bool_decide (n ∈ (triggers d).*1))) (duplicate_object n);;
    Ok (d <| triggers := triggers d ++ [(n, f)] |>)) s.

Definition dropTriggerIfExists (n t : string) : statement :=
  with_table t (λ _ d,
    Ok (d <| triggers := List.filter (λ nf, negb (nf.1 == n)) (triggers d) |>)).

Definition dropFunctionIfExists (n : string) : statement := λ s,
  demand (negb (any_table (λ _ d, bool_decide (n ∈ (triggers d).*2)) s))
    (dependent_objects n);;
  Ok (s <| functions := List.filter (λ f, negb (f == n)) (functions s) |>).

(** *** Rows *)

Definition not_nulls_ok (d : table) (r : row) : result unit :=
  demand (forallb (λ k, negb (cnotnull k && (field r (cname k) == Null))) (columns d))
    (not_null_violation "row").
(** A statement that writes rows is checked against every constraint and unique index of
    its table. *)
Definition unique_index_ok (d : table) (i : index) : bool :=
  negb (iunique i) || distinct_keys ((λ r, key_cell r <$> ikeys i) <$> rows d).
Definition rows_ok (s : schema) (t : string) (d : table) : result unit :=
  mapR (λ nk, constraint_ok s d nk.1 nk.2) (constraints d);;
  demand (forallb (λ ni, negb (itable ni.2 == t) || unique_index_ok d ni.2)
    (map_to_list (indexes s))) (unique_violation t).

(** [UPDATE t SET … WHERE p]: a [BEFORE] trigger runs for each row that matches; the only
    trigger function of the migrations raises an exception. *)
Definition updateRow (d : table) (p : row → bool) (f : row → row) (r : row) : result row :=
  if p r then
    demand (bool_decide (triggers d = [])) (PlainError "P0001" "append-only");;
    not_nulls_ok d (f r);; Ok (f r)
  else Ok r.
Definition updateRows (t : string) (p : row → bool) (f : row → row) : statement := λ s,
  d ← get_table s t;
  rs ← mapR (updateRow d p f) (rows d);
  rows_ok s t (d <| rows := rs |>);;
  Ok (put_table t (d <| rows := rs |>) s).

(** [INSERT INTO dst SELECT * FROM src]: by position, not by name. *)
Definition positional (from to : list column) (r : row) : row :=
  list_to_map (zip (cname <$> to) (field r ∘ cname <$> from)).
Definition appended (d e : table) : table :=
  d <| rows := rows d ++ (positional (columns e) (columns d) <$> rows e) |>.
Definition insertSelect (dst src : string) : statement := λ s,
  d ← get_table s dst;
  e ← get_table s src;
  demand (bool_decide ((ctype <$> columns e) = (ctype <$> columns d))) (invalid_text dst);;
  mapR (not_nulls_ok d) (positional (columns e) (columns d) <$> rows e);;
  rows_ok s dst (appended d e);;
  Ok (put_table dst (appended d e) s).

(** [DELETE FROM t WHERE p], for a table that no foreign key refers to. *)
Definition deleteRows (t : string) (p : row → bool) : statement := λ s,
  d ← get_table s t;
  demand (negb (referenced t s)) (not_supported t);;
  demand (bool_decide (triggers d = []) || negb (existsb p (rows d)))
    (PlainError "P0001" "append-only");;
  Ok (put_table t (d <| rows := List.filter (λ r, negb (p r)) (rows d) |>) s).

(** ** Running statements

    [await queryRunner.query(…)]: an error leaves the state as it was, since one statement
    is atomic.  TypeORM runs a migration in a transaction, so one that throws leaves no
    trace either. *)

Definition Mig : Type := M schema unit.

Definition query (f : statement) : Mig := λ s,
  match f s with Ok s' => (Ok tt, s') | Err e => (Err e, s) end.

Definition transaction (m : Mig) : Mig := λ s,
  match m s with (Ok tt, s') => (Ok tt, s') | (Err e, _) => (Err e, s) end.

Definition hasTable (t : string) : M schema bool :=
  gets (λ s, bool_decide (is_Some (tables s !! t))).
Definition getTable (t : string) : M schema (option table) := gets (λ s, tables s !! t).

(** The actions of one [ALTER TABLE], and the statements of one [DO] block. *)
Definition actions (l : list statement) : statement := λ s, foldl (λ r f, r ≫= f) (Ok s) l.
Definition unless (p : schema → bool) (f : statement) : statement := λ s,
  if p s then Ok s else f s.
