(* ===== verification/Migrations.v ===== *)
(** * The migrations of src/src/migrations

    One pair [<Migration>_up], [<Migration>_down] per file, each statement of the source
    a statement of Schema.v, in the same order, with the guards the source puts around
    it.  The names TypeORM derives for the constraints that the migrations leave unnamed
    are a parameter, [naming]; the draws of [random()] with which room codes are made are
    the argument [draws] of the migration that draws them. *)

From S2P Require Import Prelude Schema.

(** ** Column shorthands *)

Definition required (n : string) (ty : sql_type) : column := Column n ty true None.
Definition required_def (n : string) (ty : sql_type) (d : sql_default) : column :=
  Column n ty true (Some d).
Definition optional (n : string) (ty : sql_type) : column := Column n ty false None.
Definition varchar (n : Z) : sql_type := Varchar (Some n).
Definition varying : sql_type := Varchar None.
Definition id_uuid : column := required_def "id" Uuid DUuid.

(** ** The operations of TypeORM's query runner

    [createTable], [createForeignKey], [addColumn] and [dropColumn] are TypeORM's; what
    the migrations rely on is documented: a primary key, a unique column or a foreign key
    without a name gets a name derived from the table and the column, an enum column has
    the type [<table>_<column>_enum], in lower case, created with the column and dropped
    with it. *)

Record naming := Naming {
  pk_name : string → string → string;
  uq_name : string → string → string;
  fk_name : string → string → string }.

Section runner.
  Context (nm : naming).

Definition runner_createTable (t : string) (cols : list column) (uniques : list string) : Mig :=
  query (createTableIfNotExists t cols
    ((pk_name nm t "id", PrimaryKey ["id"])
       :: ((λ c, (uq_name nm t c, UniqueKey [c])) <$> uniques))).

Definition runner_createForeignKey (t c ref refcol : string) (del : action) : Mig :=
  query (addConstraint t (fk_name nm t c) (ForeignKey c ref refcol del)).
End runner.

Definition enum_name (t c : string) : string := lower (t +:+ "_" +:+ c +:+ "_enum").
Definition runner_addEnumColumn (t c : string) (labels : list string) : Mig :=
  query (createType (enum_name t c) labels);;
  query (addColumn t (optional c (EnumT (enum_name t c)))).
Definition runner_dropEnumColumn (t c : string) : Mig :=
  query (dropColumn t c);; query (dropType (enum_name t c)).

(** ** 1691625843781-CreateRoomsAndRoomUsers *)

Definition CreateRoomsAndRoomUsers_up (nm : naming) : Mig :=
  query (createExtension "uuid-ossp");;
  runner_createTable nm "rooms"
    [ id_uuid; optional "name" varying; required "lyricId" Int4;
      required_def "createdAt" Timestamp DCurrentTimestamp;
      optional "expiresAt" Timestamp;
      required_def "isClosed" Boolean (DBool false) ] [];;
  runner_createTable nm "room_users"
    [ id_uuid; required "userId" Int4; required "roomId" Uuid;
      required_def "hasGuessed" Boolean (DBool false);
      required_def "score" Float8 (DInt 0); optional "guess" Text;
      required_def "joinedAt" Timestamp DCurrentTimestamp;
      optional "guessedAt" Timestamp ] [];;
  runner_createForeignKey nm "room_users" "roomId" "rooms" "id" Cascade.

Definition CreateRoomsAndRoomUsers_down : Mig :=
  query (dropTable "room_users");; query (dropTable "rooms").

(** ** 1754625843781-CreateUsersTable *)

Definition CreateUsersTable_up : Mig :=
  query (createTable "users"
    [ id_uuid; required "email" (varchar 255); optional "name" (varchar 255);
      required "passwordHash" varying;
      required_def "createdAt" Timestamp DNow; required_def "updatedAt" Timestamp DNow ]
    [ ("UQ_97672ac88f789774dd47f7c8be3", UniqueKey ["email"]);
      ("PK_a3ffb1c0c8416b9fc6f907b7433", PrimaryKey ["id"]) ]).

Definition CreateUsersTable_down : Mig := query (dropTable "users").

(** ** 1754625844000-CreateGameSessionsTable *)

Definition CreateGameSessionsTable_up : Mig :=
  query (createType "game_category_enum" ["Afrobeats"; "90s R&B"; "Hip Hop"; "Pop"; "Rock"]);;
  query (createType "game_session_status_enum" ["in_progress"; "completed"; "abandoned"]);;
  query (createTable "game_sessions"
    [ id_uuid; required_def "score" Int4 (DInt 0);
      required "category" (EnumT "game_category_enum");
      required_def "status" (EnumT "game_session_status_enum") (DText "in_progress");
      required_def "createdAt" Timestamp DNow; required_def "updatedAt" Timestamp DNow;
      optional "playerId" Uuid ]
    [ ("PK_284f0c8c5775c09d725cb2e8a6e", PrimaryKey ["id"]) ]);;
  query (addConstraint "game_sessions" "FK_player_game_session"
    (ForeignKey "playerId" "users" "id" SetNull)).

Definition CreateGameSessionsTable_down : Mig :=
  query (dropConstraint "game_sessions" "FK_player_game_session");;
  query (dropTable "game_sessions");;
  query (dropType "game_session_status_enum");;
  query (dropType "game_category_enum").

(** ** 1754626322434-AddIndexToUserEmail *)

Definition AddIndexToUserEmail_up : Mig :=
  query (createIndex "IDX_97672ac88f789774dd47f7c8be" "users" [Col "email"]).
Definition AddIndexToUserEmail_down : Mig :=
  query (dropIndex "IDX_97672ac88f789774dd47f7c8be").

(** ** 1755000000000-AddUserPreferences *)

Definition AddUserPreferences_up : Mig :=
  runner_addEnumColumn "users" "preferredGenre"
    [ "Pop"; "Rock"; "Hip Hop"; "Rap"; "R&B"; "Country"; "Jazz"; "Blues"; "Electronic";
      "Dance"; "Reggae"; "Folk"; "Indie"; "Alternative"; "Metal"; "Punk"; "Soul"; "Funk";
      "Classical"; "World" ];;
  runner_addEnumColumn "users" "preferredDecade"
    [ "1960s"; "1970s"; "1980s"; "1990s"; "2000s"; "2010s"; "2020s" ].

Definition AddUserPreferences_down : Mig :=
  runner_dropEnumColumn "users" "preferredDecade";;
  runner_dropEnumColumn "users" "preferredGenre".

(** ** 1755077435852-AddMockTokenBalanceToUsers *)

Definition AddMockTokenBalanceToUsers_up : Mig :=
  query (addColumn "users" (required_def "mockTokenBalance" Int4 (DInt 100))).
Definition AddMockTokenBalanceToUsers_down : Mig :=
  query (dropColumn "users" "mockTokenBalance").

(** ** 1755077436000-AddMultiplayerSupportToGameSessions *)

Definition AddMultiplayerSupportToGameSessions_up : Mig :=
  query (createType "game_mode_enum" ["single_player"; "multiplayer"; "wagered"]);;
  query (addValue "game_session_status_enum" "waiting_for_player");;
  query (actions
    [ addColumn "game_sessions" (optional "playerTwoId" Uuid);
      addColumn "game_sessions" (required_def "playerTwoScore" Int4 (DInt 0));
      addColumn "game_sessions"
        (required_def "mode" (EnumT "game_mode_enum") (DText "single_player"));
      addColumn "game_sessions" (optional "winnerId" Uuid);
      addColumn "game_sessions" (optional "wagerAmount" Int4);
      addColumn "game_sessions" (required_def "hasWager" Boolean (DBool false));
      addColumn "game_sessions" (optional "completedAt" Timestamp) ]);;
  query (addConstraint "game_sessions" "FK_game_sessions_player_two"
    (ForeignKey "playerTwoId" "users" "id" NoAction));;
  query (addConstraint "game_sessions" "FK_game_sessions_winner"
    (ForeignKey "winnerId" "users" "id" NoAction)).

(** The label added to [game_session_status_enum] stays. *)
Definition AddMultiplayerSupportToGameSessions_down : Mig :=
  query (dropConstraint "game_sessions" "FK_game_sessions_winner");;
  query (dropConstraint "game_sessions" "FK_game_sessions_player_two");;
  query (actions
    [ dropColumn "game_sessions" "completedAt"; dropColumn "game_sessions" "hasWager";
      dropColumn "game_sessions" "wagerAmount"; dropColumn "game_sessions" "winnerId";
      dropColumn "game_sessions" "mode"; dropColumn "game_sessions" "playerTwoScore";
      dropColumn "game_sessions" "playerTwoId" ]);;
  query (dropType "game_mode_enum").

(** ** 1755077437000-CreateWagersTable *)

Definition CreateWagersTable_up : Mig :=
  query (createType "wager_status_enum" ["pending"; "staked"; "won"; "lost"; "refunded"]);;
  query (createTable "wagers"
    [ id_uuid; required "sessionId" Uuid; required "playerAId" Uuid;
      required "playerBId" Uuid; required "amount" Int4; required "totalPot" Int4;
      required_def "status" (EnumT "wager_status_enum") (DText "pending");
      optional "winnerId" Uuid; optional "resultMessage" Text;
      required_def "createdAt" Timestamp DNow; required_def "updatedAt" Timestamp DNow;
      optional "resolvedAt" Timestamp ]
    [ ("PK_wagers", PrimaryKey ["id"]) ]);;
  query (addConstraint "wagers" "FK_wagers_player_a"
    (ForeignKey "playerAId" "users" "id" NoAction));;
  query (addConstraint "wagers" "FK_wagers_player_b"
    (ForeignKey "playerBId" "users" "id" NoAction));;
  query (addConstraint "wagers" "FK_wagers_winner"
    (ForeignKey "winnerId" "users" "id" NoAction));;
  query (createIndex "IDX_wagers_session_id" "wagers" [Col "sessionId"]).

Definition CreateWagersTable_down : Mig :=
  query (dropIndex "IDX_wagers_session_id");;
  query (dropConstraint "wagers" "FK_wagers_winner");;
  query (dropConstraint "wagers" "FK_wagers_player_b");;
  query (dropConstraint "wagers" "FK_wagers_player_a");;
  query (dropTable "wagers");;
  query (dropType "wager_status_enum").

(** ** 1758800000000-AddCaseInsensitiveUniqueIndexToUsers *)

Definition AddCaseInsensitiveUniqueIndexToUsers_up : Mig :=
  query (createUniqueIndex "IDX_users_email_lower" "users" [Lower "email"]);;
  users ← getTable "users";
  if from_option (λ t, has_column t "username") false users
  then query (createUniqueIndex "IDX_users_username_lower" "users" [Lower "username"])
  else mret tt.

Definition AddCaseInsensitiveUniqueIndexToUsers_down : Mig :=
  query (dropIndexIfExists "IDX_users_username_lower");;
  query (dropIndex "IDX_users_email_lower").

(** ** 1758900000000-AddSetNullToLyricsCreatedBy *)

(** The first foreign key of the table on the column. *)
Definition foreign_key_on (c : string) (t : table) : option string :=
  head ((List.filter (λ nk, match nk.2 with ForeignKey c' _ _ _ => c' == c | _ => false end)
    (constraints t)).*1).

Definition AddSetNullToLyricsCreatedBy_up : Mig :=
  exists_ ← hasTable "lyrics";
  if negb exists_ then mret tt else
  lyrics ← getTable "lyrics";
  match lyrics ≫= foreign_key_on "createdById" with
  | Some n => query (dropConstraint "lyrics" n)
  | None => mret tt
  end;;
  query (dropNotNull "lyrics" "createdById");;
  query (addConstraint "lyrics" "FK_lyrics_created_by"
    (ForeignKey "createdById" "users" "id" SetNull)).

Definition AddSetNullToLyricsCreatedBy_down : Mig :=
  exists_ ← hasTable "lyrics";
  if negb exists_ then mret tt else
  query (dropConstraint "lyrics" "FK_lyrics_created_by");;
  query (setNotNull "lyrics" "createdById");;
  query (addConstraint "lyrics" "FK_lyrics_created_by"
    (ForeignKey "createdById" "users" "id" Cascade)).

(** ** 1759000000000-CreateRefreshTokensTable *)

Definition CreateRefreshTokensTable_up : Mig :=
  query (createTable "refresh_tokens"
    [ id_uuid; required "userId" Uuid; required "tokenHash" (varchar 64);
      required "expiresAt" Timestamp; optional "revokedAt" Timestamp;
      required_def "createdAt" Timestamp DNow ]
    [ ("PK_refresh_tokens", PrimaryKey ["id"]) ]);;
  query (addConstraint "refresh_tokens" "FK_refresh_tokens_user"
    (ForeignKey "userId" "users" "id" Cascade));;
  query (createUniqueIndex "IDX_refresh_tokens_token_hash" "refresh_tokens" [Col "tokenHash"]);;
  query (createIndex "IDX_refresh_tokens_user_id" "refresh_tokens" [Col "userId"]).

Definition CreateRefreshTokensTable_down : Mig :=
  query (dropIndex "IDX_refresh_tokens_user_id");;
  query (dropIndex "IDX_refresh_tokens_token_hash");;
  query (dropConstraint "refresh_tokens" "FK_refresh_tokens_user");;
  query (dropTable "refresh_tokens").

(** ** 1759000000001-AddTokenVersionToUsers *)

Definition AddTokenVersionToUsers_up : Mig :=
  query (addColumn "users" (required_def "tokenVersion" Int4 (DInt 0))).
Definition AddTokenVersionToUsers_down : Mig := query (dropColumn "users" "tokenVersion").

(** ** 1788480000000-MigrateWagersToStellarEscrow *)

(** [x::bigint * 10000000] *)
Definition scale_up (v : cell) : result cell :=
  match v with CInt z => to_int8 z;; to_int8 (z * 10000000) | _ => Ok v end.
(** [(x / 10000000)::integer]: SQL division truncates towards zero. *)
Definition scale_down (v : cell) : result cell :=
  match v with CInt z => to_int4 (Z.quot z 10000000) | _ => Ok v end.

Definition wager_statuses_old : list string := ["pending"; "staked"; "won"; "lost"; "refunded"].
Definition wager_statuses : list string :=
  ["pending"; "awaiting_stakes"; "staked"; "settling"; "won"; "refunded"; "failed"].

(** [CASE status::text WHEN … END] *)
Definition status_up (v : string) : string := if v == "lost" then "failed" else v.
Definition status_down (v : string) : string :=
  if v == "awaiting_stakes" then "pending"
  else if v == "settling" then "staked"
  else if v == "failed" then "pending"
  else v.
Definition cast_status (f : string → string) (labels : list string) (v : cell) : result cell :=
  match v with CText s => to_enum labels (f s) | _ => Ok v end.

Definition widen (t c : string) : Mig := query (alterType t c Int8 scale_up).
Definition narrow (t c : string) : Mig := query (alterType t c Int4 scale_down).

Definition MigrateWagersToStellarEscrow_up : Mig :=
  query (actions
    [ addColumn "users" (optional "stellarAddress" (varchar 56));
      addColumn "users" (optional "stellarAddressVerifiedAt" Timestamp) ]);;
  query (createUniqueIndex "UQ_users_stellar_address" "users" [Col "stellarAddress"]);;
  query (renameColumn "users" "mockTokenBalance" "mockBalance");;
  query (dropDefault "users" "mockBalance");;
  widen "users" "mockBalance";;
  query (setDefault "users" "mockBalance" (DInt 1000000000));;
  query (renameColumn "wagers" "amount" "stakeStroops");;
  widen "wagers" "stakeStroops";;
  query (renameColumn "wagers" "totalPot" "totalPotStroops");;
  widen "wagers" "totalPotStroops";;
  query (renameType "wager_status_enum" "wager_status_enum_old");;
  query (createType "wager_status_enum" wager_statuses);;
  query (dropDefault "wagers" "status");;
  query (alterType "wagers" "status" (EnumT "wager_status_enum")
    (cast_status status_up wager_statuses));;
  query (setDefault "wagers" "status" (DText "pending"));;
  query (dropType "wager_status_enum_old");;
  query (actions
    [ addColumn "wagers" (required_def "settlementMode" (varchar 16) (DText "mock"));
      addColumn "wagers" (optional "escrowTxHash" (varchar 128));
      addColumn "wagers" (optional "playerAStakeTxHash" (varchar 128));
      addColumn "wagers" (optional "playerBStakeTxHash" (varchar 128));
      addColumn "wagers" (optional "settlementTxHash" (varchar 128));
      addColumn "wagers" (optional "settlementLedger" Int8) ]);;
  query (dropIndex "IDX_wagers_session_id");;
  query (createUniqueIndex "UQ_wagers_session_id" "wagers" [Col "sessionId"]);;
  query (renameColumn "game_sessions" "wagerAmount" "wagerStroops");;
  widen "game_sessions" "wagerStroops".

Definition MigrateWagersToStellarEscrow_down : Mig :=
  narrow "game_sessions" "wagerStroops";;
  query (renameColumn "game_sessions" "wagerStroops" "wagerAmount");;
  query (dropIndex "UQ_wagers_session_id");;
  query (createIndex "IDX_wagers_session_id" "wagers" [Col "sessionId"]);;
  query (actions
    [ dropColumn "wagers" "settlementLedger"; dropColumn "wagers" "settlementTxHash";
      dropColumn "wagers" "playerBStakeTxHash"; dropColumn "wagers" "playerAStakeTxHash";
      dropColumn "wagers" "escrowTxHash"; dropColumn "wagers" "settlementMode" ]);;
  query (renameType "wager_status_enum" "wager_status_enum_new");;
  query (createType "wager_status_enum" wager_statuses_old);;
  query (dropDefault "wagers" "status");;
  query (alterType "wagers" "status" (EnumT "wager_status_enum")
    (cast_status status_down wager_statuses_old));;
  query (setDefault "wagers" "status" (DText "pending"));;
  query (dropType "wager_status_enum_new");;
  narrow "wagers" "totalPotStroops";;
  query (renameColumn "wagers" "totalPotStroops" "totalPot");;
  narrow "wagers" "stakeStroops";;
  query (renameColumn "wagers" "stakeStroops" "amount");;
  query (dropDefault "users" "mockBalance");;
  narrow "users" "mockBalance";;
  query (setDefault "users" "mockBalance" (DInt 100));;
  query (renameColumn "users" "mockBalance" "mockTokenBalance");;
  query (dropIndex "UQ_users_stellar_address");;
  query (actions
    [ dropColumn "users" "stellarAddressVerifiedAt"; dropColumn "users" "stellarAddress" ]).

(** ** 1788490000000-CreateGameRoundsTable *)

Definition CreateGameRoundsTable_up : Mig :=
  query (createTable "game_rounds"
    [ id_uuid; required "userId" Uuid; required "lyricId" Int4;
      required_def "issuedAt" Timestamp DNow; required "expiresAt" Timestamp;
      optional "closedAt" Timestamp ]
    [ ("PK_game_rounds", PrimaryKey ["id"]) ]);;
  query (createIndex "IDX_game_rounds_user_id" "game_rounds" [Col "userId"]).

Definition CreateGameRoundsTable_down : Mig :=
  query (dropIndex "IDX_game_rounds_user_id");;
  query (dropTable "game_rounds").

(** ** 1790000000000-AddLatestStakeHashesToWagers *)

Definition AddLatestStakeHashesToWagers_up : Mig :=
  query (actions
    [ addColumn "wagers" (optional "playerALatestStakeHash" (varchar 128));
      addColumn "wagers" (optional "playerBLatestStakeHash" (varchar 128)) ]).
Definition AddLatestStakeHashesToWagers_down : Mig :=
  query (actions
    [ dropColumn "wagers" "playerBLatestStakeHash";
      dropColumn "wagers" "playerALatestStakeHash" ]).

(** ** 1790000000001-CreateAuditLogsTable *)

Definition CreateAuditLogsTable_up : Mig :=
  query (createTableIfNotExists "audit_logs"
    [ id_uuid; required "actorId" varying; required "action" varying;
      optional "targetType" varying; optional "targetId" varying; optional "payload" Jsonb;
      optional "ip" varying; required_def "timestamp" Timestamp DNow ]
    [ ("PK_audit_logs", PrimaryKey ["id"]) ]);;
  query (ifNotExists "IDX_audit_logs_actor_id"
    (createIndex "IDX_audit_logs_actor_id" "audit_logs" [Col "actorId"]));;
  query (ifNotExists "IDX_audit_logs_action"
    (createIndex "IDX_audit_logs_action" "audit_logs" [Col "action"]));;
  query (ifNotExists "IDX_audit_logs_target_id"
    (createIndex "IDX_audit_logs_target_id" "audit_logs" [Col "targetId"])).

Definition CreateAuditLogsTable_down : Mig :=
  query (dropIndex "IDX_audit_logs_target_id");;
  query (dropIndex "IDX_audit_logs_action");;
  query (dropIndex "IDX_audit_logs_actor_id");;
  query (dropTable "audit_logs").

(** ** 1790363455031-RepairSchemaToMatchEntities *)

(** Lines 20 to 43: hand-named constraints and indexes go. *)
Definition Repair_drop_hand_named : Mig :=
  query (dropConstraint "game_sessions" "FK_player_game_session");;
  query (dropConstraint "game_sessions" "FK_game_sessions_player_two");;
  query (dropConstraint "game_sessions" "FK_game_sessions_winner");;
  query (dropConstraint "wagers" "FK_wagers_player_a");;
  query (dropConstraint "wagers" "FK_wagers_player_b");;
  query (dropConstraint "wagers" "FK_wagers_winner");;
  query (dropConstraint "room_users" "FK_07600e6f053913a639e4478f2e5");;
  query (dropIndex "UQ_users_stellar_address");;
  query (dropIndex "UQ_wagers_session_id");;
  query (dropIndex "IDX_game_rounds_user_id").

(** Lines 44 to 79: the tables no migration had created. *)
Definition Repair_create_tables : Mig :=
  query (createType "lyrics_genre_enum" ["Afrobeats"; "Hip-Hop"; "Pop"; "Other"]);;
  query (createTable "lyrics"
    [ required_def "id" Int4 DNextval; required "content" Text; required "artist" varying;
      required "lyricSnippet" Text; required "songTitle" (varchar 200);
      optional "category" (varchar 50);
      required_def "genre" (EnumT "lyrics_genre_enum") (DText "Other");
      required "decade" (varchar 10); required_def "difficulty" Int4 (DInt 0);
      required_def "isActive" Boolean (DBool true); required_def "timesUsed" Int4 (DInt 0);
      required_def "createdAt" Timestamp DNow; required_def "updatedAt" Timestamp DNow;
      required "createdById" Uuid ]
    [ ("UQ_4f0ed33e3fa900864b7523c5563", UniqueKey ["artist"; "songTitle"]);
      ("PK_f7c5de22ef94f309591c5554f0f", PrimaryKey ["id"]) ]);;
  query (createIndex "IDX_d14fb81820a5ebfc89df735201" "lyrics" [Col "category"]);;
  query (createIndex "IDX_a2d5f0b6948cd8f9c8b288e483" "lyrics" [Col "genre"]);;
  query (createIndex "IDX_acaad25bc17807f76cea53b163" "lyrics" [Col "decade"]);;
  query (createType "game_history_guesstype_enum" ["artist"; "songTitle"]);;
  query (createTable "game_history"
    [ id_uuid; required "playerId" Uuid; required "lyricId" Int4;
      optional "gameSessionId" Uuid;
      required "guessType" (EnumT "game_history_guesstype_enum");
      required "guessValue" (varchar 200); required "isCorrect" Boolean;
      required_def "pointsAwarded" Int4 (DInt 0); required_def "xpChange" Int4 (DInt 0);
      optional "wagerAmount" Int4; required_def "createdAt" Timestamp DNow ]
    [ ("PK_0e74b90c56b815ed54e90a29f1a", PrimaryKey ["id"]) ]);;
  query (createIndex "IDX_54d592c33eee3f06a10aee8634" "game_history" [Col "playerId"]);;
  query (createIndex "IDX_ed6f230775ab9828edf585b6fe" "game_history" [Col "lyricId"]);;
  query (createIndex "IDX_8f9154e4f1451ad1bf37732d23" "game_history" [Col "gameSessionId"]);;
  query (createIndex "IDX_d37db6e0872941f431472c64d1" "game_history" [Col "isCorrect"]);;
  query (createIndex "IDX_2b2126d153baaa3f5c73f0c0ca" "game_history" [Col "createdAt"]).

(** Lines 80 to 107. *)
Definition Repair_add_user_columns : Mig :=
  query (addColumn "users" (required "username" varying));;
  query (addConstraint "users" "UQ_fe0bb3f6520ee0469504521e710" (UniqueKey ["username"]));;
  query (addColumn "users" (required_def "xp" Int4 (DInt 0)));;
  query (addColumn "users" (required_def "level" Int4 (DInt 1)));;
  query (createType "users_leveltitle_enum"
    ["Gossip Rookie"; "Word Whisperer"; "Lyric Sniper"; "Bar Genius"; "Gossip Guru"]);;
  query (addColumn "users"
    (required_def "levelTitle" (EnumT "users_leveltitle_enum") (DText "Gossip Rookie")));;
  query (addColumn "users" (optional "lastLoginAt" Timestamp));;
  query (addColumn "users" (required_def "role" (varchar 20) (DText "user")));;
  query (addColumn "users" (required_def "isActive" Boolean (DBool true)));;
  query (addConstraint "users" "UQ_6ca644d6db1d091834d0d181c2f" (UniqueKey ["stellarAddress"])).

(** Lines 108 to 129. *)
Definition Repair_room_columns : Mig :=
  query (dropColumn "room_users" "userId");;
  query (addColumn "room_users" (required "userId" Uuid));;
  query (setDefault "room_users" "joinedAt" DNow);;
  query (setDefault "rooms" "createdAt" DNow);;
  query (createIndex "IDX_6ca644d6db1d091834d0d181c2" "users" [Col "stellarAddress"]);;
  query (createUniqueIndex "IDX_ae4afddd5a9aed864218840a89" "wagers" [Col "sessionId"]);;
  query (createIndex "IDX_f6333fb3ac6455083f5d63bea1" "game_rounds" [Col "userId"]);;
  query (addConstraint "room_users" "UQ_13fbb37ae42be6ad72b4724ec52"
    (UniqueKey ["userId"; "roomId"])).

(** Lines 130 to 168. *)
Definition Repair_add_foreign_keys : Mig :=
  query (addConstraint "game_sessions" "FK_15cde5fb27498c38d3e6be4192b"
    (ForeignKey "playerId" "users" "id" NoAction));;
  query (addConstraint "game_sessions" "FK_dc0de8724b56bcde2bed53228cf"
    (ForeignKey "playerTwoId" "users" "id" NoAction));;
  query (addConstraint "game_sessions" "FK_05fc1fa1e3c6d734c07ea753aa6"
    (ForeignKey "winnerId" "users" "id" NoAction));;
  query (addConstraint "wagers" "FK_23053e7556c275c08c36cc6e7ab"
    (ForeignKey "playerAId" "users" "id" NoAction));;
  query (addConstraint "wagers" "FK_9a822637150835af40ce9ea7a56"
    (ForeignKey "playerBId" "users" "id" NoAction));;
  query (addConstraint "wagers" "FK_eea91b8d8ca8f757286d9b6e031"
    (ForeignKey "winnerId" "users" "id" NoAction));;
  query (addConstraint "lyrics" "FK_11b6fbc73460d1fc82acf848400"
    (ForeignKey "createdById" "users" "id" Cascade));;
  query (addConstraint "room_users" "FK_9afe64dc52abd16b1830c8767b0"
    (ForeignKey "userId" "users" "id" NoAction));;
  query (addConstraint "room_users" "FK_07600e6f053913a639e4478f2e5"
    (ForeignKey "roomId" "rooms" "id" NoAction));;
  query (addConstraint "rooms" "FK_9458c1f50798bb0aca55b2e8b9e"
    (ForeignKey "lyricId" "lyrics" "id" NoAction));;
  query (addConstraint "game_history" "FK_54d592c33eee3f06a10aee86348"
    (ForeignKey "playerId" "users" "id" Cascade));;
  query (addConstraint "game_history" "FK_ed6f230775ab9828edf585b6fee"
    (ForeignKey "lyricId" "lyrics" "id" Cascade));;
  query (addConstraint "game_history" "FK_8f9154e4f1451ad1bf37732d230"
    (ForeignKey "gameSessionId" "game_sessions" "id" SetNull)).

Definition RepairSchemaToMatchEntities_up : Mig :=
  Repair_drop_hand_named;; Repair_create_tables;; Repair_add_user_columns;;
  Repair_room_columns;; Repair_add_foreign_keys.

(** Lines 172 to 213. *)
Definition Repair_drop_foreign_keys : Mig :=
  query (dropConstraint "game_history" "FK_8f9154e4f1451ad1bf37732d230");;
  query (dropConstraint "game_history" "FK_ed6f230775ab9828edf585b6fee");;
  query (dropConstraint "game_history" "FK_54d592c33eee3f06a10aee86348");;
  query (dropConstraint "rooms" "FK_9458c1f50798bb0aca55b2e8b9e");;
  query (dropConstraint "room_users" "FK_07600e6f053913a639e4478f2e5");;
  query (dropConstraint "room_users" "FK_9afe64dc52abd16b1830c8767b0");;
  query (dropConstraint "lyrics" "FK_11b6fbc73460d1fc82acf848400");;
  query (dropConstraint "wagers" "FK_eea91b8d8ca8f757286d9b6e031");;
  query (dropConstraint "wagers" "FK_9a822637150835af40ce9ea7a56");;
  query (dropConstraint "wagers" "FK_23053e7556c275c08c36cc6e7ab");;
  query (dropConstraint "game_sessions" "FK_05fc1fa1e3c6d734c07ea753aa6");;
  query (dropConstraint "game_sessions" "FK_dc0de8724b56bcde2bed53228cf");;
  query (dropConstraint "game_sessions" "FK_15cde5fb27498c38d3e6be4192b");;
  query (dropConstraint "room_users" "UQ_13fbb37ae42be6ad72b4724ec52").

(** Lines 214 to 246. *)
Definition Repair_drop_columns : Mig :=
  query (dropIndex "IDX_f6333fb3ac6455083f5d63bea1");;
  query (dropIndex "IDX_ae4afddd5a9aed864218840a89");;
  query (dropIndex "IDX_6ca644d6db1d091834d0d181c2");;
  query (setDefault "rooms" "createdAt" DCurrentTimestamp);;
  query (setDefault "room_users" "joinedAt" DCurrentTimestamp);;
  query (dropColumn "room_users" "userId");;
  query (addColumn "room_users" (required "userId" Int4));;
  query (dropConstraint "users" "UQ_6ca644d6db1d091834d0d181c2f");;
  query (dropColumn "users" "isActive");;
  query (dropColumn "users" "role");;
  query (dropColumn "users" "lastLoginAt");;
  query (dropColumn "users" "levelTitle");;
  query (dropType "users_leveltitle_enum");;
  query (dropColumn "users" "level");;
  query (dropColumn "users" "xp");;
  query (dropConstraint "users" "UQ_fe0bb3f6520ee0469504521e710");;
  query (dropColumn "users" "username").

(** Lines 247 to 274. *)
Definition Repair_drop_tables : Mig :=
  query (dropIndex "IDX_2b2126d153baaa3f5c73f0c0ca");;
  query (dropIndex "IDX_d37db6e0872941f431472c64d1");;
  query (dropIndex "IDX_8f9154e4f1451ad1bf37732d23");;
  query (dropIndex "IDX_ed6f230775ab9828edf585b6fe");;
  query (dropIndex "IDX_54d592c33eee3f06a10aee8634");;
  query (dropTable "game_history");;
  query (dropType "game_history_guesstype_enum");;
  query (dropIndex "IDX_acaad25bc17807f76cea53b163");;
  query (dropIndex "IDX_a2d5f0b6948cd8f9c8b288e483");;
  query (dropIndex "IDX_d14fb81820a5ebfc89df735201");;
  query (dropTable "lyrics");;
  query (dropType "lyrics_genre_enum").

(** Lines 275 to 304. *)
Definition Repair_restore_hand_named : Mig :=
  query (createIndex "IDX_game_rounds_user_id" "game_rounds" [Col "userId"]);;
  query (createUniqueIndex "UQ_wagers_session_id" "wagers" [Col "sessionId"]);;
  query (createUniqueIndex "UQ_users_stellar_address" "users" [Col "stellarAddress"]);;
  query (addConstraint "room_users" "FK_07600e6f053913a639e4478f2e5"
    (ForeignKey "roomId" "rooms" "id" Cascade));;
  query (addConstraint "wagers" "FK_wagers_winner"
    (ForeignKey "winnerId" "users" "id" NoAction));;
  query (addConstraint "wagers" "FK_wagers_player_b"
    (ForeignKey "playerBId" "users" "id" NoAction));;
  query (addConstraint "wagers" "FK_wagers_player_a"
    (ForeignKey "playerAId" "users" "id" NoAction));;
  query (addConstraint "game_sessions" "FK_game_sessions_winner"
    (ForeignKey "winnerId" "users" "id" NoAction));;
  query (addConstraint "game_sessions" "FK_game_sessions_player_two"
    (ForeignKey "playerTwoId" "users" "id" NoAction));;
  query (addConstraint "game_sessions" "FK_player_game_session"
    (ForeignKey "playerId" "users" "id" SetNull)).

Definition RepairSchemaToMatchEntities_down : Mig :=
  Repair_drop_foreign_keys;; Repair_drop_columns;; Repair_drop_tables;;
  Repair_restore_hand_named.

(** ** 1790363500000-RenameGossipGodToGossipGuru *)

Definition has_label (n v : string) (s : schema) : bool :=
  match enums s !! n with Some labels => bool_decide (v ∈ labels) | None => false end.

Definition RenameGossipGodToGossipGuru_up : Mig :=
  query (unless (λ s, negb (has_label "users_leveltitle_enum" "Gossip God" s))
    (renameValue "users_leveltitle_enum" "Gossip God" "Gossip Guru")).
Definition RenameGossipGodToGossipGuru_down : Mig := mret tt.

(** ** 1791000000000-AddStakeDeadlineToWagers *)

Definition AddStakeDeadlineToWagers_up : Mig :=
  query (addColumn "wagers" (optional "stakeDeadline" Timestamp)).
Definition AddStakeDeadlineToWagers_down : Mig := query (dropColumn "wagers" "stakeDeadline").

(** ** 1792000000000-AddTimedRoundsHintsAndDailyChallenges *)

Definition AddTimedRoundsHintsAndDailyChallenges_up : Mig :=
  query (actions
    [ addColumn "game_rounds" (required_def "answerWindowSeconds" Int4 (DInt 20));
      addColumn "game_rounds" (required_def "hintsUsed" Int4 (DInt 0));
      addColumn "game_rounds" (optional "sessionId" Uuid) ]);;
  query (createTable "daily_challenges"
    [ required "date" Date; required "lyricIds" (ArrayOf Int4);
      required_def "createdAt" Timestamp DNow ]
    [ ("PK_daily_challenges", PrimaryKey ["date"]) ]);;
  query (createTable "daily_challenge_attempts"
    [ id_uuid; required "userId" Uuid; required "challengeDate" Date;
      required "lyricId" Int4; required "guessType" (varchar 16);
      required "isCorrect" Boolean; required "points" Int4;
      required_def "createdAt" Timestamp DNow ]
    [ ("PK_daily_challenge_attempts", PrimaryKey ["id"]);
      ("UQ_daily_attempt_user_day_lyric", UniqueKey ["userId"; "challengeDate"; "lyricId"]) ]);;
  query (createIndex "IDX_daily_attempt_day" "daily_challenge_attempts" [Col "challengeDate"]).

Definition AddTimedRoundsHintsAndDailyChallenges_down : Mig :=
  query (dropIndex "IDX_daily_attempt_day");;
  query (dropTable "daily_challenge_attempts");;
  query (dropTable "daily_challenges");;
  query (actions
    [ dropColumn "game_rounds" "sessionId"; dropColumn "game_rounds" "hintsUsed";
      dropColumn "game_rounds" "answerWindowSeconds" ]).

(** ** 1793000000000-AddDifficultyConstraintAndDefault *)

Definition AddDifficultyConstraintAndDefault_up : Mig :=
  query (updateRows "lyrics" (λ r, field r "difficulty" == CInt 0) <[ "difficulty" := CInt 3 ]>);;
  query (setDefault "lyrics" "difficulty" (DInt 3));;
  query (addConstraint "lyrics" "CHK_lyrics_difficulty" (Between "difficulty" 1 5)).

Definition AddDifficultyConstraintAndDefault_down : Mig :=
  query (dropConstraint "lyrics" "CHK_lyrics_difficulty");;
  query (setDefault "lyrics" "difficulty" (DInt 0)).

(** ** 1793000000001-AddEmailVerificationAndPasswordReset *)

Definition table_has_column (t : option table) (c : string) : bool :=
  match t with Some d => has_column d c | None => false end.
Definition table_lacks_column (t : option table) (c : string) : bool :=
  match t with Some d => negb (has_column d c) | None => false end.

(** The steps of one token table: lines 39 to 117, and 120 to 194. *)
Definition create_token_table (nm : naming) (t : string) (purpose : list column)
    (idx_user idx_hash : string) : Mig :=
  exists_ ← hasTable t;
  if (exists_ : bool) then mret tt else
  runner_createTable nm t
    ([ id_uuid; required "userId" Uuid ] ++ purpose ++
     [ required "tokenHash" (varchar 64); required "expiresAt" Timestamp;
       optional "usedAt" Timestamp; required_def "createdAt" Timestamp DCurrentTimestamp ])
    ["tokenHash"];;
  runner_createForeignKey nm t "userId" "users" "id" Cascade;;
  query (createIndex idx_user t [Col "userId"]);;
  query (createUniqueIndex idx_hash t [Col "tokenHash"]).

Definition AddEmailVerificationAndPasswordReset_up (nm : naming) : Mig :=
  usersTable ← getTable "users";
  (if table_lacks_column usersTable "emailVerifiedAt"
   then query (addColumn "users" (optional "emailVerifiedAt" Timestamp)) else mret tt);;
  create_token_table nm "email_tokens"
    [required_def "purpose" (varchar 32) (DText "email_verification")]
    "IDX_email_tokens_userId" "IDX_email_tokens_tokenHash";;
  create_token_table nm "password_reset_tokens" []
    "IDX_password_reset_tokens_userId" "IDX_password_reset_tokens_tokenHash".

Definition drop_table_if_there (t : string) : Mig :=
  exists_ ← hasTable t;
  if (exists_ : bool) then query (dropTable t) else mret tt.

Definition AddEmailVerificationAndPasswordReset_down : Mig :=
  drop_table_if_there "password_reset_tokens";;
  drop_table_if_there "email_tokens";;
  usersTable ← getTable "users";
  if table_has_column usersTable "emailVerifiedAt"
  then query (dropColumn "users" "emailVerifiedAt") else mret tt.

(** ** 1794000000000-AddRoomCodeHostAndLifecycle *)

Definition alphabet : string := "ABCDEFGHJKLMNPQRSTUVWXYZ23456789".

(** [substr(alphabet, 1 + floor(random() * length(alphabet))::int, 1)], for the draw
    [floor(random() * length(alphabet))]. *)
Definition draw_char (d : nat) : string := String.substring d 1 alphabet.
Definition candidate (ds : list nat) : string := String.concat "" (draw_char <$> ds).

(** [LOOP … EXIT WHEN NOT EXISTS …]: candidates are drawn until one is free. *)
Definition code_taken (code : string) (rs : list row) : bool :=
  existsb (λ r, field r "code" == CText code) rs.
Fixpoint fresh_code (draws : list (list nat)) (rs : list row) :
    option (string * list (list nat)) :=
  match draws with
  | [] => None
  | ds :: rest =>
      if code_taken (candidate ds) rs then fresh_code rest rs else Some (candidate ds, rest)
  end.

(** [UPDATE "rooms" SET "code" = candidate WHERE "id" = room."id"] *)
Definition set_code (id : cell) (code : string) (r : row) : row :=
  if field r "id" == id then <[ "code" := CText code ]> r else r.

(** [FOR room IN SELECT "id" FROM "rooms" WHERE "code" IS NULL LOOP]; [None] when the draws
    supplied run out. *)
Fixpoint assign_codes (ids : list cell) (draws : list (list nat)) (rs : list row) :
    option (list row) :=
  match ids with
  | [] => Some rs
  | id :: ids' =>
      match fresh_code draws rs with
      | Some (code, rest) => assign_codes ids' rest (set_code id code <$> rs)
      | None => None
      end
  end.
Definition without_code (rs : list row) : list cell :=
  (λ r, field r "id") <$> List.filter (λ r, field r "code" == Null) rs.
Definition fill_codes (draws : list (list nat)) : statement := λ s,
  d ← get_table s "rooms";
  rs ← found (assign_codes (without_code (rows d)) draws (rows d)) (not_supported "draws");
  Ok (put_table "rooms" (d <| rows := rs |>) s).

Definition enum_known (n : string) (s : schema) : bool := bool_decide (is_Some (enums s !! n)).

Definition AddRoomCodeHostAndLifecycle_up (draws : list (list nat)) : Mig :=
  query (unless (enum_known "rooms_status_enum")
    (createType "rooms_status_enum" ["lobby"; "in_progress"; "finished"]));;
  query (actions
    [ addColumnIfNotExists "rooms" (optional "code" (varchar 6));
      addColumnIfNotExists "rooms" (optional "hostId" varying);
      addColumnIfNotExists "rooms" (required_def "maxPlayers" Int4 (DInt 8));
      addColumnIfNotExists "rooms"
        (required_def "status" (EnumT "rooms_status_enum") (DText "lobby"));
      addColumnIfNotExists "rooms" (optional "startedAt" Timestamp);
      addColumnIfNotExists "rooms" (required_def "roundCount" Int4 (DInt 0)) ]);;
  query (fill_codes draws);;
  query (updateRows "rooms"
    (λ r, (field r "isClosed" == CBool true) && (field r "status" == CText "lobby"))
    <[ "status" := CText "finished" ]>);;
  query (setNotNull "rooms" "code");;
  query (dropConstraintIfExists "rooms" "UQ_368d83b661b9670e7be1bbb9cdd");;
  query (addConstraint "rooms" "UQ_368d83b661b9670e7be1bbb9cdd" (UniqueKey ["code"]));;
  query (ifNotExists "IDX_368d83b661b9670e7be1bbb9cd"
    (createUniqueIndex "IDX_368d83b661b9670e7be1bbb9cd" "rooms" [Col "code"])).

Definition AddRoomCodeHostAndLifecycle_down : Mig :=
  query (dropIndexIfExists "IDX_368d83b661b9670e7be1bbb9cd");;
  query (dropConstraintIfExists "rooms" "UQ_368d83b661b9670e7be1bbb9cdd");;
  query (actions
    [ dropColumnIfExists "rooms" "roundCount"; dropColumnIfExists "rooms" "startedAt";
      dropColumnIfExists "rooms" "status"; dropColumnIfExists "rooms" "maxPlayers";
      dropColumnIfExists "rooms" "hostId"; dropColumnIfExists "rooms" "code" ]);;
  query (dropTypeIfExists "rooms_status_enum").

(** ** 1794000000000-AddSourceAndRightsToLyrics *)

Definition copy_creator (r : row) : row := <[ "addedBy" := field r "createdById" ]> r.
Definition clear_content (r : row) : row := <[ "content" := Null ]> r.
Definition content_from_snippet (r : row) : row := <[ "content" := field r "lyricSnippet" ]> r.

Definition AddSourceAndRightsToLyrics_up : Mig :=
  query (actions
    [ addColumn "lyrics" (required_def "source" (varchar 100) (DText "unknown"));
      addColumn "lyrics" (optional "sourceUrl" (varchar 500));
      addColumn "lyrics" (optional "licence" (varchar 100));
      addColumn "lyrics" (optional "addedBy" (varchar 100)) ]);;
  query (dropDefault "lyrics" "source");;
  query (updateRows "lyrics" (λ r, negb (field r "createdById" == Null)) copy_creator);;
  query (createIndex "IDX_lyrics_source" "lyrics" [Col "source"]);;
  query (dropNotNull "lyrics" "content");;
  query (updateRows "lyrics" (λ _, true) clear_content).

Definition AddSourceAndRightsToLyrics_down : Mig :=
  query (updateRows "lyrics" (λ r, field r "content" == Null) content_from_snippet);;
  query (setNotNull "lyrics" "content");;
  query (dropIndex "IDX_lyrics_source");;
  query (actions
    [ dropColumn "lyrics" "addedBy"; dropColumn "lyrics" "licence";
      dropColumn "lyrics" "sourceUrl"; dropColumn "lyrics" "source" ]).

(** ** 1794000000000-ConvertTimestampsToTimestamptz *)

(** The columns of a type in the public schema, outside [migrations]. *)
Definition columns_of_type (from : sql_type) (s : schema) : list (string * string) :=
  nt ← map_to_list (tables s);
  if nt.1 == "migrations" then []
  else (λ k, (nt.1, cname k)) <$> List.filter (λ k, ctype k == from) (columns nt.2).

(** [x AT TIME ZONE 'UTC'], either way: the microseconds stay. *)
Definition at_time_zone_utc (v : cell) : result cell := Ok v.

Definition convert (from to : sql_type) : Mig :=
  query (λ s, actions
    ((λ tc, alterType tc.1 tc.2 to at_time_zone_utc) <$> columns_of_type from s) s).

Definition ConvertTimestampsToTimestamptz_up : Mig := convert Timestamp Timestamptz.
Definition ConvertTimestampsToTimestamptz_down : Mig := convert Timestamptz Timestamp.

(** ** 1794000000001-AddAliasesAndFixLyricsCreatedBy *)

Definition AddAliasesAndFixLyricsCreatedBy_up : Mig :=
  query (actions
    [ addColumnIfNotExists "lyrics" (required_def "artistAliases" (ArrayOf Text) (DText "{}"));
      addColumnIfNotExists "lyrics" (required_def "titleAliases" (ArrayOf Text) (DText "{}")) ]);;
  query (dropConstraintIfExists "lyrics" "FK_lyrics_created_by");;
  query (dropConstraintIfExists "lyrics" "FK_11b6fbc73460d1fc82acf848400");;
  query (dropNotNull "lyrics" "createdById");;
  query (addConstraint "lyrics" "FK_11b6fbc73460d1fc82acf848400"
    (ForeignKey "createdById" "users" "id" SetNull));;
  query (dropConstraintIfExists "lyrics" "CHK_lyrics_difficulty");;
  query (dropConstraintIfExists "lyrics" "CHK_724269b17424f8da39f5be1fe4");;
  query (addConstraint "lyrics" "CHK_724269b17424f8da39f5be1fe4" (Between "difficulty" 1 5)).

Definition AddAliasesAndFixLyricsCreatedBy_down : Mig :=
  query (dropConstraint "lyrics" "CHK_724269b17424f8da39f5be1fe4");;
  query (addConstraint "lyrics" "CHK_lyrics_difficulty" (Between "difficulty" 1 5));;
  query (actions [ dropColumn "lyrics" "titleAliases"; dropColumn "lyrics" "artistAliases" ]).

(** ** 1794000000001-AuditLogsAppendOnlyTrigger *)

Definition AuditLogsAppendOnlyTrigger_up : Mig :=
  query (createOrReplaceFunction "audit_logs_block_mutation");;
  query (createTrigger "audit_logs_append_only" "audit_logs" "audit_logs_block_mutation").
Definition AuditLogsAppendOnlyTrigger_down : Mig :=
  query (dropTriggerIfExists "audit_logs_append_only" "audit_logs");;
  query (dropFunctionIfExists "audit_logs_block_mutation").

(** ** 1794000000002-AddWagerSettlementIntent *)

Definition AddWagerSettlementIntent_up : Mig :=
  query (unless (enum_known "settlement_kind_enum")
    (createType "settlement_kind_enum" ["payout"; "refund"]));;
  query (actions
    [ addColumnIfNotExists "wagers" (optional "settlementKind" (EnumT "settlement_kind_enum"));
      addColumnIfNotExists "wagers" (optional "intendedWinnerId" Uuid) ]).
Definition AddWagerSettlementIntent_down : Mig :=
  query (actions
    [ dropColumnIfExists "wagers" "intendedWinnerId";
      dropColumnIfExists "wagers" "settlementKind" ]);;
  query (dropTypeIfExists "settlement_kind_enum").

(** ** 1794000000003-AlignAuthTokenTables *)

(** [renameIndex]: when the old name exists and the new one does not. *)
Definition renameIndex (from to : string) : Mig :=
  query (unless (λ s, negb (relation_exists s from) || relation_exists s to)
    (alterIndexRename from to)).

Definition columnType (t c : string) : M schema (option sql_type) :=
  gets (λ s, d ← tables s !! t; k ← column_of d c; Some (ctype k)).
Definition toTimestamptz (t c : string) : Mig :=
  ty ← columnType t c;
  if ty == Some Timestamp
  then query (alterType t c Timestamptz at_time_zone_utc) else mret tt.
Definition toTimestamp (t c : string) : Mig :=
  ty ← columnType t c;
  if ty == Some Timestamptz
  then query (alterType t c Timestamp at_time_zone_utc) else mret tt.

Record OneTimeTokenTable := {
  ot_table : string; ot_unique : string;
  ot_userIdIndex : string * string; ot_tokenHashIndex : string * string }.

Definition ONE_TIME_TOKEN_TABLES : list OneTimeTokenTable :=
  [ {| ot_table := "email_tokens"; ot_unique := "UQ_3c9d0517a29ae032a37e258d517";
       ot_userIdIndex := ("IDX_email_tokens_userId", "IDX_0a5e6c81093655b770eabd0460");
       ot_tokenHashIndex := ("IDX_email_tokens_tokenHash", "IDX_3c9d0517a29ae032a37e258d51") |};
    {| ot_table := "password_reset_tokens"; ot_unique := "UQ_1143abb8c3fad8b06dd857a8c9c";
       ot_userIdIndex := ("IDX_password_reset_tokens_userId", "IDX_d6a19d4b4f6c62dcd29daa497e");
       ot_tokenHashIndex :=
         ("IDX_password_reset_tokens_tokenHash", "IDX_1143abb8c3fad8b06dd857a8c9") |} ].

Definition alignOneTimeTokenTable (names : OneTimeTokenTable) : Mig :=
  let t := ot_table names in
  renameIndex (ot_userIdIndex names).1 (ot_userIdIndex names).2;;
  renameIndex (ot_tokenHashIndex names).1 (ot_tokenHashIndex names).2;;
  query (ifNotExists (ot_userIdIndex names).2
    (createIndex (ot_userIdIndex names).2 t [Col "userId"]));;
  query (ifNotExists (ot_tokenHashIndex names).2
    (createUniqueIndex (ot_tokenHashIndex names).2 t [Col "tokenHash"]));;
  query (dropConstraintIfExists t (ot_unique names));;
  for_each (toTimestamptz t) ["expiresAt"; "usedAt"; "createdAt"];;
  query (setDefault t "createdAt" DNow).

(** Lines 58 to 85. *)
Definition align_refresh_tokens : Mig :=
  renameIndex "IDX_refresh_tokens_token_hash" "IDX_c25bc63d248ca90e8dcc1d92d0";;
  renameIndex "IDX_refresh_tokens_user_id" "IDX_610102b60fea1455310ccd299d";;
  query (ifNotExists "IDX_c25bc63d248ca90e8dcc1d92d0"
    (createUniqueIndex "IDX_c25bc63d248ca90e8dcc1d92d0" "refresh_tokens" [Col "tokenHash"]));;
  query (ifNotExists "IDX_610102b60fea1455310ccd299d"
    (createIndex "IDX_610102b60fea1455310ccd299d" "refresh_tokens" [Col "userId"]));;
  query (dropConstraintIfExists "refresh_tokens" "FK_refresh_tokens_user");;
  query (dropConstraintIfExists "refresh_tokens" "FK_610102b60fea1455310ccd299de");;
  query (addConstraint "refresh_tokens" "FK_610102b60fea1455310ccd299de"
    (ForeignKey "userId" "users" "id" Cascade));;
  for_each (toTimestamptz "refresh_tokens") ["expiresAt"; "revokedAt"; "createdAt"].

(** [UPDATE "email_tokens" SET "purpose" = to WHERE "purpose" = from] *)
Definition rewrite_purpose (from to : string) : statement :=
  updateRows "email_tokens" (λ r, field r "purpose" == CText from) <[ "purpose" := CText to ]>.

Definition AlignAuthTokenTables_up : Mig :=
  align_refresh_tokens;;
  query (rewrite_purpose "email_verification" "verify_email");;
  query (setDefault "email_tokens" "purpose" (DText "verify_email"));;
  for_each alignOneTimeTokenTable ONE_TIME_TOKEN_TABLES.

(** Lines 100 to 121, for one table. *)
Definition restore_one_time_token_table (names : OneTimeTokenTable) : Mig :=
  let t := ot_table names in
  query (setDefault t "createdAt" DCurrentTimestamp);;
  for_each (toTimestamp t) ["expiresAt"; "usedAt"; "createdAt"];;
  renameIndex (ot_tokenHashIndex names).2 (ot_tokenHashIndex names).1;;
  renameIndex (ot_userIdIndex names).2 (ot_userIdIndex names).1;;
  query (addConstraint t (ot_unique names) (UniqueKey ["tokenHash"])).

Definition AlignAuthTokenTables_down : Mig :=
  for_each restore_one_time_token_table (rev ONE_TIME_TOKEN_TABLES);;
  query (setDefault "email_tokens" "purpose" (DText "email_verification"));;
  query (rewrite_purpose "verify_email" "email_verification");;
  for_each (toTimestamp "refresh_tokens") ["expiresAt"; "revokedAt"; "createdAt"];;
  query (dropConstraint "refresh_tokens" "FK_610102b60fea1455310ccd299de");;
  query (addConstraint "refresh_tokens" "FK_refresh_tokens_user"
    (ForeignKey "userId" "users" "id" Cascade));;
  renameIndex "IDX_610102b60fea1455310ccd299d" "IDX_refresh_tokens_user_id";;
  renameIndex "IDX_c25bc63d248ca90e8dcc1d92d0" "IDX_refresh_tokens_token_hash".

(** ** 1794000000004-AddResponsiblePlayColumnsToUsers *)

Definition AddResponsiblePlayColumnsToUsers_up : Mig :=
  query (actions
    [ addColumnIfNotExists "users" (optional "dailyStakeLimit" Int8);
      addColumnIfNotExists "users" (optional "dailyStakeLimitEffectiveAt" Timestamp);
      addColumnIfNotExists "users" (optional "selfExclusionEndsAt" Timestamp) ]);;
  query (ifNotExists "IDX_users_username_lower"
    (createUniqueIndex "IDX_users_username_lower" "users" [Lower "username"])).

Definition AddResponsiblePlayColumnsToUsers_down : Mig :=
  query (actions
    [ dropColumnIfExists "users" "selfExclusionEndsAt";
      dropColumnIfExists "users" "dailyStakeLimitEffectiveAt";
      dropColumnIfExists "users" "dailyStakeLimit" ]).

(** ** 1794000000005-CreateNotificationsTable *)

Definition CreateNotificationsTable_up : Mig :=
  query (createTableIfNotExists "notifications"
    [ id_uuid; required "userId" Uuid; required "type" (varchar 64);
      required_def "payload" Jsonb (DText "{}"); optional "readAt" Timestamptz;
      required_def "createdAt" Timestamptz DNow ]
    [ ("PK_6a72c3c0f683f6462415e653c3a", PrimaryKey ["id"]) ]);;
  query (ifNotExists "IDX_21e65af2f4f242d4c85a92aff4"
    (createIndex "IDX_21e65af2f4f242d4c85a92aff4" "notifications" [Col "userId"; Col "createdAt"])).

Definition CreateNotificationsTable_down : Mig :=
  query (dropIndexIfExists "IDX_21e65af2f4f242d4c85a92aff4");;
  query (dropTableIfExists "notifications").

(** ** 1794000000006-AlignIndexNames *)

Definition auditLogIndexes : list (string * string * string) :=
  [ ("IDX_audit_logs_actor_id", "IDX_2dc33f7f3c22e2e7badafca1d1", "actorId");
    ("IDX_audit_logs_action", "IDX_cee5459245f652b75eb2759b4c", "action");
    ("IDX_audit_logs_target_id", "IDX_fcfb9137823075fb3162b82f73", "targetId") ].

Definition AlignIndexNames_up : Mig :=
  for_each (λ '(from, to, c),
    renameIndex from to;;
    query (ifNotExists to (createIndex to "audit_logs" [Col c]))) auditLogIndexes;;
  query (ifNotExists "IDX_5ec199dfd58606da0887b7018f"
    (createIndex "IDX_5ec199dfd58606da0887b7018f" "game_history" [Col "createdAt"; Col "playerId"]));;
  query (ifNotExists "IDX_game_rounds_user_issued"
    (createIndex "IDX_game_rounds_user_issued" "game_rounds" [Col "userId"; Col "issuedAt"])).

Definition AlignIndexNames_down : Mig :=
  query (dropIndexIfExists "IDX_game_rounds_user_issued");;
  query (dropIndexIfExists "IDX_5ec199dfd58606da0887b7018f");;
  for_each (λ '(from, to, c), renameIndex to from) auditLogIndexes.

(** ** 1794100000000-AddSessionMetadataToRefreshTokens *)

Definition AddSessionMetadataToRefreshTokens_up : Mig :=
  query (actions
    [ addColumn "refresh_tokens" (optional "userAgent" (varchar 255));
      addColumn "refresh_tokens" (optional "ip" (varchar 64));
      addColumn "refresh_tokens" (optional "lastUsedAt" Timestamptz);
      addColumn "refresh_tokens" (optional "deviceName" (varchar 100)) ]);;
  query (createIndex "IDX_refresh_tokens_expiresAt" "refresh_tokens" [Col "expiresAt"]);;
  query (createIndex "IDX_refresh_tokens_revokedAt" "refresh_tokens" [Col "revokedAt"]).

Definition AddSessionMetadataToRefreshTokens_down : Mig :=
  query (dropIndex "IDX_refresh_tokens_revokedAt");;
  query (dropIndex "IDX_refresh_tokens_expiresAt");;
  query (actions
    [ dropColumn "refresh_tokens" "deviceName"; dropColumn "refresh_tokens" "lastUsedAt";
      dropColumn "refresh_tokens" "ip"; dropColumn "refresh_tokens" "userAgent" ]).

(** ** 1794200000000-CreateGameHistoryArchive *)

Definition CreateGameHistoryArchive_up : Mig :=
  query (createTableLike "game_history_archive" "game_history");;
  query (addConstraint "game_history_archive" "PK_game_history_archive" (PrimaryKey ["id"]));;
  query (createIndex "IDX_game_history_archive_playerId" "game_history_archive" [Col "playerId"]).

Definition CreateGameHistoryArchive_down : Mig :=
  query (insertSelect "game_history" "game_history_archive");;
  query (dropTable "game_history_archive").

(** ** The chain *)

Record migration := Migration {
  mname : string; mtimestamp : Z; mup : Mig; mdown : Mig }.

Definition runs (nm : naming) (draws : list (list nat)) : list migration :=
  [ Migration "CreateRoomsAndRoomUsers1691625843781" 1691625843781
      (CreateRoomsAndRoomUsers_up nm) CreateRoomsAndRoomUsers_down;
    Migration "CreateUsersTable1754625843781" 1754625843781
      CreateUsersTable_up CreateUsersTable_down;
    Migration "CreateGameSessionsTable1754625844000" 1754625844000
      CreateGameSessionsTable_up CreateGameSessionsTable_down;
    Migration "AddIndexToUserEmail1754626322434" 1754626322434
      AddIndexToUserEmail_up AddIndexToUserEmail_down;
    Migration "AddUserPreferences1755000000000" 1755000000000
      AddUserPreferences_up AddUserPreferences_down;
    Migration "AddMockTokenBalanceToUsers1755077435852" 1755077435852
      AddMockTokenBalanceToUsers_up AddMockTokenBalanceToUsers_down;
    Migration "AddMultiplayerSupportToGameSessions1755077436000" 1755077436000
      AddMultiplayerSupportToGameSessions_up AddMultiplayerSupportToGameSessions_down;
    Migration "CreateWagersTable1755077437000" 1755077437000
      CreateWagersTable_up CreateWagersTable_down;
    Migration "AddCaseInsensitiveUniqueIndexToUsers1758800000000" 1758800000000
      AddCaseInsensitiveUniqueIndexToUsers_up AddCaseInsensitiveUniqueIndexToUsers_down;
    Migration "AddSetNullToLyricsCreatedBy1758900000000" 1758900000000
      AddSetNullToLyricsCreatedBy_up AddSetNullToLyricsCreatedBy_down;
    Migration "CreateRefreshTokensTable1759000000000" 1759000000000
      CreateRefreshTokensTable_up CreateRefreshTokensTable_down;
    Migration "AddTokenVersionToUsers1759000000001" 1759000000001
      AddTokenVersionToUsers_up AddTokenVersionToUsers_down;
    Migration "MigrateWagersToStellarEscrow1788480000000" 1788480000000
      MigrateWagersToStellarEscrow_up MigrateWagersToStellarEscrow_down;
    Migration "CreateGameRoundsTable1788490000000" 1788490000000
      CreateGameRoundsTable_up CreateGameRoundsTable_down;
    Migration "AddLatestStakeHashesToWagers1790000000000" 1790000000000
      AddLatestStakeHashesToWagers_up AddLatestStakeHashesToWagers_down;
    Migration "CreateAuditLogsTable1790000000001" 1790000000001
      CreateAuditLogsTable_up CreateAuditLogsTable_down;
    Migration "RepairSchemaToMatchEntities1790363455031" 1790363455031
      RepairSchemaToMatchEntities_up RepairSchemaToMatchEntities_down;
    Migration "RenameGossipGodToGossipGuru1790363500000" 1790363500000
      RenameGossipGodToGossipGuru_up RenameGossipGodToGossipGuru_down;
    Migration "AddStakeDeadlineToWagers1791000000000" 1791000000000
      AddStakeDeadlineToWagers_up AddStakeDeadlineToWagers_down;
    Migration "AddTimedRoundsHintsAndDailyChallenges1792000000000" 1792000000000
      AddTimedRoundsHintsAndDailyChallenges_up AddTimedRoundsHintsAndDailyChallenges_down;
    Migration "AddDifficultyConstraintAndDefault1793000000000" 1793000000000
      AddDifficultyConstraintAndDefault_up AddDifficultyConstraintAndDefault_down;
    Migration "AddEmailVerificationAndPasswordReset1793000000001" 1793000000001
      (AddEmailVerificationAndPasswordReset_up nm) AddEmailVerificationAndPasswordReset_down;
    Migration "AddRoomCodeHostAndLifecycle1794000000000" 1794000000000
      (AddRoomCodeHostAndLifecycle_up draws) AddRoomCodeHostAndLifecycle_down;
    Migration "AddSourceAndRightsToLyrics1794000000000" 1794000000000
      AddSourceAndRightsToLyrics_up AddSourceAndRightsToLyrics_down;
    Migration "ConvertTimestampsToTimestamptz1794000000000" 1794000000000
      ConvertTimestampsToTimestamptz_up ConvertTimestampsToTimestamptz_down;
    Migration "AddAliasesAndFixLyricsCreatedBy1794000000001" 1794000000001
      AddAliasesAndFixLyricsCreatedBy_up AddAliasesAndFixLyricsCreatedBy_down;
    Migration "AuditLogsAppendOnlyTrigger1794000000001" 1794000000001
      AuditLogsAppendOnlyTrigger_up AuditLogsAppendOnlyTrigger_down;
    Migration "AddWagerSettlementIntent1794000000002" 1794000000002
      AddWagerSettlementIntent_up AddWagerSettlementIntent_down;
    Migration "AlignAuthTokenTables1794000000003" 1794000000003
      AlignAuthTokenTables_up AlignAuthTokenTables_down;
    Migration "AddResponsiblePlayColumnsToUsers1794000000004" 1794000000004
      AddResponsiblePlayColumnsToUsers_up AddResponsiblePlayColumnsToUsers_down;
    Migration "CreateNotificationsTable1794000000005" 1794000000005
      CreateNotificationsTable_up CreateNotificationsTable_down;
    Migration "AlignIndexNames1794000000006" 1794000000006
      AlignIndexNames_up AlignIndexNames_down;
    Migration "AddSessionMetadataToRefreshTokens1794100000000" 1794100000000
      AddSessionMetadataToRefreshTokens_up AddSessionMetadataToRefreshTokens_down;
    Migration "CreateGameHistoryArchive1794200000000" 1794200000000
      CreateGameHistoryArchive_up CreateGameHistoryArchive_down ].

(** [migration:run]: the pending migrations in one transaction, in the order of [ms]. *)
Definition run_all (ms : list migration) : Mig := transaction (for_each mup ms).
(** [migration:revert], once per migration, the latest first. *)
Definition revert_all (ms : list migration) : Mig :=
  for_each (λ m, transaction (mdown m)) (rev ms).
