(* ===== verification/EntityTables.v ===== *)
(** * The tables the entities declare

    One list of columns per [*.entity.ts]: name, type, [NOT NULL], default, in the order
    of the class.  [@Column()] without a type takes the type TypeORM documents for the
    property's TypeScript type: those four types are a parameter, [inferred].  A relation
    without a column of its own declares a nullable [<property>Id] of the key it refers
    to; a join column that is also declared has the key's type. *)

From S2P Require Import Prelude Schema Migrations.

Record inferred := Inferred {
  ts_string : sql_type; ts_number : sql_type; ts_boolean : sql_type; ts_date : sql_type }.

Section entities.
  Context (ty : inferred).

Definition created (n : string) : column := required_def n Timestamptz DNow.

Definition User_columns : list column :=
  [ id_uuid;
    required "email" (varchar 255);
    required "username" (ts_string ty);
    optional "name" (varchar 255);
    required "passwordHash" (ts_string ty);
    required_def "xp" (ts_number ty) (DInt 0);
    required_def "level" (ts_number ty) (DInt 1);
    required_def "levelTitle" (EnumT "users_leveltitle_enum") (DText "Gossip Rookie");
    created "createdAt"; created "updatedAt";
    optional "lastLoginAt" (ts_date ty);
    required_def "role" (varchar 20) (DText "user");
    required_def "isActive" Boolean (DBool true);
    required_def "tokenVersion" Int4 (DInt 0);
    optional "stellarAddress" (varchar 56);
    optional "stellarAddressVerifiedAt" Timestamptz;
    optional "emailVerifiedAt" Timestamptz;
    required_def "mockBalance" Int8 (DInt 1000000000);
    optional "dailyStakeLimit" Int8;
    optional "dailyStakeLimitEffectiveAt" Timestamptz;
    optional "selfExclusionEndsAt" Timestamptz;
    optional "preferredGenre" (EnumT "users_preferredgenre_enum");
    optional "preferredDecade" (EnumT "users_preferreddecade_enum") ].

Definition Lyrics_columns : list column :=
  [ required_def "id" Int4 DNextval;
    optional "content" Text;
    required "artist" (ts_string ty);
    required_def "artistAliases" (ArrayOf Text) (DText "{}");
    required "lyricSnippet" Text;
    required "songTitle" (varchar 200);
    required_def "titleAliases" (ArrayOf Text) (DText "{}");
    optional "category" (varchar 50);
    required_def "genre" (EnumT "lyrics_genre_enum") (DText "Other");
    required "decade" (varchar 10);
    required_def "difficulty" Int4 (DInt 3);
    required_def "isActive" Boolean (DBool true);
    required_def "timesUsed" Int4 (DInt 0);
    required "source" (varchar 100);
    optional "sourceUrl" (varchar 500);
    optional "licence" (varchar 100);
    optional "addedBy" (varchar 100);
    optional "createdById" Uuid;
    created "createdAt"; created "updatedAt" ].

Definition GameHistory_columns : list column :=
  [ id_uuid; required "playerId" Uuid; required "lyricId" Int4;
    optional "gameSessionId" Uuid;
    required "guessType" (EnumT "game_history_guesstype_enum");
    required "guessValue" (varchar 200);
    required "isCorrect" Boolean;
    required_def "pointsAwarded" Int4 (DInt 0);
    required_def "xpChange" Int4 (DInt 0);
    optional "wagerAmount" Int4;
    created "createdAt" ].

Definition GameSession_columns : list column :=
  [ id_uuid; optional "playerId" Uuid; optional "playerTwoId" Uuid;
    required_def "score" Int4 (DInt 0);
    required_def "playerTwoScore" Int4 (DInt 0);
    required "category" (EnumT "game_category_enum");
    required_def "mode" (EnumT "game_mode_enum") (DText "single_player");
    required_def "status" (EnumT "game_session_status_enum") (DText "in_progress");
    optional "winnerId" Uuid;
    optional "wagerStroops" Int8;
    required_def "hasWager" Boolean (DBool false);
    created "createdAt"; created "updatedAt";
    optional "completedAt" Timestamptz ].

Definition Wager_columns : list column :=
  [ id_uuid; required "sessionId" Uuid; required "playerAId" Uuid; required "playerBId" Uuid;
    required "stakeStroops" Int8; required "totalPotStroops" Int8;
    required_def "status" (EnumT "wager_status_enum") (DText "pending");
    optional "winnerId" Uuid;
    optional "settlementKind" (EnumT "settlement_kind_enum");
    optional "intendedWinnerId" Uuid;
    required_def "settlementMode" (varchar 16) (DText "mock");
    optional "escrowTxHash" (varchar 128);
    optional "playerAStakeTxHash" (varchar 128);
    optional "playerBStakeTxHash" (varchar 128);
    optional "playerALatestStakeHash" (varchar 128);
    optional "playerBLatestStakeHash" (varchar 128);
    optional "settlementTxHash" (varchar 128);
    optional "settlementLedger" Int8;
    optional "resultMessage" Text;
    optional "stakeDeadline" Timestamptz;
    created "createdAt"; created "updatedAt";
    optional "resolvedAt" Timestamptz ].

Definition Room_columns : list column :=
  [ id_uuid; optional "name" (ts_string ty); required "code" (varchar 6);
    required "lyricId" Int4; optional "hostId" (ts_string ty);
    required_def "maxPlayers" Int4 (DInt 8);
    required_def "status" (EnumT "rooms_status_enum") (DText "lobby");
    optional "startedAt" Timestamptz;
    required_def "roundCount" Int4 (DInt 0);
    created "createdAt"; optional "expiresAt" Timestamptz;
    required_def "isClosed" (ts_boolean ty) (DBool false) ].

Definition RoomUser_columns : list column :=
  [ id_uuid; required "userId" Uuid; required "roomId" Uuid;
    required_def "hasGuessed" (ts_boolean ty) (DBool false);
    required_def "score" Float8 (DInt 0);
    optional "guess" Text; created "joinedAt"; optional "guessedAt" Timestamptz ].

Definition GameRound_columns : list column :=
  [ id_uuid; required "userId" Uuid; required "lyricId" Int4; created "issuedAt";
    required "expiresAt" Timestamptz;
    required_def "answerWindowSeconds" Int4 (DInt 20);
    required_def "hintsUsed" Int4 (DInt 0);
    optional "sessionId" Uuid; optional "closedAt" Timestamptz ].

Definition RefreshToken_columns : list column :=
  [ id_uuid; required "userId" Uuid; required "tokenHash" (varchar 64);
    required "expiresAt" Timestamptz; optional "revokedAt" Timestamptz;
    optional "userAgent" (varchar 255); optional "ip" (varchar 64);
    optional "lastUsedAt" Timestamptz; optional "deviceName" (varchar 100);
    created "createdAt" ].

Definition EmailToken_columns : list column :=
  [ id_uuid; required "userId" Uuid;
    required_def "purpose" (varchar 32) (DText "verify_email");
    required "tokenHash" (varchar 64); required "expiresAt" Timestamptz;
    optional "usedAt" Timestamptz; created "createdAt" ].

Definition PasswordResetToken_columns : list column :=
  [ id_uuid; required "userId" Uuid; required "tokenHash" (varchar 64);
    required "expiresAt" Timestamptz; optional "usedAt" Timestamptz; created "createdAt" ].

Definition AuditLog_columns : list column :=
  [ id_uuid; required "actorId" (ts_string ty); required "action" (ts_string ty);
    optional "targetType" (ts_string ty); optional "targetId" (ts_string ty);
    optional "payload" Jsonb; optional "ip" (ts_string ty); created "timestamp" ].

Definition Notification_columns : list column :=
  [ id_uuid; required "userId" Uuid; required "type" (varchar 64);
    required_def "payload" Jsonb (DText "{}"); optional "readAt" Timestamptz;
    created "createdAt" ].

Definition DailyChallenge_columns : list column :=
  [ required "date" Date; required "lyricIds" (ArrayOf Int4); created "createdAt" ].

Definition DailyChallengeAttempt_columns : list column :=
  [ id_uuid; required "userId" Uuid; required "challengeDate" Date; required "lyricId" Int4;
    required "guessType" (varchar 16); required "isCorrect" Boolean; required "points" Int4;
    created "createdAt" ].

(** [@Entity(…)] of each class. *)
Definition entity_tables : list (string * list column) :=
  [ ("users", User_columns); ("lyrics", Lyrics_columns); ("game_history", GameHistory_columns);
    ("game_sessions", GameSession_columns); ("wagers", Wager_columns);
    ("rooms", Room_columns); ("room_users", RoomUser_columns);
    ("game_rounds", GameRound_columns); ("refresh_tokens", RefreshToken_columns);
    ("email_tokens", EmailToken_columns);
    ("password_reset_tokens", PasswordResetToken_columns);
    ("audit_logs", AuditLog_columns); ("notifications", Notification_columns);
    ("daily_challenges", DailyChallenge_columns);
    ("daily_challenge_attempts", DailyChallengeAttempt_columns) ].
End entities.

(** The columns of a table on which two descriptions differ. *)
Definition differing (want have : list column) : list string :=
  cname <$> (List.filter (λ k, bool_decide (k ∉ have)) want
             ++ List.filter (λ k, bool_decide (k ∉ want)
                                  && bool_decide (cname k ∉ cname <$> want)) have).

(** [migration:check], for tables and columns: what differs from the entities. *)
Definition drift (ty : inferred) (s : schema) : list (string * list string) :=
  List.filter (λ nc, negb (bool_decide (nc.2 = [])))
    ((λ nc, (nc.1, match tables s !! nc.1 with
                   | Some d => differing nc.2 (columns d)
                   | None => cname <$> nc.2
                   end)) <$> entity_tables ty).
