(* ===== verification/RoomCodes.v ===== *)
(** * The codes a migration gives to existing rooms

    [AddRoomCodeHostAndLifecycle] walks the rooms without a code and draws candidates
    until one is free.  Rooms that have a code keep it, every other room gets a candidate
    that no room has, so the column can become NOT NULL and UNIQUE; and the loop ends as
    soon as the draws contain enough different candidates. *)

From S2P Require Import Prelude Schema Migrations.

Definition codes (rs : list row) : list cell := (λ r, field r "code") <$> rs.
Definition ids (rs : list row) : list cell := (λ r, field r "id") <$> rs.
Definition given (rs : list row) : list cell := List.filter (λ v, negb (v == Null)) (codes rs).
Definition coded (r : row) : Prop := field r "code" ≠ Null.
Definition with_code (code : string) (r : row) : row := <[ "code" := CText code ]> r.

(** What a row may become: itself when it had a code, else itself with a drawn candidate. *)
Definition recoded (draws : list (list nat)) (r r' : row) : Prop :=
  (coded r ∧ r' = r) ∨
  (field r "code" = Null ∧ ∃ ds, ds ∈ draws ∧ r' = with_code (candidate ds) r).

Lemma without_code_cons r rs : without_code (r :: rs) =
  if field r "code" == Null then field r "id" :: without_code rs else without_code rs.
Proof. unfold without_code. cbn. by destruct (field r "code" == Null). Qed.

Lemma without_code_ids rs : ∀ id, id ∈ without_code rs → id ∈ ids rs.
Proof.
  induction rs as [|r rs IH]; intros id H; [by apply not_elem_of_nil in H|].
  rewrite without_code_cons in H. unfold ids in *. cbn.
  destruct (field r "code" == Null); [apply elem_of_cons in H as [->|H]|]; set_solver.
Qed.

Lemma without_code_coded l : Forall coded l → without_code l = [].
Proof.
  induction 1 as [|r l Hr Hl IH]; [done|]. rewrite without_code_cons.
  by rewrite (bool_decide_eq_false_2 (field r "code" = Null)).
Qed.

Lemma without_code_app l1 l2 : without_code (l1 ++ l2) = without_code l1 ++ without_code l2.
Proof.
  induction l1 as [|r l1 IH]; [done|]. cbn [app]. rewrite !without_code_cons, IH.
  by destruct (field r "code" == Null).
Qed.

Lemma given_app l1 l2 : given (l1 ++ l2) = given l1 ++ given l2.
Proof. unfold given, codes. by rewrite fmap_app, List.filter_app. Qed.

Lemma set_code_others id code l : id ∉ ids l → set_code id code <$> l = l.
Proof.
  induction l as [|r l IH]; intros H; [done|]. cbn [ids fmap list_fmap] in *.
  apply not_elem_of_cons in H as [Hr Hl]. cbn. unfold set_code at 1.
  rewrite (bool_decide_eq_false_2 (field r "id" = id)) by congruence. f_equal. by apply IH.
Qed.

(** The first room without a code, and the update of it alone. *)
Lemma first_without_code rs id todo : NoDup (ids rs) → without_code rs = id :: todo →
  ∃ l1 r l2, rs = l1 ++ r :: l2 ∧ Forall coded l1 ∧ field r "code" = Null ∧
    field r "id" = id ∧ without_code l2 = todo ∧
    ∀ code, set_code id code <$> rs = l1 ++ with_code code r :: l2.
Proof.
  induction rs as [|r rs IH]; intros Hnd Hw; [done|].
  cbn in Hnd. apply list.NoDup_cons in Hnd as [Hr Hnd]. rewrite without_code_cons in Hw.
  destruct (field r "code" == Null) eqn:E; bool_prop.
  - simplify_eq. exists [], r, rs. split_and!; auto. intros code. cbn. unfold set_code at 1.
    rewrite (bool_decide_eq_true_2 (field r "id" = _)) by done. unfold with_code. f_equal.
    by apply set_code_others.
  - destruct (IH Hnd Hw) as (l1 & r0 & l2 & -> & Hl1 & Hc & Hid & Hl2 & Hset).
    exists (r :: l1), r0, l2. split_and!; auto.
    intros code. cbn. rewrite Hset. unfold set_code.
    rewrite (bool_decide_eq_false_2 (field r "id" = id)); [done|].
    intros Heq. apply Hr. rewrite Heq. apply without_code_ids. rewrite Hw. set_solver.
Qed.

Lemma code_taken_given code rs : code_taken code rs = false → CText code ∉ given rs.
Proof.
  intros H Hin. unfold given, codes in Hin. apply list_elem_of_In, filter_In in Hin as [Hin _].
  apply list_elem_of_In, list_elem_of_fmap in Hin as (r & Hr & Hin).
  assert (code_taken code rs = true); [|congruence].
  apply existsb_exists. exists r. split; [by apply list_elem_of_In|]. by apply bool_decide_eq_true_2.
Qed.

Lemma fresh_code_inv draws rs code rest : fresh_code draws rs = Some (code, rest) →
  code_taken code rs = false ∧ (∃ ds, ds ∈ draws ∧ code = candidate ds) ∧
  (∀ ds, ds ∈ rest → ds ∈ draws).
Proof.
  induction draws as [|ds draws IH]; cbn; intros H; [done|].
  destruct (code_taken (candidate ds) rs) eqn:E.
  - destruct (IH H) as (? & (ds' & ? & ->) & ?). split_and!; [done|exists ds'|]; set_solver.
  - simplify_eq. split_and!; [done|exists ds|]; set_solver.
Qed.

Lemma with_code_code code r : field (with_code code r) "code" = CText code.
Proof. unfold with_code, field. by rewrite lookup_insert_eq. Qed.
Lemma with_code_id code r : field (with_code code r) "id" = field r "id".
Proof. unfold with_code, field. by rewrite lookup_insert_ne. Qed.

Lemma given_cons_null r l : field r "code" = Null → given (r :: l) = given l.
Proof. intros H. unfold given. cbn. by rewrite H. Qed.
Lemma given_cons_with code r l : given (with_code code r :: l) = CText code :: given l.
Proof. unfold given. cbn. by rewrite with_code_code. Qed.

Lemma ids_middle l1 r l2 code : ids (l1 ++ with_code code r :: l2) = ids (l1 ++ r :: l2).
Proof. unfold ids. by rewrite !fmap_app, !fmap_cons, with_code_id. Qed.

Lemma recoded_weaken draws rest r r' : (∀ ds, ds ∈ rest → ds ∈ draws) →
  recoded rest r r' → recoded draws r r'.
Proof. unfold recoded. naive_solver. Qed.
Lemma recoded_refl draws l : Forall coded l → Forall2 (recoded draws) l l.
Proof. induction 1; constructor; [by left|done]. Qed.

Lemma assign_codes_spec todo draws rs rs' :
  NoDup (ids rs) → without_code rs = todo → NoDup (given rs) →
  assign_codes todo draws rs = Some rs' →
  Forall coded rs' ∧ NoDup (given rs') ∧ Forall2 (recoded draws) rs rs'.
Proof.
  revert draws rs. induction todo as [|id todo IH]; intros draws rs Hnd Hw Hg Ha; cbn in Ha.
  - simplify_eq. assert (Forall coded rs') as H.
    { clear -Hw. induction rs' as [|r l IH]; [constructor|]. rewrite without_code_cons in Hw.
      destruct (field r "code" == Null) eqn:E; [done|]. bool_prop. constructor; auto. }
    split_and!; auto. by apply recoded_refl.
  - destruct (fresh_code draws rs) as [[code rest]|] eqn:Ef; [|done].
    destruct (fresh_code_inv _ _ _ _ Ef) as (Ht%code_taken_given & (ds & Hds & ->) & Hrest).
    destruct (first_without_code rs id todo Hnd Hw)
      as (l1 & r & l2 & -> & Hl1 & Hc & Hid & Hl2 & Hset).
    rewrite Hset in Ha. rewrite given_app, given_cons_null in Hg, Ht by done.
    edestruct IH as (H1 & H2 & H3); [| | |exact Ha|].
    + by rewrite ids_middle.
    + rewrite without_code_app, (without_code_coded l1), without_code_cons, with_code_code by done.
      done.
    + rewrite given_app, given_cons_with, <- Permutation_middle. constructor; done.
    + split_and!; auto.
      apply Forall2_app_inv_l in H3 as (k1 & k2 & H31 & H32 & ->).
      inversion H32 as [|? r' ? k2' Hr H32' Heq]; subst.
      apply Forall2_app; [|constructor].
      * eapply Forall2_impl; [|exact H31]. intros ??. by apply recoded_weaken.
      * destruct Hr as [[_ ->]|[Hn _]]; [right; eauto|]. by rewrite with_code_code in Hn.
      * eapply Forall2_impl; [|exact H32']. intros ??. by apply recoded_weaken.
Qed.

(** ** The loop ends *)

Definition offered (draws : list (list nat)) : list cell := (λ ds, CText (candidate ds)) <$> draws.
(** How many rooms have a code that is still to be drawn. *)
Definition hits (draws : list (list nat)) (rs : list row) : nat :=
  length (List.filter (λ v, bool_decide (v ∈ offered draws)) (codes rs)).

Lemma filter_length_le {A} (p q : A → bool) l : (∀ x, p x = true → q x = true) →
  (length (List.filter p l) ≤ length (List.filter q l))%nat.
Proof.
  intros H. induction l as [|x l IH]; [done|]. cbn. specialize (H x).
  destruct (p x); [rewrite H by done; cbn; lia|]. destruct (q x); cbn; lia.
Qed.

Lemma filter_length_lt {A} (p q : A → bool) l x : (∀ y, p y = true → q y = true) →
  x ∈ l → q x = true → p x = false →
  (length (List.filter p l) < length (List.filter q l))%nat.
Proof.
  intros H Hx Hq Hp. induction Hx as [x l|x y l Hx IH]; cbn.
  - rewrite Hp, Hq. cbn. pose proof (filter_length_le p q l H). lia.
  - specialize (IH Hq Hp). specialize (H y). destruct (p y); [rewrite H by done; cbn; lia|].
    destruct (q y); cbn; lia.
Qed.

Lemma fresh_code_exists draws rs : NoDup (offered draws) → (hits draws rs < length draws)%nat →
  ∃ code rest, fresh_code draws rs = Some (code, rest) ∧ NoDup (offered rest) ∧
    CText code ∉ offered rest ∧ (hits rest rs + length draws ≤ hits draws rs + length rest + 1)%nat.
Proof.
  induction draws as [|ds draws IH]; cbn [length]; intros Hnd Hlt; [lia|].
  cbn in Hnd. apply list.NoDup_cons in Hnd as [Hds Hnd]. cbn [fresh_code].
  assert (∀ v, bool_decide (v ∈ offered draws) = true →
               bool_decide (v ∈ offered (ds :: draws)) = true) as Hsub.
  { intros v Hv. apply bool_decide_eq_true in Hv. apply bool_decide_eq_true_2.
    unfold offered in *. cbn. set_solver. }
  destruct (code_taken (candidate ds) rs) eqn:E.
  - assert (hits draws rs < hits (ds :: draws) rs)%nat as Hh.
    { apply existsb_exists in E as (r & Hr%list_elem_of_In & Er). bool_prop.
      unfold hits. apply (filter_length_lt _ _ _ (CText (candidate ds))); [exact Hsub| | |].
      - unfold codes. rewrite <- Er. apply list_elem_of_fmap. by exists r.
      - apply bool_decide_eq_true_2. unfold offered. cbn. set_solver.
      - by apply bool_decide_eq_false_2. }
    destruct (IH Hnd) as (code & rest & -> & H1 & H2 & H3); [lia|].
    exists code, rest. split_and!; auto. lia.
  - exists (candidate ds), draws. split_and!; auto.
    pose proof (filter_length_le _ _ (codes rs) Hsub). unfold hits in *. lia.
Qed.

Lemma hits_middle draws l1 r l2 code : field r "code" = Null → CText code ∉ offered draws →
  hits draws (l1 ++ with_code code r :: l2) = hits draws (l1 ++ r :: l2).
Proof.
  intros Hn Hc. unfold hits, codes. rewrite !fmap_app, !fmap_cons, with_code_code, Hn.
  rewrite !List.filter_app, !length_app. cbn.
  rewrite (bool_decide_eq_false_2 _ Hc). rewrite (bool_decide_eq_false_2 (Null ∈ _)); [done|].
  unfold offered. intros (ds & ? & _)%list_elem_of_fmap. done.
Qed.

Lemma assign_codes_enough todo draws rs :
  NoDup (ids rs) → without_code rs = todo → NoDup (offered draws) →
  (hits draws rs + length todo ≤ length draws)%nat →
  ∃ rs', assign_codes todo draws rs = Some rs'.
Proof.
  revert draws rs. induction todo as [|id todo IH]; intros draws rs Hnd Hw Ho Hlen; cbn in *.
  - by eexists.
  - destruct (fresh_code_exists draws rs Ho) as (code & rest & -> & H1 & H2 & H3); [lia|].
    destruct (first_without_code rs id todo Hnd Hw)
      as (l1 & r & l2 & -> & Hl1 & Hc & Hid & Hl2 & ->).
    apply IH; auto.
    + by rewrite ids_middle.
    + rewrite without_code_app, (without_code_coded l1), without_code_cons, with_code_code by done.
      done.
    + rewrite hits_middle by done. lia.
Qed.

Lemma hits_bound draws rs : (hits draws rs + length (without_code rs) ≤ length rs)%nat.
Proof.
  unfold hits. induction rs as [|r rs IH]; [done|]. rewrite without_code_cons.
  change (codes (r :: rs)) with (field r "code" :: codes rs). cbn [List.filter length].
  destruct (field r "code" == Null) eqn:E; bool_prop.
  - rewrite E, (bool_decide_eq_false_2 (Null ∈ offered draws)); [cbn [length]; lia|].
    unfold offered. intros (ds & ? & _)%list_elem_of_fmap. done.
  - destruct (bool_decide (field r "code" ∈ offered draws)); cbn [length]; lia.
Qed.

(** C30. With at least as many different candidates drawn as there are rooms, the backfill
    ends; every room then has a code, no two the same; rooms that had a code keep it, and
    the others change in nothing but a drawn candidate. *)
Theorem room_codes_filled draws s d :
  tables s !! "rooms" = Some d → NoDup (ids (rows d)) → NoDup (given (rows d)) →
  NoDup (offered draws) → (length (rows d) ≤ length draws)%nat →
  ∃ rs', fill_codes draws s = Ok (put_table "rooms" (d <| rows := rs' |>) s) ∧
    Forall coded rs' ∧ NoDup (given rs') ∧ Forall2 (recoded draws) (rows d) rs'.
Proof.
  intros Ht Hid Hg Ho Hlen.
  destruct (assign_codes_enough _ draws (rows d) Hid eq_refl Ho) as [rs' Ha].
  { pose proof (hits_bound draws (rows d)). lia. }
  exists rs'. split.
  - unfold fill_codes, get_table. rewrite Ht. cbn. by rewrite Ha.
  - by eapply assign_codes_spec.
Qed.

Definition two_rooms : table := Table [] [] []
  [ {["id" := CText "a"]}; {["id" := CText "b"; "code" := CText "AAAAAA"]} ].

Lemma room_codes_filled_witness :
  ∃ rs', fill_codes [[0;0;0;0;0;0]; [1;2;3;4;5;31]]%nat (put_table "rooms" two_rooms empty)
         = Ok (put_table "rooms" (two_rooms <| rows := rs' |>) (put_table "rooms" two_rooms empty)) ∧
    Forall coded rs' ∧ NoDup (given rs') ∧
    Forall2 (recoded [[0;0;0;0;0;0]; [1;2;3;4;5;31]]%nat) (rows two_rooms) rs'.
Proof.
  apply (room_codes_filled [[0;0;0;0;0;0]; [1;2;3;4;5;31]]%nat
    (put_table "rooms" two_rooms empty) two_rooms); [done|..];
    try (apply (bool_decide_eq_true_1 _); vm_compute; reflexivity).
Defined.

(** A draw below 32 gives one letter of the alphabet, so six give a code of six. *)
Definition draw_ok (d : nat) : bool := (d <? 32)%nat.
Definition code_ok (code : string) : bool :=
  (String.length code =? 6)%nat
  && forallb (λ c, bool_decide (c ∈ String.list_ascii_of_string alphabet))
       (String.list_ascii_of_string code).

(** Candidates have six characters of the alphabet, which the code column takes. *)
Theorem candidates_are_codes a b c d e f :
  forallb draw_ok [a; b; c; d; e; f] = true → code_ok (candidate [a; b; c; d; e; f]) = true.
Proof.
  assert (∀ n, draw_ok n = true → ∃ x, draw_char n = String x "" ∧
            x ∈ String.list_ascii_of_string alphabet) as H.
  { intros n Hn. unfold draw_ok in Hn. apply Nat.ltb_lt in Hn.
    assert (forallb (λ n, match draw_char n with
       | String x "" => bool_decide (x ∈ String.list_ascii_of_string alphabet)
       | _ => false end) (seq 0 32) = true) as Hall by (vm_compute; reflexivity).
    eapply forallb_forall in Hall; [|apply in_seq; split; [lia|exact Hn]]. cbv beta in Hall.
    destruct (draw_char n) as [|x [|]]; try done. exists x. by bool_prop. }
  intros Hall. cbn [forallb] in Hall. rewrite andb_true_r in Hall.
  repeat (apply andb_true_iff in Hall as [?H Hall]).
  repeat match goal with Hd : draw_ok _ = true |- _ =>
    let x := fresh "x" in let Hx := fresh "Hx" in
    apply H in Hd; destruct Hd as (x & Hx & ?) end.
  unfold candidate. cbn [fmap list_fmap].
  repeat match goal with Hx : draw_char _ = _ |- _ => rewrite Hx; clear Hx end.
  unfold code_ok. clear H. generalize dependent (String.list_ascii_of_string alphabet).
  intros abc. intros. simpl. rewrite !andb_true_iff.
  split_and!; try done; by apply bool_decide_eq_true_2.
Qed.

Lemma candidates_are_codes_witness : code_ok (candidate [0; 31; 5; 9; 23; 24]%nat) = true.
Proof. apply candidates_are_codes. reflexivity. Defined.
