(* ===== verification/MigrationData.v ===== *)
(** * What the migrations do to the rows

    Amounts scaled between whole tokens and stroops, wager statuses mapped between the
    two enums, time zones, room codes, the difficulty backfill, the append-only trigger,
    columns added to tables with rows, and the archive.  The theorems are about any
    database, not only the one the chain builds. *)

From S2P Require Import Prelude Schema Migrations.

(** ** Lemmas on statements *)

Lemma mapR_Ok {A B} (f : A → result B) (g : A → B) l :
  (∀ x, x ∈ l → f x = Ok (g x)) → mapR f l = Ok (g <$> l).
Proof.
  induction l as [|x l IH]; intros H; [done|]. simpl.
  rewrite H by set_solver. simpl. rewrite IH by set_solver. done.
Qed.

Lemma mapR_id {A} (f : A → result A) l : (∀ x, x ∈ l → f x = Ok x) → mapR f l = Ok l.
Proof. intros H. by rewrite (mapR_Ok f id _ H), list_fmap_id. Qed.

Lemma fmap_same {A} (f : A → A) (l : list A) : (∀ x, x ∈ l → f x = x) → f <$> l = l.
Proof.
  induction l as [|x l IH]; intros H; [done|]. rewrite fmap_cons, H, IH; set_solver.
Qed.

Lemma mapR_Err {A B} (f : A → result B) l x e :
  x ∈ l → f x = Err e → ∃ e', mapR f l = Err e'.
Proof.
  intros Hx Hf. induction Hx as [x l|x y l Hx IH]; simpl.
  - rewrite Hf. by eexists.
  - destruct (f y) as [z|e']; [|by eexists]. simpl.
    destruct (IH Hf) as [e' He]. rewrite He. by eexists.
Qed.

Lemma mapR_inv {A B} (f : A → result B) l k :
  mapR f l = Ok k → Forall2 (λ x y, f x = Ok y) l k.
Proof.
  revert k. induction l as [|x l IH]; intros k H; simpl in H.
  - by simplify_eq.
  - destruct (f x) as [y|] eqn:E; simpl in H; [|done].
    destruct (mapR f l) as [ys|] eqn:E'; simpl in H; simplify_eq. constructor; auto.
Qed.

Lemma query_Ok f s s' : f s = Ok s' → query f s = (Ok tt, s').
Proof. unfold query. by intros ->. Qed.
Lemma query_Err f s e : f s = Err e → query f s = (Err e, s).
Proof. unfold query. by intros ->. Qed.

Lemma put_table_eq t d s : put_table t d s
  = Schema (<[t := d]> (tables s)) (indexes s) (enums s) (functions s) (extensions s).
Proof. reflexivity. Qed.

(** The table that a statement leaves in place of [t]. *)
Lemma put_table_lookup t d s : tables (put_table t d s) !! t = Some d.
Proof. apply lookup_insert_eq. Qed.
Lemma put_table_other t t' d s : t ≠ t' → tables (put_table t d s) !! t' = tables s !! t'.
Proof. intros H. by apply lookup_insert_ne. Qed.
Lemma put_table_twice t d d' s : put_table t d' (put_table t d s) = put_table t d' s.
Proof. rewrite !put_table_eq. cbn. f_equal. apply insert_insert_eq. Qed.
Lemma put_table_same t d s : tables s !! t = Some d → put_table t d s = s.
Proof. intros H. rewrite put_table_eq, insert_id by done. by destruct s. Qed.

Lemma field_insert r c v : field (<[c := v]> r) c = v.
Proof. unfold field. by rewrite lookup_insert_eq. Qed.
Lemma field_insert_ne r c c' v : c ≠ c' → field (<[c := v]> r) c' = field r c'.
Proof. intros H. unfold field. by rewrite lookup_insert_ne. Qed.
Lemma insert_field r c : field r c ≠ Null → <[c := field r c]> r = r.
Proof. unfold field. destruct (r !! c) eqn:E; [intros _; by apply insert_id | done]. Qed.

Create HintDb sql.
#[export] Hint Resolve put_table_lookup put_table_other : sql.
#[export] Hint Rewrite put_table_twice field_insert : sql.

(** [ALTER COLUMN … TYPE … USING], when the expression has a value for every row. *)
Definition recast (c : string) (g : cell → cell) (r : row) : row :=
  match field r c with Null => r | v => <[c := g v]> r end.
Definition retyped (c : string) (ty : sql_type) (rs : list row) (d : table) : table :=
  update_column c (λ k, k <| ctype := ty |>) d <| rows := rs |>.

Lemma alterType_run t c ty f g s d :
  tables s !! t = Some d → has_column d c = true → type_known s ty = true →
  (∀ r, r ∈ rows d → field r c ≠ Null → f (field r c) = Ok (g (field r c))) →
  alterType t c ty f s = Ok (put_table t (retyped c ty (recast c g <$> rows d) d) s).
Proof.
  intros Ht Hc Hty Hf. unfold alterType, get_table. rewrite Ht. cbn. rewrite Hc, Hty. cbn.
  rewrite (mapR_Ok _ (recast c g)); [done|]. intros r Hr. unfold cast_row, recast.
  specialize (Hf r Hr). destruct (field r c) eqn:E; [done|..]; by rewrite Hf.
Qed.

Lemma alterType_fails t c ty f s d r e :
  tables s !! t = Some d → r ∈ rows d → field r c ≠ Null → f (field r c) = Err e →
  ∃ e', alterType t c ty f s = Err e'.
Proof.
  intros Ht Hr Hn Hf. unfold alterType, get_table. rewrite Ht. cbn.
  destruct (has_column d c); cbn; [|by eexists]. destruct (type_known s ty); cbn; [|by eexists].
  destruct (mapR_Err (cast_row c f) (rows d) r e Hr) as [e' He].
  { unfold cast_row. destruct (field r c); [done|..]; by rewrite Hf. }
  rewrite He. by eexists.
Qed.

Lemma update_column_has c c' f d : (∀ k, cname (f k) = cname k) →
  has_column (update_column c f d) c' = has_column d c'.
Proof.
  intros Hf. unfold has_column, update_column. cbn. induction (columns d) as [|k l IH]; [done|].
  cbn. rewrite IH. f_equal. destruct (cname k == c); [by rewrite Hf | done].
Qed.

Lemma retyped_has c c' ty rs d : has_column (retyped c ty rs d) c' = has_column d c'.
Proof. apply (update_column_has c c' (λ k, k <| ctype := ty |>) d). by intros []. Qed.

(** ** Amounts: whole tokens to stroops and back *)

Definition int4_cell (v : cell) : Prop :=
  match v with CInt z => int4_min <= z <= int4_max | Null => True | _ => False end.

Definition scaled (v : cell) : cell := match v with CInt z => CInt (z * 10000000) | _ => v end.
Definition unscaled (v : cell) : cell :=
  match v with CInt z => CInt (Z.quot z 10000000) | _ => v end.

Lemma scale_up_int4 v : int4_cell v → scale_up v = Ok (scaled v).
Proof.
  unfold int4_cell, scale_up, scaled, to_int8, int4_min, int4_max, int8_min, int8_max.
  destruct v; try done. intros H.
  rewrite (proj2 (andb_true_iff _ _)) by (split; apply Z.leb_le; lia). cbn.
  by rewrite (proj2 (andb_true_iff _ _)) by (split; apply Z.leb_le; lia).
Qed.

Lemma unscaled_scaled v : unscaled (scaled v) = v.
Proof. destruct v; try done. cbn. by rewrite Z.quot_mul. Qed.

Lemma scale_down_scaled v : int4_cell v → scale_down (scaled v) = Ok v.
Proof.
  unfold int4_cell, scale_down, scaled, to_int4. destruct v; try done. intros H.
  rewrite Z.quot_mul by done.
  by rewrite (proj2 (andb_true_iff _ _)) by (split; apply Z.leb_le; lia).
Qed.

(** The rows of a table hold integers of its column's type. *)
Definition int4_rows (c : string) (d : table) : Prop := ∀ r, r ∈ rows d → int4_cell (field r c).

(** Changing a column's type there and back. *)
Lemma retyped_back c ty ty' g h d :
  (∀ k, k ∈ columns d → cname k = c → ctype k = ty) →
  (∀ r, r ∈ rows d → recast c h (recast c g r) = r) →
  retyped c ty (recast c h <$> (recast c g <$> rows d))
    (retyped c ty' (recast c g <$> rows d) d) = d.
Proof.
  intros Hty Hr. destruct d as [cols cons trs rs]. unfold retyped, update_column. cbn in *.
  assert (∀ a a' b b' : list _, a = a' → b = b' → Table a cons trs b = Table a' cons trs b')
    as Heq by (by intros; subst).
  apply Heq; rewrite <- list_fmap_compose; apply fmap_same; [|exact Hr].
  intros k Hk. cbn. destruct (cname k == c) eqn:E; bool_prop; cbn.
  - rewrite (bool_decide_eq_true_2 (cname k = c)) by done.
    destruct k as [n ty0 nn df]. by rewrite <- (Hty _ Hk E).
  - by rewrite (bool_decide_eq_false_2 (cname k = c)).
Qed.

Lemma recast_scaled_back c r : int4_cell (field r c) → recast c unscaled (recast c scaled r) = r.
Proof.
  unfold recast. intros H. destruct (field r c) eqn:E; cbn; rewrite ?E, ?field_insert; cbn;
    try done.
  rewrite Z.quot_mul, insert_insert_eq, <- E by done. apply insert_field. congruence.
Qed.

Lemma recast_field c g r : g Null = Null → field (recast c g r) c = g (field r c).
Proof. intros H. unfold recast. destruct (field r c) eqn:E; rewrite ?E; by rewrite ?field_insert. Qed.

(** C19. Widening a column of whole tokens to stroops and narrowing it back succeeds on
    every table of integers, and gives back the database it found. *)
Theorem amounts_round_trip t c s d :
  tables s !! t = Some d → has_column d c = true → int4_rows c d →
  (∀ k, k ∈ columns d → cname k = c → ctype k = Int4) →
  ∃ s', widen t c s = (Ok tt, s') ∧
        (∀ d', tables s' !! t = Some d' → rows d' = recast c scaled <$> rows d) ∧
        narrow t c s' = (Ok tt, s).
Proof.
  intros Ht Hc Hr Hty. set (d1 := retyped c Int8 (recast c scaled <$> rows d) d).
  exists (put_table t d1 s). split; [|split].
  - apply query_Ok, alterType_run; auto. intros r Hin _. apply scale_up_int4. auto.
  - intros d'. rewrite put_table_lookup. by intros [= <-].
  - apply query_Ok. rewrite (alterType_run t c Int4 scale_down unscaled _ d1).
    + rewrite put_table_twice.
      change (rows d1) with (recast c scaled <$> rows d). unfold d1.
      rewrite retyped_back, put_table_same; auto. intros r Hin. apply recast_scaled_back. auto.
    + apply put_table_lookup.
    + unfold d1. by rewrite retyped_has.
    + done.
    + intros r' (r & -> & Hin)%list_elem_of_fmap _. rewrite recast_field by done.
      rewrite unscaled_scaled. apply scale_down_scaled. auto.
Qed.

(** A column of one row of 7 tokens. *)
Definition one_amount : schema :=
  put_table "wagers" (Table [required "amount" Int4] [] [] [ {["amount" := CInt 7]} ]) empty.

Lemma amounts_round_trip_witness :
  ∃ s', widen "wagers" "amount" one_amount = (Ok tt, s') ∧
        (∀ d', tables s' !! "wagers" = Some d' →
               rows d' = recast "amount" scaled <$> [ {["amount" := CInt 7]} ]) ∧
        narrow "wagers" "amount" s' = (Ok tt, one_amount).
Proof.
  apply (amounts_round_trip "wagers" "amount" one_amount
    (Table [required "amount" Int4] [] [] [ {["amount" := CInt 7]} ])); [done|done|..].
  - intros r ->%list_elem_of_singleton. by vm_compute.
  - by intros k ->%list_elem_of_singleton _.
Defined.

(** Narrowing divides towards zero, so any part of a token is lost; and it aborts the
    whole revert when one row holds 2^31 tokens or more. *)
Theorem narrowing_truncates_or_aborts t c s d r z :
  tables s !! t = Some d → r ∈ rows d → field r c = CInt z →
  (int4_min <= Z.quot z 10000000 <= int4_max →
     scale_down (CInt z) = Ok (CInt (Z.quot z 10000000)) ∧
     scaled (CInt (Z.quot z 10000000)) = CInt (z - Z.rem z 10000000)) ∧
  ((int4_max + 1) * 10000000 <= z → ∃ e, narrow t c s = (Err e, s)).
Proof.
  intros Ht Hr Hz. split; intros H.
  - unfold scale_down, to_int4.
    rewrite (proj2 (andb_true_iff _ _)) by (split; apply Z.leb_le; lia). split; [done|].
    cbn. f_equal. pose proof (Z.quot_rem z 10000000). lia.
  - destruct (alterType_fails t c Int4 scale_down s d r (out_of_range "integer"))
      as [e He]; auto.
    + by rewrite Hz.
    + rewrite Hz. unfold scale_down, to_int4.
      pose proof (Z.quot_le_lower_bound z 10000000 (int4_max + 1)) as Hq.
      rewrite (proj2 (Z.leb_gt (Z.quot z 10000000) int4_max)) by lia.
      by rewrite andb_false_r.
    + exists e. by apply query_Err.
Qed.

Definition whale : row := {["mockBalance" := CInt 21474836480000000]}.
Definition rich_users : schema :=
  put_table "users" (Table [required "mockBalance" Int8] [] [] [whale]) empty.

Lemma narrowing_truncates_or_aborts_witness :
  ∃ e, narrow "users" "mockBalance" rich_users = (Err e, rich_users).
Proof.
  apply (narrowing_truncates_or_aborts "users" "mockBalance" rich_users
    (Table [required "mockBalance" Int8] [] [] [whale]) whale 21474836480000000);
    [done|set_solver|done|done].
Defined.

(** ** Statuses *)

(** Every old status becomes a status of the new enum and every new one a status of the
    old; going there and back keeps a status, except that a lost wager comes back pending. *)
Theorem statuses_total v :
  (v ∈ wager_statuses_old → cast_status status_up wager_statuses (CText v)
                            = Ok (CText (status_up v)) ∧
     status_down (status_up v) = (if v == "lost" then "pending" else v)) ∧
  (v ∈ wager_statuses → cast_status status_down wager_statuses_old (CText v)
                        = Ok (CText (status_down v))).
Proof.
  unfold wager_statuses_old, wager_statuses. split; intros H;
    repeat (apply elem_of_cons in H as [-> | H]; [by vm_compute|]); by apply not_elem_of_nil in H.
Qed.

Lemma statuses_total_witness :
  cast_status status_up wager_statuses (CText "lost") = Ok (CText "failed").
Proof. apply (statuses_total "lost"). set_solver. Defined.

(** ** The append-only trigger

    A [BEFORE UPDATE] trigger that raises makes every update of a matching row fail. *)

Lemma updateRows_blocked t p f s d r :
  tables s !! t = Some d → triggers d ≠ [] → r ∈ rows d → p r = true →
  ∃ e, updateRows t p f s = Err e.
Proof.
  intros Ht Htr Hr Hp. unfold updateRows, get_table. rewrite Ht. cbn.
  destruct (mapR_Err (updateRow d p f) (rows d) r (PlainError "P0001" "append-only") Hr)
    as [e He].
  { unfold updateRow. rewrite Hp, bool_decide_eq_false_2 by done. done. }
  rewrite He. by eexists.
Qed.

(** [manager.update(AuditLog, { actorId: userId }, { ip: null })] *)
Definition clear_actor_ip (userId : string) : statement :=
  updateRows "audit_logs" (λ r, field r "actorId" == CText userId) <[ "ip" := Null ]>.

Definition owned_by (userId : string) (r : row) : bool := field r "userId" == CText userId.

(** [UsersService.erasePersonalData] on the tables themselves. *)
Definition erase_statements (userId : string) : Mig :=
  transaction (
    query (deleteRows "refresh_tokens" (owned_by userId));;
    query (deleteRows "email_tokens" (owned_by userId));;
    query (deleteRows "password_reset_tokens" (owned_by userId));;
    query (deleteRows "notifications" (owned_by userId));;
    query (clear_actor_ip userId)).

(** [RetentionJob.clearAuditIps] *)
Definition old_ip (cutoff : Z) (r : row) : bool :=
  negb (field r "ip" == Null)
  && match field r "timestamp" with CTime t => t <? cutoff | _ => false end.
Definition clear_old_ips (cutoff : Z) : statement :=
  updateRows "audit_logs" (old_ip cutoff) <[ "ip" := Null ]>.

(** [RetentionJob.run], once it holds the lock: the history is archived after the IPs. *)
Definition retention_statements (cutoff : Z) (archive : Mig) : Mig :=
  query (clear_old_ips cutoff);; archive.

(** Statements on other tables leave a table alone. *)
Definition same_table (t : string) (s s' : schema) : Prop := tables s !! t = tables s' !! t.

#[export] Instance same_table_preorder t : PreOrder (same_table t).
Proof. split; [done|]. intros ???. unfold same_table. congruence. Qed.

Lemma query_preserves (R : relation schema) f : Reflexive R →
  (∀ s s', f s = Ok s' → R s s') → preserves R (query f).
Proof.
  intros Hr H s r s'. unfold query. destruct (f s) eqn:E; intros; simplify_eq; auto.
Qed.

Lemma deleteRows_other t t' p s s' : t ≠ t' → deleteRows t p s = Ok s' → same_table t' s s'.
Proof.
  intros Hne H. unfold deleteRows, get_table in H. destruct (tables s !! t) as [d|]; [|done].
  cbn in H. destruct (referenced t s); [done|]. cbn in H.
  destruct (bool_decide (triggers d = []) || _); [|done]. cbn in H. simplify_eq.
  unfold same_table. by rewrite put_table_other.
Qed.

(** Statements that do not touch the audit log run before one that fails on it. *)
Lemma fails_after (R : relation schema) (m1 : Mig) (m2 : Mig) s :
  preserves R m1 → (∀ s', R s s' → ∃ e s'', m2 s' = (Err e, s'')) →
  ∃ e s'', (m1;; m2) s = (Err e, s'').
Proof.
  intros H1 H2. unfold mbind, M_bind. destruct (m1 s) as [[[]|e] s'] eqn:E; [|by eauto].
  apply H2. by eapply H1.
Qed.

Lemma transaction_fails m s : (∃ e s', m s = (Err e, s')) → ∃ e, transaction m s = (Err e, s).
Proof. intros (e & s' & H). exists e. unfold transaction. by rewrite H. Qed.

(** While the append-only trigger is there, deleting the personal data of a user who
    has an audit entry always fails and deletes nothing; and so does the retention job, for
    everything it does, as soon as one audit IP is old enough to be cleared. *)
Theorem append_only_blocks_erasure s d r :
  tables s !! "audit_logs" = Some d → triggers d ≠ [] → r ∈ rows d →
  (∀ userId, field r "actorId" = CText userId →
     ∃ e, erase_statements userId s = (Err e, s)) ∧
  (∀ cutoff archive, old_ip cutoff r = true →
     ∃ e, retention_statements cutoff archive s = (Err e, s)).
Proof.
  intros Ht Htr Hr. split.
  - intros userId Ha. apply transaction_fails.
    repeat (apply (fails_after (same_table "audit_logs"));
      [apply query_preserves; [apply _|intros ??; by apply deleteRows_other]|];
      intros ? Hs; rewrite Hs in Ht; clear Hs).
    destruct (updateRows_blocked "audit_logs" (λ r, field r "actorId" == CText userId)
      <[ "ip" := Null ]> _ d r Ht Htr Hr) as [e He]; [by apply bool_decide_eq_true_2|].
    eexists _, _. by apply query_Err.
  - intros cutoff archive Hp.
    destruct (updateRows_blocked "audit_logs" (old_ip cutoff) <[ "ip" := Null ]> s d r)
      as [e He]; auto.
    exists e. unfold retention_statements, clear_old_ips, mbind, M_bind. by rewrite (query_Err _ _ _ He).
Qed.

(** An audit log with the trigger the migration installs and one entry. *)
Definition entry : row :=
  {["actorId" := CText "u"; "ip" := CText "10.0.0.1"; "timestamp" := CTime 5]}.
Definition audited_table : table :=
  Table [optional "ip" varying] [] [("audit_logs_append_only", "audit_logs_block_mutation")]
    [entry].
Definition audited : schema := put_table "audit_logs" audited_table empty.

Lemma append_only_blocks_erasure_witness :
  (∃ e, erase_statements "u" audited = (Err e, audited)) ∧
  (∃ e, retention_statements 9 (mret tt) audited = (Err e, audited)).
Proof.
  destruct (append_only_blocks_erasure audited audited_table entry) as [H1 H2];
    [done|done|set_solver|].
  split; [by apply H1|by apply H2].
Defined.

(** ** Columns added to tables with rows *)

(** A table with rows keeps having rows. *)
Definition stays_populated (t : string) (s s' : schema) : Prop :=
  ∀ d, tables s !! t = Some d → rows d ≠ [] → ∃ d', tables s' !! t = Some d' ∧ rows d' ≠ [].

#[export] Instance stays_populated_preorder t : PreOrder (stays_populated t).
Proof.
  split; [intros s d Hd Hr; eauto|]. intros s1 s2 s3 H1 H2 d Hd Hr.
  destruct (H1 d Hd Hr) as (d2 & H & H'). by eapply H2.
Qed.

Lemma stays_put t t' d0 d1 s : tables s !! t' = Some d0 →
  (rows d0 ≠ [] → rows d1 ≠ []) → stays_populated t s (put_table t' d1 s).
Proof.
  intros H0 H1 d Hd Hr. destruct (decide (t' = t)) as [->|Hne].
  - exists d1. rewrite put_table_lookup. split; [done|]. apply H1. congruence.
  - exists d. by rewrite put_table_other.
Qed.

Lemma stays_new t n d1 s : tables s !! n = None → stays_populated t s (put_table n d1 s).
Proof.
  intros H0 d Hd Hr. exists d. rewrite put_table_other; [done|]. congruence.
Qed.

Lemma stays_tables t s s' : tables s' = tables s → stays_populated t s s'.
Proof. intros He d Hd Hr. exists d. by rewrite He. Qed.

Lemma stays_with_table t t' f : (∀ s d d', f s d = Ok d' → rows d ≠ [] → rows d' ≠ []) →
  preserves (stays_populated t) (query (with_table t' f)).
Proof.
  intros Hf. apply query_preserves; [apply _|]. intros s s' H. unfold with_table, get_table in H.
  destruct (tables s !! t') as [d|] eqn:Ed; [|done]. cbn in H.
  destruct (f s d) as [d'|] eqn:Ef; [|done]. cbn in H. simplify_eq.
  eapply stays_put; [done|]. by eapply Hf.
Qed.

Lemma stays_dropConstraint t t' n : preserves (stays_populated t) (query (dropConstraint t' n)).
Proof.
  apply stays_with_table. intros s d d' H Hr. destruct (bool_decide _); [|done]. cbn in H.
  by simplify_eq.
Qed.

Lemma addConstraint_to_inv n k s d d' : addConstraint_to n k s d = Ok d' →
  constraint_ok s d n k = Ok tt ∧ d' = d <| constraints := constraints d ++ [(n, k)] |>.
Proof.
  unfold addConstraint_to. intros H. destruct (negb (bool_decide _)); [|done]. cbn in H.
  destruct (negb _); [|done]. cbn in H. destruct (constraint_ok s d n k) as [[]|]; [|done].
  cbn in H. by simplify_eq.
Qed.

Lemma stays_addConstraint t t' n k : preserves (stays_populated t) (query (addConstraint t' n k)).
Proof.
  apply stays_with_table. by intros s d d' [_ ->]%addConstraint_to_inv Hr.
Qed.

Lemma stays_same t f : (∀ s s', f s = Ok s' → tables s' = tables s) →
  preserves (stays_populated t) (query f).
Proof. intros H. apply query_preserves; [apply _|]. intros s s' E. apply stays_tables; eauto. Qed.

Lemma stays_dropIndex t n : preserves (stays_populated t) (query (dropIndex n)).
Proof.
  apply stays_same. intros s s' H. unfold dropIndex in H. destruct (bool_decide _); [|done].
  cbn in H. by simplify_eq.
Qed.

Lemma stays_createType t n l : preserves (stays_populated t) (query (createType n l)).
Proof. apply stays_same. intros s s' H. unfold createType in H. destruct (enums s !! n); by simplify_eq. Qed.

Lemma stays_createIndex t n t' u ks : preserves (stays_populated t) (query (createIndexOn n t' u ks)).
Proof.
  apply stays_same. intros s s' H. unfold createIndexOn, get_table in H.
  destruct (negb (relation_exists s n)); [|done]. cbn in H.
  destruct (tables s !! t'); [|done]. cbn in H. destruct (forallb _ ks); [|done]. cbn in H.
  destruct (negb u || _); [|done]. cbn in H. by simplify_eq.
Qed.

Lemma stays_createTable t n cols cons : preserves (stays_populated t) (query (createTable n cols cons)).
Proof.
  apply query_preserves; [apply _|]. intros s s' H. unfold createTable in H.
  destruct (relation_exists s n) eqn:E; [done|]. cbn in H.
  destruct (forallb _ cols); [|done]. cbn in H. destruct (bool_decide _); [|done]. cbn in H.
  destruct (addConstraints cons s _); [|done]. cbn in H. simplify_eq.
  apply stays_new. unfold relation_exists in E. apply orb_false_iff in E as [E _].
  apply orb_false_iff in E as [E _]. bool_prop. by apply eq_None_not_Some.
Qed.

Lemma stays_addColumn t t' k : preserves (stays_populated t) (query (addColumn t' k)).
Proof.
  apply query_preserves; [apply _|]. intros s s' H. unfold addColumn, get_table in H.
  destruct (tables s !! t') as [d|] eqn:Ed; [|done]. cbn in H.
  destruct (has_column d (cname k)); [done|]. cbn in H. destruct (type_known s _); [|done].
  cbn in H. destruct (rows d) as [|r rs] eqn:Er; [simplify_eq; by eapply stays_put|].
  destruct (default_cell (cdefault k)); [|done].
  destruct (negb (cnotnull k && _)); [|done]. cbn in H. simplify_eq.
  eapply stays_put; [done|]. cbn. by rewrite Er.
Qed.

Lemma stays_dropColumn t t' c : preserves (stays_populated t) (query (dropColumn t' c)).
Proof.
  apply query_preserves; [apply _|]. intros s s' H. unfold dropColumn, get_table in H.
  destruct (tables s !! t') as [d|] eqn:Ed; [|done]. cbn in H.
  destruct (has_column d c); [|done]. cbn in H. destruct (negb _); [|done]. cbn in H.
  simplify_eq. etrans; [eapply (stays_put t t' d (drop_column c d)); [done|]|by apply stays_tables].
  cbn. by destruct (rows d).
Qed.

Create HintDb populated.
#[export] Hint Resolve stays_dropConstraint stays_addConstraint stays_dropIndex
  stays_createType stays_createIndex stays_createTable stays_addColumn stays_dropColumn : populated.

Lemma stays_seq t (m1 m2 : Mig) : preserves (stays_populated t) m1 →
  preserves (stays_populated t) m2 → preserves (stays_populated t) (m1;; m2).
Proof. intros H1 H2. apply preserves_bind; [apply _|done|intros []; done]. Qed.

Ltac populated :=
  repeat (apply stays_seq; [solve [auto with populated]|]); auto with populated.

Lemma drop_hand_named_stays t : preserves (stays_populated t) Repair_drop_hand_named.
Proof. unfold Repair_drop_hand_named. populated. Qed.
Lemma create_tables_stays t : preserves (stays_populated t) Repair_create_tables.
Proof. unfold Repair_create_tables, createIndex. populated. Qed.
Lemma add_user_columns_stays t : preserves (stays_populated t) Repair_add_user_columns.
Proof. unfold Repair_add_user_columns. populated. Qed.

(** A required column without a default cannot be added to a table with rows. *)
Lemma required_column_refused t n ty s d :
  tables s !! t = Some d → rows d ≠ [] → ∃ e, addColumn t (required n ty) s = Err e.
Proof.
  intros Hd Hr. unfold addColumn, get_table. rewrite Hd. cbn.
  destruct (has_column d n); cbn; [by eexists|]. destruct (type_known s ty); cbn; [|by eexists].
  destruct (rows d); [done|]. cbn. by eexists.
Qed.

Lemma then_fails (m1 m2 : Mig) s :
  (∃ e s'', m1 s = (Err e, s'')) → ∃ e s'', (m1;; m2) s = (Err e, s'').
Proof. intros (e & s'' & H). exists e, s''. unfold mbind, M_bind. by rewrite H. Qed.

(** RepairSchemaToMatchEntities cannot run on a database that has a user, nor on one
    that has a room participant: it fails and changes nothing. *)
Theorem repair_refuses_rows t s d :
  t ∈ ["users"; "room_users"] → tables s !! t = Some d → rows d ≠ [] →
  ∃ e, transaction RepairSchemaToMatchEntities_up s = (Err e, s).
Proof.
  intros Ht Hd Hr. apply transaction_fails. unfold RepairSchemaToMatchEntities_up.
  apply (fails_after (stays_populated t)); [apply drop_hand_named_stays|]. intros s1 H1.
  destruct (H1 d Hd Hr) as (d1 & Hd1 & Hr1).
  apply (fails_after (stays_populated t)); [apply create_tables_stays|]. intros s2 H2.
  destruct (H2 d1 Hd1 Hr1) as (d2 & Hd2 & Hr2).
  apply elem_of_cons in Ht as [->|Ht%list_elem_of_singleton]; [|subst t].
  - apply then_fails. apply then_fails.
    destruct (required_column_refused "users" "username" varying s2 d2) as [e He]; auto.
    eexists _, _. by apply query_Err.
  - apply (fails_after (stays_populated "room_users")); [apply add_user_columns_stays|].
    intros s3 H3. destruct (H3 d2 Hd2 Hr2) as (d3 & Hd3 & Hr3).
    apply then_fails. unfold Repair_room_columns.
    apply (fails_after (stays_populated "room_users")); [auto with populated|].
    intros s4 H4. destruct (H4 d3 Hd3 Hr3) as (d4 & Hd4 & Hr4).
    apply then_fails.
    destruct (required_column_refused "room_users" "userId" Uuid s4 d4) as [e He]; auto.
    eexists _, _. by apply query_Err.
Qed.

(** A database with one user and one table. *)
Definition one_user : schema := put_table "users" (Table [id_uuid] [] [] [∅]) empty.

Lemma repair_refuses_rows_witness :
  ∃ e, transaction RepairSchemaToMatchEntities_up one_user = (Err e, one_user).
Proof.
  apply (repair_refuses_rows "users" one_user (Table [id_uuid] [] [] [∅]));
    [set_solver|done|done].
Defined.

(** ** The archive *)

(** Copied by position into the same columns, a row keeps every column. *)
Lemma positional_field cols r c : NoDup (cname <$> cols) → c ∈ cname <$> cols →
  field (positional cols cols r) c = field r c.
Proof.
  intros Hnd Hc. unfold positional. change (field r ∘ cname <$> cols) with ((λ k, field r (cname k)) <$> cols).
  unfold field at 1. rewrite (elem_of_list_to_map_1' _ c (field r c)); [done|..].
  - intros v Hv. apply list_elem_of_lookup in Hv as [i Hi].
    apply lookup_zip_with_Some in Hi as (x & y & [= <- <-] & Hx & Hy).
    rewrite list_lookup_fmap in Hx. rewrite list_lookup_fmap in Hy. destruct (cols !! i); by simplify_eq/=.
  - apply list_elem_of_fmap in Hc as (k & -> & Hk). apply list_elem_of_lookup in Hk as [i Hi].
    apply list_elem_of_lookup. exists i. apply lookup_zip_with_Some.
    exists (cname k), (field r (cname k)). by rewrite !list_lookup_fmap, Hi.
Qed.

(** Reverting the archive puts every archived row back behind the rows of game_history,
    each with the value of every column, and drops the archive. *)
Theorem archive_down_restores s d e :
  tables s !! "game_history" = Some d → tables s !! "game_history_archive" = Some e →
  columns e = columns d → NoDup (cname <$> columns d) →
  is_ok (mapR (not_nulls_ok d) (positional (columns e) (columns d) <$> rows e)) = true →
  rows_ok s "game_history" (appended d e) = Ok tt →
  referenced "game_history_archive" (put_table "game_history" (appended d e) s) = false →
  ∃ s', CreateGameHistoryArchive_down s = (Ok tt, s') ∧
    tables s' !! "game_history" = Some (appended d e) ∧
    tables s' !! "game_history_archive" = None ∧
    ∃ back, rows (appended d e) = rows d ++ back ∧
      Forall2 (λ r r', ∀ c, c ∈ cname <$> columns d → field r' c = field r c) (rows e) back.
Proof.
  intros Hd He Hcols Hnd Hnn Hok Href.
  exists (remove_table "game_history_archive" (put_table "game_history" (appended d e) s)).
  split; [|split; [|split]].
  - unfold CreateGameHistoryArchive_down, mbind, M_bind.
    rewrite (query_Ok (insertSelect "game_history" "game_history_archive") s
      (put_table "game_history" (appended d e) s)).
    + apply query_Ok. unfold dropTable. rewrite put_table_other, He, Href by done. done.
    + unfold insertSelect, get_table. rewrite Hd. cbn [found mbind result_bind].
      rewrite He. cbn [found mbind result_bind].
      rewrite bool_decide_eq_true_2 by (by rewrite Hcols). cbn [demand mbind result_bind].
      destruct (mapR (not_nulls_ok d) _); [|done]. cbn [mbind result_bind]. by rewrite Hok.
  - cbn. rewrite lookup_delete_ne by done. apply lookup_insert_eq.
  - cbn. apply lookup_delete_eq.
  - exists (positional (columns e) (columns d) <$> rows e). split; [done|].
    rewrite Hcols. clear -Hnd. induction (rows e) as [|r rs IH]; constructor; [|done].
    intros c Hc. by apply positional_field.
Qed.

Definition game_row : row := {["id" := CText "g"; "score" := CInt 3]}.
Definition history_cols : list column := [required "id" Uuid; required "score" Int4].
Definition with_archive : schema :=
  put_table "game_history" (Table history_cols [("PK", PrimaryKey ["id"])] [] [])
    (put_table "game_history_archive" (Table history_cols [] [] [game_row]) empty).

Lemma archive_down_restores_witness :
  ∃ s', CreateGameHistoryArchive_down with_archive = (Ok tt, s') ∧
        tables s' !! "game_history_archive" = None.
Proof.
  destruct (archive_down_restores with_archive
    (Table history_cols [("PK", PrimaryKey ["id"])] [] [])
    (Table history_cols [] [] [game_row])) as (s' & H1 & _ & H2 & _); [done|done|done|..].
  - apply (bool_decide_eq_true_1 _). vm_compute. reflexivity.
  - vm_compute. reflexivity.
  - vm_compute. reflexivity.
  - vm_compute. reflexivity.
  - exists s'. exact (conj H1 H2).
Defined.

(** ** Time zones *)

(** A statement [ALTER COLUMN … TYPE to USING … AT TIME ZONE 'UTC'] changes the type alone. *)
Definition set_type (to : sql_type) (l : list (string * string)) (t : string) (d : table) : table :=
  d <| columns := (λ k, if bool_decide ((t, cname k) ∈ l) then k <| ctype := to |> else k)
                    <$> columns d |>.
Definition set_types (to : sql_type) (l : list (string * string)) (s : schema) : schema :=
  s <| tables := map_imap (λ t d, Some (set_type to l t d)) (tables s) |>.

Lemma set_types_lookup to l s t : tables (set_types to l s) !! t = set_type to l t <$> tables s !! t.
Proof. cbn. rewrite map_lookup_imap. by destruct (tables s !! t). Qed.

Lemma cast_row_utc c r : cast_row c at_time_zone_utc r = Ok r.
Proof.
  unfold cast_row, at_time_zone_utc. destruct (field r c) eqn:E; [done|..]; cbn;
    rewrite <- E, insert_field; congruence.
Qed.

Lemma set_type_columns to l t d (cols : list column) :
  (λ k, if bool_decide ((t, cname k) ∈ l) then k <| ctype := to |> else k) <$> columns d = cols →
  set_type to l t d = Table cols (constraints d) (triggers d) (rows d).
Proof. by intros <-. Qed.

Lemma set_type_ext to l l' t d : (∀ c, (t, c) ∈ l ↔ (t, c) ∈ l') →
  set_type to l t d = set_type to l' t d.
Proof.
  intros H. apply set_type_columns. apply list_fmap_ext. intros i k _. cbn.
  by rewrite (bool_decide_ext _ _ (H (cname k))).
Qed.

Lemma set_type_nil to t d : set_type to [] t d = d.
Proof.
  rewrite (set_type_columns to [] t d (columns d)); [by destruct d|].
  apply fmap_same. intros k _. by rewrite bool_decide_eq_false_2 by set_solver.
Qed.

Lemma set_type_other to l t d : (∀ c, (t, c) ∉ l) → set_type to l t d = d.
Proof. intros H. rewrite (set_type_ext to l [] t d), set_type_nil; [done|]. set_solver. Qed.

Lemma set_type_app to l l' t d : set_type to l' t (set_type to l t d) = set_type to (l ++ l') t d.
Proof.
  rewrite (set_type_columns to (l ++ l') t d (columns (set_type to l' t (set_type to l t d))));
    [done|].
  cbn. rewrite <- list_fmap_compose. apply list_fmap_ext. intros i k _. cbn.
  destruct (bool_decide ((t, cname k) ∈ l)) eqn:E; bool_prop; cbn.
  - rewrite (bool_decide_eq_true_2 (_ ∈ l ++ l')) by set_solver.
    by destruct (bool_decide ((t, cname k) ∈ l')).
  - rewrite (bool_decide_ext ((t, cname k) ∈ l ++ l') ((t, cname k) ∈ l')); [done|]. set_solver.
Qed.

Lemma set_type_has to l t d c : has_column (set_type to l t d) c = has_column d c.
Proof.
  unfold has_column, set_type. cbn. induction (columns d) as [|k ks IH]; [done|]. cbn.
  rewrite IH. f_equal. by destruct (bool_decide ((t, cname k) ∈ l)).
Qed.

Lemma set_types_eq to l s ts : (∀ t, ts !! t = set_type to l t <$> tables s !! t) →
  set_types to l s = Schema ts (indexes s) (enums s) (functions s) (extensions s).
Proof.
  intros H. unfold set_types. change (?a <| tables := ?x |>) with
    (Schema x (indexes s) (enums s) (functions s) (extensions s)). f_equal.
  apply map_eq. intros t. rewrite H, map_lookup_imap. by destruct (tables s !! t).
Qed.

Lemma set_types_app to l l' s : set_types to l' (set_types to l s) = set_types to (l ++ l') s.
Proof.
  symmetry. rewrite (set_types_eq to (l ++ l') s (tables (set_types to l' (set_types to l s)))).
  - done.
  - intros t. rewrite !set_types_lookup. destruct (tables s !! t); [|done]. cbn.
    by rewrite set_type_app.
Qed.

Lemma set_types_nil to s : set_types to [] s = s.
Proof.
  rewrite (set_types_eq to [] s (tables s)); [by destruct s|]. intros t.
  destruct (tables s !! t); [|done]. cbn. by rewrite set_type_nil.
Qed.

Lemma alterType_utc t c to s d :
  tables s !! t = Some d → has_column d c = true → type_known s to = true →
  alterType t c to at_time_zone_utc s = Ok (set_types to [(t, c)] s).
Proof.
  intros Hd Hc Hty. unfold alterType, get_table. rewrite Hd. cbn. rewrite Hc, Hty. cbn.
  rewrite mapR_id by (intros; apply cast_row_utc). cbn. f_equal. rewrite put_table_eq.
  symmetry. apply set_types_eq. intros t'. destruct (decide (t = t')) as [<-|Hne].
  - rewrite lookup_insert_eq, Hd. cbn [fmap option_fmap option_map]. f_equal.
    rewrite (set_type_columns to [(t, c)] t d
      (columns (update_column c (λ k, k <| ctype := to |>) d))); [done|].
    apply list_fmap_ext. intros i k _. cbn.
    rewrite (bool_decide_ext ((t, cname k) ∈ [(t, c)]) (cname k = c)); [done|]. set_solver.
  - rewrite lookup_insert_ne by done. destruct (tables s !! t') as [d'|]; [|done]. cbn.
    f_equal. rewrite set_type_other; [done|]. set_solver.
Qed.

Lemma type_known_utc to l s ty : type_known (set_types to l s) ty = type_known s ty.
Proof. by induction ty. Qed.

Lemma actions_utc to l s : type_known s to = true →
  (∀ t c, (t, c) ∈ l → ∃ d, tables s !! t = Some d ∧ has_column d c = true) →
  actions ((λ tc, alterType tc.1 tc.2 to at_time_zone_utc) <$> l) s = Ok (set_types to l s).
Proof.
  intros Hty. unfold actions. revert s Hty. induction l as [|[t c] l IH]; intros s Hty H.
  - cbn. by rewrite set_types_nil.
  - cbn [fmap list_fmap foldl mbind result_bind fst snd].
    destruct (H t c) as (d & Hd & Hc); [set_solver|]. rewrite (alterType_utc t c to s d) by done.
    rewrite IH.
    + by rewrite set_types_app.
    + by rewrite type_known_utc.
    + intros t' c' Hin. destruct (H t' c') as (d' & Hd' & Hc'); [set_solver|].
      exists (set_type to [(t, c)] t' d'). rewrite set_types_lookup, Hd', set_type_has. done.
Qed.

(** What the loop over information_schema does to one table. *)
Definition retype_all (from to : sql_type) (t : string) (d : table) : table :=
  if t == "migrations" then d
  else d <| columns := (λ k, if ctype k == from then k <| ctype := to |> else k) <$> columns d |>.

Lemma columns_of_type_spec from s t c : (t, c) ∈ columns_of_type from s ↔
  t ≠ "migrations" ∧ ∃ d k, tables s !! t = Some d ∧ k ∈ columns d ∧ cname k = c ∧ ctype k = from.
Proof.
  unfold columns_of_type. rewrite list_elem_of_bind. split.
  - intros ([t' d] & Hin & Hm%elem_of_map_to_list). cbn in Hin.
    destruct (t' == "migrations") eqn:E; bool_prop; [by apply not_elem_of_nil in Hin|].
    apply list_elem_of_fmap in Hin as (k & [= -> ->] & Hk).
    apply list_elem_of_In, filter_In in Hk as [Hk Hf]. bool_prop.
    split; [done|]. exists d, k. by rewrite list_elem_of_In.
  - intros (Hm & d & k & Hd & Hk & <- & Hf). exists (t, d). split; [|by apply elem_of_map_to_list].
    cbn. rewrite (bool_decide_eq_false_2 (t = "migrations")) by done.
    apply list_elem_of_fmap. exists k. split; [done|]. apply list_elem_of_In, filter_In.
    split; [by apply list_elem_of_In|]. by apply bool_decide_eq_true_2.
Qed.

(** Column names are unique in every table, as PostgreSQL keeps them. *)
Definition names_unique (s : schema) : Prop :=
  ∀ t d, tables s !! t = Some d → NoDup (cname <$> columns d).

Lemma name_determines (l : list column) k k' : NoDup (cname <$> l) → k ∈ l → k' ∈ l →
  cname k = cname k' → k = k'.
Proof.
  intros Hnd Hk Hk' He. apply list_elem_of_lookup in Hk as [i Hi], Hk' as [j Hj].
  assert (i = j) as ->; [|congruence].
  eapply (NoDup_lookup _ i j (cname k) Hnd); rewrite list_lookup_fmap; [by rewrite Hi|].
  rewrite Hj, He. done.
Qed.

Lemma set_type_retype from to s t d : names_unique s → tables s !! t = Some d →
  set_type to (columns_of_type from s) t d = retype_all from to t d.
Proof.
  intros Hu Hd. unfold retype_all. destruct (t == "migrations") eqn:E; bool_prop.
  - apply set_type_other. intros c [Hn _]%columns_of_type_spec. done.
  - apply set_type_columns. cbn. apply list_fmap_ext. intros i k Hk%list_elem_of_lookup_2. cbn.
    rewrite (bool_decide_ext ((t, cname k) ∈ columns_of_type from s) (ctype k = from)); [done|].
    rewrite columns_of_type_spec. split.
    + intros (_ & d' & k' & Hd' & Hk' & Hn & <-). simplify_eq. f_equal.
      by eapply name_determines; [eapply Hu| | |].
    + intros Hf. split; [done|]. by exists d, k.
Qed.

Lemma convert_run from to s : type_known s to = true → names_unique s →
  ∃ s', convert from to s = (Ok tt, s') ∧
    s' = set_types to (columns_of_type from s) s ∧
    ∀ t, tables s' !! t = retype_all from to t <$> tables s !! t.
Proof.
  intros Hty Hu. exists (set_types to (columns_of_type from s) s). split; [|split; [done|]].
  - apply query_Ok. apply actions_utc; [done|].
    intros t c (_ & d & k & Hd & Hk & <- & _)%columns_of_type_spec. exists d. split; [done|].
    apply existsb_exists. exists k. split; [by apply list_elem_of_In|]. by apply bool_decide_eq_true_2.
  - intros t. rewrite set_types_lookup. destruct (tables s !! t) as [d|] eqn:Hd; [|done]. cbn.
    by rewrite (set_type_retype from to s t d).
Qed.

(** No column outside [migrations] has the type. *)
Definition no_column_of (ty : sql_type) (s : schema) : Prop := ∀ t c, (t, c) ∉ columns_of_type ty s.

Lemma retype_all_names from to t d : cname <$> columns (retype_all from to t d) = cname <$> columns d.
Proof.
  unfold retype_all. destruct (t == "migrations"); [done|]. cbn. rewrite <- list_fmap_compose.
  apply list_fmap_ext. intros i k _. cbn. by destruct (ctype k == from).
Qed.

Lemma retype_all_back from to t d : from ≠ to →
  (∀ k, k ∈ columns d → t ≠ "migrations" → ctype k ≠ to) →
  retype_all to from t (retype_all from to t d) = d.
Proof.
  intros Hft H. unfold retype_all. destruct (t == "migrations") eqn:E; [done|]. bool_prop.
  destruct d as [cols cons trs rs]. cbn in *.
  assert (∀ a b : list column, a = b → Table a cons trs rs = Table b cons trs rs) as Heq
    by congruence.
  apply Heq. rewrite <- list_fmap_compose. apply fmap_same. intros k Hk. cbn.
  destruct (ctype k == from) eqn:Ek; bool_prop.
  - destruct k. cbn in *. subst. by rewrite bool_decide_eq_true_2.
  - rewrite bool_decide_eq_false_2; [done|]. auto.
Qed.

Lemma retype_all_none from to t d k : from ≠ to → t ≠ "migrations" →
  k ∈ columns (retype_all from to t d) → ctype k ≠ from.
Proof.
  intros Hft Hm Hk. unfold retype_all in Hk.
  rewrite (bool_decide_eq_false_2 (t = "migrations")) in Hk by done. cbn in Hk.
  apply list_elem_of_fmap in Hk as (k0 & -> & _). destruct (ctype k0 == from) eqn:E; bool_prop; [|done].
  cbn. congruence.
Qed.

Lemma retype_all_rest from to t d :
  rows (retype_all from to t d) = rows d ∧ constraints (retype_all from to t d) = constraints d.
Proof. unfold retype_all. by destruct (t == "migrations"). Qed.

(** On any database the conversion leaves no timestamp without a time zone outside the
    migrations table, keeps every row, index and constraint, and is undone by its [down]
    when no column had a time zone before. *)
Theorem timestamps_converted s : names_unique s →
  ∃ s', ConvertTimestampsToTimestamptz_up s = (Ok tt, s') ∧
    no_column_of Timestamp s' ∧
    (∀ t, rows <$> tables s' !! t = rows <$> tables s !! t) ∧
    (∀ t, constraints <$> tables s' !! t = constraints <$> tables s !! t) ∧
    indexes s' = indexes s ∧
    (no_column_of Timestamptz s → ConvertTimestampsToTimestamptz_down s' = (Ok tt, s)).
Proof.
  intros Hu. destruct (convert_run Timestamp Timestamptz s eq_refl Hu) as (s' & Hrun & Hs' & Ht).
  exists s'. split; [exact Hrun|]. split_and!.
  - intros t c (Hm & d & k & Hd & Hk & _ & Hf)%columns_of_type_spec. rewrite Ht in Hd.
    destruct (tables s !! t) as [d0|]; [|done]. cbn in Hd. simplify_eq.
    by apply (retype_all_none _ Timestamptz _ _ _) in Hk.
  - intros t. rewrite Ht. destruct (tables s !! t) as [d|]; [|done]. cbn. f_equal.
    apply retype_all_rest.
  - intros t. rewrite Ht. destruct (tables s !! t) as [d|]; [|done]. cbn. f_equal.
    apply retype_all_rest.
  - by subst s'.
  - intros Hn. destruct (convert_run Timestamptz Timestamp s' eq_refl) as (s2 & Hrun2 & Hs2 & Ht2).
    { intros t d Hd. rewrite Ht in Hd. destruct (tables s !! t) as [d0|] eqn:E; [|done].
      cbn in Hd. simplify_eq. rewrite retype_all_names. by eapply Hu. }
    unfold ConvertTimestampsToTimestamptz_down. rewrite Hrun2. f_equal. subst s2.
    rewrite (set_types_eq _ _ _ (tables s)); [subst s'; by destruct s|].
    intros t. rewrite <- set_types_lookup, Ht2, Ht. destruct (tables s !! t) as [d|] eqn:Hd; [|done].
    cbn. f_equal. symmetry. apply retype_all_back; [done|]. intros k Hk Hm Hz.
    apply (Hn t (cname k)), columns_of_type_spec. split; [done|]. by exists d, k.
Qed.

Definition two_times : schema :=
  put_table "rooms" (Table [optional "a" Timestamp; optional "b" Text] [] []
    [ {["a" := CTime 7]} ]) empty.

Lemma timestamps_converted_witness :
  ∃ s', ConvertTimestampsToTimestamptz_up two_times = (Ok tt, s') ∧ no_column_of Timestamp s'.
Proof.
  destruct (timestamps_converted two_times) as (s' & H1 & H2 & _).
  - intros t d H. unfold two_times in H. rewrite put_table_eq in H. cbn in H.
    apply lookup_insert_Some in H as [[<- <-]|[_ H]]; [|by rewrite lookup_empty in H].
    apply (bool_decide_eq_true_1 _). vm_compute. reflexivity.
  - exists s'. exact (conj H1 H2).
Defined.

(** ** The difficulty range *)

Lemma query_inv f s s' : query f s = (Ok tt, s') → f s = Ok s'.
Proof. unfold query. destruct (f s); intros; by simplify_eq. Qed.

Lemma seq_inv (m1 m2 : Mig) s s' : (m1;; m2) s = (Ok tt, s') →
  ∃ s1, m1 s = (Ok tt, s1) ∧ m2 s1 = (Ok tt, s').
Proof. intros H. apply bind_Ok_inv in H as ([] & s1 & H1 & H2). eauto. Qed.

Lemma updateRows_inv t p f s s' d : tables s !! t = Some d → updateRows t p f s = Ok s' →
  ∃ rs, tables s' !! t = Some (d <| rows := rs |>) ∧
        Forall2 (λ r r', updateRow d p f r = Ok r') (rows d) rs.
Proof.
  intros Hd H. unfold updateRows, get_table in H. rewrite Hd in H.
  cbn [found mbind result_bind] in H. destruct (mapR (updateRow d p f) (rows d)) as [rs|] eqn:E; [|done].
  cbn [mbind result_bind] in H.
  destruct (rows_ok s t (d <| rows := rs |>)) as [[]|]; cbn [mbind result_bind] in H; [|done].
  simplify_eq. exists rs. split; [apply put_table_lookup|by apply mapR_inv].
Qed.

Lemma with_table_inv t f s s' d : tables s !! t = Some d → with_table t f s = Ok s' →
  ∃ d', f s d = Ok d' ∧ tables s' !! t = Some d'.
Proof.
  intros Hd H. unfold with_table, get_table in H. rewrite Hd in H. cbn in H.
  destruct (f s d) as [d'|]; [|done]. cbn in H. simplify_eq. exists d'.
  split; [done|apply put_table_lookup].
Qed.

Lemma constraint_ok_between s d n c lo hi r :
  constraint_ok s d n (Between c lo hi) = Ok tt → r ∈ rows d → between_ok c lo hi r = true.
Proof.
  unfold constraint_ok. destruct (has_column d c); [|done]. cbn.
  destruct (forallb _ (rows d)) eqn:E; [|done]. intros _ Hr. rewrite forallb_forall in E.
  apply E. by apply list_elem_of_In.
Qed.

Definition is_unset (r : row) : bool := field r "difficulty" == CInt 0.

(** Once the difficulty migration has run, every lyric has a difficulty from 1 to 5 or
    none, and only those that were 0 have changed; it does not run while a lyric has a
    difficulty outside 0 to 5. *)
Theorem difficulty_enforced s d : tables s !! "lyrics" = Some d →
  (∀ s', AddDifficultyConstraintAndDefault_up s = (Ok tt, s') →
     ∃ d', tables s' !! "lyrics" = Some d' ∧
       (∀ r, r ∈ rows d' → between_ok "difficulty" 1 5 r = true) ∧
       (∀ r, r ∈ rows d → is_unset r = false → r ∈ rows d')) ∧
  (∀ r, r ∈ rows d → is_unset r = false → between_ok "difficulty" 1 5 r = false →
     (AddDifficultyConstraintAndDefault_up s).1 ≠ Ok tt).
Proof.
  intros Hd.
  assert (∀ s', AddDifficultyConstraintAndDefault_up s = (Ok tt, s') →
     ∃ d', tables s' !! "lyrics" = Some d' ∧
       (∀ r, r ∈ rows d' → between_ok "difficulty" 1 5 r = true) ∧
       (∀ r, r ∈ rows d → is_unset r = false → r ∈ rows d')) as Hup.
  { intros s' (s1 & Hu%query_inv & H)%seq_inv.
    apply seq_inv in H as (s2 & Hs%query_inv & Ha%query_inv).
    destruct (updateRows_inv _ _ _ _ _ d Hd Hu) as (rs & H1 & Hrs).
    destruct (with_table_inv _ _ _ _ _ H1 Hs) as (d2 & E2 & H2).
    destruct (has_column _ _); [|done]. cbn in E2. simplify_eq.
    destruct (with_table_inv _ _ _ _ _ H2 Ha) as (d3 & E3 & H3).
    exists d3. split; [done|]. apply addConstraint_to_inv in E3 as [E3 ->].
    split.
    - intros r Hr. by eapply constraint_ok_between.
    - cbn. intros r Hr Hn. apply list_elem_of_lookup in Hr as [i Hi].
      destruct (Forall2_lookup_l _ _ _ _ _ Hrs Hi) as (r' & Hi' & Hr').
      unfold updateRow in Hr'. unfold is_unset in Hn. rewrite Hn in Hr'. simplify_eq.
      by apply list_elem_of_lookup_2 in Hi'. }
  split; [exact Hup|]. intros r Hr Hn Hb Hok.
  destruct (AddDifficultyConstraintAndDefault_up s) as [x s'] eqn:E. cbn in Hok. subst x.
  destruct (Hup s' eq_refl) as (d' & _ & Hall & Hkeep).
  by rewrite (Hall r (Hkeep r Hr Hn)) in Hb.
Qed.

Definition graded (z : Z) : schema :=
  put_table "lyrics" (Table [required_def "difficulty" Int4 (DInt 0)] [] []
    [ {["difficulty" := CInt z]} ]) empty.

Lemma difficulty_enforced_witness :
  (AddDifficultyConstraintAndDefault_up (graded 9)).1 ≠ Ok tt ∧
  (AddDifficultyConstraintAndDefault_up (graded 0)).1 = Ok tt.
Proof.
  split; [|by vm_compute].
  apply (difficulty_enforced (graded 9) (Table [required_def "difficulty" Int4 (DInt 0)] [] []
    [ {["difficulty" := CInt 9]} ]) eq_refl) with (r := {["difficulty" := CInt 9]});
    [set_solver|by vm_compute|by vm_compute].
Defined.

