(* ===== verification/MigrationChain.v ===== *)
(** * The chain of migrations on an empty database

    What [migration:run] builds, how it differs from the entities, what each [down]
    restores, and what the order of equal timestamps decides.  The theorems hold for any
    [naming] and [inferred] with TypeORM's documented values at the names and types the
    migrations and the entities use. *)

From Stdlib Require Import Sorted.
From S2P Require Import Prelude Schema Migrations EntityTables MigrationData.

(** ** TypeORM's documented values *)

(** A derived name is a prefix and the first 27 hexadecimal digits of the SHA-1 of
    [<table>_<column>]; these are its values at the constraints left unnamed. *)
Record documented_names (nm : naming) : Prop := {
  doc_pk_rooms : pk_name nm "rooms" "id" = "PK_0368a2d7c215f2d0458a54933f2";
  doc_pk_room_users : pk_name nm "room_users" "id" = "PK_6ba6f5ed6505258587bcf0e8db6";
  doc_pk_email : pk_name nm "email_tokens" "id" = "PK_08abb3fa348e894c274a6730d35";
  doc_pk_reset : pk_name nm "password_reset_tokens" "id" = "PK_d16bebd73e844c48bca50ff8d3d";
  doc_uq_email : uq_name nm "email_tokens" "tokenHash" = "UQ_3c9d0517a29ae032a37e258d517";
  doc_uq_reset :
    uq_name nm "password_reset_tokens" "tokenHash" = "UQ_1143abb8c3fad8b06dd857a8c9c";
  doc_fk_room : fk_name nm "room_users" "roomId" = "FK_07600e6f053913a639e4478f2e5";
  doc_fk_email : fk_name nm "email_tokens" "userId" = "FK_0a5e6c81093655b770eabd04600";
  doc_fk_reset :
    fk_name nm "password_reset_tokens" "userId" = "FK_d6a19d4b4f6c62dcd29daa497e2" }.

Record documented_types (ty : inferred) : Prop := {
  doc_string : ts_string ty = Varchar None;
  doc_number : ts_number ty = Int4;
  doc_boolean : ts_boolean ty = Boolean;
  doc_date : ts_date ty = Timestamp }.

Definition sha_names : naming := Naming
  (λ t _, if t == "rooms" then "PK_0368a2d7c215f2d0458a54933f2"
          else if t == "room_users" then "PK_6ba6f5ed6505258587bcf0e8db6"
          else if t == "email_tokens" then "PK_08abb3fa348e894c274a6730d35"
          else "PK_d16bebd73e844c48bca50ff8d3d")
  (λ t _, if t == "email_tokens" then "UQ_3c9d0517a29ae032a37e258d517"
          else "UQ_1143abb8c3fad8b06dd857a8c9c")
  (λ t _, if t == "room_users" then "FK_07600e6f053913a639e4478f2e5"
          else if t == "email_tokens" then "FK_0a5e6c81093655b770eabd04600"
          else "FK_d6a19d4b4f6c62dcd29daa497e2").
Definition pg_types : inferred := Inferred varying Int4 Boolean Timestamp.

Lemma sha_documented : documented_names sha_names.
Proof. by split. Qed.
Lemma pg_documented : documented_types pg_types.
Proof. by split. Qed.

Lemma documented_runs nm draws : documented_names nm → runs nm draws = runs sha_names draws.
Proof.
  intros []. unfold runs, CreateRoomsAndRoomUsers_up, AddEmailVerificationAndPasswordReset_up,
    create_token_table, runner_createTable, runner_createForeignKey. cbn [fmap list_fmap].
  repeat match goal with H : _ = _ |- _ => rewrite H; clear H end. reflexivity.
Qed.

Lemma documented_inferred ty : documented_types ty → ty = pg_types.
Proof. destruct ty. intros []. simpl in *. by subst. Qed.

(** ** Where the chain gets *)

Definition built (draws : list (list nat)) : schema := (run_all (runs sha_names draws) empty).2.

Lemma built_ok draws : run_all (runs sha_names draws) empty = (Ok tt, built draws).
Proof.
  unfold built. assert ((run_all (runs sha_names draws) empty).1 = Ok tt) as H
    by (vm_compute; reflexivity).
  by rewrite <- H, <- surjective_pairing.
Qed.

(** ** What it builds *)

Definition missing_timezone : list string :=
  ["lastLoginAt"; "dailyStakeLimitEffectiveAt"; "selfExclusionEndsAt"].

(** C18. Running all the migrations on an empty database succeeds and gives every table of
    the entities its columns, with their types, NOT NULL and defaults, except three time
    columns of users. *)
Theorem chain_builds_the_entities nm ty draws :
  documented_names nm → documented_types ty →
  ∃ s, run_all (runs nm draws) empty = (Ok tt, s) ∧ drift ty s = [("users", missing_timezone)].
Proof.
  intros Hn Ht. exists (built draws).
  rewrite (documented_runs _ _ Hn), (documented_inferred _ Ht).
  split; [apply built_ok | vm_compute; reflexivity].
Qed.

Lemma chain_builds_the_entities_witness :
  ∃ s, run_all (runs sha_names []) empty = (Ok tt, s)
       ∧ drift pg_types s = [("users", missing_timezone)].
Proof.
  exact (chain_builds_the_entities sha_names pg_types [] sha_documented pg_documented).
Defined.

Definition column_type (s : schema) (t c : string) : option sql_type :=
  d ← tables s !! t; k ← column_of d c; Some (ctype k).

(** The two responsible-play dates are left without a time zone, and [lastLoginAt] has
    one although the entity declares a plain timestamp. *)
Theorem chain_time_columns nm draws : documented_names nm →
  let s := (run_all (runs nm draws) empty).2 in
  column_type s "users" "dailyStakeLimitEffectiveAt" = Some Timestamp ∧
  column_type s "users" "selfExclusionEndsAt" = Some Timestamp ∧
  column_type s "users" "lastLoginAt" = Some Timestamptz.
Proof. intros Hn. rewrite (documented_runs _ _ Hn). vm_compute. auto. Qed.

Lemma chain_time_columns_witness :
  column_type (run_all (runs sha_names []) empty).2 "users" "selfExclusionEndsAt"
  = Some Timestamp.
Proof. apply (chain_time_columns sha_names [] sha_documented). Defined.

(** Enum labels the entities write. *)
Definition entity_enums : list (string * list string) :=
  [ ("users_leveltitle_enum",
     ["Gossip Rookie"; "Word Whisperer"; "Lyric Sniper"; "Bar Genius"; "Gossip Guru"]);
    ("users_preferredgenre_enum",
     ["Pop"; "Rock"; "Hip Hop"; "Rap"; "R&B"; "Country"; "Jazz"; "Blues"; "Electronic";
      "Dance"; "Reggae"; "Folk"; "Indie"; "Alternative"; "Metal"; "Punk"; "Soul"; "Funk";
      "Classical"; "World"]);
    ("users_preferreddecade_enum",
     ["1960s"; "1970s"; "1980s"; "1990s"; "2000s"; "2010s"; "2020s"]);
    ("game_session_status_enum",
     ["waiting_for_player"; "in_progress"; "completed"; "abandoned"]);
    ("game_category_enum", ["Afrobeats"; "90s R&B"; "Hip Hop"; "Pop"; "Rock"]);
    ("game_mode_enum", ["single_player"; "multiplayer"; "wagered"]);
    ("wager_status_enum",
     ["pending"; "awaiting_stakes"; "staked"; "settling"; "won"; "refunded"; "failed"]);
    ("settlement_kind_enum", ["payout"; "refund"]);
    ("rooms_status_enum", ["lobby"; "in_progress"; "finished"]);
    ("lyrics_genre_enum", ["Afrobeats"; "Hip-Hop"; "Pop"; "Other"]);
    ("game_history_guesstype_enum", ["artist"; "songTitle"]) ].

(** Every enum of the entities has exactly its labels in the database. *)
Theorem chain_enum_labels nm draws : documented_names nm →
  Forall (λ nl, ∃ labels, enums (run_all (runs nm draws) empty).2 !! nl.1 = Some labels
                          ∧ labels ≡ₚ nl.2) entity_enums.
Proof.
  intros Hn. rewrite (documented_runs _ _ Hn). change (run_all _ _).2 with (built draws).
  assert (forallb (λ nl, match enums (built draws) !! nl.1 with
    | Some labels => bool_decide (labels ≡ₚ nl.2) | None => false end) entity_enums = true)
    as H by (vm_compute; reflexivity).
  apply Forall_forall. intros nl Hin.
  eapply forallb_forall in H; [|exact Hin]. cbv beta in H.
  destruct (enums (built draws) !! nl.1) as [labels|]; [|done].
  exists labels. by apply bool_decide_eq_true in H.
Qed.

Lemma chain_enum_labels_witness :
  Forall (λ nl, ∃ labels, enums (run_all (runs sha_names []) empty).2 !! nl.1 = Some labels
                          ∧ labels ≡ₚ nl.2) entity_enums.
Proof. exact (chain_enum_labels sha_names [] sha_documented). Defined.

(** ** Reverting *)

(** Reverting every migration, the latest first, succeeds and leaves an empty
    database with the extension. *)
Theorem chain_reverts nm draws : documented_names nm →
  ∃ s, run_all (runs nm draws) empty = (Ok tt, s) ∧
       revert_all (runs nm draws) s
       = (Ok tt, empty <| extensions := ["uuid-ossp"] |>).
Proof.
  intros Hn. exists (built draws). rewrite (documented_runs _ _ Hn).
  split; [apply built_ok | vm_compute; reflexivity].
Qed.

Lemma chain_reverts_witness :
  ∃ s, run_all (runs sha_names []) empty = (Ok tt, s) ∧
       revert_all (runs sha_names []) s = (Ok tt, empty <| extensions := ["uuid-ossp"] |>).
Proof. exact (chain_reverts sha_names [] sha_documented). Defined.

(** The migrations that [p] holds of, each at the database it finds. *)
Fixpoint steps (p : migration → schema → bool) (ms : list migration) (s : schema) :
    list string :=
  match ms with
  | [] => []
  | m :: ms' => (if p m s then [mname m] else []) ++ steps p ms' (mup m s).2
  end.

(** [down] after [up] does not give back the database [up] found. *)
Definition not_restored (m : migration) (s : schema) : bool :=
  negb (bool_decide (mdown m (mup m s).2 = (Ok tt, s))).
(** [up] fails after [up] and [down]. *)
Definition not_repeatable (m : migration) (s : schema) : bool :=
  negb (bool_decide (mup m (mdown m (mup m s).2).2 = (Ok tt, (mup m s).2))).
(** [up] twice is [up] once. *)
Definition idempotent (m : migration) (s : schema) : bool :=
  bool_decide (mup m (mup m s).2 = (Ok tt, (mup m s).2)).

(** Each migration's [down] gives back the database its [up] found, except for six;
    the first only leaves the extension, and the second is the only one that cannot be
    run again. *)
Theorem each_down_restores nm draws : documented_names nm →
  steps not_restored (runs nm draws) empty =
    [ "CreateRoomsAndRoomUsers1691625843781";
      "AddMultiplayerSupportToGameSessions1755077436000";
      "RepairSchemaToMatchEntities1790363455031";
      "AddAliasesAndFixLyricsCreatedBy1794000000001";
      "AlignAuthTokenTables1794000000003";
      "AddResponsiblePlayColumnsToUsers1794000000004" ] ∧
  steps not_repeatable (runs nm draws) empty =
    [ "AddMultiplayerSupportToGameSessions1755077436000" ].
Proof. intros Hn. rewrite (documented_runs _ _ Hn). split; vm_compute; reflexivity. Qed.

Lemma each_down_restores_witness :
  steps not_repeatable (runs sha_names []) empty =
    [ "AddMultiplayerSupportToGameSessions1755077436000" ].
Proof. apply (each_down_restores sha_names [] sha_documented). Defined.

(** The two renamed migrations, and the guarded ones, change nothing when they run
    again on the database they leave. *)
Theorem guarded_are_idempotent nm draws : documented_names nm →
  steps idempotent (runs nm draws) empty =
    [ "AddSetNullToLyricsCreatedBy1758900000000";
      "CreateAuditLogsTable1790000000001";
      "RenameGossipGodToGossipGuru1790363500000";
      "AddEmailVerificationAndPasswordReset1793000000001";
      "AddRoomCodeHostAndLifecycle1794000000000";
      "ConvertTimestampsToTimestamptz1794000000000";
      "AddAliasesAndFixLyricsCreatedBy1794000000001";
      "AddWagerSettlementIntent1794000000002";
      "AlignAuthTokenTables1794000000003";
      "AddResponsiblePlayColumnsToUsers1794000000004";
      "CreateNotificationsTable1794000000005";
      "AlignIndexNames1794000000006" ].
Proof. intros Hn. rewrite (documented_runs _ _ Hn). vm_compute; reflexivity. Qed.

Lemma guarded_are_idempotent_witness :
  "AlignIndexNames1794000000006" ∈ steps idempotent (runs sha_names []) empty.
Proof. rewrite (guarded_are_idempotent sha_names [] sha_documented). set_solver. Defined.

(** [AlignAuthTokenTables]' [down] removes the time zone from columns that had one before
    its [up]. *)
Definition before_align (draws : list (list nat)) : schema :=
  (run_all (take 28 (runs sha_names draws)) empty).2.

(** Reverting AlignAuthTokenTables alone turns the token tables' times, which it found
    with a time zone, into timestamps without one. *)
Theorem align_down_loses_zone draws : let s := before_align draws in
  let s' := (AlignAuthTokenTables_down (AlignAuthTokenTables_up s).2).2 in
  column_type s "refresh_tokens" "expiresAt" = Some Timestamptz ∧
  column_type s' "refresh_tokens" "expiresAt" = Some Timestamp ∧
  column_type s' "email_tokens" "expiresAt" = Some Timestamp.
Proof. vm_compute. auto. Qed.

(** ** Equal timestamps *)

(** [migrations.sort((a, b) => a.timestamp - b.timestamp)]: the sort is stable, so equal
    timestamps keep the order in which the files were loaded. *)
Definition by_timestamp (ms : list migration) : Prop := Sorted (λ a b, mtimestamp a <= mtimestamp b) ms.

(** The chain with the three migrations of 1794000000000 in the opposite order. *)
Definition other_order (nm : naming) (draws : list (list nat)) : list migration :=
  take 22 (runs nm draws) ++ rev (take 3 (drop 22 (runs nm draws))) ++ drop 25 (runs nm draws).

Lemma reverse_block {A} i j (l : list A) :
  l ≡ₚ take i l ++ rev (take j (drop i l)) ++ drop (i + j) l.
Proof. by rewrite <- (Permutation_rev (take j _)), <- drop_drop, !take_drop. Qed.

Lemma runs_sorted nm draws : by_timestamp (runs nm draws).
Proof. unfold by_timestamp, runs. repeat constructor; done. Qed.

(** The timestamps do not decide the order of the chain: two orders sorted by timestamp
    both run, and give rooms.startedAt different types. *)
Theorem equal_timestamps_decide_nothing nm draws : documented_names nm →
  runs nm draws ≡ₚ other_order nm draws ∧
  by_timestamp (runs nm draws) ∧ by_timestamp (other_order nm draws) ∧
  (run_all (runs nm draws) empty).1 = Ok tt ∧ (run_all (other_order nm draws) empty).1 = Ok tt ∧
  column_type (run_all (runs nm draws) empty).2 "rooms" "startedAt" = Some Timestamptz ∧
  column_type (run_all (other_order nm draws) empty).2 "rooms" "startedAt" = Some Timestamp.
Proof.
  intros Hn. repeat split.
  - exact (reverse_block 22 3 (runs nm draws)).
  - apply runs_sorted.
  - unfold by_timestamp, other_order, runs. cbn. repeat constructor; done.
  - rewrite (documented_runs _ _ Hn), built_ok. done.
  - unfold other_order. rewrite (documented_runs _ _ Hn). vm_compute. reflexivity.
  - rewrite (documented_runs _ _ Hn). vm_compute. reflexivity.
  - unfold other_order. rewrite (documented_runs _ _ Hn). vm_compute. reflexivity.
Qed.

Lemma equal_timestamps_decide_nothing_witness :
  column_type (run_all (other_order sha_names []) empty).2 "rooms" "startedAt"
  = Some Timestamp.
Proof. apply (equal_timestamps_decide_nothing sha_names [] sha_documented). Defined.

(** ** The built database, once it is used *)

(** [INSERT]s put rows into a table. *)
Definition set_rows (rs : list row) (d : table) : table := d <| rows := rs |>.
Definition with_rows (t : string) (rs : list row) (s : schema) : schema :=
  match tables s !! t with
  | Some d => put_table t (set_rows rs d) s
  | None => s
  end.

(** C17. On the database the chain builds, a user with an entry in the audit log can never
    have their personal data erased, and the retention job never gets past its first step
    once the log holds an IP older than the limit. *)
Theorem erasure_fails_on_built_database nm draws rs r userId cutoff archive :
  documented_names nm → r ∈ rs →
  let s := with_rows "audit_logs" rs (run_all (runs nm draws) empty).2 in
  (field r "actorId" = CText userId → ∃ e, erase_statements userId s = (Err e, s)) ∧
  (old_ip cutoff r = true → ∃ e, retention_statements cutoff archive s = (Err e, s)).
Proof.
  intros Hn Hr. rewrite (documented_runs _ _ Hn). change (run_all _ _).2 with (built draws).
  assert (match tables (built draws) !! "audit_logs" with
          | Some d => negb (bool_decide (triggers d = [])) | None => false end = true) as Ht
    by (vm_compute; reflexivity).
  unfold with_rows. destruct (tables (built draws) !! "audit_logs") as [d|]; [|done]. bool_prop.
  destruct (append_only_blocks_erasure (put_table "audit_logs" (set_rows rs d) (built draws))
    (set_rows rs d) r (put_table_lookup _ _ _) Ht Hr) as [H1 H2].
  split; auto.
Qed.

Lemma erasure_fails_on_built_database_witness :
  let s := with_rows "audit_logs" [entry] (run_all (runs sha_names []) empty).2 in
  ∃ e, erase_statements "u" s = (Err e, s).
Proof.
  intros s. assert (field entry "actorId" = CText "u") as Ha by (vm_compute; reflexivity).
  assert (entry ∈ [entry]) as Hin by (apply list_elem_of_singleton; reflexivity).
  exact (proj1 (erasure_fails_on_built_database sha_names [] [entry] entry "u" 9 (mret tt)
    sha_documented Hin) Ha).
Defined.

(** The archive has the columns of game_history in the same order, so [INSERT … SELECT *]
    moves each value to its own column, either way. *)
Theorem archive_columns_match nm draws : documented_names nm →
  let s := (run_all (runs nm draws) empty).2 in
  ∃ d e, tables s !! "game_history" = Some d ∧ tables s !! "game_history_archive" = Some e ∧
    columns e = columns d ∧ NoDup (cname <$> columns d).
Proof.
  intros Hn. rewrite (documented_runs _ _ Hn). change (run_all _ _).2 with (built draws).
  assert (match tables (built draws) !! "game_history", tables (built draws) !! "game_history_archive" with
          | Some d, Some e => (columns e == columns d) && bool_decide (NoDup (cname <$> columns d))
          | _, _ => false end = true) as H by (vm_compute; reflexivity).
  cbv zeta. revert H. destruct (tables (built draws) !! "game_history") as [d|]; [|done].
  destruct (tables (built draws) !! "game_history_archive") as [e|]; [|done].
  intros H. apply andb_true_iff in H as [H1 H2]. bool_prop. by exists d, e.
Qed.

Lemma archive_columns_match_witness :
  ∃ d e, tables (run_all (runs sha_names []) empty).2 !! "game_history" = Some d ∧
    tables (run_all (runs sha_names []) empty).2 !! "game_history_archive" = Some e ∧
    columns e = columns d ∧ NoDup (cname <$> columns d).
Proof. exact (archive_columns_match sha_names [] sha_documented). Defined.
