(* ===== verification/Seeding.v ===== *)
(** * The seed script (src/src/seeds/seed.ts)

    The admin account, the lyric fixture, the sample players and the load-test volume.
    [aliases] of a lyric and [walletAddress] of a user are not columns of the entities:
    TypeORM's [create] drops them and a row that is read has neither.  [Role.Player] is not
    a member of [Role], so it is [undefined] and the column default applies; the script
    is modelled as it runs without type checking, which refuses those three.  bcrypt, the
    fixture file, the ids the database gives and TypeORM's [initialize] are parameters.

    [initialize] rejects a data source with an entity that relates to one it does not list,
    and the script lists [User] and [Lyrics] only: it never gets to its rows.  What it would
    do behind that call is [bootstrap_on] of a data source that is ready. *)

From S2P Require Import Prelude Decimal Number Schema Migrations EntityTables.
From Stdlib Require Import Ascii.

(** ** Rows *)

Inductive SeedRole := RoleUser | RoleAdmin.

#[export] Instance SeedRole_eq_dec : EqDecision SeedRole.
Proof. solve_decision. Defined.

Record Account := mkAccount {
  ac_id : string;
  ac_email : string;
  ac_username : string;
  ac_name : string;
  ac_passwordHash : string;
  ac_role : SeedRole;
}.
#[export] Instance Account_eq_dec : EqDecision Account.
Proof. solve_decision. Defined.
#[export] Instance Account_settable : Settable Account := λ a,
  mkAccount (ac_id a) (ac_email a) (ac_username a) (ac_name a) (ac_passwordHash a) (ac_role a).

Record Song := mkSong {
  so_artist : string;
  so_songTitle : string;
  so_lyricSnippet : string;
  so_source : string;
  so_addedBy : string;
  so_genre : string;
  so_category : option string;
  so_decade : string;
  so_difficulty : Z;
  so_createdBy : string;
}.
#[export] Instance Song_eq_dec : EqDecision Song.
Proof. solve_decision. Defined.
#[export] Instance Song_settable : Settable Song := λ a,
  mkSong (so_artist a) (so_songTitle a) (so_lyricSnippet a) (so_source a) (so_addedBy a)
    (so_genre a) (so_category a) (so_decade a) (so_difficulty a) (so_createdBy a).

(** An entry of seed-data.json. *)
Record SeedEntry := mkEntry {
  se_artist : string;
  se_songTitle : string;
  se_genre : string;
  se_category : option string;
  se_aliases : option (list string);
  se_decade : string;
  se_difficulty : Z;
  se_lyricSnippet : string;
}.

Record SeedDb := mkSeedDb { accounts : list Account; songs : list Song; serial : nat }.
#[export] Instance SeedDb_eq_dec : EqDecision SeedDb.
Proof. solve_decision. Defined.
#[export] Instance SeedDb_settable : Settable SeedDb := λ d,
  mkSeedDb (accounts d) (songs d) (serial d).

Local Abbreviation M := (Prelude.M SeedDb).

(** [process.env] *)
Record Env := mkEnv {
  NODE_ENV : option string;
  SEED_ADMIN_EMAIL : option string;
  SEED_ADMIN_PASSWORD : option string;
  LOAD_SEED : option string;
  LOAD_SEED_LYRICS : option string;
  LOAD_SEED_USERS : option string;
}.

Record SamplePlayer := mkPlayer { sp_email : string; sp_username : string; sp_name : string; sp_password : string }.
Definition samplePlayers : list SamplePlayer :=
  [ mkPlayer "player1@lyricflip.local" "player1" "Sample Player One" "player1_local_pass";
    mkPlayer "player2@lyricflip.local" "player2" "Sample Player Two" "player2_local_pass";
    mkPlayer "player3@lyricflip.local" "player3" "Sample Player Three" "player3_local_pass" ].

Definition GENRES : list string := ["Afrobeats"; "Hip-Hop"; "Pop"; "Other"].

(** ** Reading the environment and the fixture *)

Definition production (e : Env) : bool := NODE_ENV e == Some "production".

Definition exit_1 : exn := PlainError "exit" "1".

Definition resolveCredentials (e : Env) : result (string * string) :=
  if production e && (negb (truthy (SEED_ADMIN_EMAIL e)) || negb (truthy (SEED_ADMIN_PASSWORD e)))
  then Err exit_1
  else Ok (default "admin@lyricflip.local" (SEED_ADMIN_EMAIL e),
           default "changeme_local_seed" (SEED_ADMIN_PASSWORD e)).

(** [map[raw] ?? Genre.Other].  The keys of [map] are the genres; a name that every object
    inherits ("constructor") is read as if it were there, which no fixture has. *)
Definition toGenre (raw : string) : string :=
  if bool_decide (raw ∈ GENRES) then raw else "Other".

(** ** The data source *)

(** The relations of the entities the script lists, and of those they lead to, with where each
    leads. *)
Definition relations (entity : string) : list (string * string) :=
  if entity == "User" then [("gameSessions", "GameSession")]
  else if entity == "Lyrics" then [("createdBy", "User")]
  else if entity == "GameSession" then [("player", "User"); ("playerTwo", "User"); ("winner", "User")] else [].

(** [entities] of [buildDataSource] *)
Definition SEED_ENTITIES : list string := ["User"; "Lyrics"].

(** [DataSource.initialize], by the entities: it builds the metadata of each, and throws for a
    relation to an entity it was not given. *)
Class TypeOrm := {
  initialize : list string → result unit;
  initialize_related entities entity property target : entity ∈ entities →
    (property, target) ∈ relations entity → target ∉ entities → is_ok (initialize entities) = false;
}.

(** ** Writing rows *)

Section seed.
Context (bcryptHash : string → string) (newId : nat → string).

Definition violates_unique (constraint : string) : exn :=
  PlainError "23505" ("duplicate key value violates unique constraint " +:+ constraint).

(** [save] of a new user: the email and the username are unique. *)
Definition insertAccount (make : string → Account) : M Account :=
  row ← gets (λ d, make (newId (serial d)));
  taken ← gets (λ d, existsb (λ a, (ac_email a == ac_email row) || (ac_username a == ac_username row)) (accounts d));
  throw_if taken (violates_unique "users");;
  modify (λ d, d <| accounts := accounts d ++ [row] |> <| serial := S (serial d) |>);;
  mret row.

Definition findByEmail (email : string) : M (option Account) :=
  gets (λ d, List.find (λ a, ac_email a == email) (accounts d)).

(** [save] of a row that exists. *)
Definition saveRole (email : string) (role : SeedRole) : M unit :=
  modify (λ d, d <| accounts := (λ a, if ac_email a == email then a <| ac_role := role |> else a) <$> accounts d |>).

(** 1. The admin. *)
Definition upsertAdmin (email password : string) : M Account :=
  admin ← findByEmail email;
  match admin with
  | None => insertAccount (λ id, mkAccount id email "seedadmin" "Seed Admin" (bcryptHash password) RoleAdmin)
  | Some admin =>
      if ac_role admin == RoleAdmin then mret admin
      else saveRole email RoleAdmin;; mret (admin <| ac_role := RoleAdmin |>)
  end.

(** 2. The lyrics, by artist and title. *)
Definition same_song (entry : SeedEntry) (so : Song) : bool :=
  (so_artist so == se_artist entry) && (so_songTitle so == se_songTitle entry).

Definition category_changed (entry : SeedEntry) (so : Song) : bool :=
  bool_decide (is_Some (se_category entry)) && negb (so_category so == se_category entry).
(** [exists.aliases ?? []] is [[]], since the row has no such property; lists of strings are
    equal when their JSON is. *)
Definition aliases_changed (entry : SeedEntry) : bool :=
  match se_aliases entry with Some next => negb (next == []) | None => false end.

Definition with_category (entry : SeedEntry) (so : Song) : Song :=
  if category_changed entry so then so <| so_category := se_category entry |> else so.
Definition saveSong (entry : SeedEntry) : M unit :=
  modify (λ d, d <| songs := (λ so, if same_song entry so then with_category entry so else so) <$> songs d |>).

Definition newSong (adminId : string) (entry : SeedEntry) : Song :=
  mkSong (se_artist entry) (se_songTitle entry) (se_lyricSnippet entry) "seed" "seed"
    (toGenre (se_genre entry)) (se_category entry) (se_decade entry) (se_difficulty entry) adminId.

(** One turn of the loop, with the counts of rows created and updated. *)
Definition upsertLyric (adminId : string) (entry : SeedEntry) : M (nat * nat) :=
  found_ ← gets (λ d, List.find (same_song entry) (songs d));
  match found_ with
  | Some so =>
      if category_changed entry so || aliases_changed entry
      then saveSong entry;; mret (0, 1)%nat
      else mret (0, 0)%nat
  | None => modify (λ d, d <| songs := songs d ++ [newSong adminId entry] |>);; mret (1, 0)%nat
  end.

Fixpoint upsertLyrics (adminId : string) (fixture : list SeedEntry) : M (nat * nat) :=
  match fixture with
  | [] => mret (0, 0)%nat
  | entry :: rest =>
      n ← upsertLyric adminId entry;
      m ← upsertLyrics adminId rest;
      mret (n.1 + m.1, n.2 + m.2)%nat
  end.

(** 3. The sample players. *)
Definition upsertPlayer (p : SamplePlayer) : M unit :=
  player ← findByEmail (sp_email p);
  match player with
  | Some _ => mret tt
  | None => insertAccount (λ id, mkAccount id (sp_email p) (sp_username p) (sp_name p) (bcryptHash (sp_password p)) RoleUser);; mret tt
  end.

(** ** Load-test volume *)

Definition BATCH : nat := 1000.

(** [for (let start = 0; start < total; start += BATCH)]: the indexes of each batch. *)
Fixpoint batches (fuel start total : nat) : list (list nat) :=
  match fuel with
  | O => []
  | S fuel =>
      if (start <? total)%nat
      then seq start (Nat.min (start + BATCH) total - start) :: batches fuel (start + BATCH) total
      else []
  end.

(** [parseInt(process.env.X ?? fallback, 10)] as a bound of the loop; [NaN] and negative
    numbers run no turn. *)
Definition load_count (v : option string) (fallback : string) : nat :=
  match parseInt (default fallback v) with Some z => Z.to_nat z | None => O end.

Definition load_user (i : nat) (id : string) : Account :=
  let n := show (Z.of_nat i) in
  mkAccount id ("load" +:+ n +:+ "@lyricflip.local") ("load_user_" +:+ n) ("Load User " +:+ n)
    (bcryptHash "loadtest_password") RoleUser.

(** [INSERT … ON CONFLICT DO NOTHING] of one row. *)
Definition insertOrIgnore (make : string → Account) : M unit :=
  try_catch (insertAccount make;; mret tt) (λ _, mret tt).

(** The properties each inserted lyric has; the insert fails on a required column without
    a default that is not among them, whatever [orIgnore] says of conflicts. *)
Definition load_lyric_fields : list string :=
  ["content"; "lyricSnippet"; "songTitle"; "artist"; "genre"; "decade"; "difficulty"; "createdById"].
Definition fixture_fields : list string :=
  ["lyricSnippet"; "source"; "addedBy"; "songTitle"; "artist"; "genre"; "category"; "decade";
   "difficulty"; "createdById"].
Definition load_user_fields : list string := ["email"; "username"; "name"; "passwordHash"].

Definition missing (cols : list column) (given : list string) : list string :=
  cname <$> List.filter (λ k, cnotnull k && bool_decide (cdefault k = None)
                              && negb (bool_decide (cname k ∈ given))) cols.

Definition load_lyric (adminId : string) (i : nat) : Song :=
  let n := show (Z.of_nat i) in
  mkSong ("Load Artist " +:+ show (Z.of_nat (i mod 500))) ("Load Song " +:+ n) ("Load lyric " +:+ n)
    "" "" (nth (i mod 4) GENRES "Other") None "2010s" (Z.of_nat (i mod 5) + 1) adminId.

Definition same_key (x y : Song) : bool :=
  (so_artist x == so_artist y) && (so_songTitle x == so_songTitle y).
Definition addSongs (rows present : list Song) : list Song :=
  foldl (λ acc so, if existsb (same_key so) acc then acc else acc ++ [so]) present rows.

(** [INSERT INTO lyrics (given) … ON CONFLICT DO NOTHING] *)
Definition insertSongs (ty : inferred) (given : list string) (rows : list Song) : M unit :=
  match missing (Lyrics_columns ty) given with
  | [] => modify (λ d, d <| songs := addSongs rows (songs d) |>)
  | c :: _ => throw (not_null_violation c)
  end.
Definition insertLoadLyrics (ty : inferred) (adminId : string) (batch : list nat) : M unit :=
  insertSongs ty load_lyric_fields (load_lyric adminId <$> batch).

Definition seedLoadData (ty : inferred) (e : Env) (adminId : string) : M unit :=
  let lyrics := load_count (LOAD_SEED_LYRICS e) "100000" in
  let users := load_count (LOAD_SEED_USERS e) "10000" in
  for_each (λ batch, for_each (λ i, insertOrIgnore (load_user i)) batch) (batches (S users) 0 users);;
  for_each (insertLoadLyrics ty adminId) (batches (S lyrics) 0 lyrics).

(** ** The script *)

(** The script on a data source whose [initialize] gives [initialized]. *)
Definition bootstrap_on (initialized : result unit) (ty : inferred) (e : Env) (fixture : list SeedEntry) : M (nat * nat) :=
  creds ← lift (resolveCredentials e);
  lift initialized;;
  admin ← upsertAdmin creds.1 creds.2;
  counts ← upsertLyrics (ac_id admin) fixture;
  (if production e then mret tt else for_each upsertPlayer samplePlayers);;
  (if LOAD_SEED e == Some "1" then seedLoadData ty e (ac_id admin) else mret tt);;
  mret counts.

Definition bootstrap `{TypeOrm} (ty : inferred) (e : Env) (fixture : list SeedEntry) : M (nat * nat) :=
  bootstrap_on (initialize SEED_ENTITIES) ty e fixture.

(** ** Accounts persist *)

(** Nothing the script does later removes an account or makes it another. *)
Definition extends (d d' : SeedDb) : Prop := ∃ l, accounts d' = accounts d ++ l.

#[local] Instance extends_preorder : PreOrder extends.
Proof.
  split.
  - intros d. exists []. by rewrite app_nil_r.
  - intros d1 d2 d3 [l1 H1] [l2 H2]. exists (l1 ++ l2). by rewrite H2, H1, app_assoc.
Qed.

Lemma find_app {A} (p : A → bool) l1 l2 x :
  List.find p l1 = Some x → List.find p (l1 ++ l2) = Some x.
Proof. induction l1 as [|y l1 IH]; [done|]. cbn. by destruct (p y). Qed.
Lemma find_app_new {A} (p : A → bool) l1 x :
  List.find p l1 = None → p x = true → List.find p (l1 ++ [x]) = Some x.
Proof. induction l1 as [|y l1 IH]; cbn; intros H Hx; [by rewrite Hx|]. destruct (p y); [done|auto]. Qed.
Lemma find_map {A} (p : A → bool) (f : A → A) l x : (∀ y, p (f y) = p y) →
  List.find p l = Some x → List.find p (f <$> l) = Some (f x).
Proof.
  intros Hf. induction l as [|y l IH]; [done|]. cbn. rewrite Hf.
  destruct (p y); [by intros [= ->]|exact IH].
Qed.

Definition by_email (email : string) (d : SeedDb) : option Account :=
  List.find (λ a, ac_email a == email) (accounts d).

Lemma by_email_extends email d d' a : extends d d' → by_email email d = Some a → by_email email d' = Some a.
Proof. intros [l H]. unfold by_email. rewrite H. apply find_app. Qed.

Lemma insertAccount_extends make : preserves extends (insertAccount make).
Proof.
  unfold insertAccount. apply preserves_bind; [apply _|apply preserves_gets; apply _|intros row].
  apply preserves_bind; [apply _|apply preserves_gets; apply _|intros taken].
  apply preserves_bind; [apply _|apply preserves_throw_if; apply _|intros _].
  apply preserves_bind; [apply _|apply preserves_modify|intros _; apply preserves_ret; apply _].
  intros d. by exists [row].
Qed.

Lemma insertAccount_run make d a d' : insertAccount make d = (Ok a, d') →
  a = make (newId (serial d)) ∧ accounts d' = accounts d ++ [a] ∧ songs d' = songs d.
Proof.
  unfold insertAccount. rewrite !bind_gets. destruct (existsb _ _); [done|].
  cbn. unfold mbind, M_bind. cbn. intros [= <- <-]. done.
Qed.

Lemma songs_extend f : preserves extends (modify (λ d, d <| songs := f d |>)).
Proof. apply preserves_modify. intros d. exists []. by rewrite app_nil_r. Qed.

Lemma upsertLyric_extends adminId entry : preserves extends (upsertLyric adminId entry).
Proof.
  unfold upsertLyric. apply preserves_bind; [apply _|apply preserves_gets; apply _|intros []].
  - destruct (_ || _); [|apply preserves_ret; apply _].
    apply preserves_bind; [apply _|apply songs_extend|intros _; apply preserves_ret; apply _].
  - apply preserves_bind; [apply _|apply songs_extend|intros _; apply preserves_ret; apply _].
Qed.

Lemma upsertLyrics_extends adminId fixture : preserves extends (upsertLyrics adminId fixture).
Proof.
  induction fixture as [|entry rest IH]; cbn; [apply preserves_ret; apply _|].
  apply preserves_bind; [apply _|apply upsertLyric_extends|intros n].
  apply preserves_bind; [apply _|exact IH|intros m; apply preserves_ret; apply _].
Qed.

Lemma upsertPlayer_extends p : preserves extends (upsertPlayer p).
Proof.
  unfold upsertPlayer. apply preserves_bind; [apply _|apply preserves_gets; apply _|intros []].
  - apply preserves_ret; apply _.
  - apply preserves_bind; [apply _|apply insertAccount_extends|intros _; apply preserves_ret; apply _].
Qed.

(** ** The admin *)

Lemma upsertAdmin_run email password d a d' : upsertAdmin email password d = (Ok a, d') →
  by_email email d' = Some a ∧ ac_role a = RoleAdmin ∧ songs d' = songs d.
Proof.
  unfold upsertAdmin, findByEmail. rewrite bind_gets. fold (by_email email d).
  destruct (by_email email d) as [admin|] eqn:E.
  - destruct (ac_role admin == RoleAdmin) eqn:Er; bool_prop.
    + cbn. intros [= <- <-]. done.
    + unfold saveRole. rewrite bind_modify. cbn. intros [= <- <-]. split; [|done].
      unfold by_email in *. cbn.
      rewrite (find_map _ (λ x, if ac_email x == email then x <| ac_role := RoleAdmin |> else x) _ admin).
      * apply find_some in E as [_ E]. by rewrite E.
      * intros y. by destruct (ac_email y == email) eqn:Ey; cbn; rewrite ?Ey.
      * done.
  - intros H. apply insertAccount_run in H as (-> & Ha & Hs). split; [|done].
    unfold by_email in *. rewrite Ha. apply find_app_new; [done|]. by apply bool_decide_eq_true_2.
Qed.

Lemma upsertAdmin_again email password d a : by_email email d = Some a → ac_role a = RoleAdmin →
  upsertAdmin email password d = (Ok a, d).
Proof.
  intros H Hr. unfold upsertAdmin, findByEmail. rewrite bind_gets. fold (by_email email d).
  by rewrite H, Hr.
Qed.

(** ** The sample players *)

Definition has_account (d : SeedDb) (p : SamplePlayer) : Prop := is_Some (by_email (sp_email p) d).

Lemma has_account_extends d d' p : extends d d' → has_account d p → has_account d' p.
Proof. intros He [a Ha]. exists a. by eapply by_email_extends. Qed.

Lemma upsertPlayer_run p d d' : upsertPlayer p d = (Ok tt, d') →
  has_account d' p ∧ songs d' = songs d.
Proof.
  unfold upsertPlayer, findByEmail. rewrite bind_gets. fold (by_email (sp_email p) d).
  destruct (by_email (sp_email p) d) as [a|] eqn:E.
  - intros [= <-]. split; [by exists a|done].
  - intros H. apply bind_Ok_inv in H as (a & d1 & H & [= <-]).
    apply insertAccount_run in H as (-> & Ha & Hs). split; [|done].
    unfold has_account, by_email in *. rewrite Ha. rewrite (find_app_new _ _ _ E); [by eexists|].
    by apply bool_decide_eq_true_2.
Qed.

Lemma players_run ps d d' : for_each upsertPlayer ps d = (Ok tt, d') →
  extends d d' ∧ Forall (has_account d') ps ∧ songs d' = songs d.
Proof.
  revert d. induction ps as [|p ps IH]; cbn; intros d H.
  - cbv in H. simplify_eq. split; [done|]. split; [constructor|done].
  - apply bind_Ok_inv in H as ([] & d1 & H1 & H2).
    pose proof (upsertPlayer_extends p _ _ _ H1) as He1.
    apply upsertPlayer_run in H1 as [Hp Hs]. destruct (IH _ H2) as (He & Hall & Hs2).
    split; [by etrans|]. split; [|congruence]. constructor; [by eapply has_account_extends|done].
Qed.

Lemma players_again ps d : Forall (has_account d) ps → for_each upsertPlayer ps d = (Ok tt, d).
Proof.
  induction 1 as [|p ps [a Ha] Hps IH]; [done|]. cbn. rewrite (bind_run _ _ _ tt d); [done|].
  unfold upsertPlayer, findByEmail. rewrite bind_gets. fold (by_email (sp_email p) d). by rewrite Ha.
Qed.

(** ** The lyrics *)

Definition song_key (so : Song) : string * string := (so_artist so, so_songTitle so).
Definition entry_key (e : SeedEntry) : string * string := (se_artist e, se_songTitle e).

(** The unique constraint of the table. *)
Definition unique_songs (d : SeedDb) : Prop := NoDup (song_key <$> songs d).

Lemma same_song_key entry so : same_song entry so = true ↔ song_key so = entry_key entry.
Proof.
  unfold same_song, song_key, entry_key. rewrite andb_true_iff, !bool_decide_eq_true.
  split; [by intros [-> ->]|by intros [= -> ->]].
Qed.

Lemma with_category_key entry so : song_key (with_category entry so) = song_key so.
Proof. unfold with_category. by destruct (category_changed entry so). Qed.

Lemma with_category_settled entry so : category_changed entry (with_category entry so) = false.
Proof.
  unfold with_category. destruct (category_changed entry so) eqn:E; [|done].
  unfold category_changed in *. cbn. apply andb_true_iff in E as [-> _]. cbn.
  by rewrite bool_decide_eq_true_2.
Qed.

Lemma with_category_same entry so : category_changed entry so = false → with_category entry so = so.
Proof. unfold with_category. by intros ->. Qed.

(** What a turn does to the rows: those of other songs stay, and the entry is settled. *)
Definition turn (entry : SeedEntry) (l : list Song) (adminId : string) : list Song :=
  match List.find (same_song entry) l with
  | Some so => if category_changed entry so || aliases_changed entry
               then (λ so, if same_song entry so then with_category entry so else so) <$> l else l
  | None => l ++ [newSong adminId entry]
  end.

Lemma upsertLyric_run adminId entry d : ∃ n,
  upsertLyric adminId entry d = (Ok n, mkSeedDb (accounts d) (turn entry (songs d) adminId) (serial d)).
Proof.
  unfold upsertLyric, turn. rewrite bind_gets. destruct d as [acc l k]. cbn [songs].
  destruct (List.find (same_song entry) l) as [so|]; [|by eexists].
  destruct (_ || _); by eexists.
Qed.

Lemma turn_keys entry l adminId : NoDup (song_key <$> l) → NoDup (song_key <$> turn entry l adminId).
Proof.
  intros Hnd. unfold turn. destruct (List.find (same_song entry) l) as [so|] eqn:E.
  - destruct (_ || _); [|done]. rewrite <- list_fmap_compose.
    erewrite (list_fmap_ext _ song_key); [done|]. intros i x _. cbn.
    destruct (same_song entry x); [apply with_category_key|done].
  - rewrite fmap_app. apply list.NoDup_app. split; [done|]. split; [|apply NoDup_singleton].
    intros k Hk Hin. apply list_elem_of_fmap in Hk as (so & -> & Hso).
    apply list_elem_of_singleton in Hin. apply list_elem_of_In in Hso.
    apply (find_none _ _ E) in Hso. apply not_true_iff_false in Hso. apply Hso.
    by apply same_song_key.
Qed.

(** The entry's row is there, with its category. *)
Definition settled_in (entry : SeedEntry) (l : list Song) : Prop :=
  (∃ so, List.find (same_song entry) l = Some so) ∧
  ∀ so, so ∈ l → same_song entry so = true → category_changed entry so = false.

Lemma same_song_with e1 e2 so : same_song e1 (with_category e2 so) = same_song e1 so.
Proof. unfold with_category. by destruct (category_changed e2 so). Qed.

Lemma unique_key l so so' : NoDup (song_key <$> l) → so ∈ l → so' ∈ l →
  song_key so = song_key so' → so = so'.
Proof.
  intros Hnd Hi Hj He. apply list_elem_of_lookup in Hi as [i Hi], Hj as [j Hj].
  assert (i = j) as ->; [|congruence].
  eapply (NoDup_lookup _ i j (song_key so) Hnd); rewrite list_lookup_fmap; [by rewrite Hi|].
  by rewrite Hj, He.
Qed.

Lemma turn_settles entry l adminId : NoDup (song_key <$> l) → settled_in entry (turn entry l adminId).
Proof.
  intros Hnd. unfold turn. destruct (List.find (same_song entry) l) as [so|] eqn:E.
  - destruct (category_changed entry so || aliases_changed entry) eqn:Ec.
    + split.
      * eexists. apply find_map; [|exact E]. intros y. destruct (same_song entry y) eqn:Ey; [|done].
        by rewrite same_song_with.
      * intros y Hy Hs. apply list_elem_of_fmap in Hy as (z & -> & Hz).
        destruct (same_song entry z) eqn:Ez; [apply with_category_settled|congruence].
    + split; [by eexists|]. intros y Hy Hs. apply orb_false_iff in Ec as [Ec _].
      apply find_some in E as [Hin Hso]. apply list_elem_of_In in Hin.
      rewrite (unique_key l y so); [done|done|done|done|].
      by apply same_song_key in Hs, Hso as ->.
  - assert (same_song entry (newSong adminId entry) = true) as Hnew by (by apply same_song_key).
    split; [eexists; by apply find_app_new|]. intros y Hy Hs.
    apply elem_of_app in Hy as [Hy|Hy%list_elem_of_singleton].
    + apply list_elem_of_In in Hy. apply (find_none _ _ E) in Hy. congruence.
    + subst y. unfold category_changed. cbn.
      by rewrite (bool_decide_eq_true_2 (se_category entry = se_category entry)), andb_false_r.
Qed.

Lemma turn_keeps entry other l adminId : entry_key other ≠ entry_key entry →
  settled_in other l → settled_in other (turn entry l adminId).
Proof.
  intros Hne [[so Hf] Hall].
  assert (∀ y, same_song other y = true → same_song entry y = false) as Hdiff.
  { intros y H. apply not_true_iff_false. intros H'. apply same_song_key in H, H'. congruence. }
  unfold turn. destruct (List.find (same_song entry) l) as [so'|] eqn:E.
  - destruct (_ || _); [|split; [by eexists|exact Hall]]. split.
    + eexists. apply find_map; [|exact Hf]. intros y. destruct (same_song entry y); [|done].
      by rewrite same_song_with.
    + intros y Hy Hs. apply list_elem_of_fmap in Hy as (z & -> & Hz).
      destruct (same_song entry z) eqn:Ez; [|by apply Hall].
      rewrite same_song_with in Hs. apply Hdiff in Hs. congruence.
  - split; [eexists; by apply find_app|]. intros y Hy Hs.
    apply elem_of_app in Hy as [Hy|Hy%list_elem_of_singleton]; [by apply Hall|].
    subst y. apply Hdiff, not_true_iff_false in Hs. exfalso. apply Hs. by apply same_song_key.
Qed.

Lemma turn_done entry l adminId : settled_in entry l → turn entry l adminId = l.
Proof.
  intros [[so Hf] Hall]. unfold turn. rewrite Hf. destruct (_ || _); [|done].
  assert (∀ k : list Song, (∀ y, y ∈ k → same_song entry y = true → category_changed entry y = false) →
    (λ y, if same_song entry y then with_category entry y else y) <$> k = k) as H; [|by apply H].
  intros k. induction k as [|y k IH]; intros Hk; [done|]. cbn. rewrite IH by set_solver. f_equal.
  destruct (same_song entry y) eqn:Ey; [|done]. apply with_category_same, Hk; [set_solver|done].
Qed.

(** The whole loop. *)
Fixpoint turns (fixture : list SeedEntry) (l : list Song) (adminId : string) : list Song :=
  match fixture with
  | [] => l
  | entry :: rest => turns rest (turn entry l adminId) adminId
  end.

Lemma upsertLyrics_run adminId fixture d : ∃ n,
  upsertLyrics adminId fixture d
  = (Ok n, mkSeedDb (accounts d) (turns fixture (songs d) adminId) (serial d)).
Proof.
  revert d. induction fixture as [|entry rest IH]; intros d; [destruct d; by eexists|].
  cbn [upsertLyrics turns]. destruct (upsertLyric_run adminId entry d) as [n Hn].
  rewrite (bind_run _ _ _ _ _ Hn).
  destruct (IH (mkSeedDb (accounts d) (turn entry (songs d) adminId) (serial d))) as [m Hm].
  rewrite (bind_run _ _ _ _ _ Hm). by eexists.
Qed.

Lemma turns_keep other fixture l adminId : entry_key other ∉ entry_key <$> fixture →
  settled_in other l → settled_in other (turns fixture l adminId).
Proof.
  revert l. induction fixture as [|entry rest IH]; intros l Hk Hs; [done|]. cbn in *.
  apply not_elem_of_cons in Hk as [Hk1 Hk2]. apply IH; [done|]. by apply turn_keeps.
Qed.

Lemma turns_settle fixture l adminId : NoDup (entry_key <$> fixture) → NoDup (song_key <$> l) →
  Forall (λ e, settled_in e (turns fixture l adminId)) fixture.
Proof.
  revert l. induction fixture as [|entry rest IH]; intros l Hf Hl; [constructor|]. cbn in *.
  apply list.NoDup_cons in Hf as [Hn Hf]. constructor.
  - apply turns_keep; [done|]. by apply turn_settles.
  - apply IH; [done|]. by apply turn_keys.
Qed.

(** A second run finds every entry settled: it creates nothing and changes nothing, and
    counts as updated the entries with aliases. *)
Lemma upsertLyric_again adminId entry d : settled_in entry (songs d) →
  upsertLyric adminId entry d = (Ok (0, if aliases_changed entry then 1 else 0)%nat, d).
Proof.
  intros Hs. pose proof (turn_done entry (songs d) adminId Hs) as Ht.
  destruct Hs as [[so Hf] Hall]. unfold upsertLyric. rewrite bind_gets, Hf.
  rewrite (Hall so); [|apply list_elem_of_In; by apply find_some in Hf as [? _]|by apply find_some in Hf as [_ ?]].
  unfold turn in Ht. rewrite Hf in Ht.
  rewrite (Hall so) in Ht; [|apply list_elem_of_In; by apply find_some in Hf as [? _]|by apply find_some in Hf as [_ ?]].
  cbn [orb] in *. destruct (aliases_changed entry); [|done].
  unfold saveSong. rewrite bind_modify. cbn [accounts songs serial] in *. destruct d as [acc l k].
  cbn in *. unfold set_field. cbn. by rewrite Ht.
Qed.

Definition updates (fixture : list SeedEntry) : nat := length (List.filter aliases_changed fixture).

Lemma upsertLyrics_again adminId fixture d : Forall (λ e, settled_in e (songs d)) fixture →
  upsertLyrics adminId fixture d = (Ok (0, updates fixture)%nat, d).
Proof.
  unfold updates. induction 1 as [|entry rest He Hrest IH]; [done|]. cbn [upsertLyrics].
  rewrite (bind_run _ _ _ _ _ (upsertLyric_again adminId entry d He)).
  rewrite (bind_run _ _ _ _ _ IH). cbn. by destruct (aliases_changed entry).
Qed.

(** ** The script *)

Definition loads (e : Env) : bool := LOAD_SEED e == Some "1".

Lemma players_step e d d' :
  (if production e then mret tt else for_each upsertPlayer samplePlayers) d = (Ok tt, d') →
  extends d d' ∧ songs d' = songs d ∧
  (production e = false → Forall (has_account d') samplePlayers).
Proof.
  destruct (production e); [by intros [= <-]|]. by intros (? & ? & ?)%players_run.
Qed.

(** C37. The script never seeds anything: whatever the environment, the fixture and the database,
    it stops at the latest at [initialize], with the database as it was, since [User] relates
    to an entity it does not list.  On a data source that is ready, its steps can be repeated:
    without the load-test volume, a second run on the database a first one left succeeds,
    creates nothing and changes nothing; it still reports an update for every entry with
    aliases, since aliases are never stored. *)
Theorem seed_idempotent {orm : TypeOrm} ty e fixture d :
  (∃ err, bootstrap ty e fixture d = (Err err, d)) ∧
  ∀ n d', unique_songs d → NoDup (entry_key <$> fixture) → loads e = false →
    bootstrap_on (Ok tt) ty e fixture d = (Ok n, d') →
    bootstrap_on (Ok tt) ty e fixture d' = (Ok (0, updates fixture)%nat, d').
Proof.
  split.
  { unfold bootstrap, bootstrap_on. destruct (resolveCredentials e) as [creds|err]; [|by exists err].
    rewrite (bind_lift _ creds) by done. destruct (initialize SEED_ENTITIES) as [[]|err] eqn:Hi; [|by exists err].
    assert (is_ok (initialize SEED_ENTITIES) = false) as Hno; [|by rewrite Hi in Hno].
    apply (initialize_related _ "User" "gameSessions" "GameSession"); [by left|by left|].
    apply (bool_decide_eq_true_1 _). reflexivity. }
  intros n d' Hu Hf Hl H. unfold bootstrap_on in H. apply bind_Ok_inv in H as (creds & d0 & Hc & H).
  injection Hc as Hc <-. rewrite (bind_lift _ tt) in H by done.
  apply bind_Ok_inv in H as (admin & d1 & Ha & H).
  apply bind_Ok_inv in H as (counts & d2 & Hly & H).
  apply bind_Ok_inv in H as ([] & d3 & Hp & H). unfold loads in Hl. rewrite Hl in H.
  apply bind_Ok_inv in H as ([] & d4 & [= ->] & [= -> ->]).
  destruct (upsertAdmin_run _ _ _ _ _ Ha) as (Hby & Hrole & Hs1).
  pose proof (upsertLyrics_extends _ _ _ _ _ Hly) as He2.
  destruct (upsertLyrics_run (ac_id admin) fixture d1) as [m Hrun]. rewrite Hrun in Hly.
  assert (songs d2 = turns fixture (songs d) (ac_id admin)) as Hs2 by (simplify_eq; cbn; by rewrite Hs1).
  destruct (players_step _ _ _ Hp) as (He3 & Hs3 & Hps).
  assert (by_email creds.1 d' = Some admin) as Hby'.
  { eapply by_email_extends; [exact He3|]. by eapply by_email_extends. }
  unfold bootstrap_on. rewrite (bind_lift _ creds), (bind_lift _ tt) by done.
  rewrite (bind_run _ _ _ _ _ (upsertAdmin_again creds.1 creds.2 d' admin Hby' Hrole)).
  rewrite (bind_run _ _ _ _ _ (upsertLyrics_again (ac_id admin) fixture d'
    ltac:(rewrite Hs3, Hs2; by apply turns_settle))).
  rewrite (bind_run _ _ _ tt d').
  - by rewrite Hl.
  - destruct (production e); [done|]. by apply players_again, Hps.
Qed.

(** In production the script refuses to start without both credentials, and never
    writes a sample player: without the load-test volume it adds at most the admin. *)
Theorem seed_production ty e fixture d : production e = true →
  (truthy (SEED_ADMIN_EMAIL e) = false ∨ truthy (SEED_ADMIN_PASSWORD e) = false →
     bootstrap_on (Ok tt) ty e fixture d = (Err exit_1, d)) ∧
  (loads e = false → ∀ n d' a, bootstrap_on (Ok tt) ty e fixture d = (Ok n, d') → a ∈ accounts d' →
     (∃ b, b ∈ accounts d ∧ ac_email b = ac_email a) ∨ Some (ac_email a) = SEED_ADMIN_EMAIL e).
Proof.
  intros Hp. split.
  - intros H. unfold bootstrap_on. rewrite (bind_lift_err _ exit_1); [done|]. unfold resolveCredentials.
    rewrite Hp. by destruct H as [-> | ->]; [|rewrite orb_true_r].
  - intros Hl n d' a H Hin. unfold bootstrap_on in H. apply bind_Ok_inv in H as (creds & d0 & Hc & H).
    injection Hc as Hres <-. rewrite (bind_lift _ tt) in H by done. apply bind_Ok_inv in H as (admin & d1 & Ha & H).
    apply bind_Ok_inv in H as (counts & d2 & Hly & H). rewrite Hp in H. unfold loads in Hl.
    rewrite Hl in H. cbn in H. unfold mbind, M_bind in H. cbn in H. simplify_eq.
    destruct (upsertLyrics_run (ac_id admin) fixture d1) as [m Hrun]. rewrite Hrun in Hly.
    simplify_eq. unfold mret, M_ret in H. simplify_eq. cbn in Hin.
    assert (Some creds.1 = SEED_ADMIN_EMAIL e) as Hcr.
    { unfold resolveCredentials in Hres. rewrite Hp in Hres.
      destruct (truthy (SEED_ADMIN_EMAIL e)) eqn:Et; [|done].
      destruct (truthy (SEED_ADMIN_PASSWORD e)); [|done]. cbn in Hres. simplify_eq. cbn.
      by destruct (SEED_ADMIN_EMAIL e). }
    rewrite <- Hcr. unfold upsertAdmin, findByEmail in Ha. rewrite bind_gets in Ha.
    destruct (List.find (λ a, ac_email a == creds.1) (accounts d)) as [adm|] eqn:E.
    + assert (∀ x, x ∈ accounts d1 → ∃ y, y ∈ accounts d ∧ ac_email y = ac_email x) as Hall.
      { destruct (ac_role adm == RoleAdmin); [injection Ha as _ <-; eauto|].
        injection Ha as _ <-. intros x Hx. apply list_elem_of_fmap in Hx as (y & -> & Hy).
        exists y. split; [done|]. by destruct (ac_email y == creds.1). }
      left. auto.
    + apply insertAccount_run in Ha as (-> & Hacc & _). rewrite Hacc in Hin.
      apply elem_of_app in Hin as [Hin|Hin%list_elem_of_singleton]; [left; eauto|].
      right. by subst a.
Qed.

(** The fixed user name of the admin makes a second address impossible: while another
    account is called seedadmin and the configured address is new, the script fails and
    changes nothing. *)
Theorem seedadmin_taken ty e fixture d creds a :
  resolveCredentials e = Ok creds → by_email creds.1 d = None →
  a ∈ accounts d → ac_username a = "seedadmin" →
  bootstrap_on (Ok tt) ty e fixture d = (Err (violates_unique "users"), d).
Proof.
  intros Hc Hn Hin Hname. unfold bootstrap_on. rewrite (bind_lift _ creds), (bind_lift _ tt) by done.
  apply bind_run_err. unfold upsertAdmin, findByEmail. rewrite bind_gets.
  fold (by_email creds.1 d). rewrite Hn. unfold insertAccount. rewrite !bind_gets.
  cbn [ac_email ac_username]. assert (existsb (λ b, (ac_email b == creds.1) || (ac_username b == "seedadmin")) (accounts d) = true)
    as Hex.
  { apply existsb_exists. exists a. split; [by apply list_elem_of_In|].
    by rewrite (bool_decide_eq_true_2 (ac_username a = _)), orb_true_r. }
  by rewrite Hex.
Qed.

(** ** Load-test volume *)

Lemma mjoin_cons {A} (x : list A) l : mjoin (x :: l) = x ++ mjoin l.
Proof. done. Qed.

Lemma batches_spec fuel start total : (start ≤ total)%nat → (total - start ≤ fuel)%nat →
  mjoin (batches fuel start total) = seq start (total - start) ∧
  Forall (λ b, (length b ≤ BATCH)%nat) (batches fuel start total).
Proof.
  revert start. induction fuel as [|fuel IH]; intros start Hs Hf; cbn [batches].
  - replace (total - start)%nat with 0%nat by lia. done.
  - destruct (Nat.ltb_spec start total) as [Hlt|Hge].
    + destruct (decide (start + BATCH ≤ total)%nat) as [Hle|Hgt].
      * destruct (IH (start + BATCH)%nat) as [H1 H2]; [lia|unfold BATCH in *; lia|].
        rewrite Nat.min_l by lia. rewrite mjoin_cons. split.
        -- rewrite H1. replace (start + BATCH - start)%nat with BATCH by lia.
           rewrite <- seq_app. f_equal. lia.
        -- constructor; [|done]. rewrite length_seq. lia.
      * rewrite Nat.min_r by lia.
        assert (batches fuel (start + BATCH) total = []) as Hnil.
        { destruct fuel; [done|]. cbn [batches]. destruct (Nat.ltb_spec (start + BATCH) total); [lia|done]. }
        rewrite Hnil, mjoin_cons, app_nil_r. split; [done|].
        constructor; [|constructor]. rewrite length_seq. lia.
    + replace (total - start)%nat with 0%nat by lia. done.
Qed.

(** The batches of the load-test volume hold every index below the total once, in
    order, at most 1000 at a time; the fuel of one more than the total is enough. *)
Theorem load_batches_cover total :
  mjoin (batches (S total) 0 total) = seq 0 total ∧
  Forall (λ b, (length b ≤ BATCH)%nat) (batches (S total) 0 total).
Proof.
  destruct (batches_spec (S total) 0 total) as [H1 H2]; [lia|lia|].
  by rewrite Nat.sub_0_r in H1.
Qed.

(** The fixture gives every required column of a lyric, and the load-test volume every
    required column of a user but not of a lyric: it names no source. *)
Theorem required_columns_given ty :
  missing (Lyrics_columns ty) fixture_fields = [] ∧
  missing (User_columns ty) load_user_fields = [] ∧
  missing (Lyrics_columns ty) load_lyric_fields = ["source"].
Proof. destruct ty. by vm_compute. Qed.

Lemma source_missing ty : missing (Lyrics_columns ty) load_lyric_fields = ["source"].
Proof. by destruct ty. Qed.

Lemma for_each_first {A} (f : A → M unit) x l e d : f x d = (Err e, d) →
  for_each f (x :: l) d = (Err e, d).
Proof. intros H. cbn. by apply bind_run_err. Qed.

Lemma load_lyrics_fail ty adminId total d : (0 < total)%nat →
  for_each (insertLoadLyrics ty adminId) (batches (S total) 0 total) d
  = (Err (not_null_violation "source"), d).
Proof.
  intros Ht. cbn [batches]. destruct (Nat.ltb_spec 0 total); [|lia]. apply for_each_first.
  unfold insertLoadLyrics, insertSongs.
  by rewrite source_missing.
Qed.

(** With LOAD_SEED=1 and at least one lyric to load, the script never completes. *)
Theorem load_seed_never_completes ty e fixture d : loads e = true →
  (0 < load_count (LOAD_SEED_LYRICS e) "100000")%nat →
  ∀ n, (bootstrap_on (Ok tt) ty e fixture d).1 ≠ Ok n.
Proof.
  intros Hl Ht n Hn. destruct (bootstrap_on (Ok tt) ty e fixture d) as [r d'] eqn:H. cbn in Hn. subst r.
  unfold bootstrap_on in H. apply bind_Ok_inv in H as (creds & d0 & _ & H).
  rewrite (bind_lift _ tt) in H by done. apply bind_Ok_inv in H as (admin & d1 & _ & H). apply bind_Ok_inv in H as (counts & d2 & _ & H).
  apply bind_Ok_inv in H as ([] & d3 & _ & H). unfold loads in Hl. rewrite Hl in H.
  apply bind_Ok_inv in H as ([] & d4 & H & _). unfold seedLoadData in H.
  apply bind_Ok_inv in H as ([] & d5 & _ & H). by rewrite load_lyrics_fail in H.
Qed.
End seed.

(** ** The fixture file *)

(** seed-data.json: artist, title, genre, category, aliases, decade, difficulty. *)
Definition entry (artist title genre category : string) (aliases : list string) (decade : string)
    (difficulty : Z) : SeedEntry :=
  mkEntry artist title genre (Some category) (Some aliases) decade difficulty "".

Definition seedData : list SeedEntry :=
  [ entry "The Weeknd" "Can't Feel My Face" "Pop" "Pop" ["Can't Feel My Face Remix"] "2010s" 2;
    entry "The Beatles" "I Want to Hold Your Hand" "Pop" "Pop" ["Hold Your Hand"] "1960s" 1;
    entry "Drake" "Hotline Bling" "Hip-Hop" "Hip-Hop" ["Hotline"] "2010s" 1;
    entry "Katy Perry" "Firework" "Pop" "Pop" [] "2010s" 1;
    entry "Green Day" "Boulevard of Broken Dreams" "Rock" "Rock" ["Boulevard"] "2000s" 2;
    entry "Coldplay" "Fix You" "Rock" "Rock" [] "2000s" 2;
    entry "Pink Floyd" "Another Brick in the Wall" "Rock" "Rock" ["Another Brick"] "1970s" 2;
    entry "Drake" "Started From the Bottom" "Hip-Hop" "Hip-Hop" ["Bottom"] "2010s" 1;
    entry "Rihanna" "We Found Love" "Pop" "Pop" [] "2010s" 2;
    entry "Queen" "We Will Rock You" "Rock" "Rock" ["Rock You"] "1970s" 1;
    entry "Beyonce" "Halo" "R&B" "R&B" [] "2000s" 2;
    entry "Burna Boy" "Ye" "Afrobeats" "Afrobeats" [] "2010s" 2;
    entry "Wizkid" "Essence" "Afrobeats" "Afrobeats" [] "2020s" 2;
    entry "Davido" "Fall" "Afrobeats" "Afrobeats" [] "2010s" 2;
    entry "Notorious B.I.G." "Juicy" "Hip-Hop" "Hip-Hop" ["Biggie Juicy"] "1990s" 2;
    entry "Tupac" "California Love" "Hip-Hop" "Hip-Hop" ["Cali Love"] "1990s" 2;
    entry "Eminem" "Lose Yourself" "Hip-Hop" "Hip-Hop" [] "2000s" 2;
    entry "Michael Jackson" "Billie Jean" "Pop" "Pop" ["Billie Jean"] "1980s" 1;
    entry "Whitney Houston" "I Will Always Love You" "R&B" "R&B" ["Always Love You"] "1990s" 1;
    entry "Marvin Gaye" "What's Going On" "Soul" "Soul" [] "1970s" 3 ].

Definition development : Env := mkEnv None None None None None None.
Definition empty_db : SeedDb := mkSeedDb [] [] 0.

Module SeedDemo.
Definition ids (n : nat) : string := "id" +:+ show (Z.of_nat n).
Definition types : inferred := Inferred varying Int4 Boolean Timestamp.
Definition run (e : Env) (d : SeedDb) : result (nat * nat) * SeedDb :=
  bootstrap_on id ids (Ok tt) types e seedData d.

(** The fixture has no key twice, eleven entries with aliases, and genres that become
    Other. *)
Lemma fixture_keys : NoDup (entry_key <$> seedData).
Proof. apply (bool_decide_eq_true_1 _). vm_compute. reflexivity. Qed.

Example first_run : (run development empty_db).1 = Ok (20, 0)%nat.
Proof. vm_compute. reflexivity. Qed.
Example second_run : (run development (run development empty_db).2).1 = Ok (0, updates seedData)%nat.
Proof. vm_compute. reflexivity. Qed.
Example aliases_reported : updates seedData = 11%nat.
Proof. vm_compute. reflexivity. Qed.
Example roles : ac_role <$> accounts (run development empty_db).2 = [RoleAdmin; RoleUser; RoleUser; RoleUser].
Proof. vm_compute. reflexivity. Qed.
Example genre_lost : so_genre <$> List.filter (λ so, so_artist so == "Queen") (songs (run development empty_db).2) = ["Other"].
Proof. vm_compute. reflexivity. Qed.

(** Another address for the admin, on the database of the first run. *)
Definition moved : Env := mkEnv None (Some "ops@lyricflip.local") None None None None.
Example admin_moved : run moved (run development empty_db).2
  = (Err (violates_unique "users"), (run development empty_db).2).
Proof. vm_compute. reflexivity. Qed.

Lemma first_unique : unique_songs empty_db.
Proof. constructor. Qed.

Definition loading : Env := mkEnv None None None (Some "1") (Some "3") (Some "2").
Definition unset_production : Env := mkEnv (Some "production") (Some "a@b.c") None None None None.
End SeedDemo.

(** A data source that throws for the relations it cannot resolve, and for nothing else. *)
Definition dangling (entities : list string) : list (string * string) :=
  List.filter (λ r, negb (bool_decide (r.2 ∈ entities))) (mjoin (relations <$> entities)).
Definition metadata_missing : exn :=
  PlainError "TypeORMError" ("Entity metadata for User#gameSessions was not found. Check if you " +:+
    "specified a correct entity object and if it's connected in the connection options.").

Lemma dangling_related entities entity property target : entity ∈ entities →
  (property, target) ∈ relations entity → target ∉ entities →
  is_ok (if dangling entities is [] then Ok tt else Err metadata_missing) = false.
Proof.
  intros He Hr Ht.
  assert ((property, target) ∈ dangling entities) as Hd.
  { apply list_elem_of_In, filter_In. split; [apply list_elem_of_In, list_elem_of_join|cbn; by rewrite bool_decide_false].
    exists (relations entity). split; [done|]. apply list_elem_of_fmap. by exists entity. }
  destruct (dangling entities); [by apply elem_of_nil in Hd|done].
Qed.

#[local] Instance demo_typeorm : TypeOrm := {|
  initialize entities := if dangling entities is [] then Ok tt else Err metadata_missing;
  initialize_related := dangling_related;
|}.

(** With the entity that is missing, the data source would be ready. *)
Example never_ready : (bootstrap id SeedDemo.ids SeedDemo.types development seedData empty_db) = (Err metadata_missing, empty_db) ∧
  initialize ["User"; "Lyrics"; "GameSession"] = Ok tt.
Proof. split; vm_compute; reflexivity. Qed.

Lemma seed_idempotent_witness :
  (∃ err, bootstrap id SeedDemo.ids SeedDemo.types development seedData empty_db = (Err err, empty_db)) ∧
  SeedDemo.run development (SeedDemo.run development empty_db).2
  = (Ok (0, updates seedData)%nat, (SeedDemo.run development empty_db).2).
Proof.
  destruct (seed_idempotent id SeedDemo.ids SeedDemo.types development seedData empty_db) as [Hfail Hagain].
  split; [exact Hfail|]. apply (Hagain (20, 0)%nat).
  - exact SeedDemo.first_unique.
  - exact SeedDemo.fixture_keys.
  - reflexivity.
  - vm_compute. reflexivity.
Defined.

Lemma seed_production_witness :
  bootstrap_on id SeedDemo.ids (Ok tt) SeedDemo.types SeedDemo.unset_production seedData empty_db
  = (Err exit_1, empty_db).
Proof.
  apply (seed_production id SeedDemo.ids SeedDemo.types SeedDemo.unset_production seedData empty_db);
    [reflexivity|by right].
Defined.

Lemma seedadmin_taken_witness :
  SeedDemo.run SeedDemo.moved
    (mkSeedDb [mkAccount "1" "admin@lyricflip.local" "seedadmin" "Seed Admin" "" RoleAdmin] [] 1)
  = (Err (violates_unique "users"),
     mkSeedDb [mkAccount "1" "admin@lyricflip.local" "seedadmin" "Seed Admin" "" RoleAdmin] [] 1).
Proof.
  apply (seedadmin_taken id SeedDemo.ids SeedDemo.types SeedDemo.moved seedData
    (mkSeedDb [mkAccount "1" "admin@lyricflip.local" "seedadmin" "Seed Admin" "" RoleAdmin] [] 1)
    ("ops@lyricflip.local", "changeme_local_seed")
    (mkAccount "1" "admin@lyricflip.local" "seedadmin" "Seed Admin" "" RoleAdmin));
    [reflexivity|reflexivity|apply list_elem_of_singleton; reflexivity|reflexivity].
Defined.

Lemma load_seed_never_completes_witness :
  (bootstrap_on id SeedDemo.ids (Ok tt) SeedDemo.types SeedDemo.loading seedData empty_db).1 ≠ Ok (20, 0)%nat.
Proof. apply load_seed_never_completes; [reflexivity|vm_compute; lia]. Defined.
