(* ===== verification/Export.v ===== *)
(** * The export of personal data (src/src/users/users.service.ts)

    [UsersService.exportData] on the tables of Schema.v: one [find] per table, with its
    [where], [order] and [select].  A [find] on a table that is not there fails, and the
    export with it. *)

From S2P Require Import Prelude Schema Migrations EntityTables MigrationData MigrationChain.
From stdpp Require Import sorting.

#[local] Open Scope Z_scope.

Local Abbreviation M := (Prelude.M schema).

(** ** TypeORM's [find] on a table *)

Definition equals (c v : string) (r : row) : bool := field r c == CText v.

Definition time_of (c : string) (r : row) : Z := match field r c with CTime t => t | _ => 0 end.
Definition later_first (c : string) (r r' : row) : Prop := time_of c r' <= time_of c r.
#[export] Instance later_first_dec c : RelDecision (later_first c).
Proof. intros r r'. unfold later_first. apply _. Defined.
#[export] Instance later_first_total c : Total (later_first c).
Proof. intros r r'. unfold later_first. lia. Qed.

Definition selected (cols : list string) (r : row) : row := filter (λ kv, kv.1 ∈ cols) r.

(** [find({ where })] *)
Definition find (t : string) (where_ : row → bool) : M (list row) :=
  d ← gets (λ s, tables s !! t);
  d ← require d (undefined_table t);
  mret (List.filter where_ (rows d)).
(** [find({ where, order: { c: 'DESC' } })] *)
Definition findLatest (t c : string) (where_ : row → bool) : M (list row) :=
  rs ← find t where_; mret (merge_sort (later_first c) rs).
(** [find({ …, select })] *)
Definition only (cols : list string) (m : M (list row)) : M (list row) :=
  rs ← m; mret (selected cols <$> rs).

Definition findUser (id : string) : M row :=
  rs ← find "users" (equals "id" id);
  require (head rs) (NotFound ("User with ID " +:+ id +:+ " not found")).

(** ** The export *)

Record Export := mkExport {
  ex_exportedAt : Z;
  ex_profile : row;
  ex_gameHistory : list row;
  ex_gameSessions : list row;
  ex_gameRounds : list row;
  ex_wagers : list row;
  ex_dailyChallengeAttempts : list row;
  ex_roomParticipation : list row;
  ex_roomsHosted : list row;
  ex_sessions : list row;
  ex_notifications : list row;
  ex_auditEntries : list row;
  ex_lyricsAdded : list row;
}.

Definition profile_fields : list string :=
  ["id"; "email"; "username"; "name"; "stellarAddress"; "preferredGenre"; "preferredDecade";
   "xp"; "level"; "isActive"; "createdAt"; "updatedAt"].
Definition session_fields : list string := ["id"; "createdAt"; "expiresAt"; "revokedAt"].
Definition lyric_fields : list string := ["id"; "artist"; "songTitle"; "isActive"; "createdAt"].

Definition in_session (id : string) (r : row) : bool := equals "playerId" id r || equals "playerTwoId" id r.
Definition in_wager (id : string) (r : row) : bool := equals "playerAId" id r || equals "playerBId" id r.
Definition in_audit (id : string) (r : row) : bool :=
  equals "actorId" id r || (equals "targetType" "user" r && equals "targetId" id r).

Definition exportData (now : Z) (id : string) : M Export :=
  user ← findUser id;
  gameHistory ← findLatest "game_history" "createdAt" (equals "playerId" id);
  gameSessions ← find "game_sessions" (in_session id);
  gameRounds ← find "game_rounds" (equals "userId" id);
  wagers ← findLatest "wagers" "createdAt" (in_wager id);
  dailyChallengeAttempts ← find "daily_challenge_attempts" (equals "userId" id);
  roomParticipation ← find "room_users" (equals "userId" id);
  roomsHosted ← find "rooms" (equals "hostId" id);
  sessions ← only session_fields (findLatest "refresh_tokens" "createdAt" (equals "userId" id));
  notifications ← findLatest "notifications" "createdAt" (equals "userId" id);
  auditEntries ← findLatest "audit_logs" "timestamp" (in_audit id);
  lyricsAdded ← only lyric_fields (find "lyrics" (equals "createdById" id));
  mret (mkExport now (selected profile_fields user) gameHistory gameSessions gameRounds wagers
    dailyChallengeAttempts roomParticipation roomsHosted sessions notifications auditEntries lyricsAdded).

(** ** What an export holds *)

Definition rows_of (t : string) (s : schema) : list row := default [] (rows <$> tables s !! t).

Lemma find_inv t p s rs s' : find t p s = (Ok rs, s') →
  s' = s ∧ is_Some (tables s !! t) ∧ rs = List.filter p (rows_of t s).
Proof.
  unfold find, rows_of. rewrite bind_gets. destruct (tables s !! t) as [d|]; [|done].
  intros H. injection H as <- <-. split_and!; [done|by eexists|done].
Qed.

Lemma findLatest_inv t c p s rs s' : findLatest t c p s = (Ok rs, s') →
  s' = s ∧ is_Some (tables s !! t) ∧ rs ≡ₚ List.filter p (rows_of t s) ∧ Sorted (later_first c) rs.
Proof.
  unfold findLatest. intros H. apply bind_Ok_inv in H as (l & s1 & H & Hr).
  apply find_inv in H as (-> & Ht & ->). injection Hr as <- <-. split_and!; [done|done|..].
  - apply merge_sort_Permutation.
  - apply Sorted_merge_sort. apply _.
Qed.

Lemma only_inv cols m s rs s' : only cols m s = (Ok rs, s') →
  ∃ l, m s = (Ok l, s') ∧ rs = selected cols <$> l.
Proof. intros H. apply bind_Ok_inv in H as (l & s1 & H & Hr). injection Hr as <- <-. eauto. Qed.

Lemma findUser_inv id s r s' : findUser id s = (Ok r, s') →
  s' = s ∧ r ∈ rows_of "users" s ∧ field r "id" = CText id.
Proof.
  unfold findUser. intros H. apply bind_Ok_inv in H as (l & s1 & H & Hr).
  apply find_inv in H as (-> & _ & ->).
  destruct (List.filter _ _) as [|r0 l] eqn:E; [done|]. injection Hr as <- <-.
  assert (In r0 (List.filter (equals "id" id) (rows_of "users" s))) as Hin by (rewrite E; by left).
  apply filter_In in Hin as [Hin Hid]. unfold equals in Hid. bool_prop.
  by rewrite list_elem_of_In.
Qed.

Ltac take_find H :=
  let l := fresh "l" in let s := fresh "s" in let Hl := fresh "Hl" in
  apply bind_Ok_inv in H as (l & s & Hl & H);
  first
    [ apply find_inv in Hl as (-> & _ & ->)
    | apply findLatest_inv in Hl as (-> & _ & Hl & _)
    | let k := fresh "k" in let Hk := fresh "Hk" in apply only_inv in Hl as (k & Hk & ->);
      first [ apply find_inv in Hk as (-> & _ & ->)
            | apply findLatest_inv in Hk as (-> & _ & Hk & _) ] ].

(** An export changes nothing and holds, for each of its eleven tables, exactly the rows
    that belong to the user, whole except for the sessions and the lyrics. *)
Theorem export_complete now id s x s' : exportData now id s = (Ok x, s') →
  s' = s ∧
  ex_gameHistory x ≡ₚ List.filter (equals "playerId" id) (rows_of "game_history" s) ∧
  ex_gameSessions x = List.filter (in_session id) (rows_of "game_sessions" s) ∧
  ex_gameRounds x = List.filter (equals "userId" id) (rows_of "game_rounds" s) ∧
  ex_wagers x ≡ₚ List.filter (in_wager id) (rows_of "wagers" s) ∧
  ex_dailyChallengeAttempts x
    = List.filter (equals "userId" id) (rows_of "daily_challenge_attempts" s) ∧
  ex_roomParticipation x = List.filter (equals "userId" id) (rows_of "room_users" s) ∧
  ex_roomsHosted x = List.filter (equals "hostId" id) (rows_of "rooms" s) ∧
  ex_sessions x ≡ₚ selected session_fields <$> List.filter (equals "userId" id) (rows_of "refresh_tokens" s) ∧
  ex_notifications x ≡ₚ List.filter (equals "userId" id) (rows_of "notifications" s) ∧
  ex_auditEntries x ≡ₚ List.filter (in_audit id) (rows_of "audit_logs" s) ∧
  ex_lyricsAdded x = selected lyric_fields <$> List.filter (equals "createdById" id) (rows_of "lyrics" s).
Proof.
  intros H. unfold exportData in H. apply bind_Ok_inv in H as (user & s0 & Hu & H).
  apply findUser_inv in Hu as (-> & _ & _).
  do 11 take_find H. injection H as <- <-. cbn. split_and!; try done.
  by apply fmap_Permutation.
Qed.

(** An export holds no secret: the sessions carry no token hash and the profile no
    password hash. *)
Theorem export_holds_no_secret now id s x s' : exportData now id s = (Ok x, s') →
  (∀ r, r ∈ ex_sessions x → field r "tokenHash" = Null) ∧ field (ex_profile x) "passwordHash" = Null.
Proof.
  assert (∀ cols c r, c ∉ cols → field (selected cols r) c = Null) as Hsel.
  { intros cols c r Hc. unfold field, selected.
    by rewrite map_lookup_filter_None_2 by (right; intros v _ ?; done). }
  intros H. unfold exportData in H. apply bind_Ok_inv in H as (user & s0 & Hu & H).
  apply findUser_inv in Hu as (-> & _ & _).
  do 11 take_find H. injection H as <- <-. cbn. split.
  - intros r (r0 & -> & _)%list_elem_of_fmap. apply Hsel. set_solver.
  - apply Hsel. set_solver.
Qed.

(** ** What it leaves out *)

(** A [find] sees only its own table. *)
Definition agree_off (t : string) (s s' : schema) : Prop := ∀ t', t' ≠ t → tables s !! t' = tables s' !! t'.

Definition blind {A} (t : string) (m : M A) : Prop :=
  ∀ s s', agree_off t s s' → (m s).1 = (m s').1 ∧ (m s).2 = s ∧ (m s').2 = s'.

Lemma blind_find t t' p : t' ≠ t → blind t (find t' p).
Proof.
  intros Hne s s' H. unfold find. rewrite !bind_gets, <- (H t') by done.
  by destruct (tables s !! t').
Qed.
Lemma blind_ret {A} t (a : A) : blind t (mret a).
Proof. by intros s s' H. Qed.
Lemma blind_require {A} t (o : option A) e : blind t (require o e).
Proof. intros s s' H. by destruct o. Qed.
Lemma blind_bind {A B} t (m : M A) (f : A → M B) : blind t m → (∀ a, blind t (f a)) → blind t (m ≫= f).
Proof.
  intros Hm Hf s s' H. destruct (Hm s s' H) as (H1 & H2 & H3). unfold mbind, M_bind.
  destruct (m s) as [r1 s1], (m s') as [r2 s2]. cbn in *. subst.
  destruct r2; [by apply Hf|done].
Qed.
Lemma blind_latest t t' c p : t' ≠ t → blind t (findLatest t' c p).
Proof. intros Hne. apply blind_bind; [by apply blind_find|intros; apply blind_ret]. Qed.
Lemma blind_only t cols m : blind t m → blind t (only cols m).
Proof. intros Hm. apply blind_bind; [done|intros; apply blind_ret]. Qed.

Create HintDb blind.
#[export] Hint Resolve blind_find blind_latest blind_only blind_ret blind_require : blind.
#[export] Hint Extern 1 (_ ≠ _) => discriminate : blind.

Lemma exportData_blind now id : blind "game_history_archive" (exportData now id).
Proof.
  unfold exportData. apply blind_bind.
  - apply blind_bind; auto with blind.
  - intros user. repeat (apply blind_bind; [solve [auto with blind]|intros ?]). auto with blind.
Qed.

(** An export does not look at the archive of old guesses: whatever it holds, the answer
    is the same. *)
Theorem archive_not_exported now id s d :
  (exportData now id (put_table "game_history_archive" d s)).1 = (exportData now id s).1.
Proof.
  symmetry. apply (exportData_blind now id). intros t Ht. by rewrite put_table_other.
Qed.

(** The columns by which the export finds a user's rows. *)
Definition owner_columns : list (string * string) :=
  [ ("game_history", "playerId"); ("game_sessions", "playerId"); ("game_sessions", "playerTwoId");
    ("game_rounds", "userId"); ("wagers", "playerAId"); ("wagers", "playerBId");
    ("daily_challenge_attempts", "userId"); ("room_users", "userId"); ("rooms", "hostId");
    ("refresh_tokens", "userId"); ("notifications", "userId"); ("audit_logs", "actorId");
    ("lyrics", "createdById") ].

(** The names under which the tables hold the owner of a row. *)
Definition owner_names : list string :=
  ["userId"; "playerId"; "playerTwoId"; "playerAId"; "playerBId"; "hostId"; "actorId"; "createdById"].

Definition owned_columns (s : schema) : list (string * string) :=
  nt ← map_to_list (tables s);
  (λ k, (nt.1, cname k)) <$> List.filter (λ k, bool_decide (cname k ∈ owner_names)) (columns nt.2).

(** In the database the chain builds, the columns that hold an owner are those the export
    asks for, those of the two tables of one-time tokens, and that of the archive. *)
Theorem owners_exported nm draws : documented_names nm →
  owned_columns (run_all (runs nm draws) Schema.empty).2 ≡ₚ
  owner_columns ++ [("email_tokens", "userId"); ("password_reset_tokens", "userId");
                    ("game_history_archive", "playerId")].
Proof.
  intros Hn. rewrite (documented_runs _ _ Hn). apply (bool_decide_eq_true_1 _).
  vm_compute. reflexivity.
Qed.

Lemma owners_exported_witness :
  owned_columns (run_all (runs sha_names []) Schema.empty).2 ≡ₚ
  owner_columns ++ [("email_tokens", "userId"); ("password_reset_tokens", "userId");
                    ("game_history_archive", "playerId")].
Proof. exact (owners_exported sha_names [] sha_documented). Defined.

(** ** A small database *)

Module ExportDemo.
Definition table_with (rs : list row) : table := Table [] [] [] rs.
Definition guess (n t : Z) : row := {["id" := CInt n; "playerId" := CText "u"; "createdAt" := CTime t]}.
Definition db : schema := foldr (λ tr s, put_table tr.1 (table_with tr.2) s) Schema.empty
  [ ("users", [ {["id" := CText "u"; "passwordHash" := CText "h"]}; {["id" := CText "v"]} ]);
    ("game_history", [guess 1 5; guess 2 9]);
    ("game_sessions", []); ("game_rounds", []); ("wagers", []);
    ("daily_challenge_attempts", []); ("room_users", []); ("rooms", []);
    ("refresh_tokens", [ {["userId" := CText "u"; "tokenHash" := CText "x"]} ]);
    ("notifications", []); ("audit_logs", []); ("lyrics", []) ].

Definition exported : result Export := (exportData 7 "u" db).1.
Definition answer (f : Export → list row) : list row :=
  match exported with Ok x => f x | Err _ => [] end.

Example exported_ok : is_ok exported = true.
Proof. vm_compute. reflexivity. Qed.
Example latest_first : answer ex_gameHistory = [guess 2 9; guess 1 5].
Proof. apply (bool_decide_eq_true_1 _). vm_compute. reflexivity. Qed.
Example unknown_user : (exportData 7 "w" db).1 = Err (NotFound "User with ID w not found").
Proof. vm_compute. reflexivity. Qed.
End ExportDemo.

Definition demo_export : Export :=
  mkExport 7 {["id" := CText "u"]} [ExportDemo.guess 2 9; ExportDemo.guess 1 5] [] [] [] [] [] []
    [∅] [] [] [].

Lemma export_complete_witness :
  ex_gameHistory demo_export
  ≡ₚ List.filter (equals "playerId" "u") (rows_of "game_history" ExportDemo.db).
Proof.
  apply (export_complete 7 "u" ExportDemo.db demo_export ExportDemo.db). vm_compute. reflexivity.
Defined.

Lemma export_holds_no_secret_witness : field (ex_profile demo_export) "passwordHash" = Null.
Proof.
  apply (export_holds_no_secret 7 "u" ExportDemo.db demo_export ExportDemo.db).
  vm_compute. reflexivity.
Defined.
