(* ===== verification/Environment.v ===== *)
(** * The validated environment (config/env.validation.ts, data-source.ts, config/cache.config.ts)

    The schema every variable of the environment is checked against when the server starts, the
    validation run over it, what a start with an accepted environment can rely on, and the readers
    that work on the environment without it: the command line's data source and the cache's size.
    Joi, which gives a schema its meaning, is a parameter with its documented behaviour as law. *)

From S2P Require Import Prelude Amount Number Decimal Redact Auth Database StellarConfig.
From stdpp Require Import gmap.
From Stdlib Require Import Ascii.

#[local] Open Scope Z_scope.

(** ** Schemas *)

(** A validated value: a text, or the number [m * 10^e]. *)
Inductive value := VString (s : string) | VNumber (m e : Z).
#[export] Instance value_eq_dec : EqDecision value.
Proof. solve_decision. Defined.

Inductive joi_type := Joi_string | Joi_number.
#[export] Instance joi_type_eq_dec : EqDecision joi_type.
Proof. solve_decision. Defined.

(** [is] of a [when]: [Joi.exist()], a literal, or [Joi.number().integer().min(n)]. *)
Inductive condition := is_exist | is_literal (s : string) | is_number (n : Z).

Inductive text_format := uri (schemes : list string) | email | ip | hostname.

(** The calls a schema is chained of; [try_] holds the alternatives of [Joi.alternatives()]. *)
Inductive rule :=
  | valid (l : list string) | allow (s : string) | default_ (v : value) | required | optional
  | min_ (n : Z) | max_ (n : Z) | max_ref (key : string)
  | port_ | integer | positive | like (f : text_format) | try_ (alternatives : list text_format)
  | when_ (key : string) (c : condition) (then_ otherwise : list rule).

Record schema := mkSchema { joi_type_of : joi_type; rules : list rule }.
Definition string_ : list rule → schema := mkSchema Joi_string.
Definition number_ : list rule → schema := mkSchema Joi_number.
Definition dnum (n : Z) : rule := default_ (VNumber n 0).
Definition dtxt (s : string) : rule := default_ (VString s).

Definition requiredWithoutDatabaseUrl (s : schema) : schema :=
  mkSchema (joi_type_of s) (rules s ++ [when_ "DATABASE_URL" is_exist [optional] [required]]).

Definition flag (d : option string) : schema := string_ (valid ["true"; "false"] :: match d with Some d => [dtxt d] | None => [] end).

Definition serverSchema : list (string * schema) :=
  [("NODE_ENV", string_ [valid ["development"; "test"; "production"]; dtxt "development"]);
   ("PORT", number_ [port_; dnum 3000]);
   ("HOST", string_ [try_ [ip; hostname]; dtxt "0.0.0.0"]);
   ("LOG_LEVEL", string_ [when_ "NODE_ENV" (is_literal "production")
      [valid ACCEPTED_LOG_LEVELS; dtxt "info"] [valid ACCEPTED_LOG_LEVELS; dtxt "debug"]]);
   ("FRONTEND_URL", string_ [like (uri []); dtxt "http://localhost:3000"]);
   ("HTTP_JSON_BODY_LIMIT", string_ [dtxt "100kb"]);
   ("HTTP_URLENCODED_BODY_LIMIT", string_ [dtxt "100kb"]);
   ("HTTP_REQUEST_TIMEOUT_MS", number_ [integer; min_ 0; dnum 30000]);
   ("HTTP_HEADERS_TIMEOUT_MS", number_ [integer; min_ 0; dnum 20000;
      when_ "HTTP_REQUEST_TIMEOUT_MS" (is_number 1) [integer; min_ 0; max_ref "HTTP_REQUEST_TIMEOUT_MS"] []]);
   ("HTTP_KEEP_ALIVE_TIMEOUT_MS", number_ [integer; min_ 1000; dnum 65000]);
   ("JWT_SECRET", string_ [required; when_ "NODE_ENV" (is_literal "test") [min_ 1; required] [min_ 32; required]]);
   ("JWT_EXPIRES_IN", string_ [dtxt "15m"]);
   ("SWAGGER_ENABLED", flag (Some "false"));
   ("ROUND_ANSWER_WINDOW_SECONDS", number_ [integer; min_ 1; dnum 20]);
   ("SESSION_TIMEOUT_MINUTES", number_ [integer; min_ 1; dnum 30]);
   ("INVITATION_TTL_MINUTES", number_ [positive; dnum 30]);
   ("SEED_ADMIN_EMAIL", string_ [like email; optional]);
   ("SEED_ADMIN_PASSWORD", string_ [optional])].

Definition databaseSchema : list (string * schema) :=
  [("DATABASE_URL", string_ [like (uri ["postgres"; "postgresql"]); optional]);
   ("DB_HOST", requiredWithoutDatabaseUrl (string_ []));
   ("DB_PORT", number_ [port_; dnum 5432]);
   ("DB_USERNAME", requiredWithoutDatabaseUrl (string_ []));
   ("DB_PASSWORD", requiredWithoutDatabaseUrl (string_ []));
   ("DB_NAME", requiredWithoutDatabaseUrl (string_ []));
   ("DB_SSL", string_ [valid ["disable"; "require"; "verify-full"]; optional]);
   ("DB_SSL_CA", string_ [optional]);
   ("DB_REPLICA_HOST", string_ [optional]);
   ("DB_REPLICA_PORT", number_ [port_; optional]);
   ("DB_REPLICA_USERNAME", string_ [optional]);
   ("DB_REPLICA_PASSWORD", string_ [optional]);
   ("DB_REPLICA_NAME", string_ [optional]);
   ("DB_LOGGING", string_ [optional]);
   ("DB_POOL_SIZE", number_ [integer; min_ 1; dnum 10]);
   ("DB_SLOW_QUERY_THRESHOLD_MS", number_ [integer; min_ 0; dnum 250])].

(** [Joi.string().optional().allow('')] *)
Definition blank_or_text : schema := string_ [optional; allow ""].

Definition mailSchema : list (string * schema) :=
  [("MAIL_HOST", blank_or_text);
   ("MAIL_PORT", number_ [port_; dnum 587]);
   ("MAIL_USER", blank_or_text);
   ("MAIL_PASSWORD", blank_or_text);
   ("MAIL_FROM", string_ [like email; dtxt "no-reply@lyricsflip.local"]);
   ("MAIL_SECURE", flag (Some "false"));
   ("REDIS_URL", string_ [like (uri []); optional]);
   ("LOG_TO_FILE", flag (Some "false"))].

Definition stellarSchema : list (string * schema) :=
  [("STELLAR_SETTLEMENT_MODE", string_ [valid ["mock"; "stellar"]; dtxt "mock"]);
   ("STELLAR_NETWORK", string_ [valid ["public"; "testnet"; "futurenet"; "standalone"]; dtxt "testnet"]);
   ("STELLAR_CUSTODY_MODE", string_ [valid ["custodial"; "non-custodial"]; dtxt "non-custodial"]);
   ("STELLAR_KEY_STORE", string_ [valid ["env"; "kms"; "vault"]; dtxt "env"]);
   ("STELLAR_RPC_URL", string_ [like (uri []); optional]);
   ("STELLAR_HORIZON_URL", string_ [like (uri []); optional]);
   ("STELLAR_NETWORK_PASSPHRASE", string_ [optional]);
   ("STELLAR_ESCROW_CONTRACT_ID", blank_or_text);
   ("STELLAR_TOKEN_CONTRACT_ID", blank_or_text);
   ("STELLAR_RESOLVER_SECRET", blank_or_text);
   ("STELLAR_CUSTODIAL_MASTER_SEED", blank_or_text);
   ("STELLAR_WEB_AUTH_DOMAIN", string_ [dtxt "localhost"]);
   ("STELLAR_WEB_AUTH_SECRET", blank_or_text);
   ("STELLAR_KMS_KEY_ID", string_ [optional]);
   ("STELLAR_KMS_REGION", string_ [optional]);
   ("STELLAR_VAULT_ADDR", string_ [like (uri []); optional]);
   ("STELLAR_VAULT_TOKEN", string_ [optional]);
   ("STELLAR_VAULT_TRANSIT_KEY", string_ [optional])].

Definition operationsSchema : list (string * schema) :=
  [("TRUST_PROXY", blank_or_text);
   ("SETTLEMENT_DRAIN_TIMEOUT_MS", number_ [integer; min_ 1; dnum 30000]);
   ("CACHE_MAX_ITEMS", number_ [integer; min_ 1; dnum 5000]);
   ("CALIBRATION_ENABLED", flag (Some "false"));
   ("DAILY_CHALLENGE_SALT", blank_or_text);
   ("OTEL_EXPORTER_OTLP_ENDPOINT", string_ [like (uri []); optional; allow ""]);
   ("OTEL_SERVICE_NAME", blank_or_text);
   ("METRICS_IP_ALLOWLIST", blank_or_text);
   ("METRICS_BASIC_AUTH", blank_or_text);
   ("STELLAR_MAX_FEE", number_ [integer; min_ 1; optional]);
   ("STELLAR_TRY_AGAIN_MAX_ATTEMPTS", number_ [integer; min_ 0; dnum 5]);
   ("STELLAR_TRY_AGAIN_BASE_DELAY_MS", number_ [integer; min_ 0; dnum 500]);
   ("STELLAR_POLL_ATTEMPTS", number_ [integer; min_ 0; dnum 15]);
   ("STELLAR_POLL_SLEEP_STRATEGY", string_ [valid ["linear"; "basic"]; dtxt "linear"]);
   ("LYRIC_TOKEN_DECIMALS", number_ [integer; min_ 0; max_ 18; optional]);
   ("WAGER_RECONCILE_MIN_AGE_SECONDS", number_ [integer; min_ 1; dnum 120]);
   ("WAGER_RECONCILE_MAX_ATTEMPTS", number_ [integer; min_ 1; dnum 8]);
   ("WAGER_RECONCILE_BASE_DELAY_SECONDS", number_ [integer; min_ 1; dnum 60]);
   ("THROTTLE_TTL_MS", number_ [integer; min_ 1; dnum 60000]);
   ("THROTTLE_LIMIT", number_ [integer; min_ 1; dnum 100]);
   ("THROTTLE_AUTH_TTL_MS", number_ [integer; min_ 1; dnum 60000]);
   ("THROTTLE_AUTH_LIMIT", number_ [integer; min_ 1; dnum 5]);
   ("THROTTLE_STELLAR_TTL_MS", number_ [integer; min_ 1; dnum 60000]);
   ("THROTTLE_STELLAR_LIMIT", number_ [integer; min_ 1; dnum 10]);
   ("THROTTLE_GUESS_TTL_MS", number_ [integer; min_ 1; dnum 60000]);
   ("THROTTLE_GUESS_LIMIT", number_ [integer; min_ 1; dnum 30])].

Definition envValidationSchema : list (string * schema) :=
  serverSchema ++ databaseSchema ++ mailSchema ++ stellarSchema ++ operationsSchema.

(** ** What a schema means *)

(** The formats and the reading of numbers that Joi has; a number is [m * 10^e]. *)
Class JoiFormats := {
  is_uri : list string → string → bool;
  is_email : string → bool;
  is_ip : string → bool;
  is_hostname : string → bool;
  read_number : string → option (Z * Z);
}.

(** [n ≤ m * 10^e], [m * 10^e ≤ n], and whether [m * 10^e] is whole. *)
Definition num_ge (m e n : Z) : bool := if 0 <=? e then n <=? m * 10 ^ e else n * 10 ^ (- e) <=? m.
Definition num_le (m e n : Z) : bool := if 0 <=? e then m * 10 ^ e <=? n else m <=? n * 10 ^ (- e).
Definition whole (m e : Z) : bool := (0 <=? e) || (m mod 10 ^ (- e) =? 0).
(** [m * 10^e ≤ m' * 10^e'] *)
Definition num_leq (m e m' e' : Z) : bool := let k := Z.min e e' in m * 10 ^ (e - k) <=? m' * 10 ^ (e' - k).

Abbreviation Env := (gmap string value).

Definition holds (c : condition) (o : option value) : bool :=
  match c, o with
  | is_exist, Some _ => true
  | is_literal s, Some v => bool_decide (v = VString s)
  | is_number n, Some (VNumber m e) => whole m e && num_ge m e n
  | _, _ => false
  end.

(** The rules that apply: a [when] adds those of its branch. *)
Definition rules_at (env : Env) (s : schema) : list rule :=
  concat ((λ r, match r with
    | when_ key c then_ otherwise => if holds c (env !! key) then then_ else otherwise
    | _ => [r] end) <$> rules s).

Definition default_of (rs : list rule) : option value :=
  foldl (λ o r, match r with default_ v => Some v | _ => o end) None rs.
Definition is_required (rs : list rule) : bool :=
  foldl (λ b r, match r with required => true | optional => false | _ => b end) false rs.
Definition allowed (rs : list rule) (text : string) : bool :=
  existsb (λ r, match r with allow s => s == text | _ => false end) rs.

Section joi.
Context `{!JoiFormats}.

Definition has_format (text : string) (f : text_format) : bool :=
  match f with uri schemes => is_uri schemes text | email => is_email text | ip => is_ip text | hostname => is_hostname text end.

Definition meets (env : Env) (v : value) (r : rule) : bool :=
  match r, v with
  | valid l, VString s => bool_decide (s ∈ l)
  | min_ n, VString s => n <=? Z.of_nat (String.length s)
  | min_ n, VNumber m e => num_ge m e n
  | max_ n, VString s => Z.of_nat (String.length s) <=? n
  | max_ n, VNumber m e => num_le m e n
  | max_ref key, VNumber m e => match env !! key with Some (VNumber m' e') => num_leq m e m' e' | _ => false end
  | port_, VNumber m e => whole m e && num_ge m e 0 && num_le m e 65535
  | integer, VNumber m e => whole m e
  | positive, VNumber m _ => 0 <? m
  | like f, VString s => has_format s f
  | try_ alternatives, VString s => existsb (has_format s) alternatives
  | (allow _ | default_ _ | required | optional | when_ _ _ _ _), _ => true
  | _, _ => false
  end.

(** What a text is converted to; a string that is not allowed to be empty is not. *)
Definition converted (t : joi_type) (text : string) : option value :=
  match t with
  | Joi_string => if nonempty text then Some (VString text) else None
  | Joi_number => (λ n, VNumber n.1 n.2) <$> read_number text
  end.

(** The documented meaning of a schema: a variable that is not there has the default, which is
    not checked; one that is there is an allowed text, or is converted and meets every rule. *)
Definition accepted (s : schema) (env : Env) (raw : option string) (o : option value) : Prop :=
  let rs := rules_at env s in
  match raw with
  | None => is_required rs = false ∧ o = default_of rs
  | Some text =>
      if allowed rs text then o = Some (VString text)
      else ∃ v, converted (joi_type_of s) text = Some v ∧ forallb (meets env v) rs = true ∧ o = Some v
  end.
End joi.

(** Joi: the check of one variable, given what the variables before it were made into. *)
Class Joi `{!JoiFormats} := { joi : schema → Env → option string → option (option value) }.
Class JoiLaws `{!JoiFormats, !Joi} := {
  joi_law : ∀ s env raw o, joi s env raw = Some o ↔ accepted s env raw o;
}.

(** ** The validation of an environment *)

Section validation.
Context `{!JoiFormats, !Joi}.

(** The keys that are refused (all of them: [abortEarly: false]), and the environment. *)
Fixpoint run (schemas : list (string * schema)) (raw : gmap string string) (env : Env) : list string * Env :=
  match schemas with
  | [] => ([], env)
  | (key, s) :: rest =>
      match joi s env (raw !! key) with
      | Some o => run rest raw (partial_alter (λ _, o) key env)
      | None => let '(failed, out) := run rest raw env in (key :: failed, out)
      end
  end.

(** [ConfigModule.forRoot({ validationSchema })]: a variable the schema does not name is kept. *)
Definition validate (raw : gmap string string) : list string * Env := run envValidationSchema raw (VString <$> raw).
End validation.

(** ** Readers without the schema *)

(** data-source.ts, for the migrations: [process.env] itself. *)
Definition getEnv (env : EnvReader) (key : string) : result string :=
  if truthy (env key) then Ok (default "" (env key))
  else Err (config_error ("Environment variable " +:+ key +:+ " not set")).

Inductive CliConnection := CliUrl (url : string) | CliParts (target : ConnectionTarget).

Definition connectionOptions (env : EnvReader) : result CliConnection :=
  if truthy (env "DATABASE_URL") then Ok (CliUrl (default "" (env "DATABASE_URL")))
  else
    host ← getEnv env "DB_HOST";
    let port := parseInt (default "5432" (env "DB_PORT")) in
    username ← getEnv env "DB_USERNAME";
    password ← getEnv env "DB_PASSWORD";
    database ← getEnv env "DB_NAME";
    Ok (CliParts (mkTarget host port username password database)).

(** The options the data source of the command line adds: no [ssl] among them. *)
Record CliOptions := mkCliOptions {
  cli_connection : CliConnection;
  cli_synchronize : bool;
  cli_session_options : string;
}.
Definition cliDataSource (env : EnvReader) : result CliOptions :=
  (λ c, mkCliOptions c false "-c timezone=UTC") <$> connectionOptions env.

(** cache.config.ts *)
Definition DEFAULT_MAX_ITEMS : Z := 5000.
Definition resolveMaxItems (raw : option string) : Z :=
  if negb (truthy raw) then DEFAULT_MAX_ITEMS
  else match parseInt (default "" raw) with
  | Some parsed => if 0 <? parsed then parsed else DEFAULT_MAX_ITEMS
  | None => DEFAULT_MAX_ITEMS
  end.

(** ** What is accepted *)

Definition rule_ref (r : rule) : list string := match r with max_ref key => [key] | _ => [] end.
(** The variables a schema looks at. *)
Definition refs (s : schema) : list string :=
  concat ((λ r, match r with
    | when_ key _ then_ otherwise => key :: concat (rule_ref <$> then_) ++ concat (rule_ref <$> otherwise)
    | _ => rule_ref r end) <$> rules s).
Definition keys (schemas : list (string * schema)) : list string := schemas.*1.

(** Keys differ, and a schema looks at keys before its own. *)
Fixpoint ordered (done : list string) (schemas : list (string * schema)) : bool :=
  match schemas with
  | [] => true
  | (key, s) :: rest => forallb (λ k, bool_decide (k ∈ done)) (refs s) && negb (bool_decide (key ∈ done)) && ordered (key :: done) rest
  end.

Lemma schema_ordered : ordered [] envValidationSchema = true.
Proof. by vm_compute. Qed.
#[local] Opaque envValidationSchema.

Lemma in_concat_fmap {A B} (f : A → list B) (l : list A) (a : A) (b : B) : a ∈ l → b ∈ f a → b ∈ concat (f <$> l).
Proof. intros Ha Hb. apply list_elem_of_In, in_concat. exists (f a). rewrite <-!list_elem_of_In. split; [by apply list_elem_of_fmap_2|done]. Qed.

Section agreement.
Context `{!JoiFormats}.
Context (env env' : Env) (s : schema) (Hagree : ∀ k, k ∈ refs s → env !! k = env' !! k).

Lemma rules_at_agree : rules_at env s = rules_at env' s.
Proof using Hagree.
  unfold rules_at. f_equal. apply list_fmap_ext. intros i r Hr%list_elem_of_lookup_2.
  destruct r as [| | | | | | | | | | | | |key c t e]; try done. rewrite (Hagree key); [done|].
  eapply in_concat_fmap; [exact Hr|]. apply elem_of_cons. by left.
Qed.

Lemma meets_agree v r : r ∈ rules_at env s → meets env v r = meets env' v r.
Proof using Hagree.
  intros Hr. destruct r as [| | | | | | |key| | | | | |]; try done. destruct v as [|m e]; [done|]. cbn. rewrite (Hagree key); [done|].
  apply list_elem_of_In, in_concat in Hr as (l & (r & <- & Hr)%in_map_iff & Hl). apply list_elem_of_In in Hr.
  eapply in_concat_fmap; [exact Hr|].
  destruct r as [| | | | | | |key'| | | | | |key' c t e']; try (by destruct Hl as [|[]]).
  - destruct Hl as [[= ->]|[]]. by apply list_elem_of_singleton.
  - apply list_elem_of_In in Hl. apply elem_of_cons. right. apply elem_of_app.
    destruct (holds c _); [left|right]; (eapply in_concat_fmap; [exact Hl|]); by apply list_elem_of_singleton.
Qed.

Lemma accepted_agree raw o : accepted s env raw o → accepted s env' raw o.
Proof using Hagree.
  unfold accepted. rewrite rules_at_agree. destruct raw as [text|]; [|done]. destruct (allowed _ _); [done|].
  intros (v & Hc & Hm & Ho). exists v. split; [done|]. split; [|done]. rewrite <-Hm.
  apply eq_true_iff_eq. rewrite !forallb_forall. setoid_rewrite <-list_elem_of_In. split; intros Hall r Hr.
  - rewrite meets_agree; [by apply Hall|]. by rewrite rules_at_agree.
  - rewrite <-meets_agree; [by apply Hall|]. by rewrite rules_at_agree.
Qed.
End agreement.

Section validation_properties.
Context `{!JoiFormats, !Joi, !JoiLaws}.

Lemma run_frame schemas raw env k : k ∉ keys schemas → (run schemas raw env).2 !! k = env !! k.
Proof.
  revert env. induction schemas as [|[key s] rest IH]; intros env; [done|]. unfold keys. cbn.
  intros [Hk Hrest]%not_elem_of_cons. destruct (joi s env _) as [o|].
  - rewrite IH by done. by rewrite lookup_partial_alter_ne.
  - specialize (IH env Hrest). by destruct (run rest raw env).
Qed.

Lemma ordered_keys done schemas k : ordered done schemas = true → k ∈ done → k ∉ keys schemas.
Proof.
  revert done. induction schemas as [|[key s] rest IH]; intros done; [intros _ _; apply not_elem_of_nil|].
  unfold keys. cbn. intros [[_ Hkey%negb_true_iff%bool_decide_eq_false]%andb_true_iff Hrest]%andb_true_iff Hk.
  apply not_elem_of_cons. split; [by intros ->|]. eapply IH; [exact Hrest|]. apply elem_of_cons. by right.
Qed.

Lemma run_accepted done schemas raw env out : ordered done schemas = true → run schemas raw env = ([], out) →
  ∀ key s, (key, s) ∈ schemas → accepted s out (raw !! key) (out !! key).
Proof.
  revert done env. induction schemas as [|[key s] rest IH]; intros done env; [intros _ _ key s Hin; by apply elem_of_nil in Hin|].
  cbn. intros [[Hrefs Hkey]%andb_true_iff Hrest]%andb_true_iff Hrun.
  destruct (joi s env (raw !! key)) as [o|] eqn:Ho; [|by destruct (run rest raw env)].
  assert (∀ k, k ∈ key :: done → out !! k = (partial_alter (λ _, o) key env) !! k) as Hframe.
  { intros k Hk. pose proof (run_frame rest raw (partial_alter (λ _, o) key env) k) as Hf.
    rewrite Hrun in Hf. apply Hf. by eapply ordered_keys. }
  intros key' s' [[= -> ->]|Hin]%elem_of_cons; [|by eapply IH].
  apply joi_law in Ho. rewrite (Hframe key), lookup_partial_alter_eq by (apply elem_of_cons; by left).
  eapply accepted_agree; [|exact Ho]. intros k Hk. rewrite forallb_forall in Hrefs.
  specialize (Hrefs k). rewrite <-list_elem_of_In, bool_decide_eq_true in Hrefs. specialize (Hrefs Hk).
  rewrite Hframe by (apply elem_of_cons; by right). rewrite lookup_partial_alter_ne; [done|].
  intros ->. apply negb_true_iff, bool_decide_eq_false in Hkey. done.
Qed.

Lemma run_complete done schemas raw env out : ordered done schemas = true →
  (∀ k, k ∉ keys schemas → out !! k = env !! k) →
  (∀ key s, (key, s) ∈ schemas → accepted s out (raw !! key) (out !! key)) → run schemas raw env = ([], out).
Proof.
  revert done env. induction schemas as [|[key s] rest IH]; intros done env.
  { intros _ Hout _. cbn. f_equal. apply map_eq. intros k. symmetry. apply Hout, not_elem_of_nil. }
  intros Hord Hout Hacc. pose proof Hord as [[Hrefs Hkey]%andb_true_iff Hrest]%andb_true_iff.
  cbn. assert (joi s env (raw !! key) = Some (out !! key)) as ->.
  { apply joi_law. eapply accepted_agree; [|apply Hacc, elem_of_cons; by left]. intros k Hk.
    apply Hout. eapply ordered_keys; [exact Hord|]. rewrite forallb_forall in Hrefs. specialize (Hrefs k).
    rewrite <-list_elem_of_In, bool_decide_eq_true in Hrefs. by apply Hrefs. }
  eapply IH; [exact Hrest| |].
  - intros k Hk. destruct (decide (k = key)) as [->|Hne]; [by rewrite lookup_partial_alter_eq|].
    rewrite lookup_partial_alter_ne by done. apply Hout. by apply not_elem_of_cons.
  - intros key' s' Hin. apply Hacc. apply elem_of_cons. by right.
Qed.

Lemma run_spec schemas raw out : ordered [] schemas = true →
  run schemas raw (VString <$> raw) = ([], out) ↔
  (∀ key s, (key, s) ∈ schemas → accepted s out (raw !! key) (out !! key)) ∧
  (∀ key, key ∉ keys schemas → out !! key = VString <$> raw !! key).
Proof.
  intros Hord. split.
  - intros Hrun. split; [by eapply run_accepted|]. intros key Hkey.
    pose proof (run_frame schemas raw (VString <$> raw) key Hkey) as Hf. rewrite Hrun in Hf.
    cbn [snd] in Hf. by rewrite Hf, lookup_fmap.
  - intros [Hacc Hkept]. eapply run_complete; [exact Hord| |exact Hacc].
    intros k Hk. rewrite lookup_fmap. by apply Hkept.
Qed.

(** The server starts exactly with the environments in which every variable of the schema is accepted,
    given what the others are made into; what the schema does not name is kept as it is, unchecked. *)
Theorem validate_spec raw out : validate raw = ([], out) ↔
  (∀ key s, (key, s) ∈ envValidationSchema → accepted s out (raw !! key) (out !! key)) ∧
  (∀ key, key ∉ keys envValidationSchema → out !! key = VString <$> raw !! key).
Proof. exact (run_spec envValidationSchema raw out schema_ordered). Qed.
End validation_properties.

(** ** What an accepted environment gives *)

Definition schema_of (key : string) : option schema := snd <$> List.find (λ ks, ks.1 == key) envValidationSchema.

Lemma schema_of_in key s : schema_of key = Some s → (key, s) ∈ envValidationSchema.
Proof.
  unfold schema_of. rewrite fmap_Some. intros ([k s'] & [Hin Hk]%List.find_some & ->). apply bool_decide_eq_true in Hk.
  cbn in *. subst k. by apply list_elem_of_In.
Qed.

(** The variables the code reads that the schema does not name. *)
Definition undeclared : list string :=
  ["GAME_ROUND_RETENTION_DAYS"; "GAME_SEEN_WINDOW_DAYS"; "HTTP_BODY_LIMIT"; "LYRIC_TOKEN_CONTRACT_ID"; "STELLAR_BOOT_ACCOUNT";
   "STELLAR_RESOLVER_PUBLIC_KEY"; "STELLAR_SOROBAN_RPC_URL"; "STELLAR_STAKE_TX_TIMEOUT_SECONDS"; "WAGER_STAKE_DEADLINE_MINUTES";
   "STELLAR_CONFIRMATION_MAX_POLLS"; "STELLAR_CONFIRMATION_INTERVAL_MS"; "THROTTLE_EXPORT_LIMIT"; "THROTTLE_EXPORT_TTL_MS";
   "WS_RATE_LIMIT_CAPACITY"; "WS_MAX_SOCKETS_PER_USER"].

Lemma undeclared_unnamed : forallb (λ k, negb (bool_decide (k ∈ keys envValidationSchema))) undeclared = true.
Proof. by vm_compute. Qed.
Lemma refs_named : forallb (λ ks, forallb (λ k, bool_decide (k ∈ keys envValidationSchema)) (refs ks.2)) envValidationSchema = true.
Proof. by vm_compute. Qed.

(** A text of an environment, as the readers that expect texts get it. *)
Definition text_at (out : Env) (key : string) : option string :=
  match out !! key with Some (VString s) => Some s | _ => None end.

Section rules_of_texts.
Context `{!JoiFormats}.

Lemma accepted_enum env raw o l d : accepted (string_ [valid l; dtxt d]) env raw o → d ∈ l →
  o = Some (VString (default d raw)) ∧ default d raw ∈ l.
Proof.
  unfold accepted. destruct raw as [text|]; cbn; [|by intros [_ ->]]. intros (v & Hc & Hm & ->) _.
  destruct (nonempty text); [|done]. injection Hc as <-. cbn in Hm. rewrite !andb_true_r in Hm. by apply bool_decide_eq_true in Hm.
Qed.

Lemma accepted_blank env raw o : accepted blank_or_text env raw o → o = VString <$> raw.
Proof.
  unfold accepted. destruct raw as [text|]; cbn; [|by intros [_ ->]]. destruct (bool_decide _) eqn:Ee; cbn; [done|].
  intros (v & Hc & _ & ->). destruct (nonempty text); [|done]. by injection Hc as <-.
Qed.

Lemma accepted_text env text o s : joi_type_of s = Joi_string → allowed (rules_at env s) text = false →
  accepted s env (Some text) o → o = Some (VString text) ∧ nonempty text = true ∧ forallb (meets env (VString text)) (rules_at env s) = true.
Proof.
  intros Ht Ha. unfold accepted. rewrite Ha, Ht. intros (v & Hc & Hm & ->). cbn in Hc.
  destruct (nonempty text); [|done]. by injection Hc as <-.
Qed.

(** A variable that is required and has no [allow] is a text that meets its rules. *)
Lemma accepted_required env raw o s : joi_type_of s = Joi_string → is_required (rules_at env s) = true →
  (∀ text, allowed (rules_at env s) text = false) → accepted s env raw o →
  ∃ text, raw = Some text ∧ o = Some (VString text) ∧ nonempty text = true ∧ forallb (meets env (VString text)) (rules_at env s) = true.
Proof.
  intros Ht Hr Ha Hacc. destruct raw as [text|]; [|by destruct Hacc as [Hn _]; rewrite Hr in Hn].
  exists text. split; [done|]. by apply accepted_text.
Qed.
End rules_of_texts.

Section consequences.
Context `{!JoiFormats, !Joi, !JoiLaws}.

Lemma validated raw out key s : validate raw = ([], out) → schema_of key = Some s → accepted s out (raw !! key) (out !! key).
Proof. intros [Hacc _]%validate_spec Hs%schema_of_in. by apply Hacc. Qed.

Ltac at_key Hval key := let Hk := fresh "Hk" in
  pose proof (validated _ _ key _ Hval ltac:(vm_compute; reflexivity)) as Hk.

(** The mode is one of the three, and outside of tests the secret that signs tokens has at least 32 bytes. *)
Theorem secret_long raw out : validate raw = ([], out) →
  ∃ mode secret, out !! "NODE_ENV" = Some (VString mode) ∧ mode = default "development" (raw !! "NODE_ENV") ∧
    mode ∈ ["development"; "test"; "production"] ∧
    raw !! "JWT_SECRET" = Some secret ∧ out !! "JWT_SECRET" = Some (VString secret) ∧
    (if mode == "test" then 1 else 32) ≤ Z.of_nat (String.length secret).
Proof.
  intros Hval. at_key Hval "NODE_ENV". apply accepted_enum in Hk as [Hmode Hin]; [|set_solver].
  exists (default "development" (raw !! "NODE_ENV")). at_key Hval "JWT_SECRET".
  apply accepted_required in Hk as (secret & Hraw & Hout & _ & Hm).
  - exists secret. split_and!; try done. revert Hm. unfold rules_at. cbn. rewrite Hmode. cbn.
    unfold holds. case_bool_decide as Ht; cbn.
    + injection Ht as ->. rewrite (bool_decide_true ("test" = "test")) by done. cbn. rewrite !andb_true_r. lia.
    + rewrite bool_decide_false by congruence. rewrite !andb_true_r. lia.
  - done.
  - unfold rules_at. cbn. rewrite Hmode. cbn. by case_bool_decide.
  - intros text. unfold rules_at. cbn. rewrite Hmode. cbn. by case_bool_decide.
Qed.

(** A limit on the time of the headers that is set is at most that of the whole request. *)
Theorem headers_within_request raw out m e : validate raw = ([], out) →
  is_Some (raw !! "HTTP_HEADERS_TIMEOUT_MS") → out !! "HTTP_REQUEST_TIMEOUT_MS" = Some (VNumber m e) → num_ge m e 1 = true →
  ∃ m' e', out !! "HTTP_HEADERS_TIMEOUT_MS" = Some (VNumber m' e') ∧ num_leq m' e' m e = true.
Proof.
  intros Hval [text Htext] Hreq Hge. at_key Hval "HTTP_REQUEST_TIMEOUT_MS". at_key Hval "HTTP_HEADERS_TIMEOUT_MS".
  assert (whole m e = true) as Hwhole.
  { rewrite Hreq in Hk. unfold accepted in Hk. cbn in Hk. destruct (raw !! "HTTP_REQUEST_TIMEOUT_MS") as [t|]; [|by destruct Hk as [_ [= -> ->]]].
    destruct Hk as (v & _ & Hm & [= <-]). apply andb_true_iff in Hm as [Hw _]. exact Hw. }
  rewrite Htext in Hk0. unfold accepted, rules_at in Hk0. cbn in Hk0. rewrite Hreq in Hk0. cbn in Hk0. rewrite Hwhole, Hge in Hk0. cbn in Hk0.
  destruct Hk0 as (v & Hc & Hm & Ho). destruct (read_number text) as [[m' e']|]; [|done]. injection Hc as <-.
  exists m', e'. split; [done|]. cbn in Hm. rewrite Hreq in Hm. rewrite !andb_true_iff in Hm. tauto.
Qed.

(** The database is named by its address or else by all four variables, none of them empty. *)
Theorem database_given raw out key : validate raw = ([], out) → raw !! "DATABASE_URL" = None →
  key ∈ ["DB_HOST"; "DB_USERNAME"; "DB_PASSWORD"; "DB_NAME"] →
  ∃ text, raw !! key = Some text ∧ out !! key = Some (VString text) ∧ nonempty text = true.
Proof.
  intros Hval Hurl Hkey. at_key Hval "DATABASE_URL". unfold accepted in Hk. rewrite Hurl in Hk. destruct Hk as [_ Hnone]. cbn in Hnone.
  assert (accepted (requiredWithoutDatabaseUrl (string_ [])) out (raw !! key) (out !! key)) as Hacc.
  { eapply validated; [exact Hval|]. set_unfold. destruct Hkey as [->|[->|[->|[->|[]]]]]; by vm_compute. }
  apply accepted_required in Hacc as (text & Hr & Ho & Hn & _); [by exists text|done|..];
    unfold rules_at; cbn; by rewrite Hnone.
Qed.

(** The variables the code reads that the schema does not name start the server whatever they hold, and are passed on as they are. *)
Theorem undeclared_unchecked raw out key text : validate raw = ([], out) → key ∈ undeclared →
  validate (<[key := text]> raw) = ([], <[key := VString text]> out).
Proof.
  intros [Hacc Hkept]%validate_spec Hkey.
  assert (key ∉ keys envValidationSchema) as Hfree.
  { pose proof undeclared_unnamed as Hall. rewrite forallb_forall in Hall. apply list_elem_of_In, Hall, negb_true_iff in Hkey.
    by apply bool_decide_eq_false in Hkey. }
  apply validate_spec. split.
  - intros key' s Hin. assert (key ≠ key') as Hne.
    { intros ->. apply Hfree. unfold keys. by apply (list_elem_of_fmap_2' _ _ (key', s)). }
    rewrite !lookup_insert_ne by done. eapply accepted_agree; [|by apply Hacc]. intros k Hk.
    rewrite lookup_insert_ne; [done|]. intros ->. apply Hfree. pose proof refs_named as Hall.
    rewrite forallb_forall in Hall. apply list_elem_of_In, Hall in Hin. rewrite forallb_forall in Hin.
    apply list_elem_of_In, Hin, bool_decide_eq_true in Hk. done.
  - intros key' Hk'. destruct (decide (key = key')) as [->|Hne]; [by rewrite !lookup_insert_eq|].
    rewrite !lookup_insert_ne by done. by apply Hkept.
Qed.

(** [ConfigService.get] after the validation. *)
Definition reads (cs : ConfigService) (out : Env) : Prop := ∀ key, get cs key = text_at out key.

Context `{!KeySdk}.

Lemma stellar_modes raw out cs : validate raw = ([], out) → reads cs out →
  default "mock" (get cs "STELLAR_SETTLEMENT_MODE") ∈ ["mock"; "stellar"] ∧
  default "testnet" (get cs "STELLAR_NETWORK") ∈ ["public"; "testnet"; "futurenet"; "standalone"] ∧
  default "non-custodial" (get cs "STELLAR_CUSTODY_MODE") ∈ ["custodial"; "non-custodial"].
Proof.
  intros Hval Hcs. rewrite !Hcs. unfold text_at.
  at_key Hval "STELLAR_SETTLEMENT_MODE". at_key Hval "STELLAR_NETWORK". at_key Hval "STELLAR_CUSTODY_MODE".
  apply accepted_enum in Hk as [-> ?]; [|set_solver]. apply accepted_enum in Hk0 as [-> ?]; [|set_solver].
  apply accepted_enum in Hk1 as [-> ?]; [|set_solver]. done.
Qed.

(** C31. With an accepted environment the Stellar settings are those of the network it names, or of the
    test network: its passphrase and its RPC and Horizon addresses, where these are not set by hand.  They load whenever
    wagers are settled by the mock backend and no resolver's secret is set. *)
Theorem accepted_settings_load raw out cs : validate raw = ([], out) → reads cs out →
  (∀ c, loadStellarConfig cs = Ok c → sc_network c = default "testnet" (raw !! "STELLAR_NETWORK") ∧
     ∃ passphrase rpcUrl horizonUrl, (sc_network c, passphrase, rpcUrl, horizonUrl) ∈
       [("public", Networks_PUBLIC, "https://mainnet.sorobanrpc.com", "https://horizon.stellar.org");
        ("testnet", Networks_TESTNET, "https://soroban-testnet.stellar.org", "https://horizon-testnet.stellar.org");
        ("futurenet", Networks_FUTURENET, "https://rpc-futurenet.stellar.org", "https://horizon-futurenet.stellar.org");
        ("standalone", Networks_STANDALONE, "http://localhost:8000/soroban/rpc", "http://localhost:8000")] ∧
       sc_networkPassphrase c = Some (default passphrase (get cs "STELLAR_NETWORK_PASSPHRASE")) ∧
       sc_rpcUrl c = Some (default rpcUrl (get cs "STELLAR_RPC_URL")) ∧
       sc_horizonUrl c = Some (default horizonUrl (get cs "STELLAR_HORIZON_URL"))) ∧
  (default "mock" (raw !! "STELLAR_SETTLEMENT_MODE") = "mock" → truthy (raw !! "STELLAR_RESOLVER_SECRET") = false →
     ∃ c, loadStellarConfig cs = Ok c ∧ sc_settlementMode c = MOCK ∧
       sc_network c = default "testnet" (raw !! "STELLAR_NETWORK") ∧ sc_resolverPublicKey c = "").
Proof.
  intros Hval Hcs. destruct (stellar_modes raw out cs Hval Hcs) as (_ & Hnet & Hcust).
  assert (get cs "STELLAR_NETWORK" = Some (default "testnet" (raw !! "STELLAR_NETWORK"))) as Hnw.
  { at_key Hval "STELLAR_NETWORK". apply accepted_enum in Hk as [Hn _]; [|set_solver].
    rewrite Hcs. unfold text_at. by rewrite Hn. }
  rewrite Hnw in Hnet. cbn [default from_option id] in Hnet. split.
  - intros c Hc. pose proof (loadStellarConfig_ok cs c Hc) as (_ & Hn & _).
    apply loadStellarConfig_network in Hc. unfold matches_network in Hc.
    rewrite Hnw in Hn. cbn [default from_option id] in Hn. revert Hc Hn Hnet.
    generalize (default "testnet" (raw !! "STELLAR_NETWORK")). intros network Hc Hn Hnet.
    assert (lower network = network) as Hl by (set_unfold in Hnet; naive_solver).
    rewrite Hl in Hn. rewrite Hn in Hc |- *. split; [done|].
    set_unfold in Hnet. destruct Hnet as [->|[->|[->|[->|[]]]]]; cbn in Hc; do 3 eexists; (split; [|exact Hc]);
      [left|do 1 right; left|do 2 right; left|do 3 right; left].
  - intros Hmode Hsecret. at_key Hval "STELLAR_SETTLEMENT_MODE". apply accepted_enum in Hk as [Hm _]; [|set_solver].
    at_key Hval "STELLAR_RESOLVER_SECRET". apply accepted_blank in Hk.
    assert (get cs "STELLAR_RESOLVER_SECRET" = raw !! "STELLAR_RESOLVER_SECRET") as Hsec
      by (rewrite Hcs; unfold text_at; rewrite Hk; by destruct (raw !! "STELLAR_RESOLVER_SECRET")).
    assert (resolveResolverPublicKey cs = Ok "") as Hres by (unfold resolveResolverPublicKey; by rewrite Hsec, Hsecret).
    assert (assertNoSecretReuse cs = Ok tt) as Hreuse
      by (unfold assertNoSecretReuse; rewrite Hsec, Hsecret, andb_false_r; by case_match).
    unfold loadStellarConfig. cbv zeta. rewrite Hres, Hreuse.
    assert (get cs "STELLAR_SETTLEMENT_MODE" = Some "mock") as -> by (rewrite Hcs; unfold text_at; by rewrite Hm, Hmode).
    rewrite Hnw. cbn [default from_option id]. set (network := default "testnet" _) in *.
    set_unfold in Hcust. set_unfold in Hnet.
    destruct Hcust as [->|[->|[]]]; destruct Hnet as [->|[->|[->|[->|[]]]]]; cbn; eexists; done.
Qed.
End consequences.

(** ** The least environment *)

(** What an environment of a secret and an address is made into. *)
Definition minimal_out (secret url : string) : Env :=
  <["JWT_SECRET" := VString secret]> (<["DATABASE_URL" := VString url]>
    (list_to_map (omap (λ ks, pair ks.1 <$> default_of (rules_at {["NODE_ENV" := VString "development"]} ks.2)) envValidationSchema))).
Definition minimal (secret url : string) : gmap string string := {["JWT_SECRET" := secret; "DATABASE_URL" := url]}.

Definition given : list string := ["JWT_SECRET"; "DATABASE_URL"].
Lemma minimal_defaults secret url : forallb (λ ks, bool_decide (ks.1 ∈ given) ||
  let rs := rules_at (minimal_out secret url) ks.2 in
  negb (is_required rs) && bool_decide (minimal_out secret url !! ks.1 = default_of rs)) envValidationSchema = true.
Proof. vm_compute. reflexivity. Qed.

Lemma ordered_unique done schemas key s s' : ordered done schemas = true → (key, s) ∈ schemas → (key, s') ∈ schemas → s = s'.
Proof.
  revert done. induction schemas as [|[k t] rest IH]; intros done; [intros _ Hin; by apply elem_of_nil in Hin|].
  cbn. intros [_ Hrest]%andb_true_iff. assert (∀ u, (k, u) ∉ rest) as Hfree.
  { intros u Hin. eapply (ordered_keys (k :: done)); [exact Hrest|apply elem_of_cons; by left|].
    unfold keys. by apply (list_elem_of_fmap_2' _ _ (k, u)). }
  intros [[= -> ->]|Hin]%elem_of_cons [[= ?]|Hin']%elem_of_cons; subst; try done; try (by destruct (Hfree _ Hin')); try (by destruct (Hfree _ Hin)).
  by eapply IH.
Qed.

Lemma accepted_unique key s s0 : (key, s) ∈ envValidationSchema → schema_of key = Some s0 → s = s0.
Proof. intros Hin Hs%schema_of_in. by eapply ordered_unique; [apply schema_ordered| |]. Qed.

Lemma minimal_kept secret url key : key ∉ keys envValidationSchema → minimal_out secret url !! key = VString <$> minimal secret url !! key.
Proof.
  intros Hkey. assert (forallb (λ k, bool_decide (k ∈ keys envValidationSchema)) given = true) as Hgiven by (by vm_compute).
  rewrite forallb_forall in Hgiven. assert (∀ k, k ∈ given → key ≠ k) as Hne.
  { intros k Hk ->. apply list_elem_of_In, Hgiven, bool_decide_eq_true in Hk. done. }
  unfold minimal_out, minimal. unfold given in Hne. rewrite !lookup_insert_ne, lookup_singleton_ne by (intros Heq; symmetry in Heq; revert Heq; apply Hne; set_solver).
  apply not_elem_of_list_to_map_1. intros ([k v] & -> & Hin)%list_elem_of_fmap.
  apply list_elem_of_omap in Hin as ([k' s] & Hin & (v' & _ & [= -> ->])%fmap_Some). cbn in Hkey. apply Hkey.
  unfold keys. by apply (list_elem_of_fmap_2' _ _ (k', s)).
Qed.

(** A secret of 32 bytes and the address of a database are enough: everything else has its default. *)
Theorem minimal_environment_starts `{!JoiFormats, !Joi, !JoiLaws} secret url :
  (32 ≤ String.length secret)%nat → nonempty url = true → is_uri ["postgres"; "postgresql"] url = true →
  validate (minimal secret url) = ([], minimal_out secret url).
Proof.
  intros Hlen Hurl Huri. apply validate_spec. split.
  - intros key s Hin. pose proof (minimal_defaults secret url) as Hall. rewrite forallb_forall in Hall.
    pose proof (Hall _ (proj1 (list_elem_of_In _ _) Hin)) as Hkey. cbn [fst snd] in Hkey.
    destruct (decide (key ∈ given)) as [Hg|Hg].
    + clear Hkey. unfold given in Hg. set_unfold in Hg. destruct Hg as [->|[->|[]]].
      * rewrite (accepted_unique _ _ _ Hin ltac:(vm_compute; reflexivity)). unfold accepted.
        match goal with |- context[rules_at ?env ?s] =>
          assert (rules_at env s = [required; min_ 32; required]) as -> by (vm_compute; reflexivity) end.
        cbn. exists (VString secret). destruct secret; [cbn in Hlen; lia|]. split_and!; [done| |done].
        rewrite andb_true_r. apply Z.leb_le. lia.
      * rewrite (accepted_unique _ _ _ Hin ltac:(vm_compute; reflexivity)). unfold accepted.
        match goal with |- context[rules_at ?env ?s] =>
          assert (rules_at env s = [like (uri ["postgres"; "postgresql"]); optional]) as -> by (vm_compute; reflexivity) end.
        cbn. exists (VString url). split_and!; [by rewrite Hurl|by rewrite Huri|done].
    + rewrite (bool_decide_false (key ∈ given)) in Hkey by done. cbn in Hkey. apply andb_true_iff in Hkey as [Hreq Hdef].
      apply negb_true_iff in Hreq. apply bool_decide_eq_true in Hdef.
      assert (minimal secret url !! key = None) as -> by
        (unfold minimal; rewrite lookup_insert_ne, lookup_singleton_ne by (intros <-; apply Hg, list_elem_of_In; cbn; tauto); reflexivity).
      by split.
  - intros key. apply minimal_kept.
Qed.

(** ** The command line and the cache *)

(** Where the variables hold their texts without white space around them, the migrations connect to the database the server
    connects to, or both refuse. *)
Theorem cli_same_target `{!Runtime} env : env "DATABASE_URL" = None →
  (∀ key v, key ∈ ["DB_HOST"; "DB_PORT"; "DB_USERNAME"; "DB_PASSWORD"; "DB_NAME"] → env key = Some v → trim v = v ∧ nonempty v = true) →
  match connectionOptions env with
  | Ok (CliParts target) => resolveConnectionTarget env = Ok (target, None)
  | Ok (CliUrl _) => False
  | Err _ => is_ok (resolveConnectionTarget env) = false
  end.
Proof.
  intros Hurl Htrim.
  assert (∀ key, key ∈ ["DB_HOST"; "DB_PORT"; "DB_USERNAME"; "DB_PASSWORD"; "DB_NAME"] →
    read env key = env key ∧ truthy (env key) = bool_decide (is_Some (env key))) as Hread.
  { intros key Hkey. unfold read. destruct (env key) as [v|] eqn:Ev; [|done]. destruct (Htrim key v Hkey Ev) as [-> Hv].
    split; [|by cbn; rewrite Hv]. rewrite bool_decide_false; [done|]. by intros ->. }
  unfold connectionOptions, resolveConnectionTarget, missing, getEnv.
  assert (read env "DATABASE_URL" = None) as -> by (unfold read; by rewrite Hurl). rewrite Hurl. cbn [truthy].
  destruct (Hread "DB_HOST" ltac:(set_solver)) as [Rh ->], (Hread "DB_USERNAME" ltac:(set_solver)) as [Ru ->],
    (Hread "DB_PASSWORD" ltac:(set_solver)) as [Rp ->], (Hread "DB_NAME" ltac:(set_solver)) as [Rn ->].
  destruct (Hread "DB_PORT" ltac:(set_solver)) as [Ro _].
  assert (filter (λ key, read env key = None) ["DB_HOST"; "DB_USERNAME"; "DB_PASSWORD"; "DB_NAME"] =
    filter (λ key, env key = None) ["DB_HOST"; "DB_USERNAME"; "DB_PASSWORD"; "DB_NAME"]) as ->.
  { cbv [filter list_filter]. by rewrite Rh, Ru, Rp, Rn. }
  rewrite Rh, Ru, Rp, Rn, Ro. cbv [filter list_filter].
  destruct (env "DB_HOST"), (env "DB_USERNAME"), (env "DB_PASSWORD"), (env "DB_NAME"); cbn; repeat case_decide; done.
Qed.

Definition override (env : EnvReader) (key : string) (v : option string) : EnvReader := λ k, if k == key then v else env k.

(** The migrations connect in the same way whatever TLS is asked for. *)
Theorem cli_ignores_tls env key v : key ∈ ["DB_SSL"; "DB_SSL_CA"] → cliDataSource (override env key v) = cliDataSource env.
Proof.
  intros Hkey. unfold cliDataSource, connectionOptions, getEnv, override. set_unfold in Hkey. by destruct Hkey as [->|[->|[]]].
Qed.

(** The cache is never without room. *)
Theorem cache_has_room raw : 0 < resolveMaxItems raw ∧ (∀ n, raw ≫= parseInt = Some n → 0 < n → resolveMaxItems raw = n).
Proof.
  unfold resolveMaxItems. destruct raw as [text|]; [|by split]. cbn. destruct (nonempty text) eqn:Hn; cbn.
  - destruct (parseInt text) as [n|]; [|by split]. destruct (0 <? n) eqn:Hp; (split; [unfold DEFAULT_MAX_ITEMS; lia|]); intros n' [= <-]; lia.
  - destruct text; [|done]. split; [done|]. by intros n.
Qed.

(** ** An instance *)

Module EnvironmentDemo.
(** Formats by their beginnings, and whole numbers. *)
#[export] Instance demo_formats : JoiFormats := {
  is_uri schemes s := match schemes with [] => includes "://" s | _ => existsb (λ scheme, String.prefix (scheme +:+ "://") s) schemes end;
  is_email s := includes "@" s;
  is_ip s := forallb (λ c, is_digit c || Ascii.eqb c ".") (String.list_ascii_of_string s);
  is_hostname s := negb (includes " " s);
  read_number s := match number_of s with Decimal m e => if s == "" then None else Some (m, e) | _ => None end;
}.
#[export] Instance demo_joi : Joi := {
  joi s env raw :=
    let rs := rules_at env s in
    match raw with
    | None => if is_required rs then None else Some (default_of rs)
    | Some text =>
        if allowed rs text then Some (Some (VString text))
        else match converted (joi_type_of s) text with
             | Some v => if forallb (meets env v) rs then Some (Some v) else None
             | None => None
             end
    end;
}.
#[export] Instance demo_laws : JoiLaws.
Proof.
  constructor. intros s env [text|] o; unfold joi, accepted; cbn.
  - destruct (allowed _ _); [by split; [intros [= <-]|intros ->]|]. destruct (converted _ _) as [v|].
    + destruct (forallb _ _) eqn:Hm; split; [intros [= <-]; by exists v|by intros (? & [= <-] & _ & ->)|done|].
      intros (? & [= <-] & Hm' & _). congruence.
    + split; [done|]. by intros (? & ? & _).
  - destruct (is_required _); split; [done|by intros []|by intros [= <-]|by intros [_ ->]].
Qed.

Definition secret : string := "a-secret-of-more-than-32-characters".
Definition url : string := "postgres://app:pw@db/lyrics".
Definition accepted_env : gmap string string := minimal secret url.

Example minimal_environment_starts_witness : validate accepted_env = ([], minimal_out secret url).
Proof. apply minimal_environment_starts; [apply Nat.leb_le| |]; vm_compute; reflexivity. Defined.

Lemma accepted_starts : validate accepted_env = ([], minimal_out secret url).
Proof. apply minimal_environment_starts; [apply Nat.leb_le| |]; vm_compute; reflexivity. Qed.

Lemma starts raw : (validate raw).1 = [] → validate raw = ([], (validate raw).2).
Proof. intros Hf. rewrite <-Hf. apply surjective_pairing. Qed.

Example secret_long_witness : ∃ mode, minimal_out secret url !! "NODE_ENV" = Some (VString mode) ∧ mode ∈ ["development"; "test"; "production"].
Proof. destruct (secret_long accepted_env _ accepted_starts) as (mode & _ & Hm & _ & Hin & _). exact (ex_intro _ mode (conj Hm Hin)). Defined.

(** All that is wrong is named at once. *)
Example refused : (validate {["NODE_ENV" := "production"; "JWT_SECRET" := "short"; "PORT" := "70000"; "STELLAR_NETWORK" := "PUBLIC"]}).1 =
  ["PORT"; "JWT_SECRET"; "DB_HOST"; "DB_USERNAME"; "DB_PASSWORD"; "DB_NAME"; "STELLAR_NETWORK"].
Proof. vm_compute. reflexivity. Qed.

(** A shorter limit on requests leaves the headers theirs: the default is not checked. *)
Example headers_default_exceeds :
  let '(failed, out) := validate (<["HTTP_REQUEST_TIMEOUT_MS" := "10000"]> accepted_env) in
  failed = [] ∧ out !! "HTTP_REQUEST_TIMEOUT_MS" = Some (VNumber 10000 0) ∧ out !! "HTTP_HEADERS_TIMEOUT_MS" = Some (VNumber 20000 0).
Proof. by vm_compute. Qed.

Definition with_timeouts : gmap string string := <["HTTP_REQUEST_TIMEOUT_MS" := "10000"]> (<["HTTP_HEADERS_TIMEOUT_MS" := "9000"]> accepted_env).
Example headers_within_request_witness : ∃ m' e', (validate with_timeouts).2 !! "HTTP_HEADERS_TIMEOUT_MS" = Some (VNumber m' e') ∧ num_leq m' e' 10000 0 = true.
Proof.
  apply (headers_within_request with_timeouts _ 10000 0 (starts with_timeouts ltac:(vm_compute; reflexivity)));
    [by exists "9000"|vm_compute; reflexivity|reflexivity].
Defined.

(** Variables of the database that hold white space only pass the schema, and stop the connection. *)
Definition blank_db : gmap string string :=
  {["JWT_SECRET" := secret; "DB_HOST" := " "; "DB_USERNAME" := "app"; "DB_PASSWORD" := "pw"; "DB_NAME" := "lyrics"]}.
Example database_given_witness : ∃ text, blank_db !! "DB_HOST" = Some text ∧ (validate blank_db).2 !! "DB_HOST" = Some (VString text) ∧ nonempty text = true.
Proof.
  apply (database_given blank_db _ "DB_HOST" (starts blank_db ltac:(vm_compute; reflexivity))); [reflexivity|].
  apply list_elem_of_In. cbn. tauto.
Defined.
Example blank_stops : missing (text_at (validate blank_db).2) = ["DB_HOST"].
Proof. vm_compute. reflexivity. Qed.

Example undeclared_unchecked_witness :
  validate (<["STELLAR_STAKE_TX_TIMEOUT_SECONDS" := "soon"]> accepted_env) =
  ([], <["STELLAR_STAKE_TX_TIMEOUT_SECONDS" := VString "soon"]> (minimal_out secret url)).
Proof. apply undeclared_unchecked; [exact accepted_starts|]. apply list_elem_of_In. cbn. tauto. Defined.

Import ConfigDemo.
Definition cs : ConfigService := mkConfigService (text_at (minimal_out secret url)) (λ _, None).
Example accepted_settings_load_witness : ∃ c, loadStellarConfig cs = Ok c ∧ sc_settlementMode c = MOCK.
Proof.
  destruct (accepted_settings_load accepted_env (minimal_out secret url) cs accepted_starts) as [_ Hload]; [by intros key|].
  destruct Hload as (c & Hc & Hm & _); [reflexivity|reflexivity|]. exact (ex_intro _ c (conj Hc Hm)).
Defined.

#[local] Instance demo_runtime : Runtime := {
  parseUrl s := None; decodeURIComponent s := Ok s; readFileSync s := Ok s;
}.
Definition database_env : EnvReader := λ key,
  if key == "DB_SSL" then Some "verify-full" else if key == "DB_PORT" then Some "5433"
  else if bool_decide (key ∈ ["DB_HOST"; "DB_USERNAME"; "DB_PASSWORD"; "DB_NAME"]) then Some "x" else None.

Example cli_same_target_witness : resolveConnectionTarget database_env = Ok (mkTarget "x" (Some 5433) "x" "x" "x", None).
Proof.
  apply (cli_same_target database_env); [reflexivity|]. intros key v Hkey. unfold database_env. set_unfold in Hkey.
  destruct Hkey as [->|[->|[->|[->|[->|[]]]]]]; intros [= <-]; done.
Defined.

(** The server verifies the certificate it is told to; the migrations use no TLS at all. *)
Example cli_without_tls :
  (λ o, tls_mode <$> ((λ t, t.2) <$> targets (connection o))) <$> buildDataSourceOptions database_env = Ok [verify_full] ∧
  cliDataSource database_env = Ok (mkCliOptions (CliParts (mkTarget "x" (Some 5433) "x" "x" "x")) false "-c timezone=UTC").
Proof. by vm_compute. Qed.
Example cli_ignores_tls_witness : cliDataSource (override database_env "DB_SSL" None) = cliDataSource database_env.
Proof. apply cli_ignores_tls. apply list_elem_of_In. cbn. tauto. Defined.

(** A capacity in exponent notation is a thousand to the schema and one to the cache. *)
Example capacity_misread :
  (validate (<["CACHE_MAX_ITEMS" := "1e3"]> accepted_env)).2 !! "CACHE_MAX_ITEMS" = Some (VNumber 1 3) ∧ resolveMaxItems (Some "1e3") = 1.
Proof. by vm_compute. Qed.
End EnvironmentDemo.
