(* ===== verification/Signers.v ===== *)
(** * Remote signers (stellar/services/aws-kms-signer.ts, kms-key-store.service.ts)

    The signers of AWS KMS and of Vault's transit engine: what they ask of the service, what they make of its answers, and
    how a transaction is signed with them.  The services, the SDK of Stellar and the import of the client of KMS are
    parameters; node's base64 is here. *)

From S2P Require Import Prelude Decimal Redact Auth Errors StellarConfig.
From Stdlib Require Import Ascii NArith.

#[local] Open Scope Z_scope.
#[local] Arguments String.append !_ _ /.
Ltac Zify.zify_post_hook ::= Z.to_euclidean_division_equations.

(** ** Base64 *)

Definition ALPHABET : string := "ABCDEFGHIJKLMNOPQRSTUVWXYZabcdefghijklmnopqrstuvwxyz0123456789+/".
Definition digit64 (n : N) : ascii := default "A"%char (String.get (N.to_nat n) ALPHABET).

(** [buffer.toString('base64')] *)
Fixpoint toBase64 (s : string) : string :=
  match s with
  | String a (String b (String c s')) =>
      let x := N_of_ascii a in let y := N_of_ascii b in let z := N_of_ascii c in
      String (digit64 (x / 4)) (String (digit64 (x mod 4 * 16 + y / 16)) (String (digit64 (y mod 16 * 4 + z / 64))
        (String (digit64 (z mod 64)) (toBase64 s'))))
  | String a (String b EmptyString) =>
      let x := N_of_ascii a in let y := N_of_ascii b in
      String (digit64 (x / 4)) (String (digit64 (x mod 4 * 16 + y / 16)) (String (digit64 (y mod 16 * 4)) "="))
  | String a EmptyString =>
      let x := N_of_ascii a in String (digit64 (x / 4)) (String (digit64 (x mod 4 * 16)) "==")
  | EmptyString => ""
  end.

(** The digits of a text, up to its padding; the digits of base64url are read as well, and other characters are passed over. *)
Definition value64 (c : ascii) : option N :=
  if Ascii.eqb c "-" then Some 62%N else if Ascii.eqb c "_" then Some 63%N
  else N.of_nat <$> String.index 0 (String c "") ALPHABET.
Fixpoint digits64 (s : string) : list N :=
  match s with
  | EmptyString => []
  | String c s' => if Ascii.eqb c "=" then []
      else match value64 c with Some n => n :: digits64 s' | None => digits64 s' end
  end.
Fixpoint bytes64 (ds : list N) : string :=
  match ds with
  | a :: b :: c :: d :: ds' => String (ascii_of_N (a * 4 + b / 16)) (String (ascii_of_N (b mod 16 * 16 + c / 4))
      (String (ascii_of_N (c mod 4 * 64 + d)) (bytes64 ds')))
  | [a; b; c] => String (ascii_of_N (a * 4 + b / 16)) (String (ascii_of_N (b mod 16 * 16 + c / 4)) "")
  | [a; b] => String (ascii_of_N (a * 4 + b / 16)) ""
  | _ => ""
  end.
(** [Buffer.from(text, 'base64')] *)
Definition fromBase64 (s : string) : string := bytes64 (digits64 s).

Lemma digit64_all : forallb (λ n, bool_decide (value64 (digit64 (N.of_nat n)) = Some (N.of_nat n)) && negb (Ascii.eqb (digit64 (N.of_nat n)) "="))
  (seq 0 64) = true.
Proof. vm_compute. reflexivity. Qed.

Lemma digit64_value n : (n < 64)%N → value64 (digit64 n) = Some n ∧ Ascii.eqb (digit64 n) "=" = false.
Proof.
  intros Hn. pose proof digit64_all as Hall. rewrite forallb_forall in Hall. specialize (Hall (N.to_nat n)).
  rewrite N2Nat.id in Hall. rewrite andb_true_iff, bool_decide_eq_true, negb_true_iff in Hall. apply Hall.
  apply in_seq. lia.
Qed.

Lemma digits64_digit n s : (n < 64)%N → digits64 (String (digit64 n) s) = n :: digits64 s.
Proof. intros [Hv He]%digit64_value. cbn [digits64]. by rewrite He, Hv. Qed.

Lemma byte_bound a : (N_of_ascii a < 256)%N.
Proof. apply N_ascii_bounded. Qed.

Lemma byte_back a n : n = N_of_ascii a → ascii_of_N n = a.
Proof. intros ->. apply ascii_N_embedding. Qed.

(** Three at a time, the bytes that are written are read back. *)
Theorem base64_round_trip s : fromBase64 (toBase64 s) = s.
Proof.
  unfold fromBase64. revert s. fix IH 1. intros [|a [|b [|c s]]]; [done|..]; cbn [toBase64].
  - pose proof (byte_bound a). rewrite !digits64_digit by lia. cbn. f_equal. apply byte_back. lia.
  - pose proof (byte_bound a). pose proof (byte_bound b). rewrite !digits64_digit by lia. cbn.
    f_equal; [apply byte_back; lia|]. f_equal. apply byte_back. lia.
  - pose proof (byte_bound a). pose proof (byte_bound b). pose proof (byte_bound c).
    rewrite !digits64_digit by lia. cbn [bytes64]. f_equal; [apply byte_back; lia|]. f_equal; [apply byte_back; lia|].
    f_equal; [apply byte_back; lia|]. apply IH.
Qed.

(** ** The services *)

(** A request that leaves the server. *)
Inductive RemoteRequest :=
  | GetPublicKeyCommand (region keyId : string)
  | SignCommand (region keyId message messageType signingAlgorithm : string)
  | HttpRequest (url method : string) (headers : list (string * string)) (body : option json).

Record HttpResponse := mkHttpResponse {
  res_ok : bool;
  res_status : Z;
  res_statusText : string;
  res_json : result json;
}.

(** What is answered may depend on the requests so far. *)
Class RemoteServices := {
  import_sdk : result unit;
  kms_public_key : list RemoteRequest → string → string → result (option string);
  kms_signature : list RemoteRequest → string → string → string → result (option string);
  fetch : list RemoteRequest → RemoteRequest → result HttpResponse;
}.

(** What is used of the SDK of Stellar. *)
Class StellarKeys := {
  Tx : Type;
  KeyPair : Type;
  encodeEd25519PublicKey : string → result string;
  kp_publicKey : KeyPair → string;
  tx_hash : Tx → string;
  tx_sign : Tx → KeyPair → Tx;
  addSignature : Tx → string → string → result Tx;
}.

Inductive RemoteSigner :=
  | AwsKmsSigner (keyId region : string)
  | VaultTransitSigner (addr token keyName : string).

Definition signer_id (s : RemoteSigner) : string :=
  match s with AwsKmsSigner keyId _ => "kms:" +:+ keyId | VaultTransitSigner _ _ keyName => "vault:" +:+ keyName end.

(** [der.subarray(der.length - 32)]; a shorter text is cut from its start, whose index is negative: it counts from the end. *)
Definition last32 (der : string) : string :=
  let n := String.length der in
  let start := (if Nat.leb 32 n then n - 32 else n - (32 - n))%nat in String.substring start (n - start) der.

(** [o?.name] of what was parsed; an array of the service has no named properties here. *)
Definition opt_prop (o : option json) (name : string) : option json :=
  match o with Some (JObject fields) => property name fields | _ => None end.
(** The text a value is as the name of a property. *)
Definition property_key (o : option json) : string :=
  match o with
  | None | Some JUndefined => "undefined" | Some JNull => "null"
  | Some v => js_string (λ _, "") v
  end.
(** [!v] is not. *)
Definition json_truthy (o : option json) : bool :=
  match o with
  | None | Some JUndefined | Some JNull => false
  | Some (JPrim (PString s)) => nonempty s
  | Some (JPrim (PNumber n)) => negb (n =? 0)
  | Some (JPrim (PBool b)) => b
  | Some _ => true
  end.

Section signers.
Context `{!RemoteServices, !StellarKeys}.

Abbreviation Trace := (list RemoteRequest).

(** ** AWS KMS *)

Definition loadSdk : M Trace unit := lift import_sdk.

Definition kms_getPublicKey (keyId region : string) : M Trace string :=
  loadSdk;;
  result ← (λ sent, (kms_public_key sent region keyId, sent ++ [GetPublicKeyCommand region keyId]));
  match result with
  | None => throw (PlainError "Error" ("KMS returned no public key material for " +:+ keyId))
  | Some der => lift (encodeEd25519PublicKey (last32 der))
  end.

Definition kms_sign (keyId region hash : string) : M Trace string :=
  loadSdk;;
  result ← (λ sent, (kms_signature sent region keyId hash, sent ++ [SignCommand region keyId hash "RAW" "EDDSA"]));
  match result with
  | None => throw (PlainError "Error" ("KMS returned no signature for " +:+ keyId))
  | Some signature => mret signature
  end.

(** ** Vault *)

Definition vault_request (addr token path method : string) (body : option json) : M Trace HttpResponse :=
  let request := HttpRequest (addr +:+ path) method [("X-Vault-Token", token); ("Content-Type", "application/json")] body in
  res ← (λ sent, (fetch sent request, sent ++ [request]));
  if negb (res_ok res) then
    throw (PlainError "Error" ("Vault request to " +:+ path +:+ " failed: " +:+ show (res_status res) +:+ " " +:+ res_statusText res))
  else mret res.

Definition vault_getPublicKey (addr token keyName : string) : M Trace string :=
  res ← vault_request addr token ("/v1/transit/keys/" +:+ keyName) "GET" None;
  body ← lift (res_json res);
  let data := opt_prop (Some body) "data" in
  let versions := match nullish (opt_prop data "keys") with Some v => v | None => JObject [] end in
  let latestVersion := opt_prop data "latest_version" in
  let publicKeyB64 := opt_prop (opt_prop (Some versions) (property_key latestVersion)) "public_key" in
  if negb (json_truthy publicKeyB64) then throw (PlainError "Error" ("Vault returned no public key for " +:+ keyName))
  else match publicKeyB64 with
  | Some (JPrim (PString text)) => lift (encodeEd25519PublicKey (fromBase64 text))
  | _ => throw (PlainError "TypeError" "The first argument must be of type string")
  end.

Definition vault_sign (addr token keyName hash : string) : M Trace string :=
  res ← vault_request addr token ("/v1/transit/sign/" +:+ keyName) "POST"
    (Some (JObject [("input", JPrim (PString (toBase64 hash))); ("prehashed", JPrim (PBool false))]));
  body ← lift (res_json res);
  let signature := opt_prop (opt_prop (Some body) "data") "signature" in
  if negb (json_truthy signature) then throw (PlainError "Error" ("Vault returned no signature for " +:+ keyName))
  else match signature with
  | Some (JPrim (PString text)) => mret (fromBase64 (default "" (list.last (split_char ":" text))))
  | _ => throw (PlainError "TypeError" "signature.split is not a function")
  end.

Definition getPublicKey (s : RemoteSigner) : M Trace string :=
  match s with
  | AwsKmsSigner keyId region => kms_getPublicKey keyId region
  | VaultTransitSigner addr token keyName => vault_getPublicKey addr token keyName
  end.
Definition sign (s : RemoteSigner) (hash : string) : M Trace string :=
  match s with
  | AwsKmsSigner keyId region => kms_sign keyId region hash
  | VaultTransitSigner addr token keyName => vault_sign addr token keyName hash
  end.

(** ** Signers of transactions *)

Inductive TransactionSigner :=
  | KeypairSigner (keypair : KeyPair)
  | RemoteTransactionSigner (remote : RemoteSigner) (publicKey : string).

(** The property of a remote signer hides its method. *)
Definition signer_publicKey (s : TransactionSigner) : result string :=
  match s with
  | KeypairSigner keypair => Ok (kp_publicKey keypair)
  | RemoteTransactionSigner _ _ => Err (PlainError "TypeError" "signer.publicKey is not a function")
  end.

(** The transaction is changed in place. *)
Definition sign_transaction (s : TransactionSigner) (tx : Tx) : M Trace Tx :=
  match s with
  | KeypairSigner keypair => mret (tx_sign tx keypair)
  | RemoteTransactionSigner remote publicKey =>
      signature ← sign remote (tx_hash tx);
      lift (addSignature tx publicKey (toBase64 signature))
  end.

(** ** The key store *)

Record KmsKeyStore := mkKmsKeyStore {
  ks_signer : RemoteSigner;
  ks_publicKey : option string;
}.
Definition ks_name (store : KmsKeyStore) : string := "remote:" +:+ signer_id (ks_signer store).

Definition init (cs : ConfigService) (store : KmsKeyStore) : M Trace KmsKeyStore :=
  publicKey ← match get cs "STELLAR_RESOLVER_PUBLIC_KEY" with
    | Some configured => mret configured
    | None => getPublicKey (ks_signer store)
    end;
  mret (mkKmsKeyStore (ks_signer store) (Some publicKey)).

Definition getResolverSigner (store : KmsKeyStore) : result TransactionSigner :=
  RemoteTransactionSigner (ks_signer store) <$> getResolverPublicKey (ks_name store) (ks_publicKey store).
Definition signHash (store : KmsKeyStore) (hash : string) : M Trace string := sign (ks_signer store) hash.
End signers.

(** ** Lemmas *)

Lemma substring_app a b : String.substring (String.length a) (String.length b) (a +:+ b) = b.
Proof.
  induction a as [|x a IH]; cbn; [|exact IH]. induction b as [|y b IH]; cbn; [done|]. by rewrite IH.
Qed.
Lemma last32_app prefix raw : String.length raw = 32%nat → last32 (prefix +:+ raw) = raw.
Proof.
  intros Hraw. unfold last32. rewrite length_append, Hraw, (proj2 (Nat.leb_le _ _)) by lia.
  replace (String.length prefix + 32 - 32)%nat with (String.length prefix) by lia.
  replace (String.length prefix + 32 - String.length prefix)%nat with (String.length raw) by lia. apply substring_app.
Qed.

Fixpoint free_of (c : ascii) (s : string) : bool :=
  match s with EmptyString => true | String x s' => negb (Ascii.eqb x c) && free_of c s' end.
Lemma split_free c s : free_of c s = true → split_char c s = [s].
Proof.
  induction s as [|x s IH]; [done|]. cbn. intros [Hx%negb_true_iff Hs]%andb_true_iff. by rewrite Hx, IH.
Qed.
Lemma split_nonempty c s : split_char c s ≠ [].
Proof. destruct s as [|x s]; [done|]. cbn. destruct (Ascii.eqb x c); [done|]. by destruct (split_char c s). Qed.
Lemma split_app c p s : split_char c (p +:+ String c s) = split_char c p ++ split_char c s.
Proof.
  induction p as [|x p IH]; cbn [String.append split_char]; [by rewrite Ascii.eqb_refl|]. rewrite IH.
  destruct (Ascii.eqb x c); [done|]. by destruct (split_char c p) eqn:E; [destruct (split_nonempty c p)|].
Qed.
Lemma last_split c p s : list.last (split_char c (p +:+ String c s)) = list.last (split_char c s).
Proof.
  rewrite split_app, last_app. destruct (list.last (split_char c s)) eqn:E; [done|]. by apply last_None, split_nonempty in E.
Qed.

Lemma digit64_colon : forallb (λ n, negb (Ascii.eqb (digit64 (N.of_nat n)) ":")) (seq 0 64) = true.
Proof. vm_compute. reflexivity. Qed.
Lemma digit64_free n s : (n < 64)%N → free_of ":" (String (digit64 n) s) = free_of ":" s.
Proof.
  intros Hn. pose proof digit64_colon as Hall. rewrite forallb_forall in Hall. specialize (Hall (N.to_nat n)).
  rewrite N2Nat.id in Hall. cbn [free_of]. rewrite Hall; [done|]. apply in_seq. lia.
Qed.
Lemma toBase64_free s : free_of ":" (toBase64 s) = true.
Proof.
  revert s. fix IH 1. intros [|a [|b [|c s]]]; [done|..]; cbn [toBase64]; pose proof (byte_bound a).
  - by rewrite !digit64_free by lia.
  - pose proof (byte_bound b). by rewrite !digit64_free by lia.
  - pose proof (byte_bound b). pose proof (byte_bound c). rewrite !digit64_free by lia. apply IH.
Qed.

(** ** What is asked and what is made of the answers *)

Section signer_properties.
Context `{!RemoteServices, !StellarKeys}.

(** The one request that asks for a signature, and the one that asks for the key. *)
Definition vault_headers (token : string) : list (string * string) := [("X-Vault-Token", token); ("Content-Type", "application/json")].
Definition sign_request (s : RemoteSigner) (hash : string) : RemoteRequest :=
  match s with
  | AwsKmsSigner keyId region => SignCommand region keyId hash "RAW" "EDDSA"
  | VaultTransitSigner addr token keyName => HttpRequest (addr +:+ ("/v1/transit/sign/" +:+ keyName)) "POST" (vault_headers token)
      (Some (JObject [("input", JPrim (PString (toBase64 hash))); ("prehashed", JPrim (PBool false))]))
  end.
Definition key_request (s : RemoteSigner) : RemoteRequest :=
  match s with
  | AwsKmsSigner keyId region => GetPublicKeyCommand region keyId
  | VaultTransitSigner addr token keyName => HttpRequest (addr +:+ ("/v1/transit/keys/" +:+ keyName)) "GET" (vault_headers token) None
  end.
Definition asked (s : RemoteSigner) (request : RemoteRequest) : list RemoteRequest :=
  match s, import_sdk with AwsKmsSigner _ _, Err _ => [] | _, _ => [request] end.

(** Whatever is answered, a signature takes the one request that carries the hash (none when the client of KMS is not
    installed), and so does the key: the transaction itself is sent to no service, and the token of Vault to Vault only. *)
Theorem one_request_each s hash sent :
  (sign s hash sent).2 = sent ++ asked s (sign_request s hash) ∧ (getPublicKey s sent).2 = sent ++ asked s (key_request s).
Proof.
  destruct s as [keyId region|addr token keyName]; cbn.
  - unfold kms_sign, kms_getPublicKey, loadSdk, lift, mbind, M_bind. cbn. destruct import_sdk as [[]|e]; cbn; [|by rewrite app_nil_r].
    split; [by destruct (kms_signature sent region keyId hash) as [[sg|]|e]|].
    by destruct (kms_public_key sent region keyId) as [[der|]|e].
  - unfold vault_sign, vault_getPublicKey, vault_request, mbind, M_bind, lift. cbn. split.
    + destruct (fetch sent _) as [res|e]; cbn; [|done]. destruct (res_ok res); [|done]. cbn. destruct (res_json res) as [body|e]; [|done].
      cbn. destruct (json_truthy _); [|done]. cbn. by repeat case_match.
    + destruct (fetch sent _) as [res|e]; cbn; [|done]. destruct (res_ok res); [|done]. cbn. destruct (res_json res) as [body|e]; [|done].
      cbn. destruct (json_truthy _); [|done]. cbn. by repeat case_match.
Qed.

(** The address of a key of KMS is that of the last 32 bytes of what is answered, its raw key. *)
Theorem kms_address keyId region sent prefix raw : import_sdk = Ok tt →
  kms_public_key sent region keyId = Ok (Some (prefix +:+ raw)) → String.length raw = 32%nat →
  (getPublicKey (AwsKmsSigner keyId region) sent).1 = encodeEd25519PublicKey raw.
Proof.
  intros Hsdk Hkey Hraw. cbn. unfold kms_getPublicKey, loadSdk, lift, mbind, M_bind. cbn. rewrite Hsdk. cbn. rewrite Hkey. cbn.
  by rewrite last32_app.
Qed.

(** A signature of Vault, which is written after the version of its key, is read back as the bytes it is. *)
Theorem vault_signature_read addr token keyName hash sent res fields version signature :
  fetch sent (sign_request (VaultTransitSigner addr token keyName) hash) = Ok res → res_ok res = true →
  res_json res = Ok (JObject [("data", JObject fields)]) →
  property "signature" fields = Some (JPrim (PString (version +:+ String ":" (toBase64 signature)))) →
  (sign (VaultTransitSigner addr token keyName) hash sent).1 = Ok signature.
Proof.
  intros Hres Hok Hjson Hsig. cbn [sign]. unfold vault_sign, vault_request, mbind, M_bind, lift. cbn in Hres. unfold vault_headers in Hres. cbv zeta.
  cbn [String.append] in Hres |- *. rewrite Hres, Hok. cbn [negb]. unfold mret, M_ret.
  rewrite Hjson. cbv iota beta. rewrite (eq_refl : opt_prop (Some (JObject [("data", JObject fields)])) "data" = Some (JObject fields)).
  change (opt_prop (Some (JObject fields)) "signature") with (property "signature" fields). rewrite Hsig. cbn [json_truthy]. assert (nonempty (version +:+ String ":" (toBase64 signature)) = true) as -> by (by destruct version).
  cbn [negb]. rewrite last_split, split_free by apply toBase64_free. cbn [list.last default from_option id]. by rewrite base64_round_trip.
Qed.

(** What Vault refuses is an error that names the path and the status, and nothing is signed. *)
Theorem vault_refusal_named addr token keyName hash sent res :
  fetch sent (sign_request (VaultTransitSigner addr token keyName) hash) = Ok res → res_ok res = false →
  (sign (VaultTransitSigner addr token keyName) hash sent).1 =
    Err (PlainError "Error" ("Vault request to /v1/transit/sign/" +:+ keyName +:+ " failed: " +:+ show (res_status res) +:+ " " +:+ res_statusText res)).
Proof.
  intros Hres Hok. cbn. unfold vault_sign, vault_request, mbind, M_bind, lift. cbn. cbn in Hres. unfold vault_headers in Hres. rewrite Hres. cbn. by rewrite Hok.
Qed.

(** ** Transactions *)

(** What the SDK documents of [addSignature]: it refuses a signature that does not verify. *)
Class SignatureLaws := {
  verifies : string → string → string → bool;
  signatures : Tx → list string;
  addSignature_ok : ∀ tx key text tx', addSignature tx key text = Ok tx' →
    verifies key (tx_hash tx) (fromBase64 text) = true ∧ signatures tx' = signatures tx ++ [fromBase64 text] ∧ tx_hash tx' = tx_hash tx;
  addSignature_refused : ∀ tx key text, verifies key (tx_hash tx) (fromBase64 text) = false → is_ok (addSignature tx key text) = false;
}.
Context `{!SignatureLaws}.

(** A transaction that a remote key signed carries one signature more, which the service gave for its hash and which verifies
    under the address the store has; a service that signs with another key, as Vault does as soon as its key is rotated, is
    refused, and the transaction is not signed at all. *)
Theorem remote_signature_verifies remote key tx sent :
  match (sign_transaction (RemoteTransactionSigner remote key) tx sent).1 with
  | Ok tx' => ∃ signature, (sign remote (tx_hash tx) sent).1 = Ok signature ∧ verifies key (tx_hash tx) signature = true ∧
      signatures tx' = signatures tx ++ [signature] ∧ tx_hash tx' = tx_hash tx
  | Err _ => ∀ signature, (sign remote (tx_hash tx) sent).1 = Ok signature → is_ok (addSignature tx key (toBase64 signature)) = false
  end ∧
  (∀ signature, (sign remote (tx_hash tx) sent).1 = Ok signature → verifies key (tx_hash tx) signature = false →
     is_ok (sign_transaction (RemoteTransactionSigner remote key) tx sent).1 = false).
Proof.
  cbn. destruct (sign remote (tx_hash tx) sent) as [[signature|e] sent'] eqn:Hsign; unfold mbind, M_bind; rewrite Hsign; cbn; [|by split].
  split.
  - unfold lift. destruct (addSignature _ _ _) as [tx'|e] eqn:Hadd; cbn; [|by intros s [= <-]; rewrite Hadd].
    apply addSignature_ok in Hadd as (Hv & Hs & Hh). rewrite base64_round_trip in Hv, Hs. by exists signature.
  - intros s [= <-] Hv. apply addSignature_refused. by rewrite base64_round_trip.
Qed.
End signer_properties.

(** ** The store *)

(** A signer as the choice of the key store (StellarConfig) sees it: what its service answers. *)
Definition as_remote `{!RemoteServices, !StellarKeys} (s : RemoteSigner) (sent : list RemoteRequest) : StellarConfig.RemoteSigner :=
  mkRemote (signer_id s) (getPublicKey s sent).1 (λ hash, (sign s hash sent).1).

(** The store is what the module's factory makes of it; its address is the configured one, and no service is then asked, or
    else the service's; and it signs with its signer under this address. *)
Theorem store_initialised `{!RemoteServices, !StellarKeys, !KeySdk} cs s sent :
  newKmsKeyStore cs (as_remote s sent) =
    (λ store, StellarConfig.KmsKeyStore (as_remote s sent) (ks_publicKey store)) <$> (init cs (mkKmsKeyStore s None) sent).1 ∧
  (is_Some (get cs "STELLAR_RESOLVER_PUBLIC_KEY") → (init cs (mkKmsKeyStore s None) sent).2 = sent) ∧
  (∀ store, (init cs (mkKmsKeyStore s None) sent).1 = Ok store →
     ∃ key, ks_publicKey store = Some key ∧
       Ok key = match get cs "STELLAR_RESOLVER_PUBLIC_KEY" with Some k => Ok k | None => (getPublicKey s sent).1 end ∧
       (nonempty key = true → getResolverSigner store = Ok (RemoteTransactionSigner s key))).
Proof.
  unfold newKmsKeyStore, init, as_remote, mbind, M_bind. cbn.
  destruct (get cs "STELLAR_RESOLVER_PUBLIC_KEY") as [key|]; cbn.
  - split; [done|]. split; [done|]. intros store [= <-]. exists key. split; [done|]. split; [done|]. intros Hk.
    unfold getResolverSigner, getResolverPublicKey. cbn. by rewrite Hk.
  - destruct (getPublicKey s sent) as [[key|e] sent']; cbn; (split; [done|]); (split; [by intros []|]); [|done].
    intros store [= <-]. exists key. split; [done|]. split; [done|]. intros Hk.
    unfold getResolverSigner, getResolverPublicKey. cbn. by rewrite Hk.
Qed.

(** ** A service whose key is rotated *)

Module SignersDemo.
Definition raw : string := "0123456789abcdef0123456789ABCDEF".
Definition vault : RemoteSigner := VaultTransitSigner "https://vault" "s.token" "resolver".
Definition kms : RemoteSigner := AwsKmsSigner "key-1" "eu-west-1".
(** The signature a key makes of a hash. *)
Definition made (key hash : string) : string := key +:+ "/" +:+ hash.
Definition answer (fields : list (string * json)) : result HttpResponse :=
  Ok (mkHttpResponse true 200 "OK" (Ok (JObject [("data", JObject fields)]))).
Definition refused : HttpResponse := mkHttpResponse false 403 "Forbidden" (Err (PlainError "SyntaxError" "")).

(** Vault's key has one version until two requests were made, and signs with its second one after. *)
#[export] Instance demo_services : RemoteServices := {
  import_sdk := Ok tt;
  kms_public_key _ _ _ := Ok (Some ("DER header: " +:+ raw));
  kms_signature _ _ _ hash := Ok (Some (made raw hash));
  fetch sent request :=
    match request with
    | HttpRequest _ "GET" _ _ => answer [("latest_version", JPrim (PNumber 1));
        ("keys", JObject [("1", JObject [("public_key", JPrim (PString (toBase64 "one")))])])]
    | HttpRequest _ _ _ (Some (JObject (("input", JPrim (PString input)) :: _))) =>
        let version := if bool_decide (length sent ≤ 2)%nat then "one" else "two" in
        answer [("signature", JPrim (PString ("vault:v1:" +:+ toBase64 (made version (fromBase64 input)))))]
    | _ => Ok refused
    end;
}.
#[export] Instance demo_keys : StellarKeys := {
  Tx := string * list string;
  KeyPair := string;
  encodeEd25519PublicKey key := Ok key;
  kp_publicKey key := key;
  tx_hash tx := tx.1;
  tx_sign tx key := (tx.1, tx.2 ++ [made key tx.1]);
  addSignature tx key text := if fromBase64 text == made key tx.1 then Ok (tx.1, tx.2 ++ [fromBase64 text])
    else Err (PlainError "Error" "Invalid signature");
}.
#[export] Instance demo_laws : SignatureLaws.
Proof.
  refine {| verifies := λ key hash signature, bool_decide (signature = made key hash); signatures := λ tx, tx.2 |}.
  - cbn. intros tx key text tx'. case_bool_decide as Hv; [|done]. intros [= <-]. by rewrite Hv.
  - cbn. intros tx key text Hv. by rewrite Hv.
Defined.

Definition no_settings : ConfigService := mkConfigService (λ _, None) (λ _, None).
Definition started := init no_settings (mkKmsKeyStore vault None) [].
Definition tx : Tx := ("hash", []).

Example kms_address_witness : (getPublicKey kms []).1 = Ok raw.
Proof. exact (kms_address "key-1" "eu-west-1" [] "DER header: " raw eq_refl eq_refl eq_refl). Defined.

Example vault_signature_read_witness : (sign vault "hash" []).1 = Ok (made "one" "hash").
Proof.
  eapply (vault_signature_read "https://vault" "s.token" "resolver" "hash" [] _ _ "vault:v1" (made "one" "hash")); reflexivity.
Defined.

(** A Vault that refuses the token. *)
Definition sealed : RemoteServices := {|
  import_sdk := Ok tt; kms_public_key _ _ _ := Ok None; kms_signature _ _ _ _ := Ok None; fetch _ _ := Ok refused;
|}.
Example vault_refusal_named_witness :
  (@sign sealed vault "hash" []).1 = Err (PlainError "Error" "Vault request to /v1/transit/sign/resolver failed: 403 Forbidden").
Proof. exact (@vault_refusal_named sealed "https://vault" "s.token" "resolver" "hash" [] refused eq_refl eq_refl). Defined.

(** The store knows the first version of the key. *)
Example store_started : started = (Ok (mkKmsKeyStore vault (Some "one")), [key_request vault]).
Proof. vm_compute. reflexivity. Qed.

(** It signs until the key is rotated, and no more after that, whatever the contract accepts. *)
Example signs_then_refused :
  (λ t, t.2) <$> (sign_transaction (RemoteTransactionSigner vault "one") tx started.2).1 = Ok [made "one" "hash"] ∧
  (sign_transaction (RemoteTransactionSigner vault "one") tx (started.2 ++ [key_request vault; key_request vault])).1 =
    Err (PlainError "Error" "Invalid signature").
Proof. by vm_compute. Qed.
End SignersDemo.
